(* ===== verification/_CoqProject ===== *)
-Q . S2P
Prelude.v
CString.v
Marshal.v
Platform.v
FidPool.v
VirtQueue.v
Handler.v
P9Client.v
P9Correct.v
P9Walk.v
VirtioInit.v
CacheDma.v
Transact.v
Clock.v
Exchange.v
Deliver.v
Fuse.v
FusePath.v
FuseCorrect.v
FuseRead.v
FuseWrite.v
Pci.v
Irq.v
Main.v
Tame.v
FuseDir.v
FuseSession.v
FuseStack.v
DirStack.v
MainCorrect.v
MainSafe.v
