(* ===== verification/Prelude.v ===== *)
(** * Virtio9PFS-handler: a verification development

    The program is a file system handler for AmigaOS 4 on PowerPC.  It mounts a
    directory of the host: FileSysBox calls it with file system operations, it
    turns them into 9P2000.L messages and exchanges these with a VirtIO 9P device
    over one virtqueue.  Its parts, under src/, and how they interact:

    - src/main.c starts up (libraries, PCI device, transport, buffers, 9P
      session), hands the table of callbacks to FileSysBox, and cleans up;
    - src/fuse_ops.c has the callbacks: each walks a path to a fid of its own
      (src/fid_pool.c), makes one or more client calls and gives the fid back;
    - src/p9_client.c has the client calls P9_*: each builds a T-message in
      tx_buf (src/p9_marshal.c), runs V9P_Transact and decodes rx_buf.
      V9P_Transact posts the message on the queue (src/virtio/virtqueue.c), polls
      for the response against the PowerPC time base, and on a timeout flushes
      the request and finally resets the transport;
    - src/virtio/virtio_init.c brings the device up and down, reads the mount
      tag, and has V9P_Reset, which calls the client again for a new handshake;
    - src/virtio/virtio_irq.c has the interrupt server, which only acknowledges;
    - src/pci/ finds the device and its register regions.

    ** Files

    - Prelude (this file): integers at their width, byte buffers, little-endian
      numerals, the state and error monad [M] (a run is [Done], [Fault] for
      undefined behaviour, or [Hang] when a loop exceeds its bound) with its
      weakest preconditions [wp] and the tactic [wp_step].
    - CString: include/string_utils.h on one flat memory.
    - Marshal: include/p9_protocol.h and src/p9_marshal.c.
    - Platform: the calls to AmigaOS, to the PCI bus and to the registers
      ([ExtCall], [Env]); programs on it ([Sys]) with the trace of their calls;
      the resources that a trace acquires and releases ([balanced]).
    - FidPool: src/fid_pool.c.  VirtQueue: src/virtio/virtqueue.c, the queue as
      free list and chains in flight ([vq_rep]).
    - Handler: struct V9PHandler, the message buffers with their cached and
      their RAM content, the device ([dev_run]), cache maintenance and time base
      of src/p9_client.c.  CacheDma: the caches are made coherent.
      Clock: v9p_read_tb against a 64-bit counter.
    - P9Client: the client calls over a parameter [transact].  P9Correct, P9Walk:
      their messages ([Tmsg], [frame]) and decoders, against the interface
      [Transport].
    - VirtioInit: src/virtio/virtio_init.c without V9P_Reset.
    - Transact: V9P_Transact and V9P_Reset, which call each other.
      Exchange: both end, over a device that obeys the used ring ([Honest]).
      Deliver: over a device that is a server ([Serves]), V9P_Transact is one
      step of this server.
    - Fuse: src/fuse_ops.c.  FusePath: split_path.  FuseCorrect: the callbacks
      and the fid pool, over a [Steady] transport.  FuseRead, FuseWrite, FuseDir:
      the loops of v9p_read, v9p_write and v9p_readdir, over servers for a file
      ([ServesFile], [WritesFile]) and for a directory ([ServesDir]).
      FuseSession: sequences of callbacks with their open handles.
      FuseStack, DirStack: V9P_Transact discharges these interfaces, over
      concrete servers behind the rings and caches.
    - Pci: src/pci/.  Irq: src/virtio/virtio_irq.c.  Main: src/main.c.
    - Tame: which calls each operation never makes.  MainCorrect: start-up and
      clean-up are complete.  MainSafe: the whole program.

    A definition has the name of the C function it translates; where a function
    is divided (loops, parts between labels) the parts have names of their own.
    An output pointer is a component of the result.  The global handler is the
    field [hnd] of the state [Core].

    ** What the theorems show

    - Marshalling and decoding stay inside their buffers for every response, and
      are inverse to each other on valid data (Marshal, P9Correct).
    - Every client call sends exactly its 9P2000.L message and returns what the
      response encodes, or its error (P9Correct, P9Walk).
    - The queue refines an abstract one: posting publishes the chain that the
      device is meant to read, reaping returns exactly its descriptors
      (VirtQueue); the rings lie inside the block that was allocated for them.
    - V9P_Transact returns only a response to its own request, read from RAM and
      not from a stale cache line (Transact), always ends, over every clock and every device that obeys the used ring
      (Exchange), and over a server performs exactly one step of it (Deliver).
      The model of the mutual recursion with V9P_Reset is the recursion of the
      source ([transact_knot]).
    - Over a steady transport the callbacks of the release build that use the fid
      pool never fault and account for every fid, alone (FuseCorrect) and, with
      read, write and readdir, in any sequence, whatever the server answers
      (FuseSession): the live fids are those of the open handles, the others are
      free again, but for one for each failed allocation and each EIO; reading
      and listing return the file and the directory, writing stores the data,
      and what was written is read back (FuseRead, FuseDir, FuseWrite).
    - Initialisation makes exactly the register accesses of the VirtIO handshake,
      each at its address, teardown and clean-up release everything once
      (VirtioInit, MainCorrect), discovery repairs BAR5 and finds the regions that
      the capability list describes (Pci), start-up leaves mapped buffers with
      the addresses that exec gave, a mount that is declined is answered and its
      node removed (MainCorrect), the interrupt server is never left on its chain
      and the mount message is answered exactly once, whatever fails (Irq,
      MainSafe).
    - Some theorems state defects: a negotiated size above the buffer size lets
      P9_Write overrun tx_buf, a short Rstatfs is accepted, a failed reset
      leaves a NULL queue that the next exchange dereferences.

    ** Assumptions

    Nothing is assumed globally.  What a theorem needs of the outside is an
    instance of a class among its arguments: [Env] (any environment), [Clock] (a
    64-bit counter that only grows, and slowly between two of its reads), [Honest] (the device publishes only chains
    that are in flight, each once), [Serves] (it is a server), [Bus] (the
    configuration space does not change), and for the callbacks [Transport],
    [Steady], [Traced] (the trace only grows), [ServesFile], [WritesFile], [ServesDir], which the stack
    discharges.  [SdkTypes] has the conversions to types of the SDK headers.
    FileSysBox is the three phases fbx_setup, fbx_loop and fbx_cleanup, which
    use only the callbacks ([through_callbacks]).  Each such theorem has a
    witness with concrete instances.

    ** Bounds

    [fuel] bounds the loops that the program does not bound: reading the time
    base (2 is enough), polling and draining ([exchange_fuel], from the length
    of the timeout and the mask of the clock check), the loops of v9p_write
    (more than the size) and of v9p_readdir (more than the entries).
    The other loops have the bound of the source or of their data: v9p_read
    (size + 1), status polls (1000), capabilities (32), the rings (their size).
    The cache line loop runs over the lines of its range; for a range that wraps
    around 2^32 the model stops where the C loop would go on, and the theorems
    about the caches exclude such a range ([dma_range]).
    A loop that exceeds its bound is [Hang], and the theorems with
    [wp False] exclude it.

    ** Not modelled

    Test programs and tools (src/test, src/tools); DPRINTF output of debug
    builds and the version cookie; the pointer g_handler, always the one handler;
    inline assembly other than as a call; write-backs of a cache line earlier
    than the code asks for them.  The device acts where the driver looks
    at the used ring or refetches the receive buffer, not in between, where it
    could not be observed.  filesysbox.library and AmigaOS are environment.

    ** Left to do

    The callbacks when an exchange escalates to V9P_Reset, which replaces the fid
    pool: only safety of the trace (Tame) and the bounds of the buffers are shown
    for this case.  A bound on the whole run of _start over a serving device. *)

From Stdlib Require Export ZArith Lia.
From stdpp Require Export prelude list list_numbers numbers.

#[global] Open Scope Z_scope.

(** ** Machine-width integers

    An integer of the C program is a [Z]; every conversion or arithmetic step
    that wraps in C is written with one of these functions. *)

Definition u8 (z : Z) : Z := z mod 2 ^ 8.
Definition u16 (z : Z) : Z := z mod 2 ^ 16.
Definition u32 (z : Z) : Z := z mod 2 ^ 32.
Definition u64 (z : Z) : Z := z mod 2 ^ 64.

(** [(int32)z] for a 32-bit pattern. *)
Definition s32 (z : Z) : Z :=
  let u := z mod 2 ^ 32 in if u <? 2 ^ 31 then u else u - 2 ^ 32.

Lemma u8_range z : 0 <= u8 z < 256.
Proof. apply Z.mod_pos_bound; lia. Qed.
Lemma u16_range z : 0 <= u16 z < 65536.
Proof. apply Z.mod_pos_bound; lia. Qed.
Lemma u32_range z : 0 <= u32 z < 4294967296.
Proof. apply Z.mod_pos_bound; lia. Qed.
Lemma u64_range z : 0 <= u64 z < 18446744073709551616.
Proof. apply Z.mod_pos_bound; lia. Qed.

Lemma u8_small z : 0 <= z < 256 -> u8 z = z.
Proof. apply Z.mod_small. Qed.
Lemma u16_small z : 0 <= z < 65536 -> u16 z = z.
Proof. apply Z.mod_small. Qed.
Lemma u32_small z : 0 <= z < 4294967296 -> u32 z = z.
Proof. apply Z.mod_small. Qed.
Lemma u64_small z : 0 <= z < 18446744073709551616 -> u64 z = z.
Proof. apply Z.mod_small. Qed.

Lemma s32_range z : - 2 ^ 31 <= s32 z < 2 ^ 31.
Proof.
  unfold s32. pose proof (Z.mod_pos_bound z (2 ^ 32) ltac:(lia)).
  destruct (Z.ltb_spec (z mod 2 ^ 32) (2 ^ 31)); lia.
Qed.

Lemma s32_small z : 0 <= z < 2 ^ 31 -> s32 z = z.
Proof.
  intros H. unfold s32. rewrite Z.mod_small by lia.
  destruct (Z.ltb_spec z (2 ^ 31)); lia.
Qed.

(** ** Byte buffers

    A C byte array is the list of its bytes; an access out of its bounds is
    undefined behaviour and has no value here ([None]). *)

Definition is_byte (b : Z) : Prop := 0 <= b < 256.

Definition getb (l : list Z) (i : Z) : option Z :=
  if 0 <=? i then l !! Z.to_nat i else None.

Definition setb (l : list Z) (i v : Z) : option (list Z) :=
  if (0 <=? i) && (i <? Z.of_nat (length l))
  then Some (<[Z.to_nat i := v]> l) else None.

(** A block copy into a buffer: the reference meaning of [memcpy] into it. *)
Definition blit (l : list Z) (i : Z) (bs : list Z) : option (list Z) :=
  if (0 <=? i) && (i + Z.of_nat (length bs) <=? Z.of_nat (length l))
  then Some (take (Z.to_nat i) l ++ bs ++ drop (Z.to_nat i + length bs) l)
  else None.

(** The [n] bytes at [i]. *)
Definition slice (l : list Z) (i n : Z) : list Z :=
  take (Z.to_nat n) (drop (Z.to_nat i) l).

(** ** Little-endian numerals *)

Fixpoint le_bytes (n : nat) (v : Z) : list Z :=
  match n with
  | O => []
  | S n' => u8 v :: le_bytes n' (Z.shiftr v 8)
  end.

Fixpoint le_val (bs : list Z) : Z :=
  match bs with
  | [] => 0
  | b :: bs' => Z.lor b (Z.shiftl (le_val bs') 8)
  end.

Lemma length_le_bytes n v : length (le_bytes n v) = n.
Proof. revert v; induction n; intros; simpl; auto. Qed.

Lemma le_bytes_byte n v : Forall is_byte (le_bytes n v).
Proof.
  revert v; induction n; intros; simpl; constructor; auto. apply u8_range.
Qed.

(** A value below [2^k] and one shifted by [k] do not overlap. *)
Lemma lor_shiftl_add a b k :
  0 <= k -> 0 <= a < 2 ^ k -> Z.lor a (Z.shiftl b k) = a + b * 2 ^ k.
Proof.
  intros Hk Ha. rewrite <- Z.shiftl_mul_pow2 by lia.
  rewrite Z.add_nocarry_lxor; [symmetry; apply Z.lxor_lor|];
    apply Z.bits_inj'; intros n Hn; rewrite Z.land_spec, Z.bits_0;
    (destruct (Z.lt_ge_cases n k) as [Hlt|Hge];
      [rewrite Z.shiftl_spec_low by lia; apply andb_false_r|]);
    rewrite <- (Z.mod_small a (2 ^ k)), Z.mod_pow2_bits_high by lia; reflexivity.
Qed.

Lemma le_val_cons b bs :
  is_byte b -> le_val (b :: bs) = b + le_val bs * 256.
Proof. intros H. simpl. rewrite lor_shiftl_add; unfold is_byte in H; lia. Qed.

Lemma le_val_bytes n v : le_val (le_bytes n v) = v mod 2 ^ (8 * Z.of_nat n).
Proof.
  revert v; induction n as [|n IH]; intros v.
  { simpl. by rewrite Z.mod_1_r. }
  change (le_bytes (S n) v) with (u8 v :: le_bytes n (Z.shiftr v 8)).
  rewrite le_val_cons by apply u8_range. rewrite IH, Z.shiftr_div_pow2 by lia.
  replace (8 * Z.of_nat (S n)) with (8 + 8 * Z.of_nat n) by lia.
  rewrite Z.pow_add_r, Z.rem_mul_r by lia. unfold u8. lia.
Qed.

Lemma le_val_range bs :
  Forall is_byte bs -> 0 <= le_val bs < 2 ^ (8 * Z.of_nat (length bs)).
Proof.
  induction 1 as [|b bs Hb _ IH]; [simpl; lia|].
  rewrite le_val_cons by done. simpl length. unfold is_byte in Hb.
  replace (8 * Z.of_nat (S (length bs))) with (8 + 8 * Z.of_nat (length bs)) by lia.
  rewrite Z.pow_add_r by lia. lia.
Qed.

Lemma le_bytes_val bs :
  Forall is_byte bs -> le_bytes (length bs) (le_val bs) = bs.
Proof.
  induction 1 as [|b bs Hb Hbs IH]; [done|].
  simpl length. cbn [le_bytes]. rewrite le_val_cons by done.
  unfold is_byte in Hb. f_equal.
  - unfold u8. change (2 ^ 8) with 256.
    rewrite Z.mod_add by lia. by apply Z.mod_small.
  - rewrite Z.shiftr_div_pow2 by lia. change (2 ^ 8) with 256.
    rewrite Z.div_add, (Z.div_small b) by lia. by rewrite Z.add_0_l.
Qed.

(** ** Lemmas on buffer accesses *)

Lemma getb_lookup l i : 0 <= i -> getb l i = l !! Z.to_nat i.
Proof. intros. unfold getb. by destruct (Z.leb_spec 0 i); [|lia]. Qed.

Lemma getb_is_Some l i :
  0 <= i < Z.of_nat (length l) -> exists v, getb l i = Some v.
Proof.
  intros. rewrite getb_lookup by lia. apply lookup_lt_is_Some. lia.
Qed.

Lemma getb_None l i : Z.of_nat (length l) <= i -> getb l i = None.
Proof.
  intros. unfold getb. destruct (Z.leb_spec 0 i); [|done].
  apply lookup_ge_None. lia.
Qed.

Lemma getb_Some_range l i v : getb l i = Some v -> 0 <= i < Z.of_nat (length l).
Proof.
  unfold getb. destruct (Z.leb_spec 0 i); [|done].
  intros Hl%lookup_lt_Some. lia.
Qed.

Lemma setb_Some l i v :
  0 <= i < Z.of_nat (length l) -> setb l i v = Some (<[Z.to_nat i := v]> l).
Proof.
  intros. unfold setb.
  destruct (Z.leb_spec 0 i), (Z.ltb_spec i (Z.of_nat (length l))); by try lia.
Qed.

Lemma setb_inv l i v l' :
  setb l i v = Some l' ->
  0 <= i < Z.of_nat (length l) /\ l' = <[Z.to_nat i := v]> l.
Proof.
  unfold setb.
  destruct (Z.leb_spec 0 i), (Z.ltb_spec i (Z.of_nat (length l)));
    intros [= <-]; auto with lia.
Qed.

Lemma blit_Some l i bs :
  0 <= i -> i + Z.of_nat (length bs) <= Z.of_nat (length l) ->
  blit l i bs = Some (take (Z.to_nat i) l ++ bs ++ drop (Z.to_nat i + length bs) l).
Proof.
  intros. unfold blit.
  destruct (Z.leb_spec 0 i),
    (Z.leb_spec (i + Z.of_nat (length bs)) (Z.of_nat (length l))); by try lia.
Qed.

Lemma blit_inv l i bs l' :
  blit l i bs = Some l' ->
  0 <= i /\ i + Z.of_nat (length bs) <= Z.of_nat (length l) /\
  l' = take (Z.to_nat i) l ++ bs ++ drop (Z.to_nat i + length bs) l.
Proof.
  unfold blit.
  destruct (Z.leb_spec 0 i),
    (Z.leb_spec (i + Z.of_nat (length bs)) (Z.of_nat (length l)));
    intros [= <-]; auto.
Qed.

Lemma blit_nil l i : 0 <= i <= Z.of_nat (length l) -> blit l i [] = Some l.
Proof.
  intros. rewrite blit_Some by (simpl; lia). simpl. by rewrite Nat.add_0_r, take_drop.
Qed.

Lemma blit_length l i bs l' : blit l i bs = Some l' -> length l' = length l.
Proof.
  intros (? & ? & ->)%blit_inv. rewrite !length_app, length_take, length_drop. lia.
Qed.

(** The written block reads back, and nothing else changes. *)
Lemma slice_blit_same l i bs l' :
  blit l i bs = Some l' -> slice l' i (Z.of_nat (length bs)) = bs.
Proof.
  intros (? & ? & ->)%blit_inv. unfold slice. rewrite Nat2Z.id.
  rewrite drop_app_length' by (rewrite length_take; lia).
  by rewrite take_app_length.
Qed.

Lemma take_blit l i bs l' k :
  blit l i bs = Some l' -> Z.of_nat k <= i -> take k l' = take k l.
Proof.
  intros (? & ? & ->)%blit_inv Hk.
  rewrite take_app_le by (rewrite length_take; lia).
  rewrite take_take. f_equal. lia.
Qed.

Lemma drop_blit l i bs l' k :
  blit l i bs = Some l' -> i + Z.of_nat (length bs) <= Z.of_nat k ->
  drop k l' = drop k l.
Proof.
  intros (? & ? & ->)%blit_inv Hk. rewrite app_assoc.
  rewrite drop_app_ge by (rewrite length_app, length_take; lia).
  rewrite drop_drop, length_app, length_take. f_equal. lia.
Qed.

(** Extending the written prefix of a buffer by a block. *)
Lemma take_blit_snoc l i bs l' :
  blit l i bs = Some l' ->
  take (Z.to_nat (i + Z.of_nat (length bs))) l' = take (Z.to_nat i) l ++ bs.
Proof.
  intros (? & ? & ->)%blit_inv. rewrite app_assoc.
  rewrite take_app_le by (rewrite length_app, length_take; lia).
  apply take_ge. rewrite length_app, length_take. lia.
Qed.

Lemma setb_blit l i v : setb l i v = blit l i [v].
Proof.
  unfold setb, blit. simpl length.
  destruct (Z.leb_spec 0 i), (Z.ltb_spec i (Z.of_nat (length l))),
    (Z.leb_spec (i + Z.of_nat 1) (Z.of_nat (length l))); try lia; try done.
  simpl. f_equal. rewrite insert_take_drop by lia.
  by replace (Z.to_nat i + 1)%nat with (S (Z.to_nat i)) by lia.
Qed.

(** Two adjacent blocks are one block. *)
Lemma blit_blit l i a b l' :
  blit l i a = Some l' ->
  blit l' (i + Z.of_nat (length a)) b = blit l i (a ++ b).
Proof.
  intros Hl. pose proof (blit_length _ _ _ _ Hl) as Hlen.
  pose proof (blit_inv _ _ _ _ Hl) as (Hi & Hle & _).
  unfold blit. rewrite Hlen, length_app, Nat2Z.inj_add, Z.add_assoc.
  destruct (Z.leb_spec 0 (i + Z.of_nat (length a))), (Z.leb_spec 0 i); try lia.
  destruct (Z.leb_spec (i + Z.of_nat (length a) + Z.of_nat (length b))
              (Z.of_nat (length l))); [|done]. simpl. f_equal.
  rewrite (take_blit_snoc l i a l' Hl), <- !app_assoc. do 3 f_equal.
  rewrite (drop_blit l i a l' _ Hl) by lia. f_equal. lia.
Qed.

Lemma slice_length l i n :
  0 <= i -> 0 <= n -> i + n <= Z.of_nat (length l) ->
  length (slice l i n) = Z.to_nat n.
Proof. intros. unfold slice. rewrite length_take, length_drop. lia. Qed.

(** Bytes read one by one are the bytes of the slice. *)
Lemma getb_slice l i n k :
  0 <= i -> 0 <= k < n -> getb (slice l i n) k = getb l (i + k).
Proof.
  intros. rewrite !getb_lookup by lia. unfold slice.
  rewrite lookup_take_lt, lookup_drop by lia. f_equal. lia.
Qed.

Lemma slice_app l i n m :
  0 <= i -> 0 <= n -> 0 <= m -> slice l i (n + m) = slice l i n ++ slice l (i + n) m.
Proof.
  intros. unfold slice.
  rewrite Z2Nat.inj_add, (Z2Nat.inj_add i), <- drop_drop by lia.
  by rewrite take_take_drop.
Qed.

Lemma slice_cons l i n v :
  0 <= i -> 0 < n -> getb l i = Some v -> slice l i n = v :: slice l (i + 1) (n - 1).
Proof.
  intros Hi Hn Hv. rewrite getb_lookup in Hv by lia. unfold slice.
  rewrite (drop_S _ _ _ Hv).
  replace (Z.to_nat n) with (S (Z.to_nat (n - 1))) by lia. simpl.
  by replace (Z.to_nat (i + 1)) with (S (Z.to_nat i)) by lia.
Qed.

Lemma slice_nil l i : slice l i 0 = [].
Proof. done. Qed.

Lemma take_slice l n : take (Z.to_nat n) l = slice l 0 n.
Proof. done. Qed.

Lemma slice_byte l i n : Forall is_byte l -> Forall is_byte (slice l i n).
Proof. intros. by apply Forall_take, Forall_drop. Qed.

Lemma blit_byte l i bs l' :
  Forall is_byte l -> Forall is_byte bs -> blit l i bs = Some l' ->
  Forall is_byte l'.
Proof.
  intros Hl Hbs (_ & _ & ->)%blit_inv.
  rewrite !Forall_app. auto using Forall_take, Forall_drop.
Qed.

Lemma getb_byte l i v : Forall is_byte l -> getb l i = Some v -> is_byte v.
Proof.
  intros Hl. unfold getb. destruct (Z.leb_spec 0 i); [|done].
  intros Hv. by eapply Forall_lookup_1 in Hv.
Qed.

Lemma slice_blit_ne l i bs l' j m :
  blit l i bs = Some l' -> 0 <= j -> 0 <= m ->
  (j + m <= i \/ i + Z.of_nat (length bs) <= j) -> slice l' j m = slice l j m.
Proof.
  intros Hb Hj Hm [Hd|Hd]; unfold slice.
  - rewrite !take_drop_commute, <- Z2Nat.inj_add by lia.
    by rewrite (take_blit _ _ _ _ _ Hb) by lia.
  - by rewrite (drop_blit _ _ _ _ _ Hb) by lia.
Qed.

Lemma getb_blit_ne l i bs l' j :
  blit l i bs = Some l' -> (j < i \/ i + Z.of_nat (length bs) <= j) ->
  getb l' j = getb l j.
Proof.
  intros Hb Hd. unfold getb. destruct (Z.leb_spec 0 j); [|done].
  assert (Hs : slice l' j 1 = slice l j 1) by (apply (slice_blit_ne _ _ _ _ _ _ Hb); lia).
  apply (f_equal (fun x => x !! 0%nat)) in Hs. revert Hs. unfold slice.
  by rewrite !lookup_take_lt, !lookup_drop, !Nat.add_0_r by lia.
Qed.

Lemma getb_blit l i bs l' k :
  blit l i bs = Some l' ->
  getb l' k = if (i <=? k) && (k <? i + Z.of_nat (length bs))
              then getb bs (k - i) else getb l k.
Proof.
  intros Hb. destruct (Z.leb_spec i k), (Z.ltb_spec k (i + Z.of_nat (length bs)));
    simpl; try (apply (getb_blit_ne _ _ _ _ _ Hb); lia).
  rewrite <- (slice_blit_same _ _ _ _ Hb) at 1.
  pose proof (blit_inv _ _ _ _ Hb) as (? & ? & _).
  rewrite getb_slice by lia. f_equal. lia.
Qed.

Lemma getb_ext l l' : (forall k, 0 <= k -> getb l k = getb l' k) -> l = l'.
Proof.
  intros Hk. apply list_eq. intros n. specialize (Hk (Z.of_nat n) ltac:(lia)).
  rewrite !getb_lookup, Nat2Z.id in Hk by lia. done.
Qed.

(** Writes to disjoint ranges commute. *)
Lemma blit_comm l i a l1 j b l2 :
  blit l i a = Some l1 -> blit l1 j b = Some l2 ->
  (i + Z.of_nat (length a) <= j \/ j + Z.of_nat (length b) <= i) ->
  exists l1', blit l j b = Some l1' /\ blit l1' i a = Some l2.
Proof.
  intros E1 E2 Hd. pose proof (blit_inv _ _ _ _ E1) as (? & ? & _).
  pose proof (blit_inv _ _ _ _ E2) as (? & ? & _).
  pose proof (blit_length _ _ _ _ E1) as L1.
  destruct (blit l j b) as [l1'|] eqn:E1'; [|rewrite blit_Some in E1' by lia; done].
  pose proof (blit_length _ _ _ _ E1') as L1'.
  destruct (blit l1' i a) as [l2'|] eqn:E2'; [|rewrite blit_Some in E2' by lia; done].
  exists l1'. split; [done|]. rewrite E2'. f_equal. apply getb_ext. intros k Hk.
  rewrite (getb_blit _ _ _ _ _ E2'), (getb_blit _ _ _ _ _ E1').
  rewrite (getb_blit _ _ _ _ _ E2), (getb_blit _ _ _ _ _ E1).
  repeat case_match; try done; lia.
Qed.

(** Distinct numbers in a range are no more than the range. *)
Lemma range_length (l : list Z) (a n : Z) :
  0 <= n -> NoDup l -> Forall (fun x => a <= x < a + n) l -> Z.of_nat (length l) <= n.
Proof.
  intros Hn Hnd Hr. assert (l ⊆+ seqZ a n) as Hs%submseteq_length.
  { apply NoDup_submseteq; [done|]. intros x Hx.
    rewrite Forall_forall in Hr. apply list_elem_of_In, Hr in Hx.
    by apply elem_of_seqZ. }
  rewrite length_seqZ in Hs. lia.
Qed.

(** ** The effect monad

    A C function that touches the machine is a function from the state to an
    [outcome]: it returns ([Done]), performs an access that C leaves undefined
    ([Fault]: a NULL dereference or an index out of bounds), or is still in a
    loop when the fuel of the model runs out ([Hang]). *)

Inductive outcome (A : Type) : Type :=
  | Done (a : A)
  | Fault
  | Hang.
Arguments Done {A} a.
Arguments Fault {A}.
Arguments Hang {A}.

Definition M (S A : Type) : Type := S -> outcome (A * S).

#[global] Instance M_ret S : MRet (M S) := fun A a s => Done (a, s).
#[global] Instance M_bind S : MBind (M S) := fun A B f m s =>
  match m s with
  | Done (a, s') => f a s'
  | Fault => Fault
  | Hang => Hang
  end.

Definition get {S} : M S S := fun s => Done (s, s).
Definition gets {S A} (f : S -> A) : M S A := fun s => Done (f s, s).
Definition modify {S} (f : S -> S) : M S unit := fun s => Done (tt, f s).
Definition fault {S A} : M S A := fun _ => Fault.
Definition hang {S A} : M S A := fun _ => Hang.

(** A partial operation whose failure is undefined behaviour. *)
Definition lift {S A} (o : option A) : M S A :=
  match o with Some a => mret a | None => fault end.

(** ** Hoare reasoning

    [wp H m Q s]: running [m] from [s] does not fault, and if it returns, [Q]
    holds of the result; a run out of fuel is allowed exactly when [H] holds,
    so [wp False] is total correctness. *)

Definition wp {S A} (H : Prop) (m : M S A) (Q : A -> S -> Prop) (s : S) : Prop :=
  match m s with
  | Done (a, s') => Q a s'
  | Fault => False
  | Hang => H
  end.

Section wp.
Context {S A B : Type} (H : Prop).
Implicit Types (s : S).

Lemma wp_ret (a : A) Q s : Q a s -> wp H (mret a) Q s.
Proof. done. Qed.

Lemma wp_bind (m : M S A) (f : A -> M S B) Q s :
  wp H (m ≫= f) Q s <-> wp H m (fun a s' => wp H (f a) Q s') s.
Proof. unfold wp, mbind, M_bind. by destruct (m s) as [[??]| |]. Qed.

Lemma wp_mono (m : M S A) (P Q : A -> S -> Prop) s :
  wp H m P s -> (forall a s', P a s' -> Q a s') -> wp H m Q s.
Proof. unfold wp. destruct (m s) as [[??]| |]; eauto. Qed.

Lemma wp_conj (m : M S A) (P Q : A -> S -> Prop) s :
  wp H m P s -> wp H m Q s -> wp H m (fun a s' => P a s' /\ Q a s') s.
Proof. unfold wp. destruct (m s) as [[??]| |]; auto. Qed.

(** Where a run out of fuel comes from. *)
Lemma wp_hang (m : M S A) (Q : A -> S -> Prop) (H' : Prop) s :
  (m s = Hang -> H' -> H) -> wp H' m Q s -> wp H m Q s.
Proof. unfold wp. destruct (m s) as [[??]| |]; auto. Qed.

Lemma wp_gets (f : S -> A) Q s : Q (f s) s -> wp H (gets f) Q s.
Proof. done. Qed.

Lemma wp_get Q s : Q s s -> wp H get Q s.
Proof. done. Qed.

Lemma wp_modify (f : S -> S) Q s : Q tt (f s) -> wp H (modify f) Q s.
Proof. done. Qed.

Lemma wp_lift (o : option A) a Q s : o = Some a -> Q a s -> wp H (lift o) Q s.
Proof. by intros ->. Qed.

Lemma wp_done (m : M S A) Q s a s' : m s = Done (a, s') -> wp H m Q s -> Q a s'.
Proof. unfold wp. by intros ->. Qed.

Lemma wp_run (m : M S A) (Q : A -> S -> Prop) s a s' :
  m s = Done (a, s') -> Q a s' -> wp H m Q s.
Proof. unfold wp. by intros ->. Qed.

(** A total specification gives a run. *)
Lemma wp_total (m : M S A) Q s :
  wp False m Q s -> exists a s', m s = Done (a, s') /\ Q a s'.
Proof. unfold wp. destruct (m s) as [[??]| |]; naive_solver. Qed.
End wp.

(** ** Equational reasoning: one step of a bind *)

Lemma bind_done {S A B} (m : M S A) (f : A -> M S B) s a s' :
  m s = Done (a, s') -> (m ≫= f) s = f a s'.
Proof. unfold mbind, M_bind. by intros ->. Qed.

Lemma bind_ret {S A B} (a : A) (f : A -> M S B) s : (mret a ≫= f) s = f a s.
Proof. done. Qed.

Lemma bind_lift {S A B} (o : option A) (f : A -> M S B) s a :
  o = Some a -> (lift o ≫= f) s = f a s.
Proof. by intros ->. Qed.

Lemma bind_assoc {S A B C} (m : M S A) (f : A -> M S B) (g : B -> M S C) s :
  ((m ≫= f) ≫= g) s = (m ≫= (fun a => f a ≫= g)) s.
Proof. unfold mbind, M_bind. by destruct (m s) as [[??]| |]. Qed.

Lemma bind_ext {S A B} (m : M S A) (f g : A -> M S B) s :
  (forall a s', m s = Done (a, s') -> f a s' = g a s') -> (m ≫= f) s = (m ≫= g) s.
Proof. unfold mbind, M_bind. destruct (m s) as [[a s']| |]; auto. Qed.

Lemma bind_eq_l {S A B} (m m' : M S A) (f : A -> M S B) s :
  m s = m' s -> (m ≫= f) s = (m' ≫= f) s.
Proof. unfold mbind, M_bind. by intros ->. Qed.

(** ** Inversion of runs *)

Lemma bind_inv {S A B} (m : M S A) (f : A -> M S B) s b s' :
  (m ≫= f) s = Done (b, s') -> exists a s1, m s = Done (a, s1) /\ f a s1 = Done (b, s').
Proof. unfold mbind, M_bind. destruct (m s) as [[a s1]| |]; [eauto|done..]. Qed.

Lemma lift_inv {S A} (o : option A) (s : S) a s' :
  lift o s = Done (a, s') -> o = Some a /\ s' = s.
Proof. destruct o; [|done]. by intros [= -> ->]. Qed.

Lemma ret_inv {S A} (a b : A) (s s' : S) :
  (mret a : M S A) s = Done (b, s') -> b = a /\ s' = s.
Proof. by intros [= -> ->]. Qed.

(** ** Automation *)

Create HintDb wp_db.
#[export] Hint Resolve wp_ret wp_gets wp_get wp_modify : wp_db.

(** One step of symbolic execution of a [wp] goal. *)
Ltac wp_step :=
  lazymatch goal with
  | |- wp _ (mbind _ _) _ _ => rewrite wp_bind
  | |- wp _ (mret _) _ _ => apply wp_ret
  | |- wp _ (gets _) _ _ => apply wp_gets
  | |- wp _ get _ _ => apply wp_get
  | |- wp _ (modify _) _ _ => apply wp_modify
  end.
Ltac wp_steps := repeat (wp_step; cbv beta).

(** Case analysis on the boolean comparisons of the code. *)
Ltac case_cmp :=
  match goal with
  | |- context [?a =? ?b] => destruct (Z.eqb_spec a b)
  | |- context [?a <? ?b] => destruct (Z.ltb_spec a b)
  | |- context [?a <=? ?b] => destruct (Z.leb_spec a b)
  | H : context [?a =? ?b] |- _ => destruct (Z.eqb_spec a b)
  | H : context [?a <? ?b] |- _ => destruct (Z.ltb_spec a b)
  | H : context [?a <=? ?b] |- _ => destruct (Z.leb_spec a b)
  end.

(** The condition at the head of a program. *)
Ltac wp_if :=
  lazymatch goal with
  | |- wp _ (if ?a =? ?b then _ else _) _ _ => destruct (Z.eqb_spec a b)
  | |- wp _ (if ?a <? ?b then _ else _) _ _ => destruct (Z.ltb_spec a b)
  | |- wp _ (if ?b then _ else _) _ _ => destruct b eqn:?
  end.

(** Wrap-around that does not happen, by arithmetic. *)
Ltac unwrap :=
  repeat first
    [ rewrite u8_small by lia | rewrite u16_small by lia
    | rewrite u32_small by lia | rewrite u64_small by lia ].

(** Equality of tuples up to arithmetic on their components. *)
Ltac tuple_lia :=
  repeat match goal with
  | |- Some _ = Some _ => f_equal
  | |- Done _ = Done _ => f_equal
  | |- (_, _) = (_, _) => f_equal
  end; first [done | lia].
