(* ===== verification/CString.v ===== *)
(** * CString: the byte and string helpers of include/string_utils.h

    The helpers work on one flat memory: [mem] is the list of its bytes and a
    pointer is an index into it, so overlapping arguments can be expressed.
    [None] is an access outside the memory.  The words that [memset] and
    [memcpy] move are big-endian, as on the PowerPC target.  A loop that is
    bounded by its byte count recurses on the count; a loop that searches for
    a NUL has fuel, and the theorems show that the size of the memory is
    enough fuel. *)

From S2P Require Import Prelude.
From Stdlib Require Import Btauto.

(** ** Words *)

Definition load32 (mem : list Z) (p : Z) : option Z :=
  b0 ← getb mem p; b1 ← getb mem (p + 1);
  b2 ← getb mem (p + 2); b3 ← getb mem (p + 3);
  Some (Z.lor (Z.shiftl b0 24) (Z.lor (Z.shiftl b1 16) (Z.lor (Z.shiftl b2 8) b3))).

Definition store32 (mem : list Z) (p w : Z) : option (list Z) :=
  mem ← setb mem p (u8 (Z.shiftr w 24));
  mem ← setb mem (p + 1) (u8 (Z.shiftr w 16));
  mem ← setb mem (p + 2) (u8 (Z.shiftr w 8));
  setb mem (p + 3) (u8 w).

(** ** v9p_memset *)

(** [while (n && ((uint32)d & 3)) { *d++ = val; n--; }] *)
Fixpoint memset_align (n : nat) (mem : list Z) (d val : Z)
    : option (list Z * Z * nat) :=
  match n with
  | O => Some (mem, d, n)
  | S n' =>
      if Z.land d 3 =? 0 then Some (mem, d, n)
      else mem ← setb mem d val; memset_align n' mem (d + 1) val
  end.

(** [while (n >= 4) { *dw++ = w; n -= 4; }] *)
Fixpoint memset_words (n : nat) (mem : list Z) (d w : Z)
    : option (list Z * Z * nat) :=
  match n with
  | S (S (S (S n'))) => mem ← store32 mem d w; memset_words n' mem (d + 4) w
  | _ => Some (mem, d, n)
  end.

(** [while (n--) *d++ = val;] *)
Fixpoint memset_tail (n : nat) (mem : list Z) (d val : Z) : option (list Z) :=
  match n with
  | O => Some mem
  | S n' => mem ← setb mem d val; memset_tail n' mem (d + 1) val
  end.

Definition memset (mem : list Z) (dst c : Z) (n : nat) : option (list Z) :=
  let val := u8 c in
  '(mem, d, n) ← memset_align n mem dst val;
  let w := Z.lor val (Z.lor (Z.shiftl val 8)
             (Z.lor (Z.shiftl val 16) (Z.shiftl val 24))) in
  '(mem, d, n) ← (if (4 <=? n)%nat then memset_words n mem d w
                  else Some (mem, d, n));
  memset_tail n mem d val.

(** ** v9p_memcpy *)

(** [while (n && ((uint32)d & 3)) { *d++ = *s++; n--; }] *)
Fixpoint memcpy_align (n : nat) (mem : list Z) (d s : Z)
    : option (list Z * Z * Z * nat) :=
  match n with
  | O => Some (mem, d, s, n)
  | S n' =>
      if Z.land d 3 =? 0 then Some (mem, d, s, n)
      else b ← getb mem s; mem ← setb mem d b; memcpy_align n' mem (d + 1) (s + 1)
  end.

(** [while (n >= 4) { *dw++ = *sw++; n -= 4; }] *)
Fixpoint memcpy_words (n : nat) (mem : list Z) (d s : Z)
    : option (list Z * Z * Z * nat) :=
  match n with
  | S (S (S (S n'))) =>
      w ← load32 mem s; mem ← store32 mem d w; memcpy_words n' mem (d + 4) (s + 4)
  | _ => Some (mem, d, s, n)
  end.

(** [while (n--) *d++ = *s++;] *)
Fixpoint copy_up (n : nat) (mem : list Z) (d s : Z) : option (list Z) :=
  match n with
  | O => Some mem
  | S n' => b ← getb mem s; mem ← setb mem d b; copy_up n' mem (d + 1) (s + 1)
  end.

Definition memcpy (mem : list Z) (dst src : Z) (n : nat) : option (list Z) :=
  '(mem, d, s, n) ←
    (if (16 <=? n)%nat && (Z.land (Z.lxor dst src) 3 =? 0) then
       '(mem, d, s, n) ← memcpy_align n mem dst src;
       memcpy_words n mem d s
     else Some (mem, dst, src, n));
  copy_up n mem d s.

(** ** v9p_memmove *)

(** [while (n--) *--d = *--s;] *)
Fixpoint copy_down (n : nat) (mem : list Z) (d s : Z) : option (list Z) :=
  match n with
  | O => Some mem
  | S n' =>
      b ← getb mem (s - 1); mem ← setb mem (d - 1) b;
      copy_down n' mem (d - 1) (s - 1)
  end.

Definition memmove (mem : list Z) (dst src : Z) (n : nat) : option (list Z) :=
  if dst <? src then copy_up n mem dst src
  else if src <? dst then copy_down n mem (dst + Z.of_nat n) (src + Z.of_nat n)
  else Some mem.

(** ** v9p_strlen *)

(** [while ( *p ) p++;] *)
Fixpoint strlen_loop (fuel : nat) (mem : list Z) (p : Z) : option Z :=
  match fuel with
  | O => None
  | S fuel =>
      c ← getb mem p;
      if c =? 0 then Some p else strlen_loop fuel mem (p + 1)
  end.

Definition strlen (mem : list Z) (s : Z) : option Z :=
  p ← strlen_loop (S (length mem)) mem s; Some (u32 (p - s)).

(** ** v9p_strncpy *)

(** [while (n && *src) { *d++ = *src++; n--; }] *)
Fixpoint strncpy_copy (n : nat) (mem : list Z) (d src : Z)
    : option (list Z * Z * nat) :=
  match n with
  | O => Some (mem, d, n)
  | S n' =>
      c ← getb mem src;
      if c =? 0 then Some (mem, d, n)
      else mem ← setb mem d c; strncpy_copy n' mem (d + 1) (src + 1)
  end.

Definition strncpy (mem : list Z) (dst src : Z) (n : nat) : option (list Z) :=
  '(mem, d, n) ← strncpy_copy n mem dst src;
  memset_tail n mem d 0.

(** ** v9p_strcmp *)

Fixpoint strcmp_loop (fuel : nat) (mem : list Z) (a b : Z) : option (Z * Z) :=
  match fuel with
  | O => None
  | S fuel =>
      ca ← getb mem a;
      if ca =? 0 then Some (a, b)
      else cb ← getb mem b;
           if ca =? cb then strcmp_loop fuel mem (a + 1) (b + 1) else Some (a, b)
  end.

Definition strcmp (mem : list Z) (a b : Z) : option Z :=
  '(a, b) ← strcmp_loop (S (length mem)) mem a b;
  ca ← getb mem a; cb ← getb mem b; Some (ca - cb).

(** ** v9p_strchr and v9p_strrchr; a NULL result is [Some None] *)

Fixpoint strchr_loop (fuel : nat) (mem : list Z) (s c : Z) : option (option Z) :=
  match fuel with
  | O => None
  | S fuel =>
      x ← getb mem s;
      if x =? 0 then Some (if c =? 0 then Some s else None)
      else if x =? u8 c then Some (Some s) else strchr_loop fuel mem (s + 1) c
  end.

Definition strchr (mem : list Z) (s c : Z) : option (option Z) :=
  strchr_loop (S (length mem)) mem s c.

Fixpoint strrchr_loop (fuel : nat) (mem : list Z) (s c : Z) (last : option Z)
    : option (option Z) :=
  match fuel with
  | O => None
  | S fuel =>
      x ← getb mem s;
      if x =? 0 then Some (if c =? 0 then Some s else last)
      else strrchr_loop fuel mem (s + 1) c (if x =? u8 c then Some s else last)
  end.

Definition strrchr (mem : list Z) (s c : Z) : option (option Z) :=
  strrchr_loop (S (length mem)) mem s c None.

(** ** Properties of the word accesses *)

Lemma store32_blit mem p w :
  0 <= p -> p + 4 <= Z.of_nat (length mem) ->
  store32 mem p w =
  blit mem p [u8 (Z.shiftr w 24); u8 (Z.shiftr w 16); u8 (Z.shiftr w 8); u8 w].
Proof.
  intros Hp Hl. unfold store32.
  assert (Hstep : forall l i v k, blit mem p l = Some k -> i = p + Z.of_nat (length l) ->
            setb k i v = blit mem p (l ++ [v])).
  { intros l i v k Hk ->. rewrite setb_blit. by apply blit_blit. }
  assert (Hsome : forall l, (length l <= 4)%nat -> is_Some (blit mem p l)).
  { intros l Hle. rewrite blit_Some by lia. eauto. }
  rewrite setb_blit.
  destruct (Hsome [u8 (Z.shiftr w 24)] ltac:(simpl; lia)) as [m1 H1].
  rewrite H1. cbn [mbind option_bind].
  rewrite (Hstep _ _ _ _ H1) by done.
  destruct (Hsome ([u8 (Z.shiftr w 24)] ++ [u8 (Z.shiftr w 16)]) ltac:(simpl; lia))
    as [m2 H2].
  rewrite H2. cbn [mbind option_bind]. rewrite (Hstep _ _ _ _ H2) by done.
  destruct (Hsome (([u8 (Z.shiftr w 24)] ++ [u8 (Z.shiftr w 16)]) ++
    [u8 (Z.shiftr w 8)]) ltac:(simpl; lia)) as [m3 H3].
  rewrite H3. cbn [mbind option_bind]. by rewrite (Hstep _ _ _ _ H3).
Qed.

(** The four bytes of a word of bytes. *)
Lemma word_bytes b0 b1 b2 b3 :
  is_byte b0 -> is_byte b1 -> is_byte b2 -> is_byte b3 ->
  let w := Z.lor (Z.shiftl b0 24) (Z.lor (Z.shiftl b1 16) (Z.lor (Z.shiftl b2 8) b3)) in
  [u8 (Z.shiftr w 24); u8 (Z.shiftr w 16); u8 (Z.shiftr w 8); u8 w] = [b0; b1; b2; b3].
Proof.
  intros H0 H1 H2 H3 w. unfold is_byte in *.
  assert (Hw : w = b3 + b2 * 2 ^ 8 + b1 * 2 ^ 16 + b0 * 2 ^ 24).
  { unfold w. rewrite (Z.lor_comm (Z.shiftl b2 8)), (lor_shiftl_add b3) by lia.
    rewrite (Z.lor_comm (Z.shiftl b1 16)), lor_shiftl_add by lia.
    rewrite (Z.lor_comm (Z.shiftl b0 24)), lor_shiftl_add by lia. done. }
  rewrite Hw. unfold u8. rewrite !Z.shiftr_div_pow2 by lia.
  repeat (f_equal; [Z.div_mod_to_equations; lia|]). f_equal.
  Z.div_mod_to_equations; lia.
Qed.

Lemma word_fill v : is_byte v ->
  let w := Z.lor v (Z.lor (Z.shiftl v 8) (Z.lor (Z.shiftl v 16) (Z.shiftl v 24))) in
  [u8 (Z.shiftr w 24); u8 (Z.shiftr w 16); u8 (Z.shiftr w 8); u8 w] = replicate 4 v.
Proof.
  intros Hv w.
  assert (Hw : w = Z.lor (Z.shiftl v 24) (Z.lor (Z.shiftl v 16) (Z.lor (Z.shiftl v 8) v))).
  { unfold w. apply Z.bits_inj'. intros n _. rewrite !Z.lor_spec. btauto. }
  rewrite Hw. by apply word_bytes.
Qed.

Lemma load32_bytes mem p :
  Forall is_byte mem -> 0 <= p -> p + 4 <= Z.of_nat (length mem) ->
  exists w, load32 mem p = Some w /\
    [u8 (Z.shiftr w 24); u8 (Z.shiftr w 16); u8 (Z.shiftr w 8); u8 w] = slice mem p 4.
Proof.
  intros Hm Hp Hl.
  destruct (getb_is_Some mem p) as [b0 E0]; [lia|].
  destruct (getb_is_Some mem (p + 1)) as [b1 E1]; [lia|].
  destruct (getb_is_Some mem (p + 2)) as [b2 E2]; [lia|].
  destruct (getb_is_Some mem (p + 3)) as [b3 E3]; [lia|].
  eexists. unfold load32. rewrite E0, E1, E2, E3. split; [done|].
  rewrite word_bytes by eauto using getb_byte.
  rewrite (slice_cons mem p 4 b0) by (done || lia).
  rewrite (slice_cons mem (p + 1) _ b1) by (done || lia).
  rewrite (slice_cons mem (p + 1 + 1) _ b2) by (lia || by rewrite <- E2; f_equal; lia).
  rewrite (slice_cons mem (p + 1 + 1 + 1) _ b3) by (lia || by rewrite <- E3; f_equal; lia).
  done.
Qed.

(** ** memset *)

Lemma memset_tail_spec n mem d v :
  0 <= d -> d + Z.of_nat n <= Z.of_nat (length mem) ->
  memset_tail n mem d v = blit mem d (replicate n v).
Proof.
  revert mem d; induction n as [|n IH]; intros mem d Hd Hn; simpl.
  - by rewrite blit_nil by lia.
  - rewrite setb_blit.
    destruct (blit mem d [v]) as [m1|] eqn:E.
    2: { rewrite blit_Some in E by (simpl; lia). done. }
    cbn [mbind option_bind]. rewrite IH.
    + change (v :: replicate n v) with ([v] ++ replicate n v).
      by rewrite <- (blit_blit _ _ _ _ _ E).
    + lia.
    + rewrite (blit_length _ _ _ _ E). lia.
Qed.

Lemma memset_align_spec n mem d v :
  0 <= d -> d + Z.of_nat n <= Z.of_nat (length mem) ->
  exists k mem', (k <= n)%nat /\ blit mem d (replicate k v) = Some mem' /\
    memset_align n mem d v = Some (mem', d + Z.of_nat k, (n - k)%nat).
Proof.
  revert mem d; induction n as [|n IH]; intros mem d Hd Hn.
  { exists 0%nat, mem. simpl. rewrite Z.add_0_r. split; [lia|split; [|done]].
    by apply blit_nil; lia. }
  cbn [memset_align]. destruct (Z.eqb_spec (Z.land d 3) 0).
  { exists 0%nat, mem. rewrite Z.add_0_r. split; [lia|split; [|done]].
    by apply blit_nil; lia. }
  rewrite setb_blit. destruct (blit mem d [v]) as [m1|] eqn:E.
  2: { rewrite blit_Some in E by (simpl; lia). done. }
  cbn [mbind option_bind].
  destruct (IH m1 (d + 1)) as (k & m2 & Hk & Hb & ->).
  { lia. } { rewrite (blit_length _ _ _ _ E). lia. }
  exists (S k), m2. split; [lia|split; [|tuple_lia]].
  change (replicate (S k) v) with ([v] ++ replicate k v).
  by rewrite <- (blit_blit _ _ _ _ _ E).
Qed.

Lemma memset_words_spec m n mem d v w :
  (n <= m)%nat -> 0 <= d -> d + Z.of_nat n <= Z.of_nat (length mem) ->
  [u8 (Z.shiftr w 24); u8 (Z.shiftr w 16); u8 (Z.shiftr w 8); u8 w] = replicate 4 v ->
  exists k mem', (k <= n)%nat /\ blit mem d (replicate k v) = Some mem' /\
    memset_words n mem d w = Some (mem', d + Z.of_nat k, (n - k)%nat).
Proof.
  intros Hm Hd Hn Hw. revert n mem d Hm Hd Hn.
  induction m as [|m IH]; intros n mem d Hm Hd Hn.
  { exists 0%nat, mem. assert (n = 0)%nat as -> by lia.
    simpl. rewrite Z.add_0_r, blit_nil by lia. auto. }
  destruct (decide (n < 4)%nat) as [Hlt|Hge].
  { exists 0%nat, mem. rewrite Z.add_0_r, Nat.sub_0_r. simpl.
    rewrite blit_nil by lia. split; [lia|split; [done|]].
    do 4 (destruct n as [|n]; [done|]). lia. }
  do 4 (destruct n as [|n]; [lia|]). clear Hge. cbn [memset_words].
  rewrite store32_blit, Hw by lia.
  destruct (blit mem d (replicate 4 v)) as [m1|] eqn:E.
  2: { rewrite blit_Some in E by (simpl; lia). done. }
  cbn [mbind option_bind].
  destruct (IH n m1 (d + 4)) as (k & m2 & Hk & Hb & ->).
  { lia. } { lia. } { rewrite (blit_length _ _ _ _ E). lia. }
  exists (4 + k)%nat, m2. split; [lia|split; [|tuple_lia]].
  rewrite replicate_add. by rewrite <- (blit_blit _ _ _ _ _ E).
Qed.

(** Two runs of the same byte are one run. *)
Lemma blit_replicate mem d v k n m1 :
  blit mem d (replicate k v) = Some m1 ->
  blit m1 (d + Z.of_nat k) (replicate n v) = blit mem d (replicate (k + n) v).
Proof.
  intros E. rewrite replicate_add, <- (blit_blit _ _ _ _ _ E).
  by rewrite length_replicate.
Qed.

(** [v9p_memset], with its byte-align, word-fill and tail loops, stores
    exactly [n] copies of the byte. *)
Lemma memset_correct (mem : list Z) (dst c : Z) (n : nat)
    (Hd : 0 <= dst) (Hn : dst + Z.of_nat n <= Z.of_nat (length mem)) :
  memset mem dst c n = blit mem dst (replicate n (u8 c)).
Proof.
  unfold memset.
  destruct (memset_align_spec n mem dst (u8 c)) as (k1 & m1 & Hk1 & E1 & ->); [lia..|].
  cbn [mbind option_bind]. pose proof (blit_length _ _ _ _ E1) as L1.
  destruct (Nat.leb_spec 4 (n - k1)).
  - edestruct (memset_words_spec (n - k1) (n - k1) m1 (dst + Z.of_nat k1) (u8 c))
      as (k2 & m2 & Hk2 & E2 & ->); [lia | lia | lia | apply word_fill, u8_range |].
    cbn [mbind option_bind]. pose proof (blit_length _ _ _ _ E2) as L2.
    rewrite memset_tail_spec by lia.
    rewrite (blit_replicate _ _ _ _ _ _ E2), (blit_replicate _ _ _ _ _ _ E1).
    do 2 f_equal. lia.
  - cbn [mbind option_bind]. rewrite memset_tail_spec by lia.
    rewrite (blit_replicate _ _ _ _ _ _ E1). do 2 f_equal. lia.
Qed.

(** ** memcpy *)

(** Source and destination of a forward copy of [n] bytes do not interfere:
    the destination starts at or below the source, or the ranges are disjoint. *)
Definition fwd_ok (d s : Z) (n : nat) : Prop := d <= s \/ s + Z.of_nat n <= d.

Section copy_loops.
Context (mem : list Z).

(** [k] bytes of the copy have been done. *)
Definition copied (d s : Z) (k : nat) (mem' : list Z) : Prop :=
  blit mem d (slice mem s (Z.of_nat k)) = Some mem'.

Lemma copied_length d s k mem' : copied d s k mem' -> length mem' = length mem.
Proof. apply blit_length. Qed.

Lemma copied_0 d s : 0 <= d <= Z.of_nat (length mem) -> copied d s 0 mem.
Proof. unfold copied. by apply blit_nil. Qed.
End copy_loops.

Lemma copied_byte mem d s k mem' :
  Forall is_byte mem -> copied mem d s k mem' -> Forall is_byte mem'.
Proof. intros Hm. by apply blit_byte; [|apply slice_byte]. Qed.

(** A copy of [k] bytes followed by the rest. *)
Lemma copied_trans mem m1 m2 d s k j n :
  0 <= d -> 0 <= s -> s + Z.of_nat n <= Z.of_nat (length mem) ->
  (k + j <= n)%nat -> fwd_ok d s n ->
  copied mem d s k m1 ->
  copied m1 (d + Z.of_nat k) (s + Z.of_nat k) j m2 ->
  copied mem d s (k + j) m2.
Proof.
  unfold copied, fwd_ok. intros Hd Hs Hn Hkj Hok E1 E2.
  assert (length (slice mem s (Z.of_nat k)) = k) as Lk
    by (rewrite slice_length; lia).
  rewrite (slice_blit_ne _ _ _ _ (s + Z.of_nat k) _ E1) in E2 by lia.
  rewrite Nat2Z.inj_add, slice_app, <- (blit_blit _ _ _ _ _ E1), Lk by lia. done.
Qed.

Lemma copied_1 mem d s :
  0 <= d < Z.of_nat (length mem) -> 0 <= s < Z.of_nat (length mem) ->
  exists b m1, getb mem s = Some b /\ setb mem d b = Some m1 /\ copied mem d s 1 m1.
Proof.
  intros Hd Hs. destruct (getb_is_Some mem s Hs) as [b Hb].
  unfold copied. change (Z.of_nat 1) with 1.
  rewrite (slice_cons _ _ 1 b) by (done || lia). replace (1 - 1) with 0 by lia.
  rewrite slice_nil.
  exists b. rewrite setb_blit, (blit_Some mem) by (simpl; lia). eauto.
Qed.

Lemma copy_up_spec n mem d s :
  0 <= d -> 0 <= s -> d + Z.of_nat n <= Z.of_nat (length mem) ->
  s + Z.of_nat n <= Z.of_nat (length mem) -> fwd_ok d s n ->
  exists mem', copy_up n mem d s = Some mem' /\ copied mem d s n mem'.
Proof.
  revert mem d s; induction n as [|n IH]; intros mem d s Hd Hs Hdn Hsn Hok.
  { exists mem. split; [done|]. apply copied_0. lia. }
  destruct (copied_1 mem d s) as (b & m1 & Hb & Hset & Hc); [lia..|].
  pose proof (copied_length _ _ _ _ _ Hc) as L1.
  cbn [copy_up]. rewrite Hb. cbn [mbind option_bind]. rewrite Hset. cbn [mbind option_bind].
  destruct (IH m1 (d + 1) (s + 1)) as (m2 & -> & Hc2); [lia..|unfold fwd_ok in *; lia|].
  exists m2. split; [done|]. change (S n) with (1 + n)%nat.
  by eapply (copied_trans _ _ _ _ _ _ _ (S n)); eauto with lia.
Qed.

Lemma memcpy_align_spec n mem d s :
  0 <= d -> 0 <= s -> d + Z.of_nat n <= Z.of_nat (length mem) ->
  s + Z.of_nat n <= Z.of_nat (length mem) -> fwd_ok d s n ->
  exists k mem', (k <= n)%nat /\ copied mem d s k mem' /\
    memcpy_align n mem d s = Some (mem', d + Z.of_nat k, s + Z.of_nat k, (n - k)%nat).
Proof.
  revert mem d s; induction n as [|n IH]; intros mem d s Hd Hs Hdn Hsn Hok.
  { exists 0%nat, mem. simpl. rewrite !Z.add_0_r. split; [lia|split; [|done]].
    apply copied_0. lia. }
  cbn [memcpy_align]. destruct (Z.eqb_spec (Z.land d 3) 0).
  { exists 0%nat, mem. rewrite !Z.add_0_r. split; [lia|split; [|done]].
    apply copied_0. lia. }
  destruct (copied_1 mem d s) as (b & m1 & Hb & Hset & Hc); [lia..|].
  pose proof (copied_length _ _ _ _ _ Hc) as L1.
  rewrite Hb. cbn [mbind option_bind]. rewrite Hset. cbn [mbind option_bind].
  destruct (IH m1 (d + 1) (s + 1)) as (k & m2 & Hk & Hc2 & ->);
    [lia..|unfold fwd_ok in *; lia|].
  exists (1 + k)%nat, m2. split; [lia|split; [|tuple_lia]].
  by eapply (copied_trans _ _ _ _ _ _ _ (S n)); eauto with lia.
Qed.

Lemma memcpy_words_spec m n mem d s :
  (n <= m)%nat -> Forall is_byte mem ->
  0 <= d -> 0 <= s -> d + Z.of_nat n <= Z.of_nat (length mem) ->
  s + Z.of_nat n <= Z.of_nat (length mem) ->
  (d + Z.of_nat n <= s \/ s + Z.of_nat n <= d) ->
  exists k mem', (k <= n)%nat /\ copied mem d s k mem' /\
    memcpy_words n mem d s = Some (mem', d + Z.of_nat k, s + Z.of_nat k, (n - k)%nat).
Proof.
  revert n mem d s; induction m as [|m IH]; intros n mem d s Hm Hby Hd Hs Hdn Hsn Hok.
  { exists 0%nat, mem. assert (n = 0)%nat as -> by lia. simpl. rewrite !Z.add_0_r.
    split; [lia|split; [|done]]. apply copied_0. lia. }
  destruct (decide (n < 4)%nat) as [Hlt|Hge].
  { exists 0%nat, mem. rewrite !Z.add_0_r, Nat.sub_0_r.
    split; [lia|split; [apply copied_0; lia|]].
    do 4 (destruct n as [|n]; [done|]). lia. }
  do 4 (destruct n as [|n]; [lia|]). clear Hge. cbn [memcpy_words].
  destruct (load32_bytes mem s) as (w & -> & Hw); [done|lia..|]. cbn [mbind option_bind].
  rewrite store32_blit, Hw by lia.
  destruct (blit mem d (slice mem s 4)) as [m1|] eqn:E.
  2: { rewrite blit_Some in E; [done|lia|rewrite slice_length; lia]. }
  cbn [mbind option_bind]. pose proof (blit_length _ _ _ _ E) as L1.
  destruct (IH n m1 (d + 4) (s + 4)) as (k & m2 & Hk & Hc2 & ->);
    [lia | by apply (copied_byte mem d s 4) | lia..|].
  exists (4 + k)%nat, m2. split; [lia|split; [|tuple_lia]].
  eapply (copied_trans _ m1 _ _ _ _ _ (4 + n)); eauto with lia. unfold fwd_ok. lia.
Qed.

(** For disjoint ranges of bytes, [v9p_memcpy] with its alignment test,
    byte-align loop, word loop and tail copies exactly the [n] source bytes:
    it equals the plain block copy. *)
Lemma memcpy_correct (mem : list Z) (dst src : Z) (n : nat)
    (Hby : Forall is_byte mem) (Hd : 0 <= dst) (Hs : 0 <= src)
    (Hdn : dst + Z.of_nat n <= Z.of_nat (length mem))
    (Hsn : src + Z.of_nat n <= Z.of_nat (length mem))
    (Hdis : dst + Z.of_nat n <= src \/ src + Z.of_nat n <= dst) :
  memcpy mem dst src n = blit mem dst (slice mem src (Z.of_nat n)).
Proof.
  unfold memcpy. destruct ((16 <=? n)%nat && _).
  - destruct (memcpy_align_spec n mem dst src) as (k1 & m1 & Hk1 & C1 & ->);
      [lia..|unfold fwd_ok; lia|]. cbn [mbind option_bind].
    pose proof (copied_length _ _ _ _ _ C1) as L1.
    destruct (memcpy_words_spec (n - k1) (n - k1) m1 (dst + Z.of_nat k1)
      (src + Z.of_nat k1)) as (k2 & m2 & Hk2 & C2 & ->);
      [lia | by eapply copied_byte | lia.. |]. cbn [mbind option_bind].
    pose proof (copied_length _ _ _ _ _ C2) as L2.
    destruct (copy_up_spec (n - k1 - k2) m2 (dst + Z.of_nat k1 + Z.of_nat k2)
      (src + Z.of_nat k1 + Z.of_nat k2)) as (m3 & -> & C3); [lia..|unfold fwd_ok; lia|].
    symmetry. replace n with (k1 + (k2 + (n - k1 - k2)))%nat at 1 by lia.
    eapply (copied_trans _ m1 _ _ _ _ _ n); eauto with lia; [unfold fwd_ok; lia|].
    eapply (copied_trans _ m2 _ _ _ _ _ (n - k1)); eauto with lia. unfold fwd_ok; lia.
  - cbn [mbind option_bind].
    destruct (copy_up_spec n mem dst src) as (m3 & -> & C3); [lia..|unfold fwd_ok; lia|].
    done.
Qed.

(** ** memmove *)

Lemma copy_down_spec n mem d s :
  0 <= d -> s <= d -> 0 <= s -> d + Z.of_nat n <= Z.of_nat (length mem) ->
  exists mem', copy_down n mem (d + Z.of_nat n) (s + Z.of_nat n) = Some mem' /\
    copied mem d s n mem'.
Proof.
  revert mem; induction n as [|n IH]; intros mem Hd Hsd Hs Hdn.
  { exists mem. split; [done|]. apply copied_0. lia. }
  cbn [copy_down].
  replace (s + Z.of_nat (S n) - 1) with (s + Z.of_nat n) by lia.
  replace (d + Z.of_nat (S n) - 1) with (d + Z.of_nat n) by lia.
  destruct (getb_is_Some mem (s + Z.of_nat n)) as [b Hb]; [lia|]. rewrite Hb.
  cbn [mbind option_bind]. rewrite setb_blit.
  destruct (blit mem (d + Z.of_nat n) [b]) as [m1|] eqn:E1.
  2: { rewrite blit_Some in E1 by (simpl; lia). done. }
  cbn [mbind option_bind]. pose proof (blit_length _ _ _ _ E1) as L1.
  destruct (IH m1) as (m2 & -> & C2); [lia..|]. exists m2. split; [done|].
  unfold copied in *.
  assert (Hsl : slice mem s (Z.of_nat (S n)) = slice mem s (Z.of_nat n) ++ [b]).
  { rewrite Nat2Z.inj_succ, <- Z.add_1_r, slice_app by lia. f_equal.
    rewrite (slice_cons _ _ 1 b) by (done || lia). done. }
  rewrite (slice_blit_ne _ _ _ _ s _ E1) in C2 by lia. rewrite Hsl.
  destruct (blit mem d (slice mem s (Z.of_nat n))) as [m3|] eqn:E3.
  2: { rewrite blit_Some in E3; [done|lia|rewrite slice_length; lia]. }
  rewrite <- (blit_blit _ _ _ _ _ E3), slice_length, Z2Nat.id by lia.
  destruct (blit_comm _ _ _ _ _ _ _ E1 C2) as (m3' & E3' & E1').
  { rewrite slice_length by lia. lia. }
  rewrite E3 in E3'. by simplify_eq.
Qed.

(** [v9p_memmove] copies the source bytes as they were before the call,
    whatever the overlap of the two ranges. *)
Lemma memmove_correct (mem : list Z) (dst src : Z) (n : nat)
    (Hd : 0 <= dst) (Hs : 0 <= src)
    (Hdn : dst + Z.of_nat n <= Z.of_nat (length mem))
    (Hsn : src + Z.of_nat n <= Z.of_nat (length mem)) :
  memmove mem dst src n = blit mem dst (slice mem src (Z.of_nat n)).
Proof.
  unfold memmove. destruct (Z.ltb_spec dst src).
  - destruct (copy_up_spec n mem dst src) as (m & -> & C); [lia..|left; lia|]. done.
  - destruct (Z.ltb_spec src dst).
    + destruct (copy_down_spec n mem dst src) as (m & -> & C); [lia..|]. done.
    + assert (dst = src) as -> by lia. rewrite blit_Some; rewrite ?slice_length; try lia.
      f_equal. unfold slice. rewrite Nat2Z.id, app_assoc, take_take_drop.
      by rewrite take_drop.
Qed.

(** ** C strings *)

(** The NUL-terminated string with content [s] lies at [p]. *)
Definition cstr (mem : list Z) (p : Z) (s : list Z) : Prop :=
  0 <= p /\ Forall (fun c => c <> 0) s /\
  slice mem p (Z.of_nat (length s) + 1) = s ++ [0].

Lemma slice_full_length l i n (x : list Z) :
  0 <= i -> slice l i (Z.of_nat n) = x -> length x = n -> (0 < n)%nat ->
  i + Z.of_nat n <= Z.of_nat (length l).
Proof.
  intros Hi <- Hl Hn. unfold slice in Hl. rewrite length_take, length_drop in Hl. lia.
Qed.

Lemma cstr_bound mem p s :
  cstr mem p s -> p + Z.of_nat (length s) < Z.of_nat (length mem).
Proof.
  intros (Hp & _ & Hs).
  assert (p + Z.of_nat (S (length s)) <= Z.of_nat (length mem)); [|lia].
  eapply slice_full_length; [done|rewrite Nat2Z.inj_succ; apply Hs| |lia].
  rewrite length_app. simpl. lia.
Qed.

Lemma slice_cons_inv l i n v x :
  0 <= i -> 0 < n -> slice l i n = v :: x ->
  getb l i = Some v /\ slice l (i + 1) (n - 1) = x.
Proof.
  intros Hi Hn Hs.
  destruct (getb l i) as [w|] eqn:E.
  - rewrite (slice_cons _ _ _ w) in Hs by done. by simplify_eq.
  - rewrite getb_lookup in E by lia. apply lookup_ge_None in E.
    unfold slice in Hs. rewrite drop_ge in Hs by lia. by destruct (Z.to_nat n).
Qed.

Lemma cstr_nil_inv mem p : cstr mem p [] -> getb mem p = Some 0.
Proof. intros (Hp & _ & Hs). by apply slice_cons_inv in Hs as [? _]. Qed.

Lemma cstr_cons_inv mem p c s :
  cstr mem p (c :: s) -> c <> 0 /\ getb mem p = Some c /\ cstr mem (p + 1) s.
Proof.
  intros (Hp & Hn & Hs). inversion Hn as [|? ? Hc Hn']; subst. simpl app in Hs.
  apply slice_cons_inv in Hs as [Hg Hs]; [|done|simpl; lia].
  split_and!; [done..|]. split_and!; [lia|done|].
  by replace (Z.of_nat (length s) + 1) with (Z.of_nat (length (c :: s)) + 1 - 1)
    by (simpl; lia).
Qed.

(** The search loop of [strlen] stops at the terminator, with fuel to spare. *)
Lemma strlen_loop_spec mem s p fuel :
  cstr mem p s -> (length s < fuel)%nat ->
  strlen_loop fuel mem p = Some (p + Z.of_nat (length s)).
Proof.
  revert p fuel; induction s as [|c s IH]; intros p [|fuel] Hc Hf; simpl in *; try lia.
  - rewrite (cstr_nil_inv _ _ Hc). simpl. by rewrite Z.add_0_r.
  - apply cstr_cons_inv in Hc as (Hne & -> & Hc). simpl.
    destruct (Z.eqb_spec c 0); [done|]. rewrite IH by (done || lia). f_equal. lia.
Qed.

(** [v9p_strlen] returns the length of the string (below 2^32). *)
Lemma strlen_correct (mem : list Z) (p : Z) (s : list Z)
    (Hs : cstr mem p s) (Hlen : Z.of_nat (length s) < 2 ^ 32) :
  strlen mem p = Some (Z.of_nat (length s)).
Proof.
  pose proof (cstr_bound _ _ _ Hs) as Hb. assert (0 <= p) by apply Hs.
  unfold strlen. rewrite (strlen_loop_spec mem s) by (done || lia). simpl. f_equal.
  rewrite u32_small by lia. lia.
Qed.

(** A string is not disturbed by a write outside it. *)
Lemma cstr_blit mem i bs mem' p s :
  blit mem i bs = Some mem' -> cstr mem p s ->
  (p + Z.of_nat (length s) < i \/ i + Z.of_nat (length bs) <= p) -> cstr mem' p s.
Proof.
  intros E (Hp & Hn & Hs) Hd. split_and!; [done..|].
  rewrite <- Hs. apply (slice_blit_ne _ _ _ _ _ _ E); lia.
Qed.

Lemma strncpy_copy_spec n mem d src s :
  cstr mem src s -> 0 <= d -> d + Z.of_nat n <= Z.of_nat (length mem) ->
  (d + Z.of_nat n <= src \/ src + Z.of_nat (length s) < d) ->
  exists mem', blit mem d (take n s) = Some mem' /\
    strncpy_copy n mem d src =
    Some (mem', d + Z.of_nat (length (take n s)), (n - length (take n s))%nat).
Proof.
  revert mem d src s; induction n as [|n IH]; intros mem d src s Hs Hd Hn Hdis.
  { exists mem. simpl. rewrite blit_nil, Z.add_0_r by lia. auto. }
  cbn [strncpy_copy]. destruct s as [|c s].
  { exists mem. rewrite (cstr_nil_inv _ _ Hs). simpl.
    rewrite blit_nil, Z.add_0_r by lia. auto. }
  pose proof (cstr_cons_inv _ _ _ _ Hs) as (Hc & Hg & Hs').
  rewrite Hg. cbn [mbind option_bind]. destruct (Z.eqb_spec c 0); [done|].
  rewrite setb_blit. destruct (blit mem d [c]) as [m1|] eqn:E.
  2: { rewrite blit_Some in E by (simpl; lia). done. }
  cbn [mbind option_bind]. simpl length in Hdis.
  destruct (IH m1 (d + 1) (src + 1) s) as (m2 & E2 & ->).
  { eapply cstr_blit; eauto. simpl; lia. }
  { lia. } { rewrite (blit_length _ _ _ _ E). lia. } { lia. }
  exists m2. simpl take. split; [|simpl length; tuple_lia].
  change (c :: take n s) with ([c] ++ take n s).
  by rewrite <- (blit_blit _ _ _ _ _ E).
Qed.

(** [v9p_strncpy] writes exactly [n] bytes: the first [n] bytes of the
    string, then NUL padding (so no terminator when the string is too long). *)
Lemma strncpy_correct (mem : list Z) (dst src : Z) (n : nat) (s : list Z)
    (Hs : cstr mem src s) (Hd : 0 <= dst)
    (Hn : dst + Z.of_nat n <= Z.of_nat (length mem))
    (Hdis : dst + Z.of_nat n <= src \/ src + Z.of_nat (length s) < dst) :
  strncpy mem dst src n = blit mem dst (take n s ++ replicate (n - length s) 0).
Proof.
  unfold strncpy.
  destruct (strncpy_copy_spec n mem dst src s) as (m1 & E1 & ->); [done..|].
  cbn [mbind option_bind]. rewrite length_take in *.
  rewrite memset_tail_spec; rewrite ?(blit_length _ _ _ _ E1); try lia.
  rewrite <- (blit_blit _ _ _ _ _ E1), length_take. do 2 f_equal. lia.
Qed.

Lemma strcmp_loop_spec mem sa sb a b fuel :
  cstr mem a sa -> cstr mem b sb -> (length sa < fuel)%nat ->
  exists k, (k <= length sa)%nat /\ (k <= length sb)%nat /\
    strcmp_loop fuel mem a b = Some (a + Z.of_nat k, b + Z.of_nat k) /\
    take k sa = take k sb /\ (sa !! k = None \/ sa !! k <> sb !! k).
Proof.
  revert sb a b fuel; induction sa as [|ca sa IH];
    intros sb a b [|fuel] Ha Hb Hf; simpl in Hf; try lia.
  { exists 0%nat. simpl. rewrite (cstr_nil_inv _ _ Ha). simpl. rewrite !Z.add_0_r.
    split_and!; auto with lia. }
  apply cstr_cons_inv in Ha as (Hca & Hga & Ha). simpl. rewrite Hga. simpl.
  destruct (Z.eqb_spec ca 0); [done|]. destruct sb as [|cb sb].
  { exists 0%nat. rewrite (cstr_nil_inv _ _ Hb). simpl.
    destruct (Z.eqb_spec ca 0); [done|]. rewrite !Z.add_0_r. split_and!; auto with lia. }
  apply cstr_cons_inv in Hb as (Hcb & Hgb & Hb). rewrite Hgb. simpl.
  destruct (Z.eqb_spec ca cb) as [->|Hne].
  - destruct (IH sb (a + 1) (b + 1) fuel Ha Hb) as (k & Hk & Hk' & -> & Ht & Hl); [lia|].
    exists (S k). simpl. split_and!; [lia|lia|tuple_lia|by f_equal|done].
  - exists 0%nat. simpl. rewrite !Z.add_0_r. split_and!; auto with lia.
    right. by intros [= ?].
Qed.

Lemma cstr_get mem p s k :
  cstr mem p s -> (k <= length s)%nat ->
  getb mem (p + Z.of_nat k) = Some (default 0 (s !! k)).
Proof.
  revert p s; induction k as [|k IH]; intros p s Hs Hk.
  - rewrite Z.add_0_r. destruct s as [|c s]; [by apply cstr_nil_inv|].
    by apply cstr_cons_inv in Hs as (_ & ? & _).
  - destruct s as [|c s]; simpl in Hk; [lia|].
    apply cstr_cons_inv in Hs as (_ & _ & Hs). simpl.
    rewrite <- (IH (p + 1) s) by (done || lia). f_equal. lia.
Qed.

(** [v9p_strcmp] returns 0 exactly on equal strings. *)
Lemma strcmp_zero_iff (mem : list Z) (a b : Z) (sa sb : list Z)
    (Ha : cstr mem a sa) (Hb : cstr mem b sb) :
  exists r, strcmp mem a b = Some r /\ (r = 0 <-> sa = sb).
Proof.
  pose proof (cstr_bound _ _ _ Ha) as Hla. unfold strcmp.
  assert (0 <= a) by apply Ha.
  destruct (strcmp_loop_spec mem sa sb a b (S (length mem)))
    as (k & Hk & Hk' & -> & Ht & Hl); [done|done|lia|].
  cbn [mbind option_bind].
  rewrite (cstr_get _ _ _ _ Ha Hk), (cstr_get _ _ _ _ Hb Hk'). simpl.
  eexists; split; [done|].
  assert (Hnz : forall s j c, Forall (fun c => c <> 0) s -> s !! j = Some c -> c <> 0)
    by (intros s j c Hf Hj; exact (Forall_lookup_1 _ _ _ _ Hf Hj)).
  destruct Ha as (_ & Hna & _), Hb as (_ & Hnb & _). split.
  - intros Hz. destruct (sa !! k) as [x|] eqn:Ex, (sb !! k) as [y|] eqn:Ey; simpl in Hz.
    + destruct Hl as [|Hl]; [done|]. exfalso. apply Hl. f_equal. lia.
    + apply Hnz in Ex; [|done]. lia.
    + apply Hnz in Ey; [|done]. lia.
    + apply lookup_ge_None in Ex, Ey. rewrite !take_ge in Ht by lia. done.
  - intros ->. lia.
Qed.

(** The index of the first and of the last occurrence of a character. *)
Fixpoint first_index (c : Z) (s : list Z) : option nat :=
  match s with
  | [] => None
  | x :: s' => if x =? c then Some 0%nat else S <$> first_index c s'
  end.

Fixpoint last_index (c : Z) (s : list Z) : option nat :=
  match s with
  | [] => None
  | x :: s' =>
      match last_index c s' with
      | Some k => Some (S k)
      | None => if x =? c then Some 0%nat else None
      end
  end.

Lemma strchr_loop_spec mem s p c fuel :
  cstr mem p s -> is_byte c -> c <> 0 -> (length s < fuel)%nat ->
  strchr_loop fuel mem p c = Some ((fun k => p + Z.of_nat k) <$> first_index c s).
Proof.
  intros Hs Hc Hc0. revert p fuel Hs; induction s as [|x s IH];
    intros p [|fuel] Hs Hf; simpl in *; try lia.
  - rewrite (cstr_nil_inv _ _ Hs). simpl. by destruct (Z.eqb_spec c 0).
  - apply cstr_cons_inv in Hs as (Hx & -> & Hs). simpl.
    destruct (Z.eqb_spec x 0); [done|]. rewrite u8_small by done.
    destruct (Z.eqb_spec x c); simpl; [by rewrite Z.add_0_r|].
    rewrite IH by (done || lia). f_equal. rewrite <- option_fmap_compose.
    apply option_fmap_ext. intros k. simpl. lia.
Qed.

Lemma strrchr_loop_spec mem s p c fuel last :
  cstr mem p s -> is_byte c -> c <> 0 -> (length s < fuel)%nat ->
  strrchr_loop fuel mem p c last =
  Some (match last_index c s with Some k => Some (p + Z.of_nat k) | None => last end).
Proof.
  intros Hs Hc Hc0. revert p fuel last Hs; induction s as [|x s IH];
    intros p [|fuel] last Hs Hf; simpl in *; try lia.
  - rewrite (cstr_nil_inv _ _ Hs). simpl. by destruct (Z.eqb_spec c 0).
  - apply cstr_cons_inv in Hs as (Hx & -> & Hs). simpl.
    destruct (Z.eqb_spec x 0); [done|]. rewrite u8_small by done.
    rewrite IH by (done || lia). f_equal.
    destruct (last_index c s); simpl; [f_equal; lia|].
    destruct (Z.eqb_spec x c); [f_equal; lia|done].
Qed.

(** [v9p_strchr] and [v9p_strrchr] find the first and the last occurrence
    of a non-NUL character, and return NULL when there is none. *)
Lemma strchr_strrchr_correct (mem : list Z) (p c : Z) (s : list Z)
    (Hs : cstr mem p s) (Hc : is_byte c) (Hc0 : c <> 0) :
  strchr mem p c = Some ((fun k => p + Z.of_nat k) <$> first_index c s) /\
  strrchr mem p c = Some ((fun k => p + Z.of_nat k) <$> last_index c s).
Proof.
  pose proof (cstr_bound _ _ _ Hs) as Hl. assert (0 <= p) by apply Hs. split.
  - apply strchr_loop_spec; auto with lia.
  - unfold strrchr. rewrite (strrchr_loop_spec mem s) by (done || lia).
    by destruct (last_index c s).
Qed.

