(* ===== verification/Marshal.v ===== *)
(** * Marshal: the 9P2000.L wire helpers

    Models include/p9_protocol.h (constants and structures) and
    src/p9_marshal.c.  A [uint8 *buf] is the list of the bytes of the array, a
    [uint32 *off] is a [Z] that the operation returns advanced, and [None] is
    an access outside the array.  A [const char *] argument is the content of
    the NUL-terminated string (a list of non-zero bytes). *)

From S2P Require Import Prelude CString.

(** ** p9_protocol.h: constants *)

(** "9P2000.L" *)
Definition P9_VERSION_STR : list Z := [57; 80; 50; 48; 48; 48; 46; 76].
Definition P9_MSIZE : Z := 524288.
Definition P9_NOFID : Z := 0xFFFFFFFF.
Definition P9_NOTAG : Z := 0xFFFF.
Definition P9_MAXWELEM : Z := 16.

Definition P9_RLERROR : Z := 7.
Definition P9_TSTATFS : Z := 8.
Definition P9_TLOPEN : Z := 12.
Definition P9_TLCREATE : Z := 14.
Definition P9_TSYMLINK : Z := 16.
Definition P9_TREADLINK : Z := 22.
Definition P9_TGETATTR : Z := 24.
Definition P9_TSETATTR : Z := 26.
Definition P9_TREADDIR : Z := 40.
Definition P9_TFSYNC : Z := 50.
Definition P9_TLINK : Z := 70.
Definition P9_TMKDIR : Z := 72.
Definition P9_TRENAMEAT : Z := 74.
Definition P9_TUNLINKAT : Z := 76.
Definition P9_TVERSION : Z := 100.
Definition P9_TATTACH : Z := 104.
Definition P9_TFLUSH : Z := 108.
Definition P9_TWALK : Z := 110.
Definition P9_TREAD : Z := 116.
Definition P9_RREAD : Z := 117.
Definition P9_RREADDIR : Z := 41.
Definition P9_RWRITE : Z := 119.
Definition P9_TWRITE : Z := 118.
Definition P9_TCLUNK : Z := 120.

Definition P9_GETATTR_MODE : Z := 0x1.
Definition P9_GETATTR_BASIC : Z := 0x7FF.

Definition P9_SETATTR_MODE : Z := 0x1.
Definition P9_SETATTR_UID : Z := 0x2.
Definition P9_SETATTR_GID : Z := 0x4.
Definition P9_SETATTR_SIZE : Z := 0x8.
Definition P9_SETATTR_ATIME : Z := 0x10.
Definition P9_SETATTR_MTIME : Z := 0x20.
Definition P9_SETATTR_ATIME_SET : Z := 0x80.
Definition P9_SETATTR_MTIME_SET : Z := 0x100.

Definition P9_AT_REMOVEDIR : Z := 0x200.

(** ** p9_protocol.h: structures *)

Record P9Qid := mkP9Qid { qid_type : Z; qid_version : Z; qid_path : Z }.

Record P9Stat := mkP9Stat {
  st_valid : Z; st_qid : P9Qid; st_mode : Z; st_uid : Z; st_gid : Z;
  st_nlink : Z; st_rdev : Z; st_size : Z; st_blksize : Z; st_blocks : Z;
  st_atime_sec : Z; st_atime_nsec : Z; st_mtime_sec : Z; st_mtime_nsec : Z;
  st_ctime_sec : Z; st_ctime_nsec : Z; st_btime_sec : Z; st_btime_nsec : Z;
  st_gen : Z; st_data_version : Z }.

Record P9Iattr := mkP9Iattr {
  ia_valid : Z; ia_mode : Z; ia_uid : Z; ia_gid : Z; ia_size : Z;
  ia_atime_sec : Z; ia_atime_nsec : Z; ia_mtime_sec : Z; ia_mtime_nsec : Z }.

Record P9Statfs := mkP9Statfs {
  sf_type : Z; sf_bsize : Z; sf_blocks : Z; sf_bfree : Z; sf_bavail : Z;
  sf_files : Z; sf_ffree : Z; sf_fsid : Z; sf_namelen : Z }.

#[global] Instance P9Qid_eq_dec : EqDecision P9Qid.
Proof. solve_decision. Defined.
#[global] Instance P9Stat_eq_dec : EqDecision P9Stat.
Proof. solve_decision. Defined.
#[global] Instance P9Statfs_eq_dec : EqDecision P9Statfs.
Proof. solve_decision. Defined.

(** ** Marshal helpers *)

Definition p9_put_u8 (buf : list Z) (off val : Z) : option (list Z * Z) :=
  buf ← setb buf off (u8 val);
  Some (buf, u32 (off + 1)).

Definition p9_put_u16 (buf : list Z) (off val : Z) : option (list Z * Z) :=
  buf ← setb buf off (u8 val);
  buf ← setb buf (u32 (off + 1)) (u8 (Z.shiftr val 8));
  Some (buf, u32 (off + 2)).

Definition p9_put_u32 (buf : list Z) (off val : Z) : option (list Z * Z) :=
  buf ← setb buf off (u8 val);
  buf ← setb buf (u32 (off + 1)) (u8 (Z.shiftr val 8));
  buf ← setb buf (u32 (off + 2)) (u8 (Z.shiftr val 16));
  buf ← setb buf (u32 (off + 3)) (u8 (Z.shiftr val 24));
  Some (buf, u32 (off + 4)).

Definition p9_put_u64 (buf : list Z) (off val : Z) : option (list Z * Z) :=
  buf ← setb buf off (u8 val);
  buf ← setb buf (u32 (off + 1)) (u8 (Z.shiftr val 8));
  buf ← setb buf (u32 (off + 2)) (u8 (Z.shiftr val 16));
  buf ← setb buf (u32 (off + 3)) (u8 (Z.shiftr val 24));
  buf ← setb buf (u32 (off + 4)) (u8 (Z.shiftr val 32));
  buf ← setb buf (u32 (off + 5)) (u8 (Z.shiftr val 40));
  buf ← setb buf (u32 (off + 6)) (u8 (Z.shiftr val 48));
  buf ← setb buf (u32 (off + 7)) (u8 (Z.shiftr val 56));
  Some (buf, u32 (off + 8)).

(** [uint16 len = (uint16)strlen(s)]: a longer string is cut to its length
    modulo 2^16. *)
Definition p9_put_str (buf : list Z) (off : Z) (s : list Z) : option (list Z * Z) :=
  let len := u16 (Z.of_nat (length s)) in
  '(buf, off) ← p9_put_u16 buf off len;
  buf ← blit buf off (take (Z.to_nat len) s);
  Some (buf, u32 (off + len)).

Definition p9_put_header (buf : list Z) (type tag : Z) : option (list Z * Z) :=
  let off := 4 in
  '(buf, off) ← p9_put_u8 buf off type;
  p9_put_u16 buf off tag.

Definition p9_finalize (buf : list Z) (total_size : Z) : option (list Z) :=
  '(buf, _) ← p9_put_u32 buf 0 total_size;
  Some buf.

(** ** Unmarshal helpers *)

Definition p9_get_u8 (buf : list Z) (off : Z) : option (Z * Z) :=
  b0 ← getb buf off;
  Some (b0, u32 (off + 1)).

Definition p9_get_u16 (buf : list Z) (off : Z) : option (Z * Z) :=
  b0 ← getb buf off; b1 ← getb buf (u32 (off + 1));
  Some (Z.lor b0 (Z.shiftl b1 8), u32 (off + 2)).

Definition p9_get_u32 (buf : list Z) (off : Z) : option (Z * Z) :=
  b0 ← getb buf off; b1 ← getb buf (u32 (off + 1));
  b2 ← getb buf (u32 (off + 2)); b3 ← getb buf (u32 (off + 3));
  Some (Z.lor (Z.lor (Z.lor b0 (Z.shiftl b1 8)) (Z.shiftl b2 16)) (Z.shiftl b3 24),
        u32 (off + 4)).

Definition p9_get_u64 (buf : list Z) (off : Z) : option (Z * Z) :=
  b0 ← getb buf off; b1 ← getb buf (u32 (off + 1));
  b2 ← getb buf (u32 (off + 2)); b3 ← getb buf (u32 (off + 3));
  b4 ← getb buf (u32 (off + 4)); b5 ← getb buf (u32 (off + 5));
  b6 ← getb buf (u32 (off + 6)); b7 ← getb buf (u32 (off + 7));
  Some (Z.lor (Z.lor (Z.lor (Z.lor (Z.lor (Z.lor (Z.lor b0 (Z.shiftl b1 8))
          (Z.shiftl b2 16)) (Z.shiftl b3 24)) (Z.shiftl b4 32)) (Z.shiftl b5 40))
          (Z.shiftl b6 48)) (Z.shiftl b7 56),
        u32 (off + 8)).

(** [out] is the destination array; the result is its new content and the
    advanced offset. *)
Definition p9_get_str (buf : list Z) (buf_len off : Z) (out : list Z) (max : Z)
    : option (list Z * Z) :=
  if buf_len <? u32 (off + 2) then out ← setb out 0 0; Some (out, off)
  else
    '(len, off) ← p9_get_u16 buf off;
    if (buf_len <=? off) || (u32 (buf_len - off) <? len)
    then out ← setb out 0 0; Some (out, off)
    else
      let copy := if len <? u32 (max - 1) then len else u32 (max - 1) in
      (* the source of the memcpy must lie in the buffer *)
      if off + copy <=? Z.of_nat (length buf) then
        out ← blit out 0 (slice buf off copy);
        out ← setb out copy 0;
        Some (out, u32 (off + len))
      else None.

Definition p9_get_qid (buf : list Z) (off : Z) : option (P9Qid * Z) :=
  '(type, off) ← p9_get_u8 buf off;
  '(version, off) ← p9_get_u32 buf off;
  '(path, off) ← p9_get_u64 buf off;
  Some (mkP9Qid type version path, off).

(** ** The helpers as block operations *)

(** [n] bytes at [off] lie in the buffer, and offsets in it do not wrap. *)
Definition fits (buf : list Z) (off n : Z) : Prop :=
  0 <= off /\ 0 <= n /\ off + n <= Z.of_nat (length buf) /\
  Z.of_nat (length buf) < 2 ^ 32.

Lemma fits_blit buf off n i bs buf' :
  blit buf i bs = Some buf' -> fits buf off n -> fits buf' off n.
Proof. unfold fits. intros E. by rewrite (blit_length _ _ _ _ E). Qed.

Lemma setb_after l i a l' j v :
  blit l i a = Some l' -> j = i + Z.of_nat (length a) ->
  setb l' j v = blit l i (a ++ [v]).
Proof. intros E ->. rewrite setb_blit. by apply blit_blit. Qed.

Lemma le_bytes_2 v : le_bytes 2 v = [u8 v; u8 (Z.shiftr v 8)].
Proof. done. Qed.

Lemma le_bytes_4 v :
  le_bytes 4 v =
  [u8 v; u8 (Z.shiftr v 8); u8 (Z.shiftr v 16); u8 (Z.shiftr v 24)].
Proof. simpl. by rewrite !Z.shiftr_shiftr by lia. Qed.

Lemma le_bytes_8 v :
  le_bytes 8 v =
  [u8 v; u8 (Z.shiftr v 8); u8 (Z.shiftr v 16); u8 (Z.shiftr v 24);
   u8 (Z.shiftr v 32); u8 (Z.shiftr v 40); u8 (Z.shiftr v 48); u8 (Z.shiftr v 56)].
Proof. simpl. by rewrite !Z.shiftr_shiftr by lia. Qed.

(** A run of byte stores is one block store. *)
Ltac put_bytes :=
  rewrite setb_blit;
  repeat match goal with
  | |- context [mbind _ (blit ?l ?i ?a)] =>
      let m := fresh "m" in let E := fresh "E" in
      destruct (blit l i a) as [m|] eqn:E;
      [ cbn [mbind option_bind];
        try (rewrite (setb_after _ _ _ _ _ _ E) by (simpl length; lia);
             simpl app; clear E m)
      | exfalso; rewrite blit_Some in E by (simpl length; lia); discriminate ]
  end.

Section put.
Context (buf : list Z) (off : Z).

Lemma p9_put_u8_spec v :
  fits buf off 1 ->
  p9_put_u8 buf off v = (fun b => (b, off + 1)) <$> blit buf off (le_bytes 1 v).
Proof.
  intros (? & ? & ? & ?). unfold p9_put_u8. unwrap.
  change (le_bytes 1 v) with [u8 v]. by put_bytes.
Qed.

Lemma p9_put_u16_spec v :
  fits buf off 2 ->
  p9_put_u16 buf off v = (fun b => (b, off + 2)) <$> blit buf off (le_bytes 2 v).
Proof.
  intros (? & ? & ? & ?). unfold p9_put_u16. unwrap. rewrite le_bytes_2.
  by put_bytes.
Qed.

Lemma p9_put_u32_spec v :
  fits buf off 4 ->
  p9_put_u32 buf off v = (fun b => (b, off + 4)) <$> blit buf off (le_bytes 4 v).
Proof.
  intros (? & ? & ? & ?). unfold p9_put_u32. unwrap. rewrite le_bytes_4.
  by put_bytes.
Qed.

Lemma p9_put_u64_spec v :
  fits buf off 8 ->
  p9_put_u64 buf off v = (fun b => (b, off + 8)) <$> blit buf off (le_bytes 8 v).
Proof.
  intros (? & ? & ? & ?). unfold p9_put_u64. unwrap. rewrite le_bytes_8.
  by put_bytes.
Qed.
End put.

(** The wire form of a string. *)
Definition enc_str (s : list Z) : list Z :=
  le_bytes 2 (Z.of_nat (length s)) ++ s.

Arguments enc_str : simpl never.

Definition len_ok (s : list Z) : Prop := Z.of_nat (length s) < 65536.

Lemma length_enc_str s : length (enc_str s) = (2 + length s)%nat.
Proof. unfold enc_str. by rewrite length_app, length_le_bytes. Qed.

Lemma p9_put_str_spec buf off s :
  len_ok s -> fits buf off (2 + Z.of_nat (length s)) ->
  p9_put_str buf off s =
  (fun b => (b, off + Z.of_nat (length (enc_str s)))) <$> blit buf off (enc_str s).
Proof.
  intros Hs (? & ? & ? & ?). unfold len_ok in Hs. unfold p9_put_str.
  rewrite (u16_small (Z.of_nat (length s))) by lia. rewrite Nat2Z.id, firstn_all.
  rewrite p9_put_u16_spec by (unfold fits; lia).
  destruct (blit buf off (le_bytes 2 (Z.of_nat (length s)))) as [b1|] eqn:E.
  2: { rewrite blit_Some in E by (rewrite ?length_le_bytes; lia). done. }
  cbn [fmap option_fmap option_map mbind option_bind].
  pose proof (blit_blit _ _ _ s _ E) as E2. rewrite length_le_bytes in E2.
  change (Z.of_nat 2) with 2 in E2. rewrite E2. fold (enc_str s).
  destruct (blit buf off (enc_str s)); simpl; [|done].
  rewrite u32_small by lia. tuple_lia.
Qed.

(** ** The gets as slices *)

Lemma getb_slice_0 l off n : 0 <= off -> 0 < n -> getb (slice l off n) 0 = getb l off.
Proof. intros. rewrite getb_slice, Z.add_0_r by lia. done. Qed.

Lemma le_val_4 b0 b1 b2 b3 :
  le_val [b0; b1; b2; b3] =
  Z.lor (Z.lor (Z.lor b0 (Z.shiftl b1 8)) (Z.shiftl b2 16)) (Z.shiftl b3 24).
Proof.
  simpl. rewrite !Z.shiftl_lor, !Z.shiftl_shiftl, ?Z.shiftl_0_l, Z.lor_0_r by lia.
  by rewrite !Z.lor_assoc.
Qed.

Lemma le_val_8 b0 b1 b2 b3 b4 b5 b6 b7 :
  le_val [b0; b1; b2; b3; b4; b5; b6; b7] =
  Z.lor (Z.lor (Z.lor (Z.lor (Z.lor (Z.lor (Z.lor b0 (Z.shiftl b1 8))
    (Z.shiftl b2 16)) (Z.shiftl b3 24)) (Z.shiftl b4 32)) (Z.shiftl b5 40))
    (Z.shiftl b6 48)) (Z.shiftl b7 56).
Proof.
  simpl. rewrite !Z.shiftl_lor, !Z.shiftl_shiftl, ?Z.shiftl_0_l, Z.lor_0_r by lia.
  by rewrite !Z.lor_assoc.
Qed.

(** Name the bytes of a slice of known length. *)
Ltac name_slice buf off n :=
  let x := fresh "x" in let Hl := fresh "Hl" in
  pose proof (slice_length buf off n ltac:(lia) ltac:(lia) ltac:(lia)) as Hl;
  rewrite <- (getb_slice_0 buf off n) by lia;
  rewrite <- ?(getb_slice buf off n) by lia;
  generalize dependent (slice buf off n); intros x Hl;
  repeat (destruct x as [|? x]; simpl in Hl; try lia); clear Hl.

Section gets.
Context (buf : list Z) (off : Z).

Lemma p9_get_u8_spec :
  fits buf off 1 -> p9_get_u8 buf off = Some (le_val (slice buf off 1), off + 1).
Proof.
  intros (? & ? & ? & ?). unfold p9_get_u8. unwrap. name_slice buf off 1.
  simpl. by rewrite Z.lor_0_r.
Qed.

Lemma p9_get_u16_spec :
  fits buf off 2 -> p9_get_u16 buf off = Some (le_val (slice buf off 2), off + 2).
Proof.
  intros (? & ? & ? & ?). unfold p9_get_u16. unwrap. name_slice buf off 2.
  simpl. by rewrite Z.lor_0_r.
Qed.

Lemma p9_get_u32_spec :
  fits buf off 4 -> p9_get_u32 buf off = Some (le_val (slice buf off 4), off + 4).
Proof.
  intros (? & ? & ? & ?). unfold p9_get_u32. unwrap. name_slice buf off 4.
  by rewrite le_val_4.
Qed.

Lemma p9_get_u64_spec :
  fits buf off 8 -> p9_get_u64 buf off = Some (le_val (slice buf off 8), off + 8).
Proof.
  intros (? & ? & ? & ?). unfold p9_get_u64. unwrap. name_slice buf off 8.
  by rewrite le_val_8.
Qed.
End gets.

#[global] Arguments le_bytes : simpl never.
#[global] Arguments le_val : simpl never.

Create Rewrite HintDb marshal.
#[export] Hint Rewrite length_le_bytes length_enc_str : marshal.

(** ** Round trips *)

(** A value put at an offset of a buffer and read back from there is the
    value modulo the width, for the 8-, 16-, 32- and 64-bit helpers; the
    buffer keeps its size and no byte outside the field changes. *)
Lemma put_get_roundtrip (buf : list Z) (off v : Z) (Hf : fits buf off 8) :
  (exists b, p9_put_u8 buf off v = Some (b, off + 1) /\ length b = length buf /\
     take (Z.to_nat off) b = take (Z.to_nat off) buf /\
     drop (Z.to_nat (off + 1)) b = drop (Z.to_nat (off + 1)) buf /\
     p9_get_u8 b off = Some (u8 v, off + 1)) /\
  (exists b, p9_put_u16 buf off v = Some (b, off + 2) /\ length b = length buf /\
     take (Z.to_nat off) b = take (Z.to_nat off) buf /\
     drop (Z.to_nat (off + 2)) b = drop (Z.to_nat (off + 2)) buf /\
     p9_get_u16 b off = Some (u16 v, off + 2)) /\
  (exists b, p9_put_u32 buf off v = Some (b, off + 4) /\ length b = length buf /\
     take (Z.to_nat off) b = take (Z.to_nat off) buf /\
     drop (Z.to_nat (off + 4)) b = drop (Z.to_nat (off + 4)) buf /\
     p9_get_u32 b off = Some (u32 v, off + 4)) /\
  (exists b, p9_put_u64 buf off v = Some (b, off + 8) /\ length b = length buf /\
     take (Z.to_nat off) b = take (Z.to_nat off) buf /\
     drop (Z.to_nat (off + 8)) b = drop (Z.to_nat (off + 8)) buf /\
     p9_get_u64 b off = Some (u64 v, off + 8)).
Proof.
  destruct Hf as (H1 & H2 & H3 & H4).
  assert (Hb : forall n, (n <= 8)%nat ->
    exists b, blit buf off (le_bytes n v) = Some b /\ length b = length buf /\
      take (Z.to_nat off) b = take (Z.to_nat off) buf /\
      drop (Z.to_nat (off + Z.of_nat n)) b = drop (Z.to_nat (off + Z.of_nat n)) buf /\
      le_val (slice b off (Z.of_nat n)) = v mod 2 ^ (8 * Z.of_nat n)).
  { intros n Hn. destruct (blit buf off (le_bytes n v)) as [b|] eqn:E.
    2: { rewrite blit_Some in E by (rewrite ?length_le_bytes; lia). done. }
    exists b. split_and!; [done|by eapply blit_length| | |].
    - apply (take_blit _ _ _ _ _ E). lia.
    - apply (drop_blit _ _ _ _ _ E). rewrite length_le_bytes. lia.
    - rewrite <- le_val_bytes, <- (slice_blit_same _ _ _ _ E), length_le_bytes. done. }
  split_and!.
  - destruct (Hb 1%nat) as (b & E & L & T & D & V); [lia|]. exists b.
    rewrite p9_put_u8_spec, E by (unfold fits; lia). split_and!; [done..|].
    rewrite p9_get_u8_spec by (unfold fits; lia). do 2 f_equal. exact V.
  - destruct (Hb 2%nat) as (b & E & L & T & D & V); [lia|]. exists b.
    rewrite p9_put_u16_spec, E by (unfold fits; lia). split_and!; [done..|].
    rewrite p9_get_u16_spec by (unfold fits; lia). do 2 f_equal. exact V.
  - destruct (Hb 4%nat) as (b & E & L & T & D & V); [lia|]. exists b.
    rewrite p9_put_u32_spec, E by (unfold fits; lia). split_and!; [done..|].
    rewrite p9_get_u32_spec by (unfold fits; lia). do 2 f_equal. exact V.
  - destruct (Hb 8%nat) as (b & E & L & T & D & V); [lia|]. exists b.
    rewrite p9_put_u64_spec, E by (unfold fits; lia). split_and!; [done..|].
    rewrite p9_get_u64_spec by (unfold fits; lia). do 2 f_equal. exact V.
Qed.

(** ** p9_get_str *)

(** The content of the C string at the start of an array. *)
Fixpoint cstr_of (out : list Z) : list Z :=
  match out with
  | [] => []
  | c :: out' => if c =? 0 then [] else c :: cstr_of out'
  end.

Lemma cstr_of_app_zero s x : Forall (fun c => c <> 0) s -> cstr_of (s ++ 0 :: x) = s.
Proof.
  induction 1 as [|c s Hc _ IH]; simpl; [done|].
  destruct (Z.eqb_spec c 0); [done|]. by rewrite IH.
Qed.

(** [p9_get_str] without machine arithmetic: what it stores and how far it
    advances, in its three cases. *)
Definition get_str_ref (buf : list Z) (buf_len off : Z) (out : list Z) (max : Z)
    : list Z * Z :=
  let len := le_val (slice buf off 2) in
  if buf_len <? off + 2 then (0 :: drop 1 out, off)
  else if (buf_len =? off + 2) || (buf_len - (off + 2) <? len)
  then (0 :: drop 1 out, off + 2)
  else
    let copy := Z.min len (max - 1) in
    (slice buf (off + 2) copy ++ 0 :: drop (Z.to_nat copy + 1) out, off + 2 + len).

Definition get_str_pre (buf : list Z) (buf_len off : Z) (out : list Z) (max : Z) : Prop :=
  Forall is_byte buf /\ 0 <= off <= buf_len /\ buf_len <= Z.of_nat (length buf) /\
  Z.of_nat (length buf) < 2 ^ 31 /\ 1 <= max <= Z.of_nat (length out) /\ max < 2 ^ 32.

Lemma setb_0_cons out v : (0 < length out)%nat -> setb out 0 v = Some (v :: drop 1 out).
Proof. destruct out; simpl; [lia|]. intros _. rewrite setb_Some by (simpl; lia). done. Qed.

Lemma setb_mid a (x : list Z) v k :
  k = Z.of_nat (length a) -> (0 < length x)%nat ->
  setb (a ++ x) k v = Some (a ++ v :: drop 1 x).
Proof.
  intros -> Hx. destruct x as [|y x]; simpl in Hx; [lia|].
  rewrite setb_Some by (rewrite length_app; simpl; lia).
  rewrite Nat2Z.id, insert_app_r_alt, Nat.sub_diag by lia. done.
Qed.

Lemma p9_get_str_eq buf buf_len off out max :
  get_str_pre buf buf_len off out max ->
  p9_get_str buf buf_len off out max = Some (get_str_ref buf buf_len off out max).
Proof.
  intros (Hby & Hoff & Hbl & Hl & Hmax & Hm32). unfold p9_get_str, get_str_ref.
  rewrite (u32_small (off + 2)) by lia.
  destruct (Z.ltb_spec buf_len (off + 2)).
  { rewrite setb_0_cons by lia. done. }
  rewrite p9_get_u16_spec by (unfold fits; lia). cbn [mbind option_bind].
  pose proof (le_val_range _ (slice_byte buf off 2 Hby)) as Hlen.
  rewrite slice_length in Hlen by lia.
  set (len := le_val (slice buf off 2)) in *. clearbody len.
  destruct (Z.leb_spec buf_len (off + 2)), (Z.eqb_spec buf_len (off + 2)); try lia; simpl.
  { rewrite setb_0_cons by lia. done. }
  rewrite (u32_small (buf_len - (off + 2))) by lia.
  destruct (Z.ltb_spec (buf_len - (off + 2)) len).
  { rewrite setb_0_cons by lia. done. }
  rewrite (u32_small (max - 1)) by lia.
  replace (if len <? max - 1 then len else max - 1) with (Z.min len (max - 1))
    by (destruct (Z.ltb_spec len (max - 1)); lia).
  set (copy := Z.min len (max - 1)).
  destruct (Z.leb_spec (off + 2 + copy) (Z.of_nat (length buf))); [|lia].
  assert (Hsl : length (slice buf (off + 2) copy) = Z.to_nat copy)
    by (apply slice_length; lia).
  rewrite blit_Some by lia. cbn [mbind option_bind]. simpl app. rewrite Hsl.
  rewrite setb_mid by (rewrite ?length_drop; lia). cbn [mbind option_bind].
  rewrite drop_drop, u32_small by lia. simpl. tuple_lia.
Qed.

(** C40: on arbitrary response bytes [p9_get_str] never reads outside the
    response nor writes outside [max] bytes of the destination; the offset
    stays inside the response and the result is a terminated string shorter
    than [max]. *)
Theorem p9_get_str_safe (buf : list Z) (buf_len off : Z) (out : list Z) (max : Z)
    (Hpre : get_str_pre buf buf_len off out max) :
  exists out' off', p9_get_str buf buf_len off out max = Some (out', off') /\
    off <= off' <= buf_len /\ length out' = length out /\
    drop (Z.to_nat max) out' = drop (Z.to_nat max) out /\
    exists k, 0 <= k < max /\ getb out' k = Some 0.
Proof.
  rewrite p9_get_str_eq by done.
  destruct Hpre as (Hby & Hoff & Hbl & Hl & Hmax & Hm32).
  pose proof (le_val_range _ (slice_byte buf off 2 Hby)) as Hlen.
  assert (Hzero : forall o', off <= o' <= buf_len ->
    exists out' off', Some (0 :: drop 1 out, o') = Some (out', off') /\
    off <= off' <= buf_len /\ length out' = length out /\
    drop (Z.to_nat max) out' = drop (Z.to_nat max) out /\
    exists k, 0 <= k < max /\ getb out' k = Some 0).
  { intros o' Ho. exists (0 :: drop 1 out), o'. split_and!; [done|lia|lia| | |].
    - simpl. rewrite length_drop. lia.
    - replace (Z.to_nat max) with (S (Z.to_nat (max - 1))) by lia. simpl.
      rewrite drop_drop. done.
    - exists 0. split; [lia|done]. }
  unfold get_str_ref. destruct (Z.ltb_spec buf_len (off + 2)); [apply Hzero; lia|].
  destruct (Z.eqb_spec buf_len (off + 2)); simpl; [apply Hzero; lia|].
  destruct (Z.ltb_spec (buf_len - (off + 2)) (le_val (slice buf off 2)));
    [apply Hzero; lia|].
  set (copy := Z.min (le_val (slice buf off 2)) (max - 1)).
  assert (Hsl : length (slice buf (off + 2) copy) = Z.to_nat copy)
    by (apply slice_length; lia).
  eexists _, _. split_and!; [done|lia|lia| | |].
  - rewrite length_app, Hsl. simpl. rewrite length_drop. lia.
  - rewrite drop_app_ge, Hsl by lia.
    replace (Z.to_nat max - Z.to_nat copy)%nat with (S (Z.to_nat (max - 1 - copy))) by lia.
    simpl. rewrite drop_drop. f_equal. lia.
  - exists copy. split; [lia|]. rewrite getb_lookup, lookup_app_r, Hsl by lia.
    by rewrite Nat.sub_diag.
Qed.

Lemma p9_get_str_safe_witness :
  exists out' off', p9_get_str [99; 0; 104; 101; 108; 108; 111] 7 0 (replicate 16 88) 16
    = Some (out', off') /\ 0 <= off' <= 7.
Proof.
  destruct (p9_get_str_safe [99; 0; 104; 101; 108; 108; 111] 7 0 (replicate 16 88) 16)
    as (o & f & E & R & _).
  - unfold get_str_pre. simpl. split_and!; try lia. repeat constructor; unfold is_byte; lia.
  - exists o, f. split; [exact E|lia].
Defined.

(** a string put on the wire and read back with room for it is the same
    string, and both operations advance the offset past it. *)
Lemma put_get_str_roundtrip (buf : list Z) (off : Z) (s out : list Z) (max : Z)
    (Hby : Forall is_byte buf) (Hl : Z.of_nat (length buf) < 2 ^ 31)
    (Hs : Forall (fun c => is_byte c /\ c <> 0) s) (Hlen : len_ok s)
    (Hf : fits buf off (2 + Z.of_nat (length s)))
    (Hmax : Z.of_nat (length s) < max <= Z.of_nat (length out)) (Hm32 : max < 2 ^ 32) :
  exists buf' out',
    p9_put_str buf off s = Some (buf', off + 2 + Z.of_nat (length s)) /\
    p9_get_str buf' (off + 2 + Z.of_nat (length s)) off out max
      = Some (out', off + 2 + Z.of_nat (length s)) /\
    cstr_of out' = s.
Proof.
  rewrite p9_put_str_spec by done. destruct Hf as (Hf1 & _ & Hf3 & Hf4).
  destruct (blit buf off (enc_str s)) as [b|] eqn:E.
  2: { rewrite blit_Some in E by (rewrite ?length_enc_str; lia). done. }
  pose proof (blit_length _ _ _ _ E) as Lb. unfold len_ok in Hlen.
  assert (Hsb : Forall is_byte s) by (revert Hs; apply Forall_impl; tauto).
  assert (Hnz : Forall (fun c => c <> 0) s) by (revert Hs; apply Forall_impl; tauto).
  assert (Hbb : Forall is_byte b).
  { eapply blit_byte; [apply Hby| |apply E]. unfold enc_str.
    apply Forall_app; auto using le_bytes_byte. }
  pose proof (slice_blit_same _ _ _ _ E) as Hsl. unfold enc_str in Hsl.
  rewrite length_app, length_le_bytes, Nat2Z.inj_add, slice_app in Hsl by lia.
  apply app_inj_1 in Hsl as [Hsl1 Hsl2];
    [|rewrite length_le_bytes, slice_length; lia].
  exists b, (get_str_ref b (off + 2 + Z.of_nat (length s)) off out max).1.
  split; [simpl; tuple_lia|].
  rewrite p9_get_str_eq by (unfold get_str_pre; split_and!; (done || lia)).
  unfold get_str_ref. change (Z.of_nat 2) with 2 in *.
  rewrite Hsl1, le_val_bytes, Z.mod_small by lia.
  destruct (Z.ltb_spec (off + 2 + Z.of_nat (length s)) (off + 2)); [lia|].
  destruct (Z.eqb_spec (off + 2 + Z.of_nat (length s)) (off + 2)); simpl.
  { destruct s; simpl in *; [|lia]. split; [tuple_lia|done]. }
  destruct (Z.ltb_spec (off + 2 + Z.of_nat (length s) - (off + 2)) (Z.of_nat (length s)));
    [lia|].
  rewrite Z.min_l, Hsl2 by lia.
  split; [tuple_lia|]. by apply cstr_of_app_zero.
Qed.

