(* ===== verification/Platform.v ===== *)
(** * Platform: the operating system, the PCI bus and the device

    None of this is code of the repository: exec.library, the PCI interface of
    expansion.library, filesysbox.library, the registers behind the inline assembly of
    include/virtio/virtio_pci_modern.h and the PowerPC time base are reached
    through calls ([ExtCall]), and what they answer is a parameter of the
    model: an instance of [Env].  [Sys] is the state of a program that runs on
    such a platform; [ext] performs one call and records it with its answer in
    the trace, so that the theorems can speak about the order of the calls and
    about what was allocated and freed.  Nothing is
    assumed of an environment here; a theorem that needs documented behaviour
    states it as a hypothesis. *)

From S2P Require Import Prelude.
From stdpp Require strings.

(** ** Calls *)

(** The DMA flags of exec.library that the handler combines. *)
Inductive dma_flag : Type := DMA_ReadFromRAM | DMAF_NoModify.

#[global] Instance dma_flag_eq_dec : EqDecision dma_flag.
Proof. solve_decision. Defined.

(** The mode of dos.library's NonBlockingModifyDosEntry that the handler uses. *)
Inductive nbm_mode : Type := NBM_REMDOSENTRY.

#[global] Instance nbm_mode_eq_dec : EqDecision nbm_mode.
Proof. solve_decision. Defined.

Inductive ExtCall : Type :=
  (* I/O space accesses of the PCI interface: pciDev->InByte(addr), ... *)
  | InByte (a : Z) | InWord (a : Z) | InLong (a : Z)
  | OutByte (a v : Z) | OutWord (a v : Z) | OutLong (a v : Z)
  (* mmio_r8, mmio_w8, ...: one load or store of a device register *)
  | MmioR8 (a : Z) | MmioR16 (a : Z) | MmioR32 (a : Z)
  | MmioW8 (a v : Z) | MmioW16 (a v : Z) | MmioW32 (a v : Z)
  (* PCI configuration space *)
  | ReadConfigByte (o : Z) | ReadConfigWord (o : Z) | ReadConfigLong (o : Z)
  | WriteConfigWord (o v : Z) | WriteConfigLong (o v : Z)
  | GetCapabilities | SetCapabilities (v : Z)
  (* memory and DMA, exec.library *)
  | AllocVecTags (size : Z) | FreeVec (p : Z)
  | StartDMA (p size : Z) (flags : list dma_flag)
  | EndDMA (p size : Z) (flags : list dma_flag)
  | AllocDMAEntry (n : Z) | GetDMAPhys (p size : Z) (flags : list dma_flag)
  | FreeDMAEntry (p : Z)
  (* the two halves of the time base, and GetCPUInfoTags(GCIT_TimeBaseSpeed) *)
  | Mftbu | Mftb | GetTimeBaseSpeed
  (* the PCI bus: devices, the ranges behind their BARs and the fields of a
     struct PCIResourceRange, the list of capabilities *)
  | FindDeviceTags (vendor device : Z) | FreeDevice (d : Z) | GetAddress
  | GetResourceRange (bar : Z) | FreeResourceRange (r : Z)
  | RangeFlags (r : Z) | RangePhysical (r : Z) | RangeBaseAddress (r : Z)
  | GetFirstCapability | GetNextCapability (cap : Z) | CapType (cap : Z) | CapOffset (cap : Z)
  (* interrupts: the vector of the device, the chain of servers *)
  | MapInterrupt | AddIntServer (irq : Z) | RemIntServer (irq : Z) | Disable | Enable
  (* a store to is_Data of the Interrupt node, which the chain refers to *)
  | SetIntData (data : Z)
  (* libraries and interfaces of exec.library, and its own interface *)
  | OpenLibrary (name : String.string) (version : Z) | CloseLibrary (base : Z)
  | GetInterface (base : Z) (name : String.string) | DropInterface (iface : Z)
  | ExecObtain | ExecRelease
  (* the process and its startup message: pr_CLI, the packet of a message and
     the third argument of a packet *)
  | FindTaskCLI | WaitPort | GetMsg | MsgPacket (msg : Z) | PacketArg3 (pkt : Z)
  | SetPacketRes (pkt res1 res2 : Z) | ReplyMsg (msg : Z)
  | NonBlockingModifyDosEntry (node : Z) (mode : nbm_mode) | DebugPrintF (reason : String.string)
  (* filesysbox.library *)
  | FbxReturnMountMsg (msg res1 res2 : Z) | FbxSetupFS (msg dostype : Z)
  | FbxCleanupFS (fs : Z)
  (* the filler function that FileSysBox passes to readdir, with a name *)
  | FillDir (name : list Z).

#[global] Instance ExtCall_eq_dec : EqDecision ExtCall.
Proof. solve_decision. Defined.

(** The width of what a call returns. *)
Definition ext_norm (c : ExtCall) (r : Z) : Z :=
  match c with
  | InByte _ | MmioR8 _ | ReadConfigByte _ => u8 r
  | InWord _ | MmioR16 _ | ReadConfigWord _ => u16 r
  | GetTimeBaseSpeed => u64 r
  | _ => u32 r
  end.

Lemma ext_norm_idemp c r : ext_norm c (ext_norm c r) = ext_norm c r.
Proof. destruct c; apply Z.mod_mod; lia. Qed.

(** ** Environments *)

(** What the device does while the driver runs: stores into the used ring
    (slot, id, len), the new used index if it moved, and DMA stores
    (offset, bytes) into the receive buffer.  All values are the raw ones in
    guest memory. *)
Record DevEffect := mkDevEffect {
  ef_used : list (Z * Z * Z);
  ef_idx : option Z;
  ef_rx : list (Z * list Z) }.

Definition no_effect : DevEffect := mkDevEffect [] None [].

(** [V] is what the device can see: the rings and the message buffers. *)
Class Env (E V : Type) := mkEnv {
  env_call : E -> ExtCall -> E * Z;
  env_device : E -> V -> E * DevEffect;
  (* the content of a fresh allocation that is not cleared *)
  env_garbage : Z;
  (* sizeof(struct virtqueue): depends on the BOOL of the SDK headers *)
  env_sizeof_virtqueue : Z;
  (* PCI_CAP_BUSMASTER and PCI_CAP_SETCLR of the SDK headers *)
  env_PCI_CAP_BUSMASTER : Z;
  env_PCI_CAP_SETCLR : Z }.

(** ** Programs on the platform *)

Record Sys (E X : Type) := mkSys { sys_env : E; sys_log : list (ExtCall * Z); core : X }.
Arguments mkSys {E X} _ _ _.
Arguments sys_env {E X} _.
Arguments sys_log {E X} _.
Arguments core {E X} _.

Section platform.
Context {E V : Type} `{EnvI : !Env E V} {X : Type}.

Definition set_core (x : X) (s : Sys E X) : Sys E X :=
  mkSys (sys_env s) (sys_log s) x.

(** One external call; the trace has the latest call first. *)
Definition ext (c : ExtCall) : M (Sys E X) Z := fun s =>
  let '(e, r) := env_call (sys_env s) c in
  Done (ext_norm c r, mkSys e ((c, ext_norm c r) :: sys_log s) (core s)).

(** Reading and writing the program's own state. *)
Definition read {A} (f : X -> A) : M (Sys E X) A := gets (fun s => f (core s)).
Definition write (f : X -> X) : M (Sys E X) unit :=
  modify (fun s => set_core (f (core s)) s).

Lemma ext_core c s r s' : ext c s = Done (r, s') -> core s' = core s.
Proof. unfold ext. destruct (env_call _ _). by intros [= <- <-]. Qed.

Lemma ext_done c s :
  exists e r, ext c s = Done (ext_norm c r, mkSys e ((c, ext_norm c r) :: sys_log s) (core s)).
Proof. unfold ext. destruct (env_call _ _) as [e r]. eauto. Qed.

Lemma wp_ext H c Q s :
  (forall e r, ext_norm c r = r -> Q r (mkSys e ((c, r) :: sys_log s) (core s))) ->
  wp H (ext c) Q s.
Proof.
  intros HQ. unfold wp, ext. destruct (env_call _ _). apply HQ, ext_norm_idemp.
Qed.

(** A call that the environment always answers with [v]. *)
Lemma wp_ext_val H c v Q s :
  (forall e, (env_call e c).2 = v) ->
  (forall e, Q (ext_norm c v) (mkSys e ((c, ext_norm c v) :: sys_log s) (core s))) ->
  wp H (ext c) Q s.
Proof.
  intros Hv HQ. unfold wp, ext. specialize (Hv (sys_env s)).
  destruct (env_call _ _) as [e r]. simpl in Hv. subst. apply HQ.
Qed.

Lemma wp_read {A} H (f : X -> A) Q s : Q (f (core s)) s -> wp H (read f) Q s.
Proof. done. Qed.

Lemma read_inv {A} (f : X -> A) s a s' :
  read f s = Done (a, s') -> a = f (core s) /\ s' = s.
Proof. by intros [= -> ->]. Qed.

Lemma wp_write H (f : X -> X) Q s :
  Q tt (set_core (f (core s)) s) -> wp H (write f) Q s.
Proof. done. Qed.
End platform.

(** ** The trace *)

(** The calls only. *)
Definition calls (l : list (ExtCall * Z)) : list ExtCall := l.*1.

(** What the program can hold: a memory block, a DMA mapping of a region, a DMA
    entry list, a PCI device, a resource range, a library, an interface, a
    place in the chain of an interrupt, a mounted file system. *)
Inductive res : Type :=
  | RMem (p : Z) | RDma (p : Z) | REntry (p : Z) | RDev (d : Z) | RRange (r : Z)
  | RLib (b : Z) | RIface (i : Z) | RInt (irq : Z) | RFs (fs : Z).

Definition acquired (x : ExtCall * Z) : option res :=
  let '(c, r) := x in
  if r =? 0 then None else
  match c with
  | AllocVecTags _ => Some (RMem r)
  | StartDMA p _ _ => Some (RDma p)
  | AllocDMAEntry _ => Some (REntry r)
  | FindDeviceTags _ _ => Some (RDev r)
  | GetResourceRange _ => Some (RRange r)
  | OpenLibrary _ _ => Some (RLib r)
  | GetInterface _ _ => Some (RIface r)
  | AddIntServer irq => Some (RInt irq)
  | FbxSetupFS _ _ => Some (RFs r)
  | _ => None
  end.

Definition released (x : ExtCall * Z) : option res :=
  match x.1 with
  | FreeVec p => Some (RMem p)
  | EndDMA p _ _ => Some (RDma p)
  | FreeDMAEntry p => Some (REntry p)
  | FreeDevice d => Some (RDev d)
  | FreeResourceRange r => Some (RRange r)
  | CloseLibrary b => Some (RLib b)
  | DropInterface i => Some (RIface i)
  | RemIntServer irq => Some (RInt irq)
  | FbxCleanupFS fs => Some (RFs fs)
  | _ => None
  end.

(** From the trace [l0] to [l]: what was held before ([before]) and what was
    acquired in between is exactly what was released in between and what is
    held after ([after]), with multiplicity: no leak and no double release. *)
Definition balanced (l0 l : list (ExtCall * Z)) (before after : list res) : Prop :=
  exists new, l = new ++ l0 /\ omap acquired new ++ before ≡ₚ omap released new ++ after.

#[global] Instance balanced_proper l0 l :
  Proper (Permutation ==> Permutation ==> iff) (balanced l0 l).
Proof. intros xs xs' Hx ys ys' Hy. unfold balanced. by setoid_rewrite Hx; setoid_rewrite Hy. Qed.

Lemma balanced_refl l xs : balanced l l xs xs.
Proof. by exists []. Qed.

Lemma balanced_trans l0 l1 l2 xs ys zs :
  balanced l0 l1 xs ys -> balanced l1 l2 ys zs -> balanced l0 l2 xs zs.
Proof.
  intros (n1 & -> & H1) (n2 & -> & H2). exists (n2 ++ n1). split; [by rewrite app_assoc|].
  rewrite !omap_app, <- app_assoc, H1.
  rewrite Permutation_app_swap_app, H2, Permutation_app_swap_app. by rewrite app_assoc.
Qed.

(** A further resource held throughout. *)
Lemma balanced_frame l0 l xs ys x : balanced l0 l xs ys -> balanced l0 l (x :: xs) (x :: ys).
Proof.
  intros (new & -> & H). exists new. split; [done|]. by rewrite <- !Permutation_middle, H.
Qed.

(** What is acquired later comes on top. *)
Lemma balanced_seq l0 l1 l2 xs ys zs :
  balanced l0 l1 xs ys -> balanced l1 l2 [] zs -> balanced l0 l2 xs (ys ++ zs).
Proof.
  intros (n1 & -> & H1) (n2 & -> & H2). exists (n2 ++ n1). split; [by rewrite app_assoc|].
  rewrite app_nil_r in H2. rewrite !omap_app, <- !app_assoc, H1, H2, <- app_assoc.
  apply Permutation_app_head. rewrite Permutation_app_comm, <- app_assoc. done.
Qed.

(** One call. *)
Lemma balanced_call l0 l x xs ys zs :
  balanced l0 l xs ys -> omap acquired [x] ++ ys ≡ₚ omap released [x] ++ zs ->
  balanced l0 (x :: l) xs zs.
Proof. intros H1 H2. eapply balanced_trans; [exact H1|]. by exists [x]. Qed.

Lemma balanced_neutral l0 l x xs ys :
  acquired x = None -> released x = None ->
  balanced l0 l xs ys -> balanced l0 (x :: l) xs ys.
Proof. intros Ha Hr H. eapply balanced_call; [exact H|]. simpl. by rewrite Ha, Hr. Qed.

Lemma balanced_acq l0 l x y xs ys zs :
  acquired x = Some y -> released x = None -> zs ≡ₚ y :: ys ->
  balanced l0 l xs ys -> balanced l0 (x :: l) xs zs.
Proof.
  intros Ha Hr Hp H. eapply balanced_call; [exact H|]. simpl. rewrite Ha, Hr. by rewrite Hp.
Qed.

Lemma balanced_rel l0 l x y xs zs :
  acquired x = None -> released x = Some y ->
  balanced l0 l xs (y :: zs) -> balanced l0 (x :: l) xs zs.
Proof. intros Ha Hr H. eapply balanced_call; [exact H|]. simpl. by rewrite Ha, Hr. Qed.

Lemma perm_pick_skip {A} (x r : A) l l' : l ≡ₚ r :: l' -> x :: l ≡ₚ r :: x :: l'.
Proof. intros ->. apply perm_swap. Qed.

(** Decides [balanced] for a trace that is a list of calls. *)
Ltac perm_pick := first [reflexivity | eapply perm_pick_skip; perm_pick].
Ltac acq_side :=
  cbn [acquired]; lazymatch goal with |- context [?r =? 0] => destruct (Z.eqb_spec r 0) end;
  first [reflexivity | lia].
Ltac balance :=
  lazymatch goal with
  | |- balanced ?l ?l _ _ => apply balanced_refl
  | |- balanced _ (_ :: _) _ _ =>
      first
        [ eapply balanced_rel; [acq_side|reflexivity|]
        | eapply balanced_acq; [acq_side|reflexivity|perm_pick|]
        | apply balanced_neutral; [acq_side|reflexivity|] ]; balance
  | |- balanced _ _ _ _ => eassumption
  end.

(** From the trace [l0] to [l] only calls with the property [P] were made. *)
Definition extends (P : ExtCall -> bool) (l0 l : list (ExtCall * Z)) : Prop :=
  exists new, l = new ++ l0 /\ Forall (fun x => P x.1 = true) new.

Lemma extends_refl P l : extends P l l.
Proof. by exists []. Qed.

Lemma extends_cons P l0 l c r :
  P c = true -> extends P l0 l -> extends P l0 ((c, r) :: l).
Proof. intros Hc (new & -> & Hn). exists ((c, r) :: new). split; [done|by constructor]. Qed.

Lemma extends_trans P l0 l1 l2 : extends P l0 l1 -> extends P l1 l2 -> extends P l0 l2.
Proof.
  intros (n1 & -> & H1) (n2 & -> & H2). exists (n2 ++ n1).
  split; [by rewrite app_assoc|by apply Forall_app].
Qed.

Lemma extends_impl (P Q : ExtCall -> bool) l0 l :
  (forall c, P c = true -> Q c = true) -> extends P l0 l -> extends Q l0 l.
Proof.
  intros HPQ (new & -> & Hn). exists new. split; [done|]. eapply Forall_impl; [|exact Hn]. auto.
Qed.

Ltac quiet :=
  repeat (apply extends_cons; [reflexivity|]); first [apply extends_refl | eassumption].

(** A projection of the trace that ignores the calls with [P]. *)
Lemma omap_extends {A} (f : ExtCall * Z -> option A) P l0 l :
  (forall c r, P c = true -> f (c, r) = None) -> extends P l0 l -> omap f l = omap f l0.
Proof.
  intros Hf (new & -> & Hn). rewrite omap_app.
  induction Hn as [|[c r] new Hc _ IH]; [done|]. simpl in *. by rewrite Hf.
Qed.

(** Memory and DMA calls of exec.library. *)
Definition mem_call (c : ExtCall) : bool :=
  match c with
  | AllocVecTags _ | FreeVec _ | StartDMA _ _ _ | EndDMA _ _ _
  | AllocDMAEntry _ | GetDMAPhys _ _ _ | FreeDMAEntry _ => true
  | _ => false
  end.

Ltac wp_ext := apply wp_ext; intros ? ? ?; cbv beta;
  cbn [sys_log core sys_env].

Ltac wp_sys :=
  repeat first
    [ wp_step | apply wp_read | apply wp_write
    | lazymatch goal with |- wp _ (ext _) _ _ => wp_ext end ];
  cbv beta.

(** An environment that answers its calls from a list (and 0 when the list is
    used up), with a device that does nothing: for concrete runs. *)
Definition script_env (V : Type) : Env (list Z) V :=
  mkEnv (list Z) V
    (fun answers _ => match answers with [] => ([], 0) | a :: rest => (rest, a) end)
    (fun answers _ => (answers, no_effect))
    0xDEADBEEF 72 4 0x80000000.
