(* ===== verification/FidPool.v ===== *)
(** * FidPool: the FID allocator (include/fid_pool.h, src/fid_pool.c)

    A [struct FidPool] is a record; an allocated array is its address with its
    content.  The operations that allocate or free memory run on a platform
    ([Sys]); a pool is passed in and the changed pool returned.

    The abstract specification is a set of live FIDs: [pool_inv pool live]
    says that the free stack, the orphans and the live FIDs are disjoint and
    all in use ([1 <= fid < next_fid]).  Every operation preserves it, so a FID
    is never handed out while it is live or orphaned.  The bound 2^27 on
    [next_fid] keeps the sizes of the two lists below the point where the
    32-bit capacity arithmetic of the source would wrap. *)

From S2P Require Import Prelude Platform.

Record varray := mkArr { arr_ptr : Z; arr_data : list Z }.

Definition NULL_array : varray := mkArr 0 [].

Record FidPool := mkFidPool {
  pool_ptr : Z;                 (* the address of the structure itself *)
  next_fid : Z;
  free_list : varray;
  free_count : Z;
  free_capacity : Z;
  orphan_list : varray;
  orphan_count : Z;
  orphan_capacity : Z }.

Definition FID_POOL_INITIAL_CAPACITY : Z := 64.
Definition sizeof_FidPool : Z := 28.

(** [for (i = 0; i < n; i++) new_list[i] = old_list[i];] *)
Fixpoint copy_fids (n : nat) (i : Z) (old_list new_list : list Z) : option (list Z) :=
  match n with
  | O => Some new_list
  | S n' =>
      v ← getb old_list i; new_list ← setb new_list i v;
      copy_fids n' (i + 1) old_list new_list
  end.

Section ops.
Context {E V : Type} `{EnvI : !Env E V} {X : Type}.
Abbreviation M := (M (Sys E X)).

(** An allocation of [n] 32-bit cells. *)
Definition alloc_u32s (n : Z) : M varray :=
  p ← ext (AllocVecTags (u32 (4 * n)));
  mret (mkArr p (replicate (Z.to_nat n) env_garbage)).

Definition FidPool_Create : M (option FidPool) :=
  pool ← ext (AllocVecTags sizeof_FidPool);
  if pool =? 0 then mret None
  else
    fl ← alloc_u32s FID_POOL_INITIAL_CAPACITY;
    if arr_ptr fl =? 0 then _ ← ext (FreeVec pool); mret None
    else mret (Some (mkFidPool pool 1 fl 0 FID_POOL_INITIAL_CAPACITY NULL_array 0 0)).

Definition FidPool_Destroy (pool : option FidPool) : M unit :=
  match pool with
  | None => mret tt
  | Some pool =>
      _ ← (if arr_ptr (free_list pool) =? 0 then mret 0
           else ext (FreeVec (arr_ptr (free_list pool))));
      _ ← (if arr_ptr (orphan_list pool) =? 0 then mret 0
           else ext (FreeVec (arr_ptr (orphan_list pool))));
      _ ← ext (FreeVec (pool_ptr pool));
      mret tt
  end.

Definition FidPool_Alloc (pool : FidPool) : M (FidPool * Z) :=
  if 0 <? free_count pool then
    let n := u32 (free_count pool - 1) in
    fid ← lift (getb (arr_data (free_list pool)) n);
    mret (mkFidPool (pool_ptr pool) (next_fid pool) (free_list pool) n
            (free_capacity pool) (orphan_list pool) (orphan_count pool)
            (orphan_capacity pool), fid)
  else
    mret (mkFidPool (pool_ptr pool) (u32 (next_fid pool + 1)) (free_list pool)
            (free_count pool) (free_capacity pool) (orphan_list pool)
            (orphan_count pool) (orphan_capacity pool), next_fid pool).

(** The growth step shared by the two lists in the source (the two copies
    differ in the field names only): [None] when the allocation fails. *)
Definition grow_list (l : varray) (count cap : Z) : M (option (varray * Z)) :=
  let new_cap := u32 (cap * 2) in
  new_list ← alloc_u32s new_cap;
  if arr_ptr new_list =? 0 then mret None
  else
    data ← lift (copy_fids (Z.to_nat count) 0 (arr_data l) (arr_data new_list));
    _ ← ext (FreeVec (arr_ptr l));
    mret (Some (mkArr (arr_ptr new_list) data, new_cap)).

Definition FidPool_Free (pool : FidPool) (fid : Z) : M FidPool :=
  grown ← (if free_capacity pool <=? free_count pool
           then grow_list (free_list pool) (free_count pool) (free_capacity pool)
           else mret (Some (free_list pool, free_capacity pool)));
  match grown with
  | None => mret pool   (* leak the fid rather than crash *)
  | Some (fl, cap) =>
      data ← lift (setb (arr_data fl) (free_count pool) fid);
      mret (mkFidPool (pool_ptr pool) (next_fid pool) (mkArr (arr_ptr fl) data)
              (u32 (free_count pool + 1)) cap (orphan_list pool)
              (orphan_count pool) (orphan_capacity pool))
  end.

(** The part of [FidPool_MarkOrphan] after the list exists: grow it when it
    is full, then store the fid. *)
Definition orphan_push (pool : FidPool) (fid : Z) (l : varray) (count cap : Z)
    : M FidPool :=
  grown ← (if cap <=? count then grow_list l count cap else mret (Some (l, cap)));
  match grown with
  | None =>
      mret (mkFidPool (pool_ptr pool) (next_fid pool) (free_list pool)
              (free_count pool) (free_capacity pool) l count cap)
  | Some (l, cap) =>
      data ← lift (setb (arr_data l) count fid);
      mret (mkFidPool (pool_ptr pool) (next_fid pool) (free_list pool)
              (free_count pool) (free_capacity pool)
              (mkArr (arr_ptr l) data) (u32 (count + 1)) cap)
  end.

Definition FidPool_MarkOrphan (pool : FidPool) (fid : Z) : M FidPool :=
  if arr_ptr (orphan_list pool) =? 0 then
    l ← alloc_u32s FID_POOL_INITIAL_CAPACITY;
    if arr_ptr l =? 0 then mret pool
    else orphan_push pool fid l 0 FID_POOL_INITIAL_CAPACITY
  else
    orphan_push pool fid (orphan_list pool) (orphan_count pool) (orphan_capacity pool).

Definition FidPool_OrphanCount (pool : option FidPool) : Z :=
  match pool with Some pool => orphan_count pool | None => 0 end.
End ops.

(** ** Well-formedness and the abstract state *)

(** A stack in an array: [count] cells of the [cap] are in use.  The capacity
    is far below the point where its doubling would wrap. *)
Definition stack_wf (l : varray) (count cap : Z) : Prop :=
  0 <= count <= cap /\ Z.of_nat (length (arr_data l)) = cap /\ cap <= 2 ^ 28.

(** The FIDs of a stack, the next one to pop first. *)
Definition stack (l : varray) (count : Z) : list Z :=
  rev (take (Z.to_nat count) (arr_data l)).

Record pool_wf (pool : FidPool) : Prop := {
  wf_free : stack_wf (free_list pool) (free_count pool) (free_capacity pool);
  wf_free_cap : 0 < free_capacity pool;
  wf_orphan : stack_wf (orphan_list pool) (orphan_count pool) (orphan_capacity pool);
  wf_orphan_cap : arr_ptr (orphan_list pool) <> 0 -> 0 < orphan_capacity pool;
  wf_orphan_null : arr_ptr (orphan_list pool) = 0 -> orphan_count pool = 0;
  wf_next : 1 <= next_fid pool <= 2 ^ 27 }.

Definition free_fids (pool : FidPool) : list Z := stack (free_list pool) (free_count pool).
Definition orphan_fids (pool : FidPool) : list Z :=
  stack (orphan_list pool) (orphan_count pool).

(** Every FID is in at most one place, and was handed out before. *)
Definition fids_ok (pool : FidPool) (live : list Z) : Prop :=
  NoDup (free_fids pool ++ orphan_fids pool ++ live) /\
  Forall (fun f => 1 <= f < next_fid pool) (free_fids pool ++ orphan_fids pool ++ live).

Definition pool_inv (pool : FidPool) (live : list Z) : Prop :=
  pool_wf pool /\ fids_ok pool live.

(** The FIDs that were handed out once and are neither live nor free: the orphans,
    and the FIDs that were leaked because a list could not grow. *)
Definition lost (pool : FidPool) (live : list Z) : Z :=
  next_fid pool - 1 - Z.of_nat (length (free_fids pool)) - Z.of_nat (length live).

(** The allocations of a trace that failed. *)
Definition failed_alloc (x : ExtCall * Z) : bool :=
  match x with (AllocVecTags _, r) => r =? 0 | _ => false end.
Definition failures (l : list (ExtCall * Z)) : Z :=
  Z.of_nat (length (List.filter failed_alloc l)).

Lemma failures_app l1 l2 : failures (l1 ++ l2) = failures l1 + failures l2.
Proof. unfold failures. rewrite List.filter_app, length_app. lia. Qed.

Lemma failures_grow l new : failures l <= failures (new ++ l).
Proof. rewrite failures_app. unfold failures at 2. lia. Qed.

(** ** Lemmas on the stacks *)

Lemma stack_push l count fid :
  0 <= count < Z.of_nat (length (arr_data l)) ->
  exists data, setb (arr_data l) count fid = Some data /\
    length data = length (arr_data l) /\
    forall p, stack (mkArr p data) (count + 1) = fid :: stack l count.
Proof.
  intros Hc. exists (<[Z.to_nat count := fid]> (arr_data l)).
  rewrite setb_Some by done. split_and!; [done|by rewrite length_insert|].
  intros p. unfold stack. simpl.
  replace (Z.to_nat (count + 1)) with (S (Z.to_nat count)) by lia.
  rewrite (take_S_r _ _ fid), take_insert_ge by (lia || apply list_lookup_insert_eq; lia).
  by rewrite rev_app_distr.
Qed.

Lemma stack_pop l count :
  0 < count <= Z.of_nat (length (arr_data l)) ->
  exists fid, getb (arr_data l) (count - 1) = Some fid /\
    stack l count = fid :: stack l (count - 1).
Proof.
  intros Hc. destruct (getb_is_Some (arr_data l) (count - 1)) as [fid Hf]; [lia|].
  exists fid. split; [done|]. unfold stack. rewrite getb_lookup in Hf by lia.
  replace (Z.to_nat count) with (S (Z.to_nat (count - 1))) by lia.
  by rewrite (take_S_r _ _ _ Hf), rev_app_distr.
Qed.

Lemma copy_fids_spec n i old new :
  0 <= i -> i + Z.of_nat n <= Z.of_nat (length old) ->
  i + Z.of_nat n <= Z.of_nat (length new) ->
  copy_fids n i old new = blit new i (slice old i (Z.of_nat n)).
Proof.
  revert i new; induction n as [|n IH]; intros i new Hi Ho Hn.
  { simpl. by rewrite blit_nil by lia. }
  cbn [copy_fids]. destruct (getb_is_Some old i) as [v Hv]; [lia|].
  rewrite Hv. cbn [mbind option_bind]. rewrite setb_blit.
  destruct (blit new i [v]) as [m|] eqn:E; [|rewrite blit_Some in E by (simpl; lia); done].
  cbn [mbind option_bind]. rewrite IH by (rewrite ?(blit_length _ _ _ _ E); lia).
  rewrite (slice_cons old i (Z.of_nat (S n)) v) by (done || lia).
  change (v :: ?x) with ([v] ++ x). rewrite <- (blit_blit _ _ _ _ _ E).
  do 2 f_equal. lia.
Qed.

Lemma copy_fids_stack l count new p :
  0 <= count <= Z.of_nat (length (arr_data l)) ->
  (length (arr_data l) <= length new)%nat ->
  exists data, copy_fids (Z.to_nat count) 0 (arr_data l) new = Some data /\
    length data = length new /\ stack (mkArr p data) count = stack l count.
Proof.
  intros Hc Hl. rewrite copy_fids_spec, Z2Nat.id by lia.
  destruct (blit new 0 (slice (arr_data l) 0 count)) as [data|] eqn:E.
  2: { rewrite blit_Some in E; [done|lia|rewrite slice_length; lia]. }
  exists data. split_and!; [done|by eapply blit_length|].
  unfold stack. simpl. f_equal. rewrite !take_slice.
  rewrite <- (slice_blit_same _ _ _ _ E) at 1. rewrite slice_length by lia. f_equal. lia.
Qed.

Lemma length_stack l count :
  0 <= count <= Z.of_nat (length (arr_data l)) -> length (stack l count) = Z.to_nat count.
Proof. intros. unfold stack. rewrite length_rev, length_take. lia. Qed.

Lemma stack_null count : stack NULL_array count = [].
Proof. unfold stack. simpl. by rewrite take_nil. Qed.

Lemma inv_counts pool live :
  pool_inv pool live -> free_count pool < 2 ^ 27 /\ orphan_count pool < 2 ^ 27.
Proof.
  intros [Hwf [Hnd Hr]]. destruct Hwf.
  assert (Z.of_nat (length (free_fids pool ++ orphan_fids pool ++ live))
          <= next_fid pool - 1) as Hlen.
  { apply (range_length _ 1); [lia|done|]. eapply Forall_impl; [|exact Hr]. simpl. lia. }
  rewrite !length_app in Hlen. unfold free_fids, orphan_fids in Hlen.
  destruct wf_free0 as (? & ? & ?), wf_orphan0 as (? & ? & ?).
  rewrite !length_stack in Hlen by lia. lia.
Qed.

(** The order in which the live FIDs are listed does not matter. *)
#[global] Instance fids_ok_perm pool : Proper ((≡ₚ) ==> iff) (fids_ok pool).
Proof. intros l1 l2 Hp. unfold fids_ok. by rewrite Hp. Qed.
#[global] Instance pool_inv_perm pool : Proper ((≡ₚ) ==> iff) (pool_inv pool).
Proof. intros l1 l2 Hp. unfold pool_inv. by rewrite Hp. Qed.

Lemma perm_move (a b c : list Z) f : (f :: a) ++ b ++ c ≡ₚ a ++ b ++ f :: c.
Proof. simpl. rewrite !app_assoc, Permutation_middle. done. Qed.

Lemma perm_move_mid (a b c : list Z) f : a ++ (f :: b) ++ c ≡ₚ a ++ b ++ f :: c.
Proof. simpl. by rewrite Permutation_middle. Qed.

Lemma perm_take (a b c : list Z) f : a ++ b ++ f :: c ≡ₚ f :: (a ++ b ++ c).
Proof. rewrite !app_assoc, <- Permutation_middle. done. Qed.

(** Moving a FID between the live ones, the free stack and the orphans. *)
Section moves.
Context (pool pool' : FidPool) (live : list Z) (f : Z)
        (Hn : next_fid pool' = next_fid pool).

Lemma fids_ok_push_free :
  free_fids pool' = f :: free_fids pool -> orphan_fids pool' = orphan_fids pool ->
  fids_ok pool (f :: live) -> fids_ok pool' live.
Proof. unfold fids_ok. intros -> ->. rewrite Hn. by rewrite perm_move. Qed.

Lemma fids_ok_pop_free :
  free_fids pool = f :: free_fids pool' -> orphan_fids pool' = orphan_fids pool ->
  fids_ok pool live -> fids_ok pool' (f :: live).
Proof. unfold fids_ok. intros -> ->. rewrite Hn. by rewrite perm_move. Qed.

Lemma fids_ok_push_orphan :
  free_fids pool' = free_fids pool -> orphan_fids pool' = f :: orphan_fids pool ->
  fids_ok pool (f :: live) -> fids_ok pool' live.
Proof. unfold fids_ok. intros -> ->. rewrite Hn. by rewrite perm_move_mid. Qed.

(** A leaked FID is in no list any more. *)
Lemma fids_ok_leak :
  free_fids pool' = free_fids pool -> orphan_fids pool' = orphan_fids pool ->
  fids_ok pool (f :: live) -> fids_ok pool' live.
Proof.
  unfold fids_ok. intros -> ->. rewrite Hn, perm_take, list.NoDup_cons, list.Forall_cons.
  tauto.
Qed.
End moves.

Section ops_spec.
Context {E V : Type} `{EnvI : !Env E V} {X : Type}.
Implicit Types s : Sys E X.

(** What every operation leaves alone: the program's own state. *)
Abbreviation same_core s s' := (core s' = core s).

Lemma wp_grow_list H l count cap s (Q : option (varray * Z) -> Sys E X -> Prop) :
  stack_wf l count cap -> count = cap -> 0 < cap < 2 ^ 27 ->
  (forall s', same_core s s' -> failures (sys_log s') = failures (sys_log s) + 1 -> Q None s') ->
  (forall l' s', same_core s s' -> failures (sys_log s') = failures (sys_log s) ->
     arr_ptr l' <> 0 -> stack l' count = stack l count ->
     stack_wf l' count (cap * 2) -> Q (Some (l', cap * 2)) s') ->
  wp H (grow_list l count cap) Q s.
Proof.
  intros (Hc & Hl & Hcap) -> Hb HN HS. unfold grow_list, alloc_u32s.
  rewrite (u32_small (cap * 2)) by lia. wp_sys. simpl.
  destruct (Z.eqb_spec r 0) as [->|Hr].
  { apply HN; [done|]. unfold failures. simpl. lia. }
  destruct (copy_fids_stack l cap (replicate (Z.to_nat (cap * 2)) env_garbage) r)
    as (data & Hcp & Hlen & Hst); [lia|rewrite length_replicate; lia|].
  wp_sys. eapply wp_lift; [exact Hcp|]. wp_sys. simpl. apply HS; [done| |done| |].
  - unfold failures. simpl. by rewrite (proj2 (Z.eqb_neq _ _) Hr).
  - exact Hst.
  - rewrite length_replicate in Hlen. unfold stack_wf. simpl. lia.
Qed.

Lemma FidPool_Create_wp H s :
  wp H FidPool_Create (fun r s' => core s' = core s /\
    match r with
    | None => True
    | Some pool => pool_inv pool [] /\ next_fid pool = 1 /\
        free_fids pool = [] /\ orphan_fids pool = []
    end) s.
Proof.
  unfold FidPool_Create, alloc_u32s. wp_sys. simpl.
  destruct (Z.eqb_spec r 0); [by wp_sys|]. wp_sys. simpl.
  destruct (Z.eqb_spec r0 0); wp_sys; split; auto.
  assert (Hwf : pool_wf (mkFidPool r 1
    (mkArr r0 (replicate (Z.to_nat FID_POOL_INITIAL_CAPACITY) env_garbage)) 0
    FID_POOL_INITIAL_CAPACITY NULL_array 0 0)).
  { unfold FID_POOL_INITIAL_CAPACITY.
    split; simpl; unfold stack_wf; simpl; rewrite ?length_replicate; lia. }
  split_and!; [|done..]. split; [done|]. split; constructor.
Qed.

Lemma FidPool_Alloc_wp H pool live s :
  pool_inv pool live -> next_fid pool < 2 ^ 27 ->
  wp H (FidPool_Alloc pool) (fun '(pool', fid) s' => s' = s /\
    pool_inv pool' (fid :: live) /\ orphan_fids pool' = orphan_fids pool /\
    (free_fids pool = fid :: free_fids pool' /\ next_fid pool' = next_fid pool \/
     free_fids pool = [] /\ free_fids pool' = [] /\
     fid = next_fid pool /\ next_fid pool' = next_fid pool + 1)) s.
Proof.
  intros [Hwf Hok] Hn. pose proof Hwf as [Hfree Hfc Ho Hoc Hon Hnx].
  destruct Hfree as (Hc & Hl & Hcap). unfold FidPool_Alloc.
  destruct (Z.ltb_spec 0 (free_count pool)).
  - rewrite u32_small by lia.
    destruct (stack_pop (free_list pool) (free_count pool)) as (fid & Hg & Hst); [lia|].
    wp_sys. eapply wp_lift; [exact Hg|]. wp_sys. split; [done|].
    split; [|split; [done|by left]]. split.
    + split; simpl; try done. unfold stack_wf. lia.
    + by apply (fids_ok_pop_free pool _ live fid).
  - assert (free_count pool = 0) as Hz by lia. rewrite u32_small by lia.
    assert (free_fids pool = []) as Hnil by (unfold free_fids; by rewrite Hz).
    wp_sys. split; [done|]. split; [|split; [done|right; by rewrite Hnil]].
    split; [split; simpl; (done || lia)|].
    destruct Hok as [Hnd Hr]. unfold fids_ok in *. simpl.
    change (free_fids (mkFidPool _ _ _ _ _ _ _ _)) with (free_fids pool).
    change (orphan_fids (mkFidPool _ _ _ _ _ _ _ _)) with (orphan_fids pool).
    rewrite perm_take, list.NoDup_cons, list.Forall_cons. split_and!; [|done|lia|lia|].
    + intros Hin%list_elem_of_In. rewrite Forall_forall in Hr. apply Hr in Hin. lia.
    + eapply Forall_impl; [|exact Hr]. simpl. lia.
Qed.

(** What returning a fid to the pool does: it goes on the free stack, or is
    leaked when the list cannot grow, which is an allocation that failed. *)
Definition free_post pool fid live s : FidPool -> Sys E X -> Prop := fun pool' s' =>
  core s' = core s /\ pool_inv pool' live /\
  orphan_fids pool' = orphan_fids pool /\ next_fid pool' = next_fid pool /\
  (free_fids pool' = fid :: free_fids pool /\ failures (sys_log s') = failures (sys_log s) \/
   pool' = pool /\ failures (sys_log s') = failures (sys_log s) + 1).

Lemma free_push_wp H pool fid live l cap s s' :
  pool_wf pool -> fids_ok pool (fid :: live) -> free_count pool < 2 ^ 27 ->
  core s' = core s -> failures (sys_log s') = failures (sys_log s) ->
  stack l (free_count pool) = free_fids pool ->
  stack_wf l (free_count pool) cap -> free_count pool < cap ->
  wp H (data ← lift (setb (arr_data l) (free_count pool) fid);
    mret (mkFidPool (pool_ptr pool) (next_fid pool) (mkArr (arr_ptr l) data)
            (u32 (free_count pool + 1)) cap (orphan_list pool)
            (orphan_count pool) (orphan_capacity pool)))
    (free_post pool fid live s) s'.
Proof.
  intros Hwf Hok Hfb Hs Hf Hst (Hc & Hl & Hcap) Hlt. pose proof Hwf as [].
  rewrite u32_small by lia.
  destruct (stack_push l (free_count pool) fid) as (data & Hd & Hlen & Hp); [lia|].
  wp_sys. eapply wp_lift; [exact Hd|]. wp_sys.
  split; [done|]. split; [|split_and!; [done|done|left]].
  - split.
    + split; simpl; try done; [unfold stack_wf; simpl|]; lia.
    + apply (fids_ok_push_free pool _ live fid); [done| |done|exact Hok].
      unfold free_fids. simpl. by rewrite Hp, Hst.
  - split; [|done]. unfold free_fids at 1. simpl. by rewrite Hp, Hst.
Qed.

Lemma FidPool_Free_wp H pool fid live s :
  pool_inv pool (fid :: live) ->
  wp H (FidPool_Free pool fid) (free_post pool fid live s) s.
Proof.
  intros Hinv. destruct (inv_counts _ _ Hinv) as [Hfb Hob].
  destruct Hinv as [Hwf Hok]. pose proof Hwf as [Hfree Hfc _ _ _ _].
  pose proof Hfree as (Hc & Hl & Hcap). unfold FidPool_Free. rewrite wp_bind.
  destruct (Z.leb_spec (free_capacity pool) (free_count pool)).
  - apply wp_grow_list; [done|lia|lia| |].
    + intros s' Hs Hf. apply wp_ret. split_and!; auto. split; [done|].
      by apply (fids_ok_leak pool pool live fid).
    + intros l' s' Hs Hf Hp Hst Hwf'. apply free_push_wp; [done..|lia].
  - apply wp_ret. apply free_push_wp; [done..|lia].
Qed.

Definition orphan_post pool fid live s : FidPool -> Sys E X -> Prop := fun pool' s' =>
  core s' = core s /\ pool_inv pool' live /\
  free_fids pool' = free_fids pool /\ next_fid pool' = next_fid pool /\
  failures (sys_log s) <= failures (sys_log s') /\
  (orphan_fids pool' = fid :: orphan_fids pool \/
   orphan_fids pool' = orphan_fids pool).

Lemma orphan_post_intro pool fid live l count cap s s' :
  pool_inv pool (fid :: live) -> core s' = core s ->
  failures (sys_log s) <= failures (sys_log s') ->
  arr_ptr l <> 0 -> 0 < cap -> stack_wf l count cap ->
  (stack l count = fid :: orphan_fids pool \/ stack l count = orphan_fids pool) ->
  orphan_post pool fid live s
    (mkFidPool (pool_ptr pool) (next_fid pool) (free_list pool) (free_count pool)
       (free_capacity pool) l count cap) s'.
Proof.
  intros [[] Hok] Hs Hf Hp Hcap Hsw Hst.
  split; [done|]. split; [|split_and!; done]. split; [split; simpl; done|].
  destruct Hst; [by apply (fids_ok_push_orphan pool _ live fid)|
                 by apply (fids_ok_leak pool _ live fid)].
Qed.

Lemma orphan_push_wp H pool fid live l count cap s s' :
  pool_inv pool (fid :: live) -> core s' = core s ->
  failures (sys_log s) <= failures (sys_log s') -> arr_ptr l <> 0 ->
  0 < cap -> count < 2 ^ 27 -> stack_wf l count cap -> stack l count = orphan_fids pool ->
  wp H (orphan_push pool fid l count cap) (orphan_post pool fid live s) s'.
Proof.
  intros Hinv Hs Hf Hp Hcap Hcb Hsw Hst. unfold orphan_push. rewrite wp_bind.
  assert (Hstore : forall l cap s', core s' = core s ->
    failures (sys_log s) <= failures (sys_log s') -> arr_ptr l <> 0 ->
    stack_wf l count cap -> count < cap -> stack l count = orphan_fids pool ->
    wp H (data ← lift (setb (arr_data l) count fid);
        mret (mkFidPool (pool_ptr pool) (next_fid pool) (free_list pool)
                (free_count pool) (free_capacity pool)
                (mkArr (arr_ptr l) data) (u32 (count + 1)) cap))
      (orphan_post pool fid live s) s').
  { clear -Hinv Hcb. intros l cap s' Hs Hf Hp (Hc & Hl & Hcap) Hlt Hst.
    rewrite u32_small by lia.
    destruct (stack_push l count fid) as (data & Hd & Hlen & Hpu); [lia|].
    wp_sys. eapply wp_lift; [exact Hd|].
    apply wp_ret, orphan_post_intro; [done|done|done|done|lia| |].
    - unfold stack_wf. simpl. lia.
    - left. by rewrite Hpu, Hst. }
  pose proof Hsw as (Hc & Hl & Hcl). destruct (Z.leb_spec cap count).
  - apply wp_grow_list; [done|lia|lia| |].
    + intros s2 Hs2 Hf2. apply wp_ret, orphan_post_intro; (congruence || lia || auto).
    + intros l' s2 Hs2 Hf2 Hp2 Hst2 Hsw2. apply Hstore; (congruence || lia || auto).
  - apply wp_ret, Hstore; auto.
Qed.

Lemma FidPool_MarkOrphan_wp H pool fid live s :
  pool_inv pool (fid :: live) ->
  wp H (FidPool_MarkOrphan pool fid) (orphan_post pool fid live s) s.
Proof.
  intros Hinv. destruct (inv_counts _ _ Hinv) as [Hfb Hob].
  pose proof Hinv as [[] Hok]. unfold FidPool_MarkOrphan.
  destruct (Z.eqb_spec (arr_ptr (orphan_list pool)) 0) as [Hz|Hz].
  - unfold alloc_u32s. wp_sys. simpl. destruct (Z.eqb_spec r 0).
    + apply wp_ret. split_and!; auto; [|apply (failures_grow _ [_])]. split; [by destruct Hinv|].
      by apply (fids_ok_leak pool pool live fid).
    + apply orphan_push_wp;
        try (done || unfold FID_POOL_INITIAL_CAPACITY, stack_wf; simpl; lia);
        [apply (failures_grow _ [_])|].
      unfold orphan_fids. by rewrite (wf_orphan_null0 Hz).
  - apply orphan_push_wp; auto. lia.
Qed.
End ops_spec.

(** ** Runs of a pool: the states that a client can reach *)

Section runs.
Context {E V : Type} `{EnvI : !Env E V} {X : Type}.
Implicit Types s : Sys E X.

(** One operation by a client that returns or orphans only FIDs it owns. *)
Inductive pool_step : FidPool * list Z -> FidPool * list Z -> Prop :=
  | step_alloc pool live s pool' fid s' :
      next_fid pool < 2 ^ 27 ->
      FidPool_Alloc pool s = Done ((pool', fid), s') ->
      pool_step (pool, live) (pool', fid :: live)
  | step_free pool live1 fid live2 s pool' s' :
      FidPool_Free pool fid s = Done (pool', s') ->
      pool_step (pool, live1 ++ fid :: live2) (pool', live1 ++ live2)
  | step_orphan pool live1 fid live2 s pool' s' :
      FidPool_MarkOrphan pool fid s = Done (pool', s') ->
      pool_step (pool, live1 ++ fid :: live2) (pool', live1 ++ live2).

Inductive pool_reach : FidPool * list Z -> Prop :=
  | reach_create s pool s' :
      FidPool_Create s = Done (Some pool, s') -> pool_reach (pool, [])
  | reach_step p q : pool_reach p -> pool_step p q -> pool_reach q.

Lemma pool_step_inv p q :
  pool_step p q -> pool_inv p.1 p.2 -> pool_inv q.1 q.2.
Proof.
  intros [pool live s pool' fid s' Hn Hr | pool l1 fid l2 s pool' s' Hr
         | pool l1 fid l2 s pool' s' Hr] Hinv; simpl in *.
  - by destruct (wp_done True _ _ _ _ _ Hr (FidPool_Alloc_wp True _ _ s Hinv Hn))
      as (_ & ? & _).
  - rewrite <- Permutation_middle in Hinv.
    apply (wp_done True _ _ _ _ _ Hr (FidPool_Free_wp True _ _ _ s Hinv)).
  - rewrite <- Permutation_middle in Hinv.
    apply (wp_done True _ _ _ _ _ Hr (FidPool_MarkOrphan_wp True _ _ _ s Hinv)).
Qed.

(** The invariant holds in every reachable state, by rule induction. *)
Lemma pool_reach_inv p : pool_reach p -> pool_inv p.1 p.2.
Proof.
  induction 1 as [s pool s' Hr|p q _ IH Hs]; [|by eapply pool_step_inv].
  apply (wp_done True _ _ _ _ _ Hr (FidPool_Create_wp True s)).
Qed.

(** C36: in every state a client can reach from [FidPool_Create] in which fewer
    than 2^27 FIDs were handed out ([next_fid < 2^27]), the next [FidPool_Alloc]
    returns a FID that is not the root FID 0, not P9_NOFID, not live and not
    orphaned; the pool keeps its invariant. *)
Theorem FidPool_Alloc_fresh (pool : FidPool) (live : list Z) (s : Sys E X)
    (Hreach : pool_reach (pool, live)) (Hn : next_fid pool < 2 ^ 27) :
  exists pool' fid, FidPool_Alloc pool s = Done ((pool', fid), s) /\
    1 <= fid < 2 ^ 27 /\ (fid ∉ live) /\ (fid ∉ orphan_fids pool) /\
    pool_inv pool' (fid :: live).
Proof.
  apply pool_reach_inv in Hreach as Hinv. simpl in Hinv.
  destruct (wp_total _ _ _ (FidPool_Alloc_wp False pool live s Hinv Hn))
    as ([pool' fid] & s' & Hr & -> & Hinv' & Horph & Hcases).
  exists pool', fid. split; [done|]. destruct Hinv' as [Hwf [Hnd Hr']].
  rewrite perm_take in Hnd, Hr'. rewrite list.NoDup_cons in Hnd.
  rewrite list.Forall_cons in Hr'. destruct Hnd as [Hni _], Hr' as [Hfr _].
  rewrite !elem_of_app in Hni. pose proof (wf_next _ Hwf).
  split_and!; [lia|lia|tauto|rewrite <- Horph; tauto|].
  apply (pool_step_inv (pool, live) (pool', fid :: live)); [|done].
  by eapply step_alloc.
Qed.

(** [FidPool_Free] of a live FID never faults: the FID becomes the next
    one handed out, or is leaked when the list cannot grow; the FIDs already
    free and the orphans stay as they are, also across the doubling of the
    list. *)
Lemma FidPool_Free_pushes (pool : FidPool) (fid : Z) (live : list Z) (s : Sys E X)
    (Hinv : pool_inv pool (fid :: live)) :
  exists pool' s', FidPool_Free pool fid s = Done (pool', s') /\
    core s' = core s /\ pool_inv pool' live /\
    orphan_fids pool' = orphan_fids pool /\
    (free_fids pool' = fid :: free_fids pool \/ pool' = pool).
Proof.
  destruct (wp_total _ _ _ (FidPool_Free_wp False pool fid live s Hinv))
    as (pool' & s' & Hr & Hc & Hi & Ho & _ & Hd).
  exists pool', s'. split_and!; [done..|]. destruct Hd as [[? _]|[? _]]; auto.
Qed.

(** [FidPool_MarkOrphan] of a live FID never faults and never makes the
    FID available again: the free stack is unchanged. *)
Lemma FidPool_MarkOrphan_keeps_free (pool : FidPool) (fid : Z) (live : list Z)
    (s : Sys E X) (Hinv : pool_inv pool (fid :: live)) :
  exists pool' s', FidPool_MarkOrphan pool fid s = Done (pool', s') /\
    core s' = core s /\ pool_inv pool' live /\
    free_fids pool' = free_fids pool /\ next_fid pool' = next_fid pool /\
    fid ∉ free_fids pool'.
Proof.
  destruct (wp_total _ _ _ (FidPool_MarkOrphan_wp False pool fid live s Hinv))
    as (pool' & s' & Hr & Hc & Hi & Hf & Hn & _ & Hd).
  exists pool', s'. split_and!; auto. rewrite Hf.
  destruct Hinv as [_ [Hnd _]]. rewrite perm_take, list.NoDup_cons, !elem_of_app in Hnd.
  tauto.
Qed.
End runs.

(** A concrete platform for the examples: allocations succeed. *)
#[local] Instance pool_test_env : Env (list Z) unit := script_env unit.

Definition test_sys : Sys (list Z) unit := mkSys (replicate 10 4096) [] tt.

Definition test_pool : FidPool :=
  mkFidPool 4096 1 (mkArr 4096 (replicate 64 0xDEADBEEF)) 0 64 NULL_array 0 0.

Lemma FidPool_Alloc_fresh_witness :
  exists pool' fid, FidPool_Alloc test_pool test_sys = Done ((pool', fid), test_sys) /\
    1 <= fid < 2 ^ 27.
Proof.
  destruct (FidPool_Alloc_fresh test_pool [] test_sys) as (p & f & H1 & H2 & _).
  - eapply (reach_create test_sys). vm_compute. reflexivity.
  - simpl. lia.
  - exists p, f. split; [exact H1|exact H2].
Defined.

Definition test_pool_live : FidPool :=
  mkFidPool 4096 2 (mkArr 4096 (replicate 64 0xDEADBEEF)) 0 64 NULL_array 0 0.

Lemma test_pool_live_inv : pool_inv test_pool_live [1].
Proof.
  split.
  - split; unfold stack_wf; simpl; lia.
  - split; simpl; [apply NoDup_singleton|repeat constructor; lia].
Qed.

(** Freeing into a new pool a fid that came from the pool before it, as a
    callback does whose exchange escalated to V9P_Reset: the fid is handed out
    twice. *)
Lemma stale_free_twice :
  (pool ← FidPool_Create;
   pool ← lift pool;
   pool ← FidPool_Free pool 1;
   '(pool, a) ← FidPool_Alloc pool;
   '(_, b) ← FidPool_Alloc pool;
   mret (a, b)) test_sys = (_ ← FidPool_Create; mret (1, 1)) test_sys.
Proof. vm_compute. reflexivity. Qed.
