(* ===== verification/VirtQueue.v ===== *)
(** * VirtQueue: the split virtqueue (include/virtio/virtqueue.h,
      src/virtio/virtqueue.c)

    The rings are records with the raw values that lie in guest memory: in
    modern mode the driver stores byte-swapped (little-endian) fields, in
    legacy mode native ones, and [vr16], [vr32], [vr64] convert.  The [next]
    field of a descriptor on the free list is native in both modes; in a posted
    chain it is in ring byte order.

    The abstract state of a queue is the list of free descriptors and the list
    of descriptor chains in flight with their cookies; [vq_rep] relates it to
    the memory representation, and [VirtQueue_AddBuf] and [VirtQueue_GetBuf]
    are proved to implement "post a chain" and "reap a chain" on it. *)

From S2P Require Import Prelude Platform.

Definition VRING_DESC_F_NEXT : Z := 1.
Definition VRING_DESC_F_WRITE : Z := 2.
Definition VRING_AVAIL_F_NO_INTERRUPT : Z := 1.
Definition VIRTIO_PCI_VRING_ALIGN : Z := 4096.
Definition VIRTIO_PCI_QUEUE_NOTIFY : Z := 0x10.

(** ** Structures *)

Record vring_desc := mkDesc { d_addr : Z; d_len : Z; d_flags : Z; d_next : Z }.
Record vring_avail := mkAvail { av_flags : Z; av_idx : Z; av_ring : list Z }.
Record vring_used_elem := mkElem { ue_id : Z; ue_len : Z }.
Record vring_used := mkUsed { us_flags : Z; us_idx : Z; us_ring : list vring_used_elem }.
Record vring_sg := mkSg { sg_addr : Z; sg_len : Z }.

Record virtqueue := mkVirtqueue {
  vq_ptr : Z; desc_ptr : Z;               (* addresses, for FreeVec and DMA *)
  cookies_ptr : Z; indirect_ptr : Z;
  vq_index : Z;
  num : Z;
  desc : list vring_desc;
  avail : vring_avail;
  used : vring_used;
  free_head : Z;
  num_free : Z;
  last_used_idx : Z;
  cookies : list Z;
  mem_block : Z;
  mem_size : Z;
  dma_phys : Z;
  dma_entries : Z;
  avail_phys : Z;
  used_phys : Z;
  notify_addr : Z;
  modern : bool;
  use_event_idx : bool;
  last_kick_avail_idx : Z;
  use_indirect : bool;
  indirect_tables : list Z }.

(** ** Byte order *)

(** __builtin_bswap16/32/64: reverse the bytes of an [n]-byte value. *)
Definition bswap (n : nat) (v : Z) : Z := le_val (rev (le_bytes n v)).

Definition vr16 (modern : bool) (v : Z) : Z := if modern then bswap 2 v else v.
Definition vr32 (modern : bool) (v : Z) : Z := if modern then bswap 4 v else v.
Definition vr64 (modern : bool) (v : Z) : Z := if modern then bswap 8 v else v.

(** ** Updates of the structure *)

Definition set_rings (vq : virtqueue) (d : list vring_desc) (av : vring_avail)
    (fh nf lu : Z) (ck it : list Z) : virtqueue :=
  mkVirtqueue (vq_ptr vq) (desc_ptr vq) (cookies_ptr vq) (indirect_ptr vq)
    (vq_index vq) (num vq) d av (used vq) fh nf lu ck (mem_block vq) (mem_size vq)
    (dma_phys vq) (dma_entries vq) (avail_phys vq) (used_phys vq) (notify_addr vq)
    (modern vq) (use_event_idx vq) (last_kick_avail_idx vq) (use_indirect vq) it.

Definition set_used (u : vring_used) (vq : virtqueue) : virtqueue :=
  mkVirtqueue (vq_ptr vq) (desc_ptr vq) (cookies_ptr vq) (indirect_ptr vq)
    (vq_index vq) (num vq) (desc vq) (avail vq) u (free_head vq) (num_free vq)
    (last_used_idx vq) (cookies vq) (mem_block vq) (mem_size vq)
    (dma_phys vq) (dma_entries vq) (avail_phys vq) (used_phys vq) (notify_addr vq)
    (modern vq) (use_event_idx vq) (last_kick_avail_idx vq) (use_indirect vq)
    (indirect_tables vq).

(** Array reads and writes with a bounds check: [None] is out of bounds. *)
Definition geti {A} (l : list A) (i : Z) : option A :=
  if 0 <=? i then l !! Z.to_nat i else None.
Definition seti {A} (l : list A) (i : Z) (v : A) : option (list A) :=
  if (0 <=? i) && (i <? Z.of_nat (length l))
  then Some (<[Z.to_nat i := v]> l) else None.

(** ** VirtQueue_Allocate: the layout *)

Definition align_up (x : Z) : Z :=
  Z.land (u32 (u32 (x + VIRTIO_PCI_VRING_ALIGN) - 1)) 0xFFFFF000.

Definition vring_desc_size (q : Z) : Z := u32 (16 * q).
Definition vring_avail_size (q : Z) : Z := u32 (2 * (3 + q)).
Definition vring_used_offset (q : Z) : Z :=
  align_up (u32 (vring_desc_size q + vring_avail_size q)).
Definition vring_used_size (q : Z) : Z := u32 (2 * 3 + 8 * q).
Definition vring_total_mem (q : Z) : Z := u32 (vring_used_offset q + vring_used_size q).

(** [for (j = 0; j < queue_size - 1; j++) desc[j].next = (uint16)(j + 1);] *)
Fixpoint link_descs (n : nat) (j : Z) (d : list vring_desc) : option (list vring_desc) :=
  match n with
  | O => Some d
  | S n' =>
      x ← geti d j;
      d ← seti d j (mkDesc (d_addr x) (d_len x) (d_flags x) (u16 (j + 1)));
      link_descs n' (j + 1) d
  end.

Section ops.
Context {E V : Type} `{EnvI : !Env E V} {X : Type}.
Abbreviation M := (M (Sys E X)).

Definition VirtQueue_Allocate (queue_index queue_size : Z) : M (option virtqueue) :=
  let total_mem := vring_total_mem queue_size in
  raw ← ext (AllocVecTags (u32 (total_mem + VIRTIO_PCI_VRING_ALIGN)));
  if raw =? 0 then mret None
  else
    let base := align_up raw in
    vq ← ext (AllocVecTags env_sizeof_virtqueue);
    if vq =? 0 then _ ← ext (FreeVec raw); mret None
    else
      ck ← ext (AllocVecTags (u32 (4 * queue_size)));
      if ck =? 0 then _ ← ext (FreeVec raw); _ ← ext (FreeVec vq); mret None
      else
        it ← ext (AllocVecTags (u32 (4 * queue_size)));
        if it =? 0 then
          _ ← ext (FreeVec ck); _ ← ext (FreeVec raw); _ ← ext (FreeVec vq); mret None
        else
          (* the vring and the arrays are cleared by the allocation *)
          let q := Z.to_nat queue_size in
          d ← lift (link_descs (Z.to_nat (u32 (queue_size - 1))) 0
                      (replicate q (mkDesc 0 0 0 0)));
          x ← lift (geti d (u32 (queue_size - 1)));
          d ← lift (seti d (u32 (queue_size - 1))
                      (mkDesc (d_addr x) (d_len x) (d_flags x) 0));
          mret (Some (mkVirtqueue vq base ck it queue_index queue_size d
            (mkAvail 0 0 (replicate (S q) 0))
            (mkUsed 0 0 (replicate q (mkElem 0 0)))
            0 (u16 queue_size) 0 (replicate q 0) raw total_mem 0 0 0 0 0
            false false 0 false (replicate q 0))).

Definition VirtQueue_Free (vq : option virtqueue) : M unit :=
  match vq with
  | None => mret tt
  | Some vq =>
      _ ← (if (0 <? dma_entries vq) && negb (desc_ptr vq =? 0)
           then ext (EndDMA (desc_ptr vq) (mem_size vq) [DMA_ReadFromRAM]) else mret 0);
      _ ← (if indirect_ptr vq =? 0 then mret 0 else ext (FreeVec (indirect_ptr vq)));
      _ ← (if cookies_ptr vq =? 0 then mret 0 else ext (FreeVec (cookies_ptr vq)));
      _ ← (if mem_block vq =? 0 then mret 0 else ext (FreeVec (mem_block vq)));
      _ ← ext (FreeVec (vq_ptr vq));
      mret tt
  end.

(** The body of the loop of [VirtQueue_AddBuf], for the entries [n] to
    [total - 1]; the result is the descriptor table and the new free head. *)
Fixpoint addbuf_loop (k : nat) (mode : bool) (sg : list vring_sg)
    (out_num total n idx : Z) (d : list vring_desc) (fh : Z)
    : option (list vring_desc * Z) :=
  match k with
  | O => Some (d, fh)
  | S k' =>
      let desc_flags :=
        Z.lor (if out_num <=? n then VRING_DESC_F_WRITE else 0)
              (if n <? total - 1 then VRING_DESC_F_NEXT else 0) in
      x ← geti d idx;
      g ← geti sg n;
      let next_idx := d_next x in
      let x' next := mkDesc (vr64 mode (sg_addr g)) (vr32 mode (sg_len g))
                            (vr16 mode desc_flags) next in
      if n <? total - 1 then
        d ← seti d idx (x' (vr16 mode next_idx));
        addbuf_loop k' mode sg out_num total (n + 1) next_idx d fh
      else
        d ← seti d idx (x' next_idx);
        addbuf_loop k' mode sg out_num total (n + 1) idx d next_idx
  end.

Definition VirtQueue_AddBuf (vq : virtqueue) (sg : list vring_sg)
    (out_num in_num cookie : Z) : option (virtqueue * Z) :=
  let total := u32 (out_num + in_num) in
  if num_free vq <? total then Some (vq, -1)
  else
    let head := free_head vq in
    '(d, fh) ← addbuf_loop (Z.to_nat total) (modern vq) sg out_num total 0 head
                 (desc vq) head;
    ck ← seti (cookies vq) head cookie;
    it ← seti (indirect_tables vq) head 0;
    let avail_idx := vr16 (modern vq) (av_idx (avail vq)) in
    if num vq =? 0 then None else
    ring ← seti (av_ring (avail vq)) (avail_idx mod num vq) (vr16 (modern vq) head);
    Some (set_rings vq d
            (mkAvail (av_flags (avail vq)) (vr16 (modern vq) (u16 (avail_idx + 1))) ring)
            fh (u16 (num_free vq - u16 total)) (last_used_idx vq) ck it, 0).

Definition VirtQueue_Kick (vq : virtqueue) (iobase : Z) : M unit :=
  _ ← (if modern vq
       then ext (MmioW16 (notify_addr vq) (u16 (vq_index vq)))
       else ext (OutWord (u32 (iobase + VIRTIO_PCI_QUEUE_NOTIFY)) (u16 (vq_index vq))));
  mret tt.

(** [while (1)]: return the descriptors of the chain at [idx] to the free
    list; the result has the new table, free head and count. *)
Fixpoint free_chain_loop (fuel : nat) (mode : bool) (idx : Z) (d : list vring_desc)
    (fh freed : Z) : M (list vring_desc * Z * Z) :=
  match fuel with
  | O => hang
  | S fuel =>
      x ← lift (geti d idx);
      let next := vr16 mode (d_next x) in
      let has_next := Z.land (vr16 mode (d_flags x)) VRING_DESC_F_NEXT in
      d ← lift (seti d idx (mkDesc 0 0 0 fh));
      let freed := u32 (freed + 1) in
      if has_next =? 0 then mret (d, idx, freed)
      else free_chain_loop fuel mode next d idx freed
  end.

(** The result is the queue, the cookie (0 is NULL) and the value stored
    through [len_out], if any. *)
Definition VirtQueue_GetBuf (vq : virtqueue) : M (virtqueue * Z * option Z) :=
  if last_used_idx vq =? vr16 (modern vq) (us_idx (used vq)) then mret (vq, 0, None)
  else if num vq =? 0 then fault
  else
    let used_slot := u16 (last_used_idx vq mod num vq) in
    e ← lift (geti (us_ring (used vq)) used_slot);
    let desc_id := vr32 (modern vq) (ue_id e) in
    let written := vr32 (modern vq) (ue_len e) in
    if num vq <=? desc_id then mret (vq, 0, None)
    else
      cookie ← lift (geti (cookies vq) desc_id);
      ck ← lift (seti (cookies vq) desc_id 0);
      itbl ← lift (geti (indirect_tables vq) desc_id);
      it ← lift (seti (indirect_tables vq) desc_id 0);
      let idx := u16 desc_id in
      '(d, fh, freed) ←
        (if negb (itbl =? 0) then
           x ← lift (geti (desc vq) idx);
           let itbl_size := vr32 (modern vq) (d_len x) in
           _ ← ext (EndDMA itbl itbl_size [DMA_ReadFromRAM; DMAF_NoModify]);
           _ ← ext (FreeVec itbl);
           d ← lift (seti (desc vq) idx (mkDesc 0 0 0 (free_head vq)));
           mret (d, idx, 1)
         else
           free_chain_loop (S (Z.to_nat (num vq))) (modern vq) idx (desc vq)
             (free_head vq) 0);
      let last := u16 (last_used_idx vq + 1) in
      ring ← (if use_event_idx vq
              then lift (seti (av_ring (avail vq)) (num vq) (vr16 (modern vq) last))
              else mret (av_ring (avail vq)));
      mret (set_rings vq d (mkAvail (av_flags (avail vq)) (av_idx (avail vq)) ring)
              fh (u16 (num_free vq + u16 freed)) last ck it, cookie, Some written).
End ops.

(** ** Byte order lemmas *)

Lemma bswap_range n v : 0 <= bswap n v < 2 ^ (8 * Z.of_nat n).
Proof.
  unfold bswap. pose proof (le_val_range (rev (le_bytes n v))) as H.
  rewrite length_rev, length_le_bytes in H. apply H, Forall_rev, le_bytes_byte.
Qed.

Lemma bswap_involutive n v : 0 <= v < 2 ^ (8 * Z.of_nat n) -> bswap n (bswap n v) = v.
Proof.
  intros Hv. unfold bswap.
  assert (Hl : length (rev (le_bytes n v)) = n) by (rewrite length_rev; apply length_le_bytes).
  rewrite <- Hl at 1. rewrite le_bytes_val by apply Forall_rev, le_bytes_byte.
  rewrite rev_involutive, le_val_bytes. by apply Z.mod_small.
Qed.

Lemma vr16_vr16 m v : 0 <= v < 65536 -> vr16 m (vr16 m v) = v.
Proof. destruct m; [apply (bswap_involutive 2)|done]. Qed.
Lemma vr32_vr32 m v : 0 <= v < 2 ^ 32 -> vr32 m (vr32 m v) = v.
Proof. destruct m; [apply (bswap_involutive 4)|done]. Qed.
Lemma vr64_vr64 m v : 0 <= v < 2 ^ 64 -> vr64 m (vr64 m v) = v.
Proof. destruct m; [apply (bswap_involutive 8)|done]. Qed.

(** ** Array lemmas *)

Section arrays.
Context {A : Type}.
Implicit Types (l : list A).

Lemma geti_Some_range l i v : geti l i = Some v -> 0 <= i < Z.of_nat (length l).
Proof.
  unfold geti. destruct (Z.leb_spec 0 i); [|done]. intros ?%lookup_lt_Some. lia.
Qed.

Lemma geti_is_Some l i : 0 <= i < Z.of_nat (length l) -> exists v, geti l i = Some v.
Proof.
  intros. unfold geti. destruct (Z.leb_spec 0 i); [|lia].
  apply lookup_lt_is_Some. lia.
Qed.

Lemma seti_Some l i v :
  0 <= i < Z.of_nat (length l) ->
  exists l', seti l i v = Some l' /\ length l' = length l /\
    (forall j, geti l' j = if j =? i then Some v else geti l j).
Proof.
  intros Hi. unfold seti.
  destruct (Z.leb_spec 0 i), (Z.ltb_spec i (Z.of_nat (length l))); try lia. simpl.
  eexists; split_and!; [done|by rewrite length_insert|].
  intros j. unfold geti. destruct (Z.leb_spec 0 j), (Z.eqb_spec j i); subst; try lia.
  - apply list_lookup_insert_eq. lia.
  - apply list_lookup_insert_ne. lia.
  - done.
Qed.

Lemma geti_replicate n (v : A) i :
  geti (replicate n v) i = if (0 <=? i) && (i <? Z.of_nat n) then Some v else None.
Proof.
  unfold geti. destruct (Z.leb_spec 0 i), (Z.ltb_spec i (Z.of_nat n)); simpl; try done.
  - apply lookup_replicate_2. lia.
  - apply lookup_replicate_None. lia.
Qed.
End arrays.

(** ** Layout *)

Lemma align_up_eq x :
  0 <= x < 2 ^ 31 -> align_up x = (x + 4095) / 4096 * 4096.
Proof.
  intros Hx. unfold align_up, VIRTIO_PCI_VRING_ALIGN.
  rewrite (u32_small (x + 4096)), (u32_small (x + 4096 - 1)) by lia.
  replace (x + 4096 - 1) with (x + 4095) by lia. set (y := x + 4095).
  assert (0 <= y < 2 ^ 32) as Hy by lia. clearbody y.
  rewrite <- Z.shiftr_div_pow2 with (n := 12), <- Z.shiftl_mul_pow2 with (n := 12) by lia.
  apply Z.bits_inj'. intros n Hn. rewrite Z.land_spec.
  assert (Hm : Z.testbit 0xFFFFF000 n = (12 <=? n) && (n <? 32)).
  { change 0xFFFFF000 with (Z.shiftl (Z.ones 20) 12). rewrite Z.shiftl_spec by lia.
    destruct (Z.leb_spec 12 n).
    - rewrite Z.testbit_ones_nonneg by lia. simpl.
      destruct (Z.ltb_spec (n - 12) 20), (Z.ltb_spec n 32); lia.
    - by rewrite Z.testbit_neg_r by lia. }
  rewrite Hm, Z.shiftl_spec by lia. destruct (Z.leb_spec 12 n); simpl.
  - rewrite Z.shiftr_spec by lia. replace (n - 12 + 12) with n by lia.
    destruct (Z.ltb_spec n 32); [by rewrite andb_true_r|].
    rewrite <- (Z.mod_small y (2 ^ 32)) by lia.
    by rewrite Z.mod_pow2_bits_high by lia.
  - rewrite andb_false_r, Z.testbit_neg_r by lia. done.
Qed.

(** The offsets and sizes of the three regions, and the alignment of the block. *)
Lemma vring_sizes (q raw : Z) :
  0 < q < 65536 -> 0 <= raw < 2 ^ 31 - 2 ^ 22 ->
  let base := align_up raw in
  vring_desc_size q = 16 * q /\ vring_avail_size q = 6 + 2 * q /\
  vring_desc_size q + vring_avail_size q <= vring_used_offset q /\
  vring_used_offset q mod 4096 = 0 /\
  vring_used_offset q + vring_used_size q = vring_total_mem q /\
  vring_used_size q = 6 + 8 * q /\
  base mod 4096 = 0 /\ raw <= base /\
  base + vring_total_mem q <= raw + u32 (vring_total_mem q + VIRTIO_PCI_VRING_ALIGN).
Proof.
  intros Hq Hraw.
  assert (Hd : vring_desc_size q = 16 * q) by (unfold vring_desc_size; unwrap; lia).
  assert (Ha : vring_avail_size q = 6 + 2 * q) by (unfold vring_avail_size; unwrap; lia).
  assert (Hs : vring_used_size q = 6 + 8 * q) by (unfold vring_used_size; unwrap; lia).
  assert (Ho : vring_used_offset q = (18 * q + 6 + 4095) / 4096 * 4096).
  { unfold vring_used_offset. rewrite Hd, Ha, u32_small by lia.
    rewrite align_up_eq by lia. do 2 f_equal. lia. }
  pose proof (Z.div_mod (18 * q + 6 + 4095) 4096 ltac:(lia)).
  pose proof (Z.mod_pos_bound (18 * q + 6 + 4095) 4096 ltac:(lia)).
  assert (Ht : vring_total_mem q = vring_used_offset q + vring_used_size q).
  { unfold vring_total_mem. apply u32_small. lia. }
  cbv zeta. rewrite align_up_eq by lia.
  pose proof (Z.div_mod (raw + 4095) 4096 ltac:(lia)).
  pose proof (Z.mod_pos_bound (raw + 4095) 4096 ltac:(lia)).
  unfold VIRTIO_PCI_VRING_ALIGN. rewrite (u32_small (vring_total_mem q + 4096)) by lia.
  split_and!; try lia; [rewrite Ho|]; by apply Z.mod_mul.
Qed.

(** ** The abstract queue *)

(** The free list: starting at [head], the native [next] fields visit [l]. *)
Fixpoint free_list_at (d : list vring_desc) (head : Z) (l : list Z) : Prop :=
  match l with
  | [] => True
  | x :: l' => head = x /\ exists e, geti d x = Some e /\ free_list_at d (d_next e) l'
  end.

(** A posted chain: linked in ring byte order, NEXT on all but the last. *)
Fixpoint chain_at (m : bool) (d : list vring_desc) (l : list Z) : Prop :=
  match l with
  | [] => True
  | x :: l' => exists e, geti d x = Some e /\
      Z.land (vr16 m (d_flags e)) VRING_DESC_F_NEXT = (match l' with [] => 0 | _ => 1 end) /\
      (match l' with [] => True | y :: _ => vr16 m (d_next e) = y end) /\
      chain_at m d l'
  end.

(** A chain in flight: its descriptors and its cookie. *)
Record flight := mkFlight { fl_chain : list Z; fl_cookie : Z }.

Definition fl_head (f : flight) : Z := default 0 (head (fl_chain f)).

Definition flight_at (vq : virtqueue) (f : flight) : Prop :=
  fl_chain f <> [] /\ chain_at (modern vq) (desc vq) (fl_chain f) /\
  geti (cookies vq) (fl_head f) = Some (fl_cookie f).

Definition flight_descs (fs : list flight) : list Z := concat (fl_chain <$> fs).

Record vq_rep (vq : virtqueue) (fr : list Z) (fs : list flight) : Prop := {
  rep_num : 0 < num vq < 65536;
  rep_desc : length (desc vq) = Z.to_nat (num vq);
  rep_cookies : length (cookies vq) = Z.to_nat (num vq);
  rep_indirect : indirect_tables vq = replicate (Z.to_nat (num vq)) 0;
  rep_avail : length (av_ring (avail vq)) = S (Z.to_nat (num vq));
  rep_used : length (us_ring (used vq)) = Z.to_nat (num vq);
  rep_av_idx : 0 <= av_idx (avail vq) < 65536;
  rep_last : 0 <= last_used_idx vq < 65536;
  rep_free : free_list_at (desc vq) (free_head vq) fr;
  rep_num_free : num_free vq = Z.of_nat (length fr);
  rep_nodup : NoDup (fr ++ flight_descs fs);
  rep_range : Forall (fun i => 0 <= i < num vq) (fr ++ flight_descs fs);
  rep_flights : Forall (flight_at vq) fs }.

(** What the device reads for the chain at [head]: address, length and whether
    the buffer is device-writable. *)
Fixpoint dev_chain (fuel : nat) (m : bool) (d : list vring_desc) (head : Z)
    : option (list (Z * Z * bool)) :=
  match fuel with
  | O => None
  | S fuel =>
      e ← geti d head;
      let fl := vr16 m (d_flags e) in
      let b := (vr64 m (d_addr e), vr32 m (d_len e),
                negb (Z.land fl VRING_DESC_F_WRITE =? 0)) in
      if Z.land fl VRING_DESC_F_NEXT =? 0 then Some [b]
      else rest ← dev_chain fuel m d (vr16 m (d_next e)); Some (b :: rest)
  end.

(** The same buffers from the scatter-gather list of the caller. *)
Fixpoint sg_view (out_num n : Z) (sg : list vring_sg) : list (Z * Z * bool) :=
  match sg with
  | [] => []
  | g :: sg' => (sg_addr g, sg_len g, out_num <=? n) :: sg_view out_num (n + 1) sg'
  end.

Definition sg_ok (g : vring_sg) : Prop :=
  0 <= sg_addr g < 2 ^ 32 /\ 0 <= sg_len g < 2 ^ 32.

(** ** Frame lemmas: the lists depend on their own descriptors only *)

Lemma free_list_at_ext d d' head l :
  (forall x, x ∈ l -> geti d' x = geti d x) ->
  free_list_at d head l -> free_list_at d' head l.
Proof.
  revert head; induction l as [|x l IH]; intros head Hd; [done|].
  intros (-> & e & He & Hl). split; [done|]. exists e.
  rewrite Hd by set_solver. split; [done|]. apply IH; [|done]. set_solver.
Qed.

Lemma chain_at_ext m d d' l :
  (forall x, x ∈ l -> geti d' x = geti d x) -> chain_at m d l -> chain_at m d' l.
Proof.
  induction l as [|x l IH]; intros Hd; [done|].
  intros (e & He & Hf & Hn & Hl). exists e. rewrite Hd by set_solver.
  split_and!; [done..|]. apply IH; [|done]. set_solver.
Qed.

Lemma elem_of_flight_descs x fs :
  x ∈ flight_descs fs <-> exists f, f ∈ fs /\ x ∈ fl_chain f.
Proof.
  unfold flight_descs.
  induction fs as [|f fs IH]; simpl.
  { split; [by intros ?%elem_of_nil|by intros (? & ?%elem_of_nil & _)]. }
  rewrite elem_of_app, IH. split.
  - intros [Hx|(g & Hg & Hx)]; eexists; (split; [|exact Hx]); [left|by right].
  - intros (g & [->|Hg]%elem_of_cons & Hx); eauto.
Qed.

Lemma fl_head_in f : fl_chain f <> [] -> fl_head f ∈ fl_chain f.
Proof. unfold fl_head. destruct (fl_chain f); [done|]. set_solver. Qed.

(** ** AddBuf *)

(** The flags word of entry [n] and its two bits. *)
Definition addbuf_flags (out_num total n : Z) : Z :=
  Z.lor (if out_num <=? n then VRING_DESC_F_WRITE else 0)
        (if n <? total - 1 then VRING_DESC_F_NEXT else 0).

Lemma addbuf_flags_bits out_num total n :
  0 <= addbuf_flags out_num total n < 65536 /\
  Z.land (addbuf_flags out_num total n) VRING_DESC_F_NEXT
    = (if n <? total - 1 then 1 else 0) /\
  negb (Z.land (addbuf_flags out_num total n) VRING_DESC_F_WRITE =? 0) = (out_num <=? n).
Proof.
  unfold addbuf_flags, VRING_DESC_F_NEXT, VRING_DESC_F_WRITE.
  destruct (out_num <=? n), (n <? total - 1); split_and!; vm_compute; congruence.
Qed.

Section addbuf.
Context (m : bool) (out_num : Z) (sg : list vring_sg).

Lemma addbuf_loop_spec c n idx d fh rest sgs total :
  c <> [] -> 0 <= n -> total = n + Z.of_nat (length c) ->
  length sgs = length c -> Forall sg_ok sgs ->
  (forall k, geti sg (n + Z.of_nat k) = sgs !! k) ->
  free_list_at d idx (c ++ rest) -> NoDup (c ++ rest) ->
  Forall (fun i => 0 <= i < 65536) (c ++ rest) ->
  exists d' fh',
    addbuf_loop (length c) m sg out_num total n idx d fh = Some (d', fh') /\
    length d' = length d /\ (forall j, j ∉ c -> geti d' j = geti d j) /\
    free_list_at d' fh' rest /\ chain_at m d' c /\
    forall fuel, (length c <= fuel)%nat ->
      dev_chain fuel m d' idx = Some (sg_view out_num n sgs).
Proof.
  revert n idx d fh sgs. induction c as [|x c IH]; [done|].
  intros n idx d fh sgs _ Hn Htot Hlen Hsg Hget Hfl Hnd Hr.
  destruct sgs as [|g sgs]; [done|]. simpl in Hlen, Hfl, Hnd, Hr.
  destruct Hfl as (-> & e & He & Hfl).
  apply list.NoDup_cons in Hnd as [Hx Hnd]. apply list.Forall_cons in Hr as [Hxr Hr].
  apply list.Forall_cons in Hsg as [Hg Hsg]. destruct Hg as [Hga Hgl].
  pose proof (Hget 0%nat) as Hg0. rewrite Z.add_0_r in Hg0. simpl in Hg0.
  destruct (addbuf_flags_bits out_num total n) as (Hfr & Hfn & Hfw).
  cbn [length addbuf_loop]. rewrite He, Hg0. cbn [mbind option_bind].
  fold (addbuf_flags out_num total n).
  set (next := if n <? total - 1 then vr16 m (d_next e) else d_next e).
  destruct (seti_Some d x (mkDesc (vr64 m (sg_addr g)) (vr32 m (sg_len g))
    (vr16 m (addbuf_flags out_num total n)) next)) as (d1 & Hd1 & Hl1 & Hg1).
  { by eapply geti_Some_range. }
  assert (Hd1x : forall j, j <> x -> geti d1 j = geti d j).
  { intros j Hj. rewrite Hg1. by destruct (Z.eqb_spec j x). }
  specialize (Hg1 x) as Hx1. rewrite Z.eqb_refl in Hx1.
  destruct c as [|y c].
  - simpl in Htot. destruct (Z.ltb_spec n (total - 1)); [lia|].
    subst next. rewrite Hd1. cbn [mbind option_bind]. simpl.
    exists d1, (d_next e). split_and!; [done|done| | | |].
    + intros j Hj. apply Hd1x. set_solver.
    + eapply free_list_at_ext; [|exact Hfl]. intros j Hj. apply Hd1x. set_solver.
    + eexists. split; [exact Hx1|]. simpl. rewrite vr16_vr16 by lia. auto.
    + intros [|fuel] Hf; [simpl in Hf; lia|]. cbn [dev_chain]. rewrite Hx1.
      cbn [mbind option_bind]. simpl. rewrite vr16_vr16, Hfn by lia. simpl.
      rewrite vr64_vr64, vr32_vr32, Hfw by lia. destruct sgs; [done|simpl in Hlen; lia].
  - simpl in Htot. destruct (Z.ltb_spec n (total - 1)); [|lia].
    subst next. rewrite Hd1. cbn [mbind option_bind].
    assert (d_next e = y) as Hey by (simpl in Hfl; tauto).
    destruct (IH (n + 1) (d_next e) d1 fh sgs) as (d' & fh' & -> & Hl' & Ho & Hfl' & Hch & Hdev).
    { done. } { lia. } { simpl. lia. } { simpl in *. lia. } { done. }
    { intros k. specialize (Hget (S k)). simpl in Hget. rewrite <- Hget. f_equal. lia. }
    { eapply free_list_at_ext; [|exact Hfl]. intros j Hj. apply Hd1x.
      intros ->. done. }
    { done. } { done. }
    assert (Hxd : geti d' x = geti d1 x) by (apply Ho; set_solver).
    rewrite Hx1 in Hxd. exists d', fh'. split_and!; [done|congruence| |done| |].
    + intros j Hj. rewrite Ho by set_solver. apply Hd1x. set_solver.
    + eexists. split; [exact Hxd|]. simpl. rewrite vr16_vr16 by lia.
      split; [done|]. split; [|exact Hch]. rewrite Hey, vr16_vr16; [done|].
      simpl in Hr. by apply list.Forall_cons in Hr as [? _].
    + intros [|fuel] Hf; [simpl in Hf; lia|]. cbn [dev_chain]. rewrite Hxd.
      cbn [mbind option_bind]. simpl. rewrite vr16_vr16, Hfn by lia. simpl.
      rewrite vr64_vr64, vr32_vr32, Hfw by lia. rewrite Hey in *.
      rewrite vr16_vr16 by (by apply list.Forall_cons in Hr as [? _]).
      rewrite Hdev by (simpl in *; lia). done.
Qed.
End addbuf.

Lemma vr16_range m v : 0 <= v < 65536 -> 0 <= vr16 m v < 65536.
Proof. destruct m; [intros _; apply (bswap_range 2)|done]. Qed.

Lemma flight_at_ext vq vq' f :
  modern vq' = modern vq ->
  (forall x, x ∈ fl_chain f -> geti (desc vq') x = geti (desc vq) x) ->
  (forall x, x ∈ fl_chain f -> geti (cookies vq') x = geti (cookies vq) x) ->
  flight_at vq f -> flight_at vq' f.
Proof.
  intros Hm Hd Hc (Hne & Hch & Hck). split_and!; [done| |].
  - rewrite Hm. by eapply chain_at_ext.
  - rewrite Hc; [done|]. by apply fl_head_in.
Qed.

(** Chains in flight are not touched by changes to other descriptors. *)
Lemma flights_ext vq vq' fs (touched : list Z) :
  modern vq' = modern vq ->
  (forall x, x ∉ touched -> geti (desc vq') x = geti (desc vq) x) ->
  (forall x, x ∉ touched -> geti (cookies vq') x = geti (cookies vq) x) ->
  (forall x, x ∈ touched -> x ∉ flight_descs fs) ->
  Forall (flight_at vq) fs -> Forall (flight_at vq') fs.
Proof.
  intros Hm Hd Hc Ht Hfs. rewrite Forall_forall in *. intros f Hf.
  apply (flight_at_ext vq); [done| | |by apply Hfs].
  - intros x Hx. apply Hd. intros Hin. apply (Ht x Hin), elem_of_flight_descs.
    exists f. split; [by apply list_elem_of_In|done].
  - intros x Hx. apply Hc. intros Hin. apply (Ht x Hin), elem_of_flight_descs.
    exists f. split; [by apply list_elem_of_In|done].
Qed.

Lemma flight_descs_app fs gs : flight_descs (fs ++ gs) = flight_descs fs ++ flight_descs gs.
Proof. unfold flight_descs. by rewrite fmap_app, concat_app. Qed.

Lemma post_perm (c rest : list Z) fs cookie :
  rest ++ flight_descs (fs ++ [mkFlight c cookie]) ≡ₚ (c ++ rest) ++ flight_descs fs.
Proof.
  rewrite flight_descs_app. unfold flight_descs at 2. simpl. rewrite app_nil_r.
  rewrite (Permutation_app_comm c rest), <- app_assoc.
  apply Permutation_app_head, Permutation_app_comm.
Qed.

Lemma seti_replicate_same {A} n (v : A) i l' :
  seti (replicate n v) i v = Some l' -> l' = replicate n v.
Proof.
  unfold seti. destruct (_ && _) eqn:Hb; [|done]. intros [= <-].
  apply list_insert_id, lookup_replicate_2.
  rewrite length_replicate in Hb. apply andb_prop in Hb as [H1%Z.leb_le H2%Z.ltb_lt]. lia.
Qed.

Lemma rep_free_length vq fr fs :
  vq_rep vq fr fs -> Z.of_nat (length fr) <= num vq.
Proof.
  intros []. apply list.NoDup_app in rep_nodup0 as (Hnd & _).
  apply Forall_app in rep_range0 as [Hr _]. apply (range_length _ 0); (lia || done).
Qed.

Lemma AddBuf_rep (vq : virtqueue) (c rest : list Z) (fs : list flight)
    (sg : list vring_sg) (out_num in_num cookie : Z)
    (Hrep : vq_rep vq (c ++ rest) fs) (Hc : c <> [])
    (Hout : 0 <= out_num) (Hin : 0 <= in_num)
    (Htot : out_num + in_num = Z.of_nat (length c))
    (Hlen : length sg = length c) (Hsg : Forall sg_ok sg) :
  exists vq', VirtQueue_AddBuf vq sg out_num in_num cookie = Some (vq', 0) /\
    vq_rep vq' rest (fs ++ [mkFlight c cookie]) /\
    (let a := vr16 (modern vq) (av_idx (avail vq)) in
     let h := fl_head (mkFlight c cookie) in
     geti (av_ring (avail vq')) (a mod num vq) = Some (vr16 (modern vq) h) /\
     vr16 (modern vq) (av_idx (avail vq')) = u16 (a + 1) /\
     dev_chain (length c) (modern vq) (desc vq') h = Some (sg_view out_num 0 sg)) /\
    used vq' = used vq /\ last_used_idx vq' = last_used_idx vq /\
    num vq' = num vq /\ modern vq' = modern vq.
Proof.
  pose proof (rep_free_length _ _ _ Hrep) as Hnn.
  destruct Hrep as [Hnum Hdl Hcl Hil Hal Hul Hai Hlast Hfree Hnf Hnd Hr Hfl].
  assert (Hcn : (length c <= length (c ++ rest))%nat) by (rewrite length_app; lia).
  unfold VirtQueue_AddBuf. rewrite (u32_small (out_num + in_num)), Htot by lia.
  destruct (Z.ltb_spec (num_free vq) (Z.of_nat (length c))); [lia|]. rewrite Nat2Z.id.
  assert (Hrc : Forall (fun i => 0 <= i < num vq) (c ++ rest))
    by (by apply Forall_app in Hr as [? _]).
  destruct (addbuf_loop_spec (modern vq) out_num sg c 0 (free_head vq) (desc vq)
    (free_head vq) rest sg (Z.of_nat (length c)))
    as (d' & fh' & -> & Hl' & Ho & Hfl' & Hch & Hdev); [done|lia|lia|done|done| | | | |].
  { intros k. unfold geti. simpl. destruct (Z.leb_spec 0 (0 + Z.of_nat k)); [|lia].
    f_equal. lia. }
  { done. } { by apply list.NoDup_app in Hnd as (? & _). }
  { eapply Forall_impl; [|exact Hrc]. simpl. lia. }
  cbn [mbind option_bind].
  assert (Hh : free_head vq = fl_head (mkFlight c cookie)).
  { destruct c; [done|]. simpl in Hfree. tauto. }
  assert (Hhr : 0 <= free_head vq < num vq).
  { rewrite Forall_forall in Hrc. apply Hrc, list_elem_of_In, elem_of_app. left.
    rewrite Hh. by apply fl_head_in. }
  destruct (seti_Some (cookies vq) (free_head vq) cookie) as (ck & -> & Hckl & Hck); [lia|].
  cbn [mbind option_bind]. rewrite Hil.
  destruct (seti_Some (replicate (Z.to_nat (num vq)) 0) (free_head vq) 0)
    as (it & Hit & _); [rewrite length_replicate; lia|].
  rewrite Hit. apply seti_replicate_same in Hit as ->.
  cbn [mbind option_bind]. destruct (Z.eqb_spec (num vq) 0); [lia|].
  pose proof (vr16_range (modern vq) _ Hai) as Hav.
  pose proof (Z.mod_pos_bound (vr16 (modern vq) (av_idx (avail vq))) (num vq) ltac:(lia)).
  edestruct (seti_Some (av_ring (avail vq))) as (ring & -> & Hrl & Hrg); [rewrite Hal; lia|].
  cbn [mbind option_bind]. eexists. split; [done|]. split; [|split_and!; try done; simpl].
  - split; simpl; try done; try congruence; try lia.
    + apply vr16_range, u16_range.
    + rewrite (u16_small (Z.of_nat (length c))), Hnf by lia.
      rewrite length_app in *. rewrite u16_small; lia.
    + by rewrite post_perm.
    + by rewrite post_perm.
    + apply Forall_app; split.
      * apply (flights_ext vq _ fs c); simpl; try done.
        -- intros x Hx. rewrite Hck. destruct (Z.eqb_spec x (free_head vq)) as [->|]; [|done].
           exfalso. apply Hx. rewrite Hh. by apply fl_head_in.
        -- intros x Hx Hin2. apply list.NoDup_app in Hnd as (_ & Hdis & _).
           apply (Hdis x); [set_solver|done].
      * repeat constructor; simpl; [done..|].
        by rewrite Hck, <- Hh, Z.eqb_refl.
  - rewrite Hrg, Z.eqb_refl. by rewrite <- Hh.
  - apply vr16_vr16, u16_range.
  - rewrite <- Hh. by apply Hdev.
Qed.

(** C7: with enough free descriptors, [VirtQueue_AddBuf] takes them from the
    free list in order and posts one chain: the device, reading the ring in its
    byte order from the head published in the avail ring, sees exactly the
    caller's buffers, out-buffers read-only and in-buffers writable; every
    chain already in flight is untouched. *)
Theorem VirtQueue_AddBuf_posts (vq : virtqueue) (c rest : list Z) (fs : list flight)
    (sg : list vring_sg) (out_num in_num cookie : Z)
    (Hrep : vq_rep vq (c ++ rest) fs) (Hc : c <> [])
    (Hout : 0 <= out_num) (Hin : 0 <= in_num)
    (Htot : out_num + in_num = Z.of_nat (length c))
    (Hlen : length sg = length c) (Hsg : Forall sg_ok sg) :
  exists vq', VirtQueue_AddBuf vq sg out_num in_num cookie = Some (vq', 0) /\
    vq_rep vq' rest (fs ++ [mkFlight c cookie]) /\
    (let a := vr16 (modern vq) (av_idx (avail vq)) in
     let h := fl_head (mkFlight c cookie) in
     geti (av_ring (avail vq')) (a mod num vq) = Some (vr16 (modern vq) h) /\
     vr16 (modern vq) (av_idx (avail vq')) = u16 (a + 1) /\
     dev_chain (length c) (modern vq) (desc vq') h = Some (sg_view out_num 0 sg)) /\
    used vq' = used vq /\ last_used_idx vq' = last_used_idx vq /\
    num vq' = num vq /\ modern vq' = modern vq.
Proof. by apply AddBuf_rep. Qed.

(** ** GetBuf *)

Section getbuf.
Context {E V : Type} `{EnvI : !Env E V} {X : Type}.
Implicit Types s : Sys E X.

Lemma free_chain_loop_spec m c fuel d fh freed fr s :
  c <> [] -> chain_at m d c -> free_list_at d fh fr -> NoDup (c ++ fr) ->
  (length c <= fuel)%nat -> 0 <= freed -> freed + Z.of_nat (length c) < 65536 ->
  exists d' fh',
    free_chain_loop fuel m (default 0 (head c)) d fh freed s =
      Done ((d', fh', freed + Z.of_nat (length c)), s) /\
    length d' = length d /\ (forall j, j ∉ c -> geti d' j = geti d j) /\
    free_list_at d' fh' (rev c ++ fr).
Proof.
  revert fuel d fh freed fr. induction c as [|x c IH]; [done|].
  intros [|fuel] d fh freed fr _ Hch Hfl Hnd Hf Hfr Hb; [simpl in Hf; lia|].
  destruct Hch as (e & He & Hflag & Hnext & Hch).
  simpl app in Hnd. apply list.NoDup_cons in Hnd as [Hx Hnd].
  destruct (seti_Some d x (mkDesc 0 0 0 fh)) as (d1 & Hd1 & Hl1 & Hg1);
    [by eapply geti_Some_range|].
  assert (Hd1x : forall j, j <> x -> geti d1 j = geti d j).
  { intros j Hj. rewrite Hg1. by destruct (Z.eqb_spec j x). }
  assert (Hfl1 : free_list_at d1 x (x :: fr)).
  { split; [done|]. exists (mkDesc 0 0 0 fh). rewrite Hg1, Z.eqb_refl.
    split; [done|]. eapply free_list_at_ext; [|exact Hfl]. intros j Hj. apply Hd1x.
    intros ->. set_solver. }
  simpl default. cbn [free_chain_loop]. rewrite (bind_lift _ _ _ _ He).
  rewrite (bind_lift _ _ _ _ Hd1). rewrite (u32_small (freed + 1)) by lia. rewrite Hflag.
  destruct c as [|y c].
  - exists d1, x. split; [|split; [done|split; [|done]]].
    + tuple_lia.
    + intros j Hj. apply Hd1x. set_solver.
  - simpl. rewrite Hnext.
    destruct (IH fuel d1 x (freed + 1) (x :: fr)) as (d' & fh' & Hrun & Hl' & Ho & Hfl').
    { done. }
    { eapply chain_at_ext; [|exact Hch]. intros j Hj. apply Hd1x. intros ->. set_solver. }
    { done. }
    { rewrite <- Permutation_middle. apply list.NoDup_cons. auto. }
    { simpl in *; lia. } { lia. } { simpl in *; lia. }
    simpl default in Hrun. exists d', fh'. rewrite Hrun.
    split_and!; [|congruence| |].
    + simpl length. tuple_lia.
    + intros j Hj. rewrite Ho by set_solver. apply Hd1x. set_solver.
    + simpl rev in *. rewrite <- !app_assoc in *. exact Hfl'.
Qed.

Lemma reap_perm fr fs1 f fs2 :
  (rev (fl_chain f) ++ fr) ++ flight_descs (fs1 ++ fs2)
  ≡ₚ fr ++ flight_descs (fs1 ++ f :: fs2).
Proof.
  assert (flight_descs (fs1 ++ f :: fs2) ≡ₚ fl_chain f ++ flight_descs (fs1 ++ fs2)) as ->.
  { rewrite !flight_descs_app. unfold flight_descs at 2. simpl.
    rewrite !app_assoc. apply Permutation_app_tail, Permutation_app_comm. }
  rewrite !app_assoc. apply Permutation_app_tail.
  rewrite <- Permutation_rev. apply Permutation_app_comm.
Qed.

(** The used ring has an entry for us, and it names the chain [f]. *)
Definition completed (vq : virtqueue) (f : flight) (len : Z) : Prop :=
  vr16 (modern vq) (us_idx (used vq)) <> last_used_idx vq /\
  exists e, geti (us_ring (used vq)) (last_used_idx vq mod num vq) = Some e /\
    vr32 (modern vq) (ue_id e) = fl_head f /\ vr32 (modern vq) (ue_len e) = len.

(** What the invariant says about a chain [f] in flight and the state in
    which its descriptors are back on the free list. *)
Lemma reap_facts vq fr fs1 f fs2 :
  vq_rep vq fr (fs1 ++ f :: fs2) ->
  flight_at vq f /\ 0 <= fl_head f < num vq /\
  Z.of_nat (length (fl_chain f)) + Z.of_nat (length fr) <= num vq /\
  NoDup ((rev (fl_chain f) ++ fr) ++ flight_descs (fs1 ++ fs2)) /\
  Forall (fun i => 0 <= i < num vq) ((rev (fl_chain f) ++ fr) ++ flight_descs (fs1 ++ fs2)) /\
  Forall (flight_at vq) (fs1 ++ fs2).
Proof.
  intros [Hnum _ _ _ _ _ _ _ _ _ Hnd Hr Hfl].
  rewrite <- (reap_perm fr fs1 f fs2) in Hnd. rewrite <- (reap_perm fr fs1 f fs2) in Hr.
  apply Forall_app in Hfl as [Hfl1 [Hf Hfl2]%list.Forall_cons].
  split_and!; [done|apply Forall_forall with (x := fl_head f) in Hr; [lia|]..| | | |].
  - rewrite <- list_elem_of_In, !elem_of_app, list_elem_of_In, <- in_rev. left; left.
    apply list_elem_of_In, fl_head_in, Hf.
  - rewrite <- list_elem_of_In, !elem_of_app, list_elem_of_In, <- in_rev. left; left.
    apply list_elem_of_In, fl_head_in, Hf.
  - apply list.NoDup_app in Hnd as (Hnd1 & _). apply Forall_app in Hr as [Hr1 _].
    apply (range_length _ 0) in Hr1; [|lia|done].
    rewrite length_app, length_rev in Hr1. lia.
  - done.
  - done.
  - by apply Forall_app.
Qed.

(** The chains that stay in flight when the chain [f] is returned. *)
Lemma reap_flights vq vq' fr f fs :
  modern vq' = modern vq ->
  (forall j, j ∉ fl_chain f -> geti (desc vq') j = geti (desc vq) j) ->
  (forall j, geti (cookies vq') j =
    if j =? fl_head f then Some 0 else geti (cookies vq) j) ->
  flight_at vq f -> NoDup ((rev (fl_chain f) ++ fr) ++ flight_descs fs) ->
  Forall (flight_at vq) fs -> Forall (flight_at vq') fs.
Proof.
  intros Hm Hd Hck Hf Hnd. apply (flights_ext vq _ _ (fl_chain f)); [done|done|..].
  - intros x Hx. rewrite Hck. destruct (Z.eqb_spec x (fl_head f)) as [->|]; [|done].
    exfalso. apply Hx, fl_head_in, Hf.
  - intros x Hx Hin. apply list.NoDup_app in Hnd as (_ & Hdis & _).
    apply (Hdis x); [|done]. apply elem_of_app. left.
    by rewrite list_elem_of_In, <- in_rev, <- list_elem_of_In.
Qed.

Lemma GetBuf_rep vq fr fs1 f fs2 len s :
  vq_rep vq fr (fs1 ++ f :: fs2) -> use_event_idx vq = false ->
  completed vq f len ->
  exists vq', VirtQueue_GetBuf vq s = Done ((vq', fl_cookie f, Some len), s) /\
    vq_rep vq' (rev (fl_chain f) ++ fr) (fs1 ++ fs2) /\
    last_used_idx vq' = u16 (last_used_idx vq + 1) /\
    used vq' = used vq /\ avail vq' = avail vq /\
    num vq' = num vq /\ modern vq' = modern vq /\ use_event_idx vq' = false.
Proof.
  intros Hrep Hev (Hidx & e & He & Hid & Hln).
  destruct (reap_facts _ _ _ _ _ Hrep) as (Hf & Hhr & Hlc & Hnd & Hr & Hfl).
  destruct Hrep as [Hnum Hdl Hcl Hil Hal Hul Hai Hlast Hfree Hnf _ _ _].
  pose proof Hf as (Hne & Hch & Hck).
  unfold VirtQueue_GetBuf.
  destruct (Z.eqb_spec (last_used_idx vq) (vr16 (modern vq) (us_idx (used vq))));
    [congruence|]. destruct (Z.eqb_spec (num vq) 0); [lia|].
  pose proof (Z.mod_pos_bound (last_used_idx vq) (num vq) ltac:(lia)).
  rewrite (u16_small (last_used_idx vq mod num vq)) by lia.
  rewrite (bind_lift _ _ _ _ He), Hid, Hln. destruct (Z.leb_spec (num vq) (fl_head f)); [lia|].
  rewrite (bind_lift _ _ _ _ Hck).
  destruct (seti_Some (cookies vq) (fl_head f) 0) as (ck & Hset & Hckl & Hckg); [lia|].
  rewrite (bind_lift _ _ _ _ Hset), Hil.
  rewrite geti_replicate. destruct (Z.leb_spec 0 (fl_head f)); [|lia].
  destruct (Z.ltb_spec (fl_head f) (Z.of_nat (Z.to_nat (num vq)))); [|lia].
  erewrite (bind_lift (if _ && _ then _ else _)) by done.
  destruct (seti_Some (replicate (Z.to_nat (num vq)) 0) (fl_head f) 0)
    as (it & Hit & _); [rewrite length_replicate; lia|].
  rewrite (bind_lift _ _ _ _ Hit). apply seti_replicate_same in Hit as ->.
  rewrite (u16_small (fl_head f)) by lia. simpl negb. cbv iota.
  destruct (free_chain_loop_spec (modern vq) (fl_chain f) (S (Z.to_nat (num vq)))
    (desc vq) (free_head vq) 0 fr s) as (d' & fh' & Hrun & Hl' & Ho & Hfl').
  { done. } { done. } { done. }
  { apply list.NoDup_app in Hnd as (Hnd1 & _). by rewrite <- Permutation_rev in Hnd1. }
  { lia. } { lia. } { lia. }
  rewrite (bind_done _ _ _ _ _ Hrun), Hev, bind_ret. eexists. split; [done|].
  split; [|split_and!; try done; simpl; by destruct (avail vq)].
  split; simpl; try done; try congruence; try lia.
  - apply u16_range.
  - rewrite Hnf, (u16_small (0 + Z.of_nat (length (fl_chain f)))) by lia.
    rewrite length_app, length_rev, u16_small by lia. lia.
  - by apply (reap_flights vq _ fr f).
Qed.
End getbuf.

(** C8: when the used ring names a chain in flight, [VirtQueue_GetBuf] returns
    that chain's cookie and the written length, gives back exactly the chain's
    descriptors to the free list, advances its used index by one modulo 2^16
    and leaves every other chain in flight; it faults nowhere and its inner
    loop ends. *)
Theorem VirtQueue_GetBuf_reaps {E V : Type} `{EnvI : !Env E V} {X : Type}
    (vq : virtqueue) (fr : list Z) (fs1 : list flight) (f : flight) (fs2 : list flight)
    (len : Z) (s : Sys E X)
    (Hrep : vq_rep vq fr (fs1 ++ f :: fs2)) (Hev : use_event_idx vq = false)
    (Hdone : completed vq f len) :
  exists vq', VirtQueue_GetBuf vq s = Done ((vq', fl_cookie f, Some len), s) /\
    vq_rep vq' (rev (fl_chain f) ++ fr) (fs1 ++ fs2) /\
    last_used_idx vq' = u16 (last_used_idx vq + 1) /\
    used vq' = used vq /\ avail vq' = avail vq /\
    num vq' = num vq /\ modern vq' = modern vq /\ use_event_idx vq' = false.
Proof. by apply GetBuf_rep. Qed.

(** ** Nothing to reap *)

(** The two cases in which the used ring has nothing the driver accepts. *)
Definition nothing_used (vq : virtqueue) : Prop :=
  vr16 (modern vq) (us_idx (used vq)) = last_used_idx vq \/
  exists e, geti (us_ring (used vq)) (last_used_idx vq mod num vq) = Some e /\
    num vq <= vr32 (modern vq) (ue_id e).

(** C33: with an empty used ring [VirtQueue_GetBuf] returns NULL and changes
    nothing.  The same happens for a used entry with a descriptor id out of
    range: the entry is not consumed, so every later call sees it again. *)
Theorem VirtQueue_GetBuf_nothing {E V : Type} `{EnvI : !Env E V} {X : Type}
    (vq : virtqueue) (s : Sys E X) (Hnum : 0 < num vq < 65536)
    (Hl : 0 <= last_used_idx vq < 65536) (Hn : nothing_used vq) :
  VirtQueue_GetBuf vq s = Done ((vq, 0, None), s).
Proof.
  unfold VirtQueue_GetBuf. destruct (Z.eqb_spec (last_used_idx vq)
    (vr16 (modern vq) (us_idx (used vq)))) as [|Hne]; [done|].
  destruct (Z.eqb_spec (num vq) 0); [lia|].
  destruct Hn as [?|(e & He & Hid)]; [congruence|].
  pose proof (Z.mod_pos_bound (last_used_idx vq) (num vq) ltac:(lia)).
  rewrite (u16_small (last_used_idx vq mod num vq)), (bind_lift _ _ _ _ He) by lia.
  destruct (Z.leb_spec (num vq) (vr32 (modern vq) (ue_id e))); [done|lia].
Qed.

(** ** Allocation establishes the invariant *)

Lemma link_descs_spec n (d : list vring_desc) j :
  0 <= j -> j + Z.of_nat n < Z.of_nat (length d) -> j + Z.of_nat n < 65536 ->
  exists d', link_descs n j d = Some d' /\ length d' = length d /\
    (forall i, j <= i < j + Z.of_nat n ->
       exists e, geti d' i = Some e /\ d_next e = i + 1) /\
    (forall i, i < j \/ j + Z.of_nat n <= i -> geti d' i = geti d i).
Proof.
  revert d j; induction n as [|n IH]; intros d j Hj Hlen Hb.
  { exists d. split_and!; [done|done|lia|done]. }
  destruct (geti_is_Some d j) as [x Hx]; [lia|]. cbn [link_descs]. rewrite Hx.
  cbn [mbind option_bind].
  edestruct (seti_Some d j) as (d1 & -> & Hl1 & Hg1); [lia|]. cbn [mbind option_bind].
  destruct (IH d1 (j + 1)) as (d' & -> & Hl' & Hin & Hout); [lia|lia|lia|].
  exists d'. split_and!; [done|congruence| |].
  - intros i Hi. destruct (decide (i = j)) as [->|]; [|apply Hin; lia].
    rewrite Hout, Hg1, Z.eqb_refl by lia. eexists. split; [done|]. simpl. unwrap. lia.
  - intros i Hi. rewrite Hout, Hg1 by lia. by destruct (Z.eqb_spec i j); [lia|].
Qed.

Lemma free_list_seqZ (d : list vring_desc) j n :
  0 < n -> (forall i, j <= i < j + n - 1 -> exists e, geti d i = Some e /\ d_next e = i + 1) ->
  (exists e, geti d (j + n - 1) = Some e) ->
  free_list_at d j (seqZ j n).
Proof.
  intros Hn. remember (Z.to_nat (n - 1)) as k eqn:Hk. revert j n Hn Hk.
  induction k as [|k IH]; intros j n Hn Hk Hin Hlast.
  - replace n with 1 in * by lia. replace (j + 1 - 1) with j in Hlast by lia.
    destruct Hlast as [e He]. split; [done|]. exists e. split; [|done].
    by replace (Z.of_nat 0 + j) with j by lia.
  - rewrite seqZ_cons by lia. destruct (Hin j ltac:(lia)) as (e & He & Hnx).
    split; [done|]. exists e. split; [done|]. rewrite Hnx.
    apply IH; [lia|lia| |].
    + intros i Hi. apply Hin. lia.
    + destruct Hlast as [e' He']. exists e'. rewrite <- He'. f_equal. lia.
Qed.

Lemma link_descs_Some q :
  0 < q < 65536 -> exists d x d1,
    link_descs (Z.to_nat (u32 (q - 1))) 0 (replicate (Z.to_nat q) (mkDesc 0 0 0 0)) = Some d /\
    geti d (u32 (q - 1)) = Some x /\
    seti d (u32 (q - 1)) (mkDesc (d_addr x) (d_len x) (d_flags x) 0) = Some d1.
Proof.
  intros Hq. rewrite u32_small by lia.
  destruct (link_descs_spec (Z.to_nat (q - 1)) (replicate (Z.to_nat q) (mkDesc 0 0 0 0)) 0)
    as (d & Hd & Hl & _); [lia|rewrite length_replicate; lia|lia|].
  rewrite length_replicate in Hl. destruct (geti_is_Some d (q - 1)) as [x Hx]; [lia|].
  edestruct (seti_Some d (q - 1)) as (d1 & Hd1 & _); [lia|].
  exists d, x, d1. split_and!; [exact Hd|exact Hx|exact Hd1].
Qed.

(** The fresh queue: every descriptor free, nothing in flight, in legacy byte
    order until the initialisation selects the mode. *)
Lemma Allocate_rep vqp base ck it q d d1 x raw total qi :
  0 < q < 65536 ->
  link_descs (Z.to_nat (u32 (q - 1))) 0 (replicate (Z.to_nat q) (mkDesc 0 0 0 0)) = Some d ->
  geti d (u32 (q - 1)) = Some x ->
  seti d (u32 (q - 1)) (mkDesc (d_addr x) (d_len x) (d_flags x) 0) = Some d1 ->
  vq_rep (mkVirtqueue vqp base ck it qi q d1
    (mkAvail 0 0 (replicate (S (Z.to_nat q)) 0))
    (mkUsed 0 0 (replicate (Z.to_nat q) (mkElem 0 0)))
    0 (u16 q) 0 (replicate (Z.to_nat q) 0) raw total 0 0 0 0 0
    false false 0 false (replicate (Z.to_nat q) 0)) (seqZ 0 q) [].
Proof.
  intros Hq Hd Hx Hd1. rewrite u32_small in * by lia.
  destruct (link_descs_spec (Z.to_nat (q - 1)) (replicate (Z.to_nat q) (mkDesc 0 0 0 0)) 0)
    as (d0 & Hd0 & Hl & Hin & Hout); [lia|rewrite length_replicate; lia|lia|].
  rewrite Hd in Hd0. injection Hd0 as <-. rewrite length_replicate in Hl.
  destruct (seti_Some d (q - 1) (mkDesc (d_addr x) (d_len x) (d_flags x) 0))
    as (d1' & Hd1' & Hl1 & Hg1); [lia|]. rewrite Hd1 in Hd1'. injection Hd1' as <-.
  split; simpl; try (rewrite ?length_replicate; done || lia).
  - apply free_list_seqZ; [lia| |].
    + intros i Hi. rewrite Hg1. destruct (Z.eqb_spec i (q - 1)); [lia|]. apply Hin. lia.
    + rewrite Hg1. destruct (Z.eqb_spec (0 + q - 1) (q - 1)); [eauto|lia].
  - rewrite length_seqZ, u16_small by lia. lia.
  - rewrite app_nil_r. apply NoDup_seqZ.
  - rewrite app_nil_r. apply Forall_forall. intros i Hi%list_elem_of_In%elem_of_seqZ. lia.
Qed.

(** The memory blocks a queue owns. *)
Definition vq_blocks (vq : virtqueue) : list res :=
  [RMem (indirect_ptr vq); RMem (cookies_ptr vq); RMem (mem_block vq); RMem (vq_ptr vq)].

(** A queue straight from the allocator. *)
Definition vq_fresh (qi q : Z) (vq : virtqueue) : Prop :=
  vq_rep vq (seqZ 0 q) [] /\ num vq = q /\ vq_index vq = qi /\
  modern vq = false /\ use_event_idx vq = false /\ dma_entries vq = 0 /\
  mem_size vq = vring_total_mem q /\ desc_ptr vq = align_up (mem_block vq) /\
  Forall (fun p => p <> 0) [indirect_ptr vq; cookies_ptr vq; mem_block vq; vq_ptr vq] /\
  us_idx (used vq) = 0 /\ last_used_idx vq = 0.

Section allocate.
Context {E V : Type} `{EnvI : !Env E V} {X : Type}.
Implicit Types s : Sys E X.

Lemma Allocate_wp qi q s :
  0 < q < 65536 ->
  wp False (VirtQueue_Allocate qi q) (fun r s' => core s' = core s /\
    extends mem_call (sys_log s) (sys_log s') /\
    match r with
    | Some vq => vq_fresh qi q vq /\ balanced (sys_log s) (sys_log s') [] (vq_blocks vq)
    | None => balanced (sys_log s) (sys_log s') [] []
    end) s.
Proof.
  intros Hq. unfold VirtQueue_Allocate. wp_sys.
  case_cmp; wp_sys; [split_and!; [done|cbn [sys_log]; quiet|cbn [sys_log]; balance]|].
  case_cmp; wp_sys; [split_and!; [done|cbn [sys_log]; quiet|cbn [sys_log]; balance]|].
  case_cmp; wp_sys; [split_and!; [done|cbn [sys_log]; quiet|cbn [sys_log]; balance]|].
  case_cmp; wp_sys; [split_and!; [done|cbn [sys_log]; quiet|cbn [sys_log]; balance]|].
  destruct (link_descs_Some q Hq) as (d & x & d1 & Hd & Hx & Hd1).
  eapply wp_lift; [exact Hd|]. wp_sys. eapply wp_lift; [exact Hx|]. wp_sys.
  eapply wp_lift; [exact Hd1|]. wp_sys.
  split_and!; [done|cbn [sys_log]; quiet| |unfold vq_blocks; cbn [sys_log indirect_ptr cookies_ptr mem_block vq_ptr]; balance].
  split; [by eapply Allocate_rep|]. split_and!; try done; by repeat constructor.
Qed.

(** What the queue holds once its vring is mapped. *)
Definition vq_res (q : virtqueue) : list res :=
  (if 0 <? dma_entries q then [RDma (desc_ptr q)] else []) ++ vq_blocks q.

Lemma Free_wp H q s :
  Forall (fun p => p <> 0) [indirect_ptr q; cookies_ptr q; mem_block q; vq_ptr q] ->
  (0 < dma_entries q -> desc_ptr q <> 0) ->
  wp H (VirtQueue_Free (Some q)) (fun _ s' => core s' = core s /\
    extends mem_call (sys_log s) (sys_log s') /\
    balanced (sys_log s) (sys_log s') (vq_res q) []) s.
Proof.
  rewrite !list.Forall_cons. intros (Hi & Hc & Hm & Hv & _) Hd.
  unfold VirtQueue_Free, vq_res, vq_blocks. wp_step.
  destruct (Z.ltb_spec 0 (dma_entries q)), (Z.eqb_spec (desc_ptr q) 0); simpl; try lia; wp_sys;
    repeat (case_cmp; [done|]; wp_sys); (split_and!; [done|quiet|]);
    repeat (eapply balanced_rel; [acq_side|reflexivity|]); apply balanced_refl.
Qed.
End allocate.

(** For every non-zero 16-bit queue size [VirtQueue_Allocate] either returns
    NULL with everything it allocated freed again, or a queue with all
    descriptors on the free list and nothing in flight that owns exactly the
    four blocks it allocated; it faults in no case. *)
Lemma VirtQueue_Allocate_correct {E V : Type} `{EnvI : !Env E V} {X : Type}
    (qi q : Z) (s : Sys E X) (Hq : 0 < q < 65536) :
  exists r s', VirtQueue_Allocate qi q s = Done (r, s') /\ core s' = core s /\
    extends mem_call (sys_log s) (sys_log s') /\
    match r with
    | Some vq => vq_fresh qi q vq /\ balanced (sys_log s) (sys_log s') [] (vq_blocks vq)
    | None => balanced (sys_log s) (sys_log s') [] []
    end.
Proof. apply wp_total. by apply Allocate_wp. Qed.

(** The four allocations of a queue, the latest first; the vring block has [n]
    bytes. *)
Definition queue_allocs (n : Z) (sizeof : Z) (vq : virtqueue) : list (ExtCall * Z) :=
  [(AllocVecTags (4 * num vq), indirect_ptr vq); (AllocVecTags (4 * num vq), cookies_ptr vq);
   (AllocVecTags sizeof, vq_ptr vq); (AllocVecTags n, mem_block vq)].

Lemma Allocate_log_wp {E V : Type} `{EnvI : !Env E V} {X : Type} (qi q : Z) (s : Sys E X) :
  0 < q < 65536 ->
  wp False (VirtQueue_Allocate qi q) (fun r s' =>
    match r with
    | Some vq => num vq = q /\ mem_size vq = vring_total_mem q /\
        desc_ptr vq = align_up (mem_block vq) /\ 0 <= mem_block vq /\
        sys_log s' = queue_allocs (u32 (vring_total_mem q + VIRTIO_PCI_VRING_ALIGN))
          env_sizeof_virtqueue vq ++ sys_log s
    | None => True
    end) s.
Proof.
  intros Hq. unfold VirtQueue_Allocate. rewrite (u32_small (4 * q)) by lia. wp_sys.
  do 4 (case_cmp; wp_sys; [done|]).
  destruct (link_descs_Some q Hq) as (d & x & d1 & Hd & Hx & Hd1).
  eapply wp_lift; [exact Hd|]. wp_sys. eapply wp_lift; [exact Hx|]. wp_sys.
  eapply wp_lift; [exact Hd1|]. wp_sys. cbn. split_and!; try done.
  match goal with H : ext_norm _ ?r = ?r |- 0 <= ?r => rewrite <- H; apply u32_range end.
Qed.

(** C32: the queue that a successful [VirtQueue_Allocate] returns, for every queue
    size a 16-bit register can report and a vring block below 2^31 - 2^22: the
    block is [n] bytes long in the call that allocated it, and the descriptor
    table (16 bytes per entry), the available ring behind it (6 + 2 per entry)
    and the used ring at its offset (6 + 8 per entry) follow each other without
    overlap inside these [n] bytes; the table and the used ring are page
    aligned, and the [mem_size] bytes that are later mapped for the device end
    exactly where the used ring ends.  The arrays of cookies and of indirect
    tables have four bytes for every descriptor. *)
Theorem vring_layout {E V : Type} `{EnvI : !Env E V} {X : Type} (qi q : Z) (s s' : Sys E X)
    (vq : virtqueue) (Hq : 0 < q < 65536)
    (Hrun : VirtQueue_Allocate qi q s = Done (Some vq, s'))
    (Hraw : mem_block vq < 2 ^ 31 - 2 ^ 22) :
  let table := desc_ptr vq in
  let available := table + vring_desc_size q in
  let used := table + vring_used_offset q in
  exists n, sys_log s' = queue_allocs n env_sizeof_virtqueue vq ++ sys_log s /\
    num vq = q /\ mem_block vq <= table /\ table mod 4096 = 0 /\
    available = table + 16 * q /\ available + (6 + 2 * q) <= used /\ used mod 4096 = 0 /\
    used + (6 + 8 * q) = table + mem_size vq /\ table + mem_size vq <= mem_block vq + n.
Proof.
  intros table available used.
  destruct (wp_done _ _ _ _ _ _ Hrun (Allocate_log_wp qi q s Hq)) as (Hn & Hm & Hd & H0 & Hl).
  destruct (vring_sizes q (mem_block vq) Hq ltac:(lia))
    as (D1 & D2 & D3 & D4 & D5 & D6 & D7 & D8 & D9). rewrite <- Hd in D7, D8, D9.
  eexists. split; [exact Hl|]. subst table available used. rewrite Hm.
  split_and!; try (done || lia).
  rewrite <- Z.add_mod_idemp_r, D4, Z.add_0_r by lia. done.
Qed.

(** ** Concrete runs *)

(** An 8-entry modern queue with one chain [2; 0] in flight under the cookie
    0x1000 that the device has completed with 11 bytes; the free list starts
    at 5. *)
Definition example_vq : virtqueue :=
  let d nx fl := mkDesc 0 0 fl nx in
  mkVirtqueue 0x100 0x200 0x300 0x400 0 8
    [d 0 (vr16 true 2); d 0 0; d (vr16 true 0) (vr16 true 1); d 4 0;
     d 6 0; d 3 0; d 7 0; d 1 0]
    (mkAvail 0 (vr16 true 7) (replicate 9 0))
    (mkUsed 0 (vr16 true 7) (replicate 6 (mkElem 0 0) ++
       [mkElem (vr32 true 2) (vr32 true 11); mkElem 0 0]))
    5 6 6 [0; 0; 0x1000; 0; 0; 0; 0; 0] 0x500 600 0 1 0 0 0 true false 0xFFFF false
    (replicate 8 0).

Lemma example_vq_rep : vq_rep example_vq [5; 3; 4; 6; 7; 1] [mkFlight [2; 0] 0x1000].
Proof.
  split; simpl; try done; try lia; try (vm_compute; intuition congruence).
  - repeat (split; [done|eexists; split; [vm_compute; reflexivity|simpl]]). done.
  - apply (bool_decide_eq_true_1 _). vm_compute. reflexivity.
  - repeat constructor; lia.
  - apply list.Forall_singleton. split; [done|]. split; [|done]. simpl.
    do 2 (eexists; split; [vm_compute; reflexivity|]; do 2 (split; [done|])). done.
Qed.

Lemma VirtQueue_AddBuf_posts_witness :
  exists vq', VirtQueue_AddBuf example_vq [mkSg 0x10000 19; mkSg 0x20000 8192] 1 1 0x77
    = Some (vq', 0) /\ num_free vq' = 4.
Proof.
  destruct (VirtQueue_AddBuf_posts example_vq [5; 3] [4; 6; 7; 1] [mkFlight [2; 0] 0x1000]
    [mkSg 0x10000 19; mkSg 0x20000 8192] 1 1 0x77 example_vq_rep)
    as (vq' & Hrun & Hrep & _); [done|lia|lia|done|done|repeat constructor; simpl; lia|].
  exists vq'. split; [exact Hrun|exact (rep_num_free _ _ _ Hrep)].
Defined.

#[local] Existing Instance script_env.

(** A queue of 128 entries in a block at 0x1234. *)
Lemma vring_layout_witness :
  exists vq (s' : Sys (list Z) unit),
    VirtQueue_Allocate (V := unit) 0 128 (mkSys [0x1234; 0x9000; 0xA000; 0xB000] [] tt)
      = Done (Some vq, s') /\
    desc_ptr vq = 0x2000 /\ (AllocVecTags 9222, 0x1234) ∈ sys_log s' /\ mem_size vq = 5126 /\
    exists n, sys_log s' = queue_allocs n 72 vq ++ [].
Proof.
  destruct (VirtQueue_Allocate (V := unit) 0 128 (mkSys [0x1234; 0x9000; 0xA000; 0xB000] [] tt))
    as [[[vq|] s']| |] eqn:Hrun; [|vm_compute in Hrun; discriminate..].
  exists vq, s'. split; [reflexivity|].
  assert (Hv : desc_ptr vq = 0x2000 /\ (AllocVecTags 9222, 0x1234) ∈ sys_log s' /\ mem_size vq = 5126
    /\ mem_block vq = 0x1234).
  { vm_compute in Hrun. injection Hrun as <- <-. split_and!; try reflexivity.
    cbn [sys_log]. do 3 apply list_elem_of_further. apply list_elem_of_here. }
  destruct Hv as (H1 & H2 & H3 & H4).
  destruct (vring_layout (V := unit) 0 128 _ s' vq ltac:(lia) Hrun ltac:(rewrite H4; lia))
    as (n & Hl & _).
  split; [exact H1|]. split; [exact H2|]. split; [exact H3|]. exists n. exact Hl.
Defined.

Lemma VirtQueue_GetBuf_reaps_witness :
  let s := mkSys (E := list Z) (X := unit) [] [] tt in
  exists vq', VirtQueue_GetBuf (V := unit) example_vq s = Done ((vq', 0x1000, Some 11), s) /\
    num_free vq' = 8.
Proof.
  intros s. destruct (VirtQueue_GetBuf_reaps (V := unit) example_vq [5; 3; 4; 6; 7; 1] []
    (mkFlight [2; 0] 0x1000) [] 11 s example_vq_rep) as (vq' & Hrun & Hrep & _).
  - done.
  - split; [done|]. eexists. split; [vm_compute; reflexivity|done].
  - exists vq'. split; [exact Hrun|exact (rep_num_free _ _ _ Hrep)].
Defined.

Lemma VirtQueue_GetBuf_nothing_witness :
  let vq := set_used (mkUsed 0 (vr16 true 7) (replicate 8 (mkElem (vr32 true 200) 0)))
              example_vq in
  let s := mkSys (E := list Z) (X := unit) [] [] tt in
  VirtQueue_GetBuf (V := unit) vq s = Done ((vq, 0, None), s).
Proof.
  intros vq s. apply (VirtQueue_GetBuf_nothing (V := unit)); [done|done|].
  right. exists (mkElem (vr32 true 200) 0). done.
Defined.
