(* ===== verification/Handler.v ===== *)
(** * Handler: the state of the handler and the machine around it

    [V9PHandler] is the structure of include/virtio9p_handler.h (without the
    PCI interface pointer and the Interrupt node, which are only handed to the
    system).  [Core] adds what its pointers lead to: the three message buffers
    and the static variable of v9p_tb_freq_hz in src/p9_client.c.

    Each message buffer has two contents: the one the CPU sees through its data
    cache and the one in RAM, which the device reads and writes.  They are
    connected only by the cache operations of p9_client.c: the CPU's view of a
    line stays what it is until [cache_invalidate], and a store reaches RAM only
    with [cache_flush].  A real cache may write back or refetch a line earlier;
    the model takes the latest moment in each case, so that a missing cache
    operation shows.

    The device runs concurrently.  What it does is observable only where the
    driver reads the used ring or refetches lines of the receive buffer, so
    [dev_run] lets it act just before these places. *)

From S2P Require Import Prelude Platform FidPool VirtQueue.

Record V9PHandler := mkV9PHandler {
  pciDevice : Z; bar0 : Z; bar4 : Z; iobase : Z; modern_mode : bool;
  common_cfg_base : Z; notify_cfg_base : Z; notify_off_mult : Z; isr_cfg_base : Z;
  device_cfg_base : Z; vq : option virtqueue; irq_number : Z; irq_installed : bool;
  msize : Z; root_fid : Z; fid_pool : option FidPool; next_tag : Z; tx_buf : Z;
  rx_buf : Z; tx_phys : Z; rx_phys : Z; flush_buf : Z; flush_phys : Z;
  tx_dma_active : bool; rx_dma_active : bool; flush_dma_active : bool;
  in_reset : bool; mount_tag : list Z }.

Definition set_vq (x : option virtqueue) (h : V9PHandler) : V9PHandler :=
  mkV9PHandler
    (pciDevice h) (bar0 h) (bar4 h) (iobase h) (modern_mode h) (common_cfg_base h)
    (notify_cfg_base h) (notify_off_mult h) (isr_cfg_base h) (device_cfg_base h) x
    (irq_number h) (irq_installed h) (msize h) (root_fid h) (fid_pool h)
    (next_tag h) (tx_buf h) (rx_buf h) (tx_phys h) (rx_phys h) (flush_buf h)
    (flush_phys h) (tx_dma_active h) (rx_dma_active h) (flush_dma_active h)
    (in_reset h) (mount_tag h).

Definition set_msize (x : Z) (h : V9PHandler) : V9PHandler :=
  mkV9PHandler
    (pciDevice h) (bar0 h) (bar4 h) (iobase h) (modern_mode h) (common_cfg_base h)
    (notify_cfg_base h) (notify_off_mult h) (isr_cfg_base h) (device_cfg_base h)
    (vq h) (irq_number h) (irq_installed h) x (root_fid h) (fid_pool h)
    (next_tag h) (tx_buf h) (rx_buf h) (tx_phys h) (rx_phys h) (flush_buf h)
    (flush_phys h) (tx_dma_active h) (rx_dma_active h) (flush_dma_active h)
    (in_reset h) (mount_tag h).

Definition set_fid_pool (x : option FidPool) (h : V9PHandler) : V9PHandler :=
  mkV9PHandler
    (pciDevice h) (bar0 h) (bar4 h) (iobase h) (modern_mode h) (common_cfg_base h)
    (notify_cfg_base h) (notify_off_mult h) (isr_cfg_base h) (device_cfg_base h)
    (vq h) (irq_number h) (irq_installed h) (msize h) (root_fid h) x (next_tag h)
    (tx_buf h) (rx_buf h) (tx_phys h) (rx_phys h) (flush_buf h) (flush_phys h)
    (tx_dma_active h) (rx_dma_active h) (flush_dma_active h) (in_reset h)
    (mount_tag h).

Definition set_next_tag (x : Z) (h : V9PHandler) : V9PHandler :=
  mkV9PHandler
    (pciDevice h) (bar0 h) (bar4 h) (iobase h) (modern_mode h) (common_cfg_base h)
    (notify_cfg_base h) (notify_off_mult h) (isr_cfg_base h) (device_cfg_base h)
    (vq h) (irq_number h) (irq_installed h) (msize h) (root_fid h) (fid_pool h) x
    (tx_buf h) (rx_buf h) (tx_phys h) (rx_phys h) (flush_buf h) (flush_phys h)
    (tx_dma_active h) (rx_dma_active h) (flush_dma_active h) (in_reset h)
    (mount_tag h).

Definition set_in_reset (x : bool) (h : V9PHandler) : V9PHandler :=
  mkV9PHandler
    (pciDevice h) (bar0 h) (bar4 h) (iobase h) (modern_mode h) (common_cfg_base h)
    (notify_cfg_base h) (notify_off_mult h) (isr_cfg_base h) (device_cfg_base h)
    (vq h) (irq_number h) (irq_installed h) (msize h) (root_fid h) (fid_pool h)
    (next_tag h) (tx_buf h) (rx_buf h) (tx_phys h) (rx_phys h) (flush_buf h)
    (flush_phys h) (tx_dma_active h) (rx_dma_active h) (flush_dma_active h) x
    (mount_tag h).

Definition set_mount_tag (x : list Z) (h : V9PHandler) : V9PHandler :=
  mkV9PHandler
    (pciDevice h) (bar0 h) (bar4 h) (iobase h) (modern_mode h) (common_cfg_base h)
    (notify_cfg_base h) (notify_off_mult h) (isr_cfg_base h) (device_cfg_base h)
    (vq h) (irq_number h) (irq_installed h) (msize h) (root_fid h) (fid_pool h)
    (next_tag h) (tx_buf h) (rx_buf h) (tx_phys h) (rx_phys h) (flush_buf h)
    (flush_phys h) (tx_dma_active h) (rx_dma_active h) (flush_dma_active h)
    (in_reset h) x.

(** ** The machine *)

Record Core := mkCore {
  hnd : V9PHandler;
  tx : list Z; tx_ram : list Z;   (* tx_buf: the CPU's view, and RAM *)
  rx : list Z; rx_ram : list Z;   (* rx_buf *)
  fl : list Z; fl_ram : list Z;   (* flush_buf *)
  tb_cached : Z }.

Definition set_hnd (x : V9PHandler) (c : Core) : Core :=
  mkCore x (tx c) (tx_ram c) (rx c) (rx_ram c) (fl c) (fl_ram c) (tb_cached c).

Definition set_tx (x : list Z) (c : Core) : Core :=
  mkCore (hnd c) x (tx_ram c) (rx c) (rx_ram c) (fl c) (fl_ram c) (tb_cached c).

Definition set_tx_ram (x : list Z) (c : Core) : Core :=
  mkCore (hnd c) (tx c) x (rx c) (rx_ram c) (fl c) (fl_ram c) (tb_cached c).

Definition set_rx (x : list Z) (c : Core) : Core :=
  mkCore (hnd c) (tx c) (tx_ram c) x (rx_ram c) (fl c) (fl_ram c) (tb_cached c).

Definition set_rx_ram (x : list Z) (c : Core) : Core :=
  mkCore (hnd c) (tx c) (tx_ram c) (rx c) x (fl c) (fl_ram c) (tb_cached c).

Definition set_fl (x : list Z) (c : Core) : Core :=
  mkCore (hnd c) (tx c) (tx_ram c) (rx c) (rx_ram c) x (fl_ram c) (tb_cached c).

Definition set_fl_ram (x : list Z) (c : Core) : Core :=
  mkCore (hnd c) (tx c) (tx_ram c) (rx c) (rx_ram c) (fl c) x (tb_cached c).

Definition set_tb_cached (x : Z) (c : Core) : Core :=
  mkCore (hnd c) (tx c) (tx_ram c) (rx c) (rx_ram c) (fl c) (fl_ram c) x.

Definition on_hnd (f : V9PHandler -> V9PHandler) (c : Core) : Core := set_hnd (f (hnd c)) c.

(** The cleared handler structure. *)
Definition handler_zero : V9PHandler :=
  mkV9PHandler 0 0 0 0 false 0 0 0 0 0 None 0 false 0 0 None 0 0 0 0 0 0 0
    false false false false (replicate 33 0).

(** ** Caches *)

Definition CACHE_LINE : Z := 32.

(** [while (p < end) { ...; p += CACHE_LINE; }]: the lines that are visited.  The
    fuel is enough for every range that does not wrap around at 2^32; for a
    range that ends within the last line of the address space, where the loop of
    the source would not end, the model stops, and the theorems exclude it
    ([dma_range]). *)
Fixpoint line_loop (fuel : nat) (p e : Z) : list Z :=
  match fuel with
  | O => []
  | S fuel => if p <? e then p :: line_loop fuel (u32 (p + CACHE_LINE)) e else []
  end.

Definition cache_lines (addr len : Z) : list Z :=
  line_loop (Z.to_nat (len / CACHE_LINE) + 2)
    (Z.land addr (Z.lnot (CACHE_LINE - 1))) (u32 (addr + len)).

(** Copy the bytes of the line at address [p] that belong to the buffer at
    [addr] from [src] to [dst]. *)
Definition copy_line (addr : Z) (src dst : list Z) (p : Z) : list Z :=
  imap (fun i b => let a := addr + Z.of_nat i in
          if (p <=? a) && (a <? p + CACHE_LINE) then nth i src b else b) dst.

Definition copy_lines (addr : Z) (src dst : list Z) (ps : list Z) : list Z :=
  fold_left (copy_line addr src) ps dst.

(** ** What the device sees *)

Record DevView := mkDevView {
  dv_vq : option virtqueue; dv_tx : list Z; dv_fl : list Z; dv_rx : list Z }.

Definition dev_view (c : Core) : DevView :=
  mkDevView (vq (hnd c)) (tx_ram c) (fl_ram c) (rx_ram c).

(** A store into the used ring; out of bounds it has no effect on the model. *)
Definition dev_used (u : vring_used) (x : Z * Z * Z) : vring_used :=
  let '(slot, id, len) := x in
  mkUsed (us_flags u) (us_idx u)
    (if 0 <=? slot then <[Z.to_nat slot := mkElem (u32 id) (u32 len)]> (us_ring u)
     else us_ring u).

Definition dev_idx (u : vring_used) (i : option Z) : vring_used :=
  match i with
  | Some i => mkUsed (us_flags u) (u16 i) (us_ring u)
  | None => u
  end.

(** A DMA store into the receive buffer (only inside the buffer). *)
Definition dev_rx (b : list Z) (x : Z * list Z) : list Z :=
  default b (blit b x.1 (u8 <$> x.2)).

Definition apply_effect (ef : DevEffect) (c : Core) : Core :=
  let c := set_rx_ram (fold_left dev_rx (ef_rx ef) (rx_ram c)) c in
  match vq (hnd c) with
  | Some q =>
      let u := dev_idx (fold_left dev_used (ef_used ef) (used q)) (ef_idx ef) in
      on_hnd (set_vq (Some (set_used u q))) c
  | None => c
  end.

(** A bound for the loops whose length the program does not fix. *)
Class Fuel := fuel : nat.

Section machine.
Context {E : Type} `{EnvI : !Env E DevView}.
Abbreviation M := (M (Sys E Core)).

(** The device acts. *)
Definition dev_run : M unit := fun s =>
  let '(e, ef) := env_device (sys_env s) (dev_view (core s)) in
  Done (tt, mkSys e (sys_log s) (apply_effect ef (core s))).

(** dcbst on the lines of tx_buf or flush_buf. *)
Definition cache_flush_tx (len : Z) : M unit :=
  write (fun c => set_tx_ram
    (copy_lines (tx_buf (hnd c)) (tx c) (tx_ram c) (cache_lines (tx_buf (hnd c)) len)) c).
Definition cache_flush_fl (len : Z) : M unit :=
  write (fun c => set_fl_ram
    (copy_lines (flush_buf (hnd c)) (fl c) (fl_ram c)
       (cache_lines (flush_buf (hnd c)) len)) c).

(** dcbf on the lines of rx_buf.  The CPU never stores into rx_buf, so that
    no line is dirty and the flush is a refetch. *)
Definition cache_invalidate_rx (len : Z) : M unit :=
  _ ← dev_run;
  write (fun c => set_rx
    (copy_lines (rx_buf (hnd c)) (rx_ram c) (rx c) (cache_lines (rx_buf (hnd c)) len)) c).

(** ** The time base *)

Fixpoint read_tb_loop (k : nat) : M Z :=
  match k with
  | O => hang
  | S k =>
      hi ← ext Mftbu;
      lo ← ext Mftb;
      hi2 ← ext Mftbu;
      if negb (hi =? hi2) then read_tb_loop k
      else mret (Z.lor (u64 (Z.shiftl hi 32)) lo)
  end.

Definition v9p_read_tb `{!Fuel} : M Z := read_tb_loop fuel.

Definition v9p_tb_freq_hz : M Z :=
  cached ← read tb_cached;
  if cached =? 0 then
    freq ← ext GetTimeBaseSpeed;
    let freq := if (freq =? 0) || (0xFFFFFFFF <? freq) then 33000000 else freq in
    _ ← write (set_tb_cached (u32 freq));
    mret (u32 freq)
  else mret cached.
End machine.
