(* ===== verification/P9Client.v ===== *)
(** * P9Client: the 9P2000.L client calls (src/p9_client.c from line 320)

    Every [P9_*] function builds a T-message in tx_buf, hands it to
    V9P_Transact and decodes the R-message in rx_buf.  V9P_Transact is the
    parameter [transact] here: the calls are the same whether they are made by
    a file system operation or by the handshake inside a transport reset (see
    Transact.v, where both instances are made).

    An output pointer of the C function is a component of the result, [None]
    when the function returns without storing through it. *)

From S2P Require Import Prelude Platform CString Marshal FidPool VirtQueue Handler.

Definition P9_RHDR_SIZE : Z := 7.
Definition P9_RLERROR_SIZE : Z := P9_RHDR_SIZE + 4.

Definition EIO : Z := 5.
Definition ENOENT : Z := 2.
Definition ENAMETOOLONG : Z := 36.

Definition p9_require_size (rx_len need : Z) : Z := if rx_len <? need then - EIO else 0.

(** [-(int32)ecode] is computed modulo 2^32. *)
Definition p9_check_error (rx_buf : list Z) (rx_len : Z) : option Z :=
  if rx_len <? P9_RHDR_SIZE then Some (- EIO)
  else
    '(type, off) ← p9_get_u8 rx_buf 4;
    if type =? P9_RLERROR then
      if rx_len <? P9_RLERROR_SIZE then Some (- EIO)
      else '(ecode, off) ← p9_get_u32 rx_buf 7; Some (s32 (- s32 ecode))
    else Some 0.

(** ** P9_Walk: splitting a path in place *)

Definition PATHBUF_SIZE : Z := 1024.

(** [while ( *p == '/') p++;] *)
Fixpoint skip_slashes (fuel : nat) (buf : list Z) (p : Z) : option Z :=
  match fuel with
  | O => None
  | S fuel =>
      c ← getb buf p;
      if c =? 47 then skip_slashes fuel buf (p + 1) else Some p
  end.

(** [while ( *p && *p != '/') p++;] *)
Fixpoint skip_name (fuel : nat) (buf : list Z) (p : Z) : option Z :=
  match fuel with
  | O => None
  | S fuel =>
      c ← getb buf p;
      if negb (c =? 0) && negb (c =? 47) then skip_name fuel buf (p + 1) else Some p
  end.

(** The outer loop.  [None]: an access outside pathbuf; [Some None]: more than
    P9_MAXWELEM components; otherwise pathbuf, with a NUL after each component,
    and the start of each component. *)
Fixpoint tokenise (fuel : nat) (buf : list Z) (p : Z) (components : list Z)
    : option (option (list Z * list Z)) :=
  match fuel with
  | O => None
  | S fuel' =>
      c ← getb buf p;
      if c =? 0 then Some (Some (buf, components))
      else
        p ← skip_slashes fuel buf p;
        c ← getb buf p;
        if c =? 0 then Some (Some (buf, components))
        else if P9_MAXWELEM <=? Z.of_nat (length components) then Some None
        else
          let components := components ++ [p] in
          p ← skip_name fuel buf p;
          c ← getb buf p;
          if c =? 47 then
            buf ← setb buf p 0;
            tokenise fuel' buf (p + 1) components
          else tokenise fuel' buf p components
  end.

Section client.
Context {E : Type} `{EnvI : !Env E DevView}.
Abbreviation M := (M (Sys E Core)).

(** ** Access to the message buffers *)

Definition tx_put (f : list Z -> option (list Z * Z)) : M Z :=
  b ← read tx;
  '(b, off) ← lift (f b);
  _ ← write (set_tx b);
  mret off.

Definition put_header (type tag : Z) : M Z := tx_put (fun b => p9_put_header b type tag).
Definition put_u16 (off v : Z) : M Z := tx_put (fun b => p9_put_u16 b off v).
Definition put_u32 (off v : Z) : M Z := tx_put (fun b => p9_put_u32 b off v).
Definition put_u64 (off v : Z) : M Z := tx_put (fun b => p9_put_u64 b off v).
Definition put_str (off : Z) (s : list Z) : M Z := tx_put (fun b => p9_put_str b off s).

(** [memcpy(buf + off, buf_in, count); off += count;] *)
Definition put_data (off : Z) (buf_in : list Z) (count : Z) : M Z :=
  tx_put (fun b =>
    if count <=? Z.of_nat (length buf_in)
    then b ← blit b off (take (Z.to_nat count) buf_in); Some (b, u32 (off + count))
    else None).

Definition finalize (off : Z) : M unit :=
  b ← read tx;
  b ← lift (p9_finalize b off);
  write (set_tx b).

Definition p9_next_tag : M Z :=
  tag ← read (fun c => next_tag (hnd c));
  let t := u16 (tag + 1) in
  _ ← write (on_hnd (set_next_tag (if t =? P9_NOTAG then 0 else t)));
  mret tag.

Definition check_error (rx_len : Z) : M Z :=
  b ← read rx; lift (p9_check_error b rx_len).

(** A read at the offset [roff] of rx_buf. *)
Definition rx_get {A} (f : list Z -> Z -> option (A * Z)) (roff : Z) : M (A * Z) :=
  b ← read rx; lift (f b roff).

Context (transact : Z -> M Z).

Definition P9_Version : M Z :=
  off ← put_header P9_TVERSION P9_NOTAG;
  off ← put_u32 off P9_MSIZE;
  off ← put_str off P9_VERSION_STR;
  _ ← finalize off;
  rx_len ← transact off;
  if rx_len =? 0 then mret (- EIO) else
  err ← check_error rx_len;
  if negb (err =? 0) then mret err else
  let err := p9_require_size rx_len 13 in
  if negb (err =? 0) then mret err else
  '(m, roff) ← rx_get p9_get_u32 7;
  _ ← write (on_hnd (set_msize m));
  (* char ver[32]: only printed *)
  b ← read rx;
  _ ← lift (p9_get_str b rx_len roff (replicate 32 0) 32);
  mret 0.

Definition P9_Attach (root_fid : Z) : M Z :=
  tag ← p9_next_tag;
  off ← put_header P9_TATTACH tag;
  off ← put_u32 off root_fid;
  off ← put_u32 off P9_NOFID;
  off ← put_str off [];
  off ← put_str off [];
  off ← put_u32 off 0;
  _ ← finalize off;
  rx_len ← transact off;
  if rx_len =? 0 then mret (- EIO) else
  err ← check_error rx_len;
  if negb (err =? 0) then mret err else
  mret 0.

Definition P9_Clunk (fid : Z) : M Z :=
  tag ← p9_next_tag;
  off ← put_header P9_TCLUNK tag;
  off ← put_u32 off fid;
  _ ← finalize off;
  rx_len ← transact off;
  if rx_len =? 0 then mret (- EIO) else
  check_error rx_len.

(** [for (i = 0; i < nwname; i++) p9_put_str(buf, &off, components[i]);] *)
Fixpoint put_components (off : Z) (pathbuf : list Z) (components : list Z) : M Z :=
  match components with
  | [] => mret off
  | p :: components =>
      off ← put_str off (cstr_of (drop (Z.to_nat p) pathbuf));
      put_components off pathbuf components
  end.

Definition P9_Walk (fid newfid : Z) (path : list Z) : M Z :=
  if PATHBUF_SIZE <=? Z.of_nat (length path) then mret (- ENAMETOOLONG) else
  (* strncpy(pathbuf, path, 1023): pads with NULs *)
  pathbuf ← lift (blit (replicate (Z.to_nat PATHBUF_SIZE) (u8 env_garbage)) 0
    (path ++ replicate (Z.to_nat (PATHBUF_SIZE - 1) - length path) 0));
  pathbuf ← lift (setb pathbuf (PATHBUF_SIZE - 1) 0);
  toks ← lift (tokenise (S (Z.to_nat PATHBUF_SIZE)) pathbuf 0 []);
  match toks with
  | None => mret (- ENAMETOOLONG)
  | Some (pathbuf, components) =>
      let nwname := u16 (Z.of_nat (length components)) in
      tag ← p9_next_tag;
      off ← put_header P9_TWALK tag;
      off ← put_u32 off fid;
      off ← put_u32 off newfid;
      off ← put_u16 off nwname;
      off ← put_components off pathbuf components;
      _ ← finalize off;
      rx_len ← transact off;
      if rx_len =? 0 then mret (- EIO) else
      err ← check_error rx_len;
      if negb (err =? 0) then mret err else
      let err := p9_require_size rx_len (P9_RHDR_SIZE + 2) in
      if negb (err =? 0) then mret err else
      '(nwqid, _) ← rx_get p9_get_u16 7;
      if negb (nwqid =? nwname) then
        _ ← (if 0 <? nwqid then P9_Clunk newfid else mret 0);
        mret (- ENOENT)
      else mret 0
  end.

Definition P9_Lopen (fid flags : Z) (iounit : bool) : M (Z * option Z) :=
  tag ← p9_next_tag;
  off ← put_header P9_TLOPEN tag;
  off ← put_u32 off fid;
  off ← put_u32 off flags;
  _ ← finalize off;
  rx_len ← transact off;
  if rx_len =? 0 then mret (- EIO, None) else
  err ← check_error rx_len;
  if negb (err =? 0) then mret (err, None) else
  let err := p9_require_size rx_len 24 in
  if negb (err =? 0) then mret (err, None) else
  '(_, roff) ← rx_get p9_get_qid 7;
  if iounit then '(v, _) ← rx_get p9_get_u32 roff; mret (0, Some v)
  else mret (0, None).

Definition P9_Lcreate (dfid : Z) (name : list Z) (flags mode : Z) (iounit : bool)
    : M (Z * option Z) :=
  tag ← p9_next_tag;
  off ← put_header P9_TLCREATE tag;
  off ← put_u32 off dfid;
  off ← put_str off name;
  off ← put_u32 off flags;
  off ← put_u32 off mode;
  off ← put_u32 off 0;
  _ ← finalize off;
  rx_len ← transact off;
  if rx_len =? 0 then mret (- EIO, None) else
  err ← check_error rx_len;
  if negb (err =? 0) then mret (err, None) else
  let err := p9_require_size rx_len 24 in
  if negb (err =? 0) then mret (err, None) else
  '(_, roff) ← rx_get p9_get_qid 7;
  if iounit then '(v, _) ← rx_get p9_get_u32 roff; mret (0, Some v)
  else mret (0, None).

(** The clamps shared by Rread and Rreaddir: at most what was asked for, and
    at most what is in the response. *)
Definition clamp_count (data_count count rx_len roff : Z) : Z :=
  let data_count := if count <? data_count then count else data_count in
  if u32 (rx_len - roff) <? data_count then u32 (rx_len - roff) else data_count.

(** The result has the bytes stored at [buf_out]; [*actual] is their number. *)
Definition P9_Read (fid offset count : Z) : M (Z * option (list Z)) :=
  max_read ← read (fun c => u32 (msize (hnd c) - 11));
  let count := if max_read <? count then max_read else count in
  tag ← p9_next_tag;
  off ← put_header P9_TREAD tag;
  off ← put_u32 off fid;
  off ← put_u64 off offset;
  off ← put_u32 off count;
  _ ← finalize off;
  rx_len ← transact off;
  if rx_len =? 0 then mret (- EIO, None) else
  err ← check_error rx_len;
  if negb (err =? 0) then mret (err, None) else
  let err := p9_require_size rx_len 11 in
  if negb (err =? 0) then mret (err, None) else
  '(data_count, roff) ← rx_get p9_get_u32 7;
  let data_count := clamp_count data_count count rx_len roff in
  b ← read rx;
  if roff + data_count <=? Z.of_nat (length b)
  then mret (0, Some (slice b roff data_count)) else fault.

Definition P9_Write (fid offset count : Z) (buf_in : list Z) : M (Z * option Z) :=
  max_write ← read (fun c => u32 (msize (hnd c) - 23));
  let count := if max_write <? count then max_write else count in
  tag ← p9_next_tag;
  off ← put_header P9_TWRITE tag;
  off ← put_u32 off fid;
  off ← put_u64 off offset;
  off ← put_u32 off count;
  off ← put_data off buf_in count;
  _ ← finalize off;
  rx_len ← transact off;
  if rx_len =? 0 then mret (- EIO, None) else
  err ← check_error rx_len;
  if negb (err =? 0) then mret (err, None) else
  let err := p9_require_size rx_len 11 in
  if negb (err =? 0) then mret (err, None) else
  '(written, _) ← rx_get p9_get_u32 7;
  mret (0, Some written).

Definition P9_Getattr (fid mask : Z) : M (Z * option P9Stat) :=
  tag ← p9_next_tag;
  off ← put_header P9_TGETATTR tag;
  off ← put_u32 off fid;
  off ← put_u64 off mask;
  _ ← finalize off;
  rx_len ← transact off;
  if rx_len =? 0 then mret (- EIO, None) else
  err ← check_error rx_len;
  if negb (err =? 0) then mret (err, None) else
  let err := p9_require_size rx_len 160 in
  if negb (err =? 0) then mret (err, None) else
  '(valid, roff) ← rx_get p9_get_u64 7;
  '(qid, roff) ← rx_get p9_get_qid roff;
  '(mode, roff) ← rx_get p9_get_u32 roff;
  '(uid, roff) ← rx_get p9_get_u32 roff;
  '(gid, roff) ← rx_get p9_get_u32 roff;
  '(nlink, roff) ← rx_get p9_get_u64 roff;
  '(rdev, roff) ← rx_get p9_get_u64 roff;
  '(size, roff) ← rx_get p9_get_u64 roff;
  '(blksize, roff) ← rx_get p9_get_u64 roff;
  '(blocks, roff) ← rx_get p9_get_u64 roff;
  '(atime_sec, roff) ← rx_get p9_get_u64 roff;
  '(atime_nsec, roff) ← rx_get p9_get_u64 roff;
  '(mtime_sec, roff) ← rx_get p9_get_u64 roff;
  '(mtime_nsec, roff) ← rx_get p9_get_u64 roff;
  '(ctime_sec, roff) ← rx_get p9_get_u64 roff;
  '(ctime_nsec, roff) ← rx_get p9_get_u64 roff;
  '(btime_sec, roff) ← rx_get p9_get_u64 roff;
  '(btime_nsec, roff) ← rx_get p9_get_u64 roff;
  '(gen, roff) ← rx_get p9_get_u64 roff;
  '(data_version, roff) ← rx_get p9_get_u64 roff;
  mret (0, Some (mkP9Stat valid qid mode uid gid nlink rdev size blksize blocks
    atime_sec atime_nsec mtime_sec mtime_nsec ctime_sec ctime_nsec
    btime_sec btime_nsec gen data_version)).

Definition P9_Setattr (fid : Z) (attr : P9Iattr) : M Z :=
  tag ← p9_next_tag;
  off ← put_header P9_TSETATTR tag;
  off ← put_u32 off fid;
  off ← put_u32 off (ia_valid attr);
  off ← put_u32 off (ia_mode attr);
  off ← put_u32 off (ia_uid attr);
  off ← put_u32 off (ia_gid attr);
  off ← put_u64 off (ia_size attr);
  off ← put_u64 off (ia_atime_sec attr);
  off ← put_u64 off (ia_atime_nsec attr);
  off ← put_u64 off (ia_mtime_sec attr);
  off ← put_u64 off (ia_mtime_nsec attr);
  _ ← finalize off;
  rx_len ← transact off;
  if rx_len =? 0 then mret (- EIO) else
  check_error rx_len.

Definition P9_Statfs (fid : Z) : M (Z * option P9Statfs) :=
  tag ← p9_next_tag;
  off ← put_header P9_TSTATFS tag;
  off ← put_u32 off fid;
  _ ← finalize off;
  rx_len ← transact off;
  if rx_len =? 0 then mret (- EIO, None) else
  err ← check_error rx_len;
  if negb (err =? 0) then mret (err, None) else
  let err := p9_require_size rx_len 59 in
  if negb (err =? 0) then mret (err, None) else
  '(type, roff) ← rx_get p9_get_u32 7;
  '(bsize, roff) ← rx_get p9_get_u32 roff;
  '(blocks, roff) ← rx_get p9_get_u64 roff;
  '(bfree, roff) ← rx_get p9_get_u64 roff;
  '(bavail, roff) ← rx_get p9_get_u64 roff;
  '(files, roff) ← rx_get p9_get_u64 roff;
  '(ffree, roff) ← rx_get p9_get_u64 roff;
  '(fsid, roff) ← rx_get p9_get_u64 roff;
  '(namelen, roff) ← rx_get p9_get_u32 roff;
  mret (0, Some (mkP9Statfs type bsize blocks bfree bavail files ffree fsid namelen)).

(** [*data_out] is the offset in rx_buf of the entries. *)
Definition P9_Readdir (fid offset count : Z) : M (Z * option (Z * Z)) :=
  max_read ← read (fun c => u32 (msize (hnd c) - 11));
  let count := if max_read <? count then max_read else count in
  tag ← p9_next_tag;
  off ← put_header P9_TREADDIR tag;
  off ← put_u32 off fid;
  off ← put_u64 off offset;
  off ← put_u32 off count;
  _ ← finalize off;
  rx_len ← transact off;
  if rx_len =? 0 then mret (- EIO, None) else
  err ← check_error rx_len;
  if negb (err =? 0) then mret (err, None) else
  let err := p9_require_size rx_len 11 in
  if negb (err =? 0) then mret (err, None) else
  '(data_count, roff) ← rx_get p9_get_u32 7;
  mret (0, Some (roff, clamp_count data_count count rx_len roff)).

Definition P9_Mkdir (dfid : Z) (name : list Z) (mode : Z) : M Z :=
  tag ← p9_next_tag;
  off ← put_header P9_TMKDIR tag;
  off ← put_u32 off dfid;
  off ← put_str off name;
  off ← put_u32 off mode;
  off ← put_u32 off 0;
  _ ← finalize off;
  rx_len ← transact off;
  if rx_len =? 0 then mret (- EIO) else
  check_error rx_len.

Definition P9_Unlinkat (dfid : Z) (name : list Z) (flags : Z) : M Z :=
  tag ← p9_next_tag;
  off ← put_header P9_TUNLINKAT tag;
  off ← put_u32 off dfid;
  off ← put_str off name;
  off ← put_u32 off flags;
  _ ← finalize off;
  rx_len ← transact off;
  if rx_len =? 0 then mret (- EIO) else
  check_error rx_len.

Definition P9_Renameat (olddirfid : Z) (oldname : list Z) (newdirfid : Z)
    (newname : list Z) : M Z :=
  tag ← p9_next_tag;
  off ← put_header P9_TRENAMEAT tag;
  off ← put_u32 off olddirfid;
  off ← put_str off oldname;
  off ← put_u32 off newdirfid;
  off ← put_str off newname;
  _ ← finalize off;
  rx_len ← transact off;
  if rx_len =? 0 then mret (- EIO) else
  check_error rx_len.

Definition P9_Fsync (fid datasync : Z) : M Z :=
  tag ← p9_next_tag;
  off ← put_header P9_TFSYNC tag;
  off ← put_u32 off fid;
  off ← put_u32 off datasync;
  _ ← finalize off;
  rx_len ← transact off;
  if rx_len =? 0 then mret (- EIO) else
  check_error rx_len.

Definition P9_Flush (oldtag : Z) : M Z :=
  tag ← p9_next_tag;
  off ← put_header P9_TFLUSH tag;
  off ← put_u16 off oldtag;
  _ ← finalize off;
  rx_len ← transact off;
  if rx_len =? 0 then mret (- EIO) else
  check_error rx_len.

Definition P9_Symlink (dfid : Z) (name target : list Z) : M Z :=
  tag ← p9_next_tag;
  off ← put_header P9_TSYMLINK tag;
  off ← put_u32 off dfid;
  off ← put_str off name;
  off ← put_str off target;
  off ← put_u32 off 0;
  _ ← finalize off;
  rx_len ← transact off;
  if rx_len =? 0 then mret (- EIO) else
  check_error rx_len.

(** [target] is the caller's array of at least [maxlen] bytes. *)
Definition P9_Readlink (fid : Z) (target : list Z) (maxlen : Z) : M (Z * option (list Z)) :=
  tag ← p9_next_tag;
  off ← put_header P9_TREADLINK tag;
  off ← put_u32 off fid;
  _ ← finalize off;
  rx_len ← transact off;
  if rx_len =? 0 then mret (- EIO, None) else
  err ← check_error rx_len;
  if negb (err =? 0) then mret (err, None) else
  let err := p9_require_size rx_len 9 in
  if negb (err =? 0) then mret (err, None) else
  b ← read rx;
  '(target, _) ← lift (p9_get_str b rx_len 7 target maxlen);
  mret (0, Some target).

Definition P9_Link (dfid fid : Z) (name : list Z) : M Z :=
  tag ← p9_next_tag;
  off ← put_header P9_TLINK tag;
  off ← put_u32 off dfid;
  off ← put_u32 off fid;
  off ← put_str off name;
  _ ← finalize off;
  rx_len ← transact off;
  if rx_len =? 0 then mret (- EIO) else
  check_error rx_len.
End client.
