(* ===== verification/P9Correct.v ===== *)
(** * P9Correct: the client calls send and decode 9P2000.L messages

    [Tmsg] is the abstract syntax of the T-messages and [frame] their wire
    form.  Each call of P9Client.v is shown equal to: take a tag, put the
    frame of one message at the start of tx_buf, run the transport with its
    length, decode the response.  The decoders are pure functions of the
    response bytes. *)

From S2P Require Import Prelude Platform CString Marshal FidPool VirtQueue Handler P9Client.

(** ** Messages *)

Inductive Tmsg : Type :=
  | Tversion (msize : Z) (version : list Z)
  | Tattach (fid afid : Z) (uname aname : list Z) (n_uname : Z)
  | Twalk (fid newfid : Z) (names : list (list Z))
  | Tclunk (fid : Z)
  | Tlopen (fid flags : Z)
  | Tlcreate (fid : Z) (name : list Z) (flags mode gid : Z)
  | Tread (fid offset count : Z)
  | Twrite (fid offset : Z) (data : list Z)
  | Tgetattr (fid mask : Z)
  | Tsetattr (fid : Z) (attr : P9Iattr)
  | Tstatfs (fid : Z)
  | Treaddir (fid offset count : Z)
  | Tmkdir (dfid : Z) (name : list Z) (mode gid : Z)
  | Tunlinkat (dfid : Z) (name : list Z) (flags : Z)
  | Trenameat (olddirfid : Z) (oldname : list Z) (newdirfid : Z) (newname : list Z)
  | Tfsync (fid datasync : Z)
  | Tflush (oldtag : Z)
  | Tsymlink (dfid : Z) (name target : list Z) (gid : Z)
  | Treadlink (fid : Z)
  | Tlink (dfid fid : Z) (name : list Z).

Definition t_type (m : Tmsg) : Z :=
  match m with
  | Tversion _ _ => 100 | Tattach _ _ _ _ _ => 104 | Twalk _ _ _ => 110
  | Tclunk _ => 120 | Tlopen _ _ => 12 | Tlcreate _ _ _ _ _ => 14
  | Tread _ _ _ => 116 | Twrite _ _ _ => 118 | Tgetattr _ _ => 24
  | Tsetattr _ _ => 26 | Tstatfs _ => 8 | Treaddir _ _ _ => 40
  | Tmkdir _ _ _ _ => 72 | Tunlinkat _ _ _ => 76 | Trenameat _ _ _ _ => 74
  | Tfsync _ _ => 50 | Tflush _ => 108 | Tsymlink _ _ _ _ => 16
  | Treadlink _ => 22 | Tlink _ _ _ => 70
  end.

Definition w16 (v : Z) : list Z := le_bytes 2 v.
Definition w32 (v : Z) : list Z := le_bytes 4 v.
Definition w64 (v : Z) : list Z := le_bytes 8 v.

(** The fields after the header, in the order of the protocol. *)
Definition t_body (m : Tmsg) : list Z :=
  match m with
  | Tversion ms v => w32 ms ++ enc_str v
  | Tattach fid afid un an n => w32 fid ++ w32 afid ++ enc_str un ++ enc_str an ++ w32 n
  | Twalk fid newfid names =>
      w32 fid ++ w32 newfid ++ w16 (Z.of_nat (length names)) ++ concat (enc_str <$> names)
  | Tclunk fid => w32 fid
  | Tlopen fid flags => w32 fid ++ w32 flags
  | Tlcreate fid name flags mode gid =>
      w32 fid ++ enc_str name ++ w32 flags ++ w32 mode ++ w32 gid
  | Tread fid offset count => w32 fid ++ w64 offset ++ w32 count
  | Twrite fid offset data =>
      w32 fid ++ w64 offset ++ w32 (Z.of_nat (length data)) ++ data
  | Tgetattr fid mask => w32 fid ++ w64 mask
  | Tsetattr fid a =>
      w32 fid ++ w32 (ia_valid a) ++ w32 (ia_mode a) ++ w32 (ia_uid a) ++
      w32 (ia_gid a) ++ w64 (ia_size a) ++ w64 (ia_atime_sec a) ++
      w64 (ia_atime_nsec a) ++ w64 (ia_mtime_sec a) ++ w64 (ia_mtime_nsec a)
  | Tstatfs fid => w32 fid
  | Treaddir fid offset count => w32 fid ++ w64 offset ++ w32 count
  | Tmkdir dfid name mode gid => w32 dfid ++ enc_str name ++ w32 mode ++ w32 gid
  | Tunlinkat dfid name flags => w32 dfid ++ enc_str name ++ w32 flags
  | Trenameat od on nd nn => w32 od ++ enc_str on ++ w32 nd ++ enc_str nn
  | Tfsync fid datasync => w32 fid ++ w32 datasync
  | Tflush oldtag => w16 oldtag
  | Tsymlink dfid name target gid =>
      w32 dfid ++ enc_str name ++ enc_str target ++ w32 gid
  | Treadlink fid => w32 fid
  | Tlink dfid fid name => w32 dfid ++ w32 fid ++ enc_str name
  end.

(** size[4] type[1] tag[2] body *)
Definition frame (type tag : Z) (body : list Z) : list Z :=
  w32 (7 + Z.of_nat (length body)) ++ le_bytes 1 type ++ w16 tag ++ body.

Lemma length_frame type tag body : length (frame type tag body) = (7 + length body)%nat.
Proof. unfold frame. rewrite !length_app. unfold w32, w16. by rewrite !length_le_bytes. Qed.

Lemma length_w16 v : length (w16 v) = 2%nat.
Proof. apply length_le_bytes. Qed.
Lemma length_w32 v : length (w32 v) = 4%nat.
Proof. apply length_le_bytes. Qed.
Lemma length_w64 v : length (w64 v) = 8%nat.
Proof. apply length_le_bytes. Qed.

Create Rewrite HintDb wire.
#[export] Hint Rewrite @length_app length_le_bytes length_enc_str length_w16 length_w32
  length_w64 length_frame : wire.

(** ** Framing in a buffer *)

Lemma p9_put_header_spec b type tag :
  fits b 4 (Z.of_nat (length (le_bytes 1 type ++ w16 tag))) ->
  p9_put_header b type tag =
    (fun b' => (b', 4 + Z.of_nat (length (le_bytes 1 type ++ w16 tag)))) <$>
    blit b 4 (le_bytes 1 type ++ w16 tag).
Proof.
  intros Hb. unfold fits in Hb. autorewrite with wire in Hb. simpl in Hb.
  unfold p9_put_header. rewrite p9_put_u8_spec by (unfold fits; lia).
  destruct (blit b 4 (le_bytes 1 type)) as [b1|] eqn:E1.
  2: { rewrite blit_Some in E1; [done|lia|]. rewrite length_le_bytes. lia. }
  cbn [fmap option_fmap option_map mbind option_bind].
  rewrite p9_put_u16_spec by (eapply fits_blit; [exact E1|]; unfold fits; lia).
  pose proof (blit_blit _ _ _ (w16 tag) _ E1) as E2. rewrite length_le_bytes in E2.
  change (4 + Z.of_nat 1) with (4 + 1) in E2. unfold w16 in E2. rewrite E2.
  autorewrite with wire. unfold w16. destruct (blit b 4 _); [|done]. cbn. tuple_lia.
Qed.

(** With everything but the size in place, finalizing completes the frame. *)
Lemma p9_finalize_spec b type tag body b1 :
  blit b 4 (le_bytes 1 type ++ w16 tag ++ body) = Some b1 ->
  7 + Z.of_nat (length body) <= Z.of_nat (length b) < 2 ^ 32 ->
  p9_finalize b1 (7 + Z.of_nat (length body)) = blit b 0 (frame type tag body).
Proof.
  intros Hw Hl. pose proof (blit_length _ _ _ _ Hw) as Hl1. unfold p9_finalize.
  rewrite p9_put_u32_spec by (unfold fits; lia).
  destruct (blit b1 0 (le_bytes 4 (7 + Z.of_nat (length body)))) as [b'|] eqn:E'.
  2: { rewrite blit_Some in E'; [done|lia|]. rewrite length_le_bytes. lia. }
  cbn. destruct (blit_comm _ _ _ _ _ _ _ Hw E') as (b2 & E1 & E2);
    [right; rewrite length_le_bytes; lia|].
  pose proof (blit_blit _ _ _ (le_bytes 1 type ++ w16 tag ++ body) _ E1) as E3.
  rewrite length_le_bytes in E3. change (0 + Z.of_nat 4) with 4 in E3. rewrite E2 in E3.
  unfold frame, w32. by symmetry.
Qed.

Section correct.
Context {E : Type} `{EnvI : !Env E DevView}.
Abbreviation M := (M (Sys E Core)).
Implicit Types s : Sys E Core.
Context (transact : Z -> M Z).

(** [n] bytes fit in tx_buf. *)
Definition room (n : Z) (s : Sys E Core) : Prop :=
  n <= Z.of_nat (length (tx (core s))) < 2 ^ 32.

Definition set_txm (b : list Z) s : Sys E Core := set_core (set_tx b (core s)) s.

(** Send one message: the abstract operation behind every call. *)
Definition post (tag : Z) (m : Tmsg) : M Z :=
  let msg := frame (t_type m) tag (t_body m) in
  b ← read tx;
  b ← lift (blit b 0 msg);
  _ ← write (set_tx b);
  transact (Z.of_nat (length msg)).

Definition exchange (m : Tmsg) : M Z := tag ← p9_next_tag; post tag m.

(** ** Marshalling is block writing *)

(** tx_buf after [acc] was written behind the size field. *)
Definition wr (acc : list Z) s : Sys E Core :=
  set_txm (default (tx (core s)) (blit (tx (core s)) 4 acc)) s.

Definition pos (acc : list Z) : Z := 4 + Z.of_nat (length acc).

Lemma wr_tx acc s :
  pos acc <= Z.of_nat (length (tx (core s))) ->
  blit (tx (core s)) 4 acc = Some (tx (core (wr acc s))).
Proof. unfold pos. intros. simpl. rewrite blit_Some by lia. done. Qed.

(** A put that is a block store extends the written prefix. *)
Lemma tx_put_wr (f : list Z -> option (list Z * Z)) acc bs s :
  room (pos (acc ++ bs)) s ->
  (forall b, fits b (pos acc) (Z.of_nat (length bs)) ->
     f b = (fun b' => (b', pos acc + Z.of_nat (length bs))) <$> blit b (pos acc) bs) ->
  tx_put f (wr acc s) = Done (pos (acc ++ bs), wr (acc ++ bs) s).
Proof.
  unfold room. intros Hr Hf. unfold pos in Hr. rewrite length_app in Hr.
  pose proof (wr_tx acc s ltac:(unfold pos; lia)) as Hb.
  pose proof (blit_length _ _ _ _ Hb) as Hl.
  unfold tx_put. unfold read at 1, gets, mbind at 1, M_bind at 1.
  rewrite Hf by (unfold fits, pos; lia).
  pose proof (blit_blit _ _ _ bs _ Hb) as Hbb. fold (pos acc) in Hbb. rewrite Hbb.
  rewrite (wr_tx (acc ++ bs) s) by (unfold pos; rewrite length_app; lia).
  unfold mbind, M_bind, write, modify, mret, M_ret. cbn. unfold pos.
  rewrite length_app, Nat2Z.inj_add, Z.add_assoc. done.
Qed.

Section puts.
Context (acc : list Z) (s : Sys E Core).

Lemma put_u16_wr v :
  room (pos (acc ++ w16 v)) s ->
  put_u16 (pos acc) v (wr acc s) = Done (pos (acc ++ w16 v), wr (acc ++ w16 v) s).
Proof. intros. apply tx_put_wr; [done|]. intros b Hb. by rewrite p9_put_u16_spec. Qed.

Lemma put_u32_wr v :
  room (pos (acc ++ w32 v)) s ->
  put_u32 (pos acc) v (wr acc s) = Done (pos (acc ++ w32 v), wr (acc ++ w32 v) s).
Proof. intros. apply tx_put_wr; [done|]. intros b Hb. by rewrite p9_put_u32_spec. Qed.

Lemma put_u64_wr v :
  room (pos (acc ++ w64 v)) s ->
  put_u64 (pos acc) v (wr acc s) = Done (pos (acc ++ w64 v), wr (acc ++ w64 v) s).
Proof. intros. apply tx_put_wr; [done|]. intros b Hb. by rewrite p9_put_u64_spec. Qed.

Lemma put_str_wr v :
  len_ok v -> room (pos (acc ++ enc_str v)) s ->
  put_str (pos acc) v (wr acc s) = Done (pos (acc ++ enc_str v), wr (acc ++ enc_str v) s).
Proof.
  intros. apply tx_put_wr; [done|]. intros b Hb. apply p9_put_str_spec; [done|].
  rewrite length_enc_str in Hb. unfold fits in *. lia.
Qed.

Lemma put_data_wr buf_in n :
  0 <= n <= Z.of_nat (length buf_in) ->
  room (pos (acc ++ take (Z.to_nat n) buf_in)) s ->
  put_data (pos acc) buf_in n (wr acc s) =
    Done (pos (acc ++ take (Z.to_nat n) buf_in), wr (acc ++ take (Z.to_nat n) buf_in) s).
Proof.
  intros Hn Hr. apply tx_put_wr; [done|]. intros b Hb.
  destruct (Z.leb_spec n (Z.of_nat (length buf_in))); [|lia].
  destruct (blit b (pos acc) (take (Z.to_nat n) buf_in)) as [b'|] eqn:E'; [|done].
  cbn. apply blit_length in E'. unfold fits, pos in Hb. rewrite length_take in *.
  unfold pos. rewrite u32_small by lia. tuple_lia.
Qed.
End puts.

Lemma put_header_wr type tag s :
  room 7 s ->
  put_header type tag s =
    Done (pos (le_bytes 1 type ++ w16 tag), wr (le_bytes 1 type ++ w16 tag) s).
Proof.
  intros Hr. unfold room in Hr.
  assert (Hs : s = wr [] s).
  { unfold wr, set_txm. rewrite blit_nil by lia. by destruct s as [? ? []]. }
  rewrite Hs at 1. change (le_bytes 1 type ++ w16 tag) with ([] ++ (le_bytes 1 type ++ w16 tag)).
  apply tx_put_wr; [unfold room, pos; autorewrite with wire; simpl; lia|].
  intros b Hb. by apply p9_put_header_spec.
Qed.

(** Finalizing completes the frame. *)
Lemma finalize_wr type tag body s :
  let acc := le_bytes 1 type ++ w16 tag ++ body in
  room (7 + Z.of_nat (length body)) s ->
  exists b, blit (tx (core s)) 0 (frame type tag body) = Some b /\
    finalize (pos acc) (wr acc s) = Done (tt, set_txm b s).
Proof.
  intros acc Hr. unfold room in Hr.
  assert (Hpos : pos acc = 7 + Z.of_nat (length body)).
  { unfold pos, acc. autorewrite with wire. lia. }
  pose proof (wr_tx acc s ltac:(lia)) as Hw.
  pose proof (blit_length _ _ _ _ Hw) as Hl.
  rewrite Hpos. unfold finalize. unfold read at 1, gets, mbind at 1, M_bind at 1.
  rewrite (p9_finalize_spec _ _ _ _ _ Hw) by lia.
  destruct (blit (tx (core s)) 0 (frame type tag body)) as [b|] eqn:Hb; [by exists b|].
  rewrite blit_Some in Hb; [done|lia|]. rewrite length_frame. lia.
Qed.

Lemma finish_post {A} (k : Z -> M A) m tag acc s :
  acc = le_bytes 1 (t_type m) ++ w16 tag ++ t_body m ->
  room (7 + Z.of_nat (length (t_body m))) s ->
  (_ ← finalize (pos acc); n ← transact (pos acc); k n) (wr acc s) = (post tag m ≫= k) s.
Proof.
  intros -> Hr. destruct (finalize_wr (t_type m) tag (t_body m) s Hr) as (b & Hb & Hf).
  rewrite (bind_done _ _ _ _ _ Hf). unfold post. rewrite bind_assoc.
  unfold read, gets. unfold mbind at 2, M_bind at 2. rewrite bind_assoc.
  rewrite (bind_lift _ _ _ _ Hb), bind_assoc.
  replace (pos _) with (Z.of_nat (length (frame (t_type m) tag (t_body m)))); [done|].
  unfold pos. autorewrite with wire. lia.
Qed.

Definition bump_tag s : Sys E Core :=
  let t := u16 (next_tag (hnd (core s)) + 1) in
  set_core (on_hnd (set_next_tag (if t =? P9_NOTAG then 0 else t)) (core s)) s.

Lemma next_tag_done s : p9_next_tag s = Done (next_tag (hnd (core s)), bump_tag s).
Proof. done. Qed.

Lemma exchange_start {A} (f k : Z -> M A) m s :
  let tag := next_tag (hnd (core s)) in
  f tag (bump_tag s) = (post tag m ≫= k) (bump_tag s) ->
  (p9_next_tag ≫= f) s = (exchange m ≫= k) s.
Proof. intros tag Hf. unfold exchange. rewrite bind_assoc. exact Hf. Qed.
End correct.

(** Steps through the marshalling of a call, then recognises the message. *)
Ltac room_tac :=
  unfold room, pos; cbn [bump_tag core tx set_core on_hnd set_hnd t_body];
  autorewrite with wire; simpl length; lia.
Ltac put_step :=
  etransitivity;
  [ apply bind_done;
    lazymatch goal with
    | |- put_u32 _ _ _ = _ => apply put_u32_wr; room_tac
    | |- put_u64 _ _ _ = _ => apply put_u64_wr; room_tac
    | |- put_u16 _ _ _ = _ => apply put_u16_wr; room_tac
    | |- put_str _ _ _ = _ => apply put_str_wr; [assumption || done|room_tac]
    | |- put_data _ _ _ _ = _ => apply put_data_wr; [lia|room_tac]
    end
  | cbv beta ].
Ltac marshal :=
  etransitivity; [apply bind_done; apply put_header_wr; room_tac|]; cbv beta;
  repeat put_step;
  apply finish_post;
  [ cbn [t_type t_body]; rewrite <- ?app_assoc; reflexivity | room_tac ].

(** ** Responses *)

Definition rd (k : Z) (off : Z) (b : list Z) : Z := le_val (slice b off k).

(** The error of a response of [n] bytes in [b]: no response, a response that
    is too short, or an Rlerror with its errno negated; 0 for none. *)
Definition r_error (n : Z) (b : list Z) : Z :=
  if n <? P9_RHDR_SIZE then - EIO
  else if rd 1 4 b =? P9_RLERROR then
    if n <? P9_RLERROR_SIZE then - EIO else s32 (- s32 (rd 4 7 b))
  else 0.

(** A response of at least [need] bytes with the payload that [parse] reads. *)
Definition r_decode {A} (need : Z) (parse : Z -> list Z -> A) (n : Z) (b : list Z)
    : Z * option A :=
  if negb (r_error n b =? 0) then (r_error n b, None)
  else if n <? need then (- EIO, None)
  else (0, Some (parse n b)).

Definition parse_qid (off : Z) (b : list Z) : P9Qid :=
  mkP9Qid (rd 1 off b) (rd 4 (off + 1) b) (rd 8 (off + 5) b).

(** Rgetattr: valid[8] qid[13] mode[4] uid[4] gid[4] then fifteen u64. *)
Definition parse_stat (b : list Z) : P9Stat :=
  mkP9Stat (rd 8 7 b) (parse_qid 15 b) (rd 4 28 b) (rd 4 32 b) (rd 4 36 b)
    (rd 8 40 b) (rd 8 48 b) (rd 8 56 b) (rd 8 64 b) (rd 8 72 b)
    (rd 8 80 b) (rd 8 88 b) (rd 8 96 b) (rd 8 104 b) (rd 8 112 b) (rd 8 120 b)
    (rd 8 128 b) (rd 8 136 b) (rd 8 144 b) (rd 8 152 b).

Definition parse_statfs (b : list Z) : P9Statfs :=
  mkP9Statfs (rd 4 7 b) (rd 4 11 b) (rd 8 15 b) (rd 8 23 b) (rd 8 31 b)
    (rd 8 39 b) (rd 8 47 b) (rd 8 55 b) (rd 4 63 b).

Lemma check_error_eq n b :
  0 <= n <= Z.of_nat (length b) -> Z.of_nat (length b) < 2 ^ 31 ->
  p9_check_error b n = Some (r_error n b).
Proof.
  intros Hn Hb. unfold p9_check_error, r_error, P9_RHDR_SIZE, P9_RLERROR_SIZE, rd.
  destruct (Z.ltb_spec n 7); [done|].
  rewrite p9_get_u8_spec by (unfold fits; lia). cbn [mbind option_bind].
  destruct (_ =? _); [|done]. unfold P9_RHDR_SIZE. destruct (Z.ltb_spec n (7 + 4)); [done|].
  rewrite p9_get_u32_spec by (unfold fits; lia). done.
Qed.

(** ** The transport interface

    What the calls need of V9P_Transact: it keeps the receive buffer and returns
    the length of a response inside it.  [inv] is the invariant of the handler
    that a successful exchange maintains; it does not depend on the content of
    tx_buf or on the tag counter, which the calls change.  A failed exchange
    (length 0) may have reset the transport and renegotiated the message size,
    so that only the buffers are as before. *)

Definition rx_ok (c : Core) : Prop :=
  Forall is_byte (rx c) /\ P9_MSIZE <= Z.of_nat (length (rx c)) < 2 ^ 31.

(** A message of [n] bytes, of which the seven of the header are bytes. *)
Definition framed (n : Z) (b : list Z) : Prop :=
  7 <= n <= Z.of_nat (length b) /\ Forall is_byte (take 7 b).

Class Transport {E : Type} `{EnvI : !Env E DevView} (transact : Z -> M (Sys E Core) Z)
    (inv : Core -> Prop) : Prop := {
  transport_tx c b : inv c -> length b = length (tx c) -> inv (set_tx b c);
  transport_tag c t : inv c -> inv (on_hnd (set_next_tag t) c);
  transport_tx_size c : inv c -> Z.of_nat (length (tx c)) = P9_MSIZE;
  transport_rx c : inv c -> rx_ok c;
  transport_result n s r s' :
    inv (core s) -> framed n (tx (core s)) -> transact n s = Done (r, s') ->
    rx_ok (core s') /\ 0 <= r <= Z.of_nat (length (rx (core s'))) /\
    (r <> 0 -> inv (core s')) }.

Section calls.
Context {E : Type} `{EnvI : !Env E DevView}.
Abbreviation M := (M (Sys E Core)).
Implicit Types s : Sys E Core.
Context (transact : Z -> M Z).
Abbreviation exchange := (exchange transact).

(** The code of the calls that return a status only, after the transport. *)
Definition reply_status (n : Z) : M Z :=
  if n =? 0 then mret (- EIO) else check_error n.

(** [op] sends [m] and returns what [k] makes of the response. *)
Definition sends {A} (op : M A) (m : Tmsg) (k : Z -> M A) : Prop :=
  forall s, room (Z.of_nat (length (frame 0 0 (t_body m)))) s -> op s = (exchange m ≫= k) s.

Ltac sends :=
  let s := fresh "s" in let Hr := fresh "Hr" in
  intros s Hr; apply exchange_start; cbv beta zeta;
  unfold room in Hr; cbn [t_body] in Hr; autorewrite with wire in Hr; simpl length in Hr;
  marshal.

Section strings.
Context (name : list Z) (Hname : len_ok name).

Lemma Attach_sends fid :
  sends (P9_Attach transact fid) (Tattach fid P9_NOFID [] [] 0) (fun n =>
    if n =? 0 then mret (- EIO) else
    err ← check_error n; if negb (err =? 0) then mret err else mret 0).
Proof. sends. Qed.
Lemma Clunk_sends fid : sends (P9_Clunk transact fid) (Tclunk fid) reply_status.
Proof. sends. Qed.
Lemma Setattr_sends fid a : sends (P9_Setattr transact fid a) (Tsetattr fid a) reply_status.
Proof. sends. Qed.
Lemma Mkdir_sends dfid mode :
  sends (P9_Mkdir transact dfid name mode) (Tmkdir dfid name mode 0) reply_status.
Proof. sends. Qed.
Lemma Unlinkat_sends dfid flags :
  sends (P9_Unlinkat transact dfid name flags) (Tunlinkat dfid name flags) reply_status.
Proof. sends. Qed.
Lemma Renameat_sends od nd newname : len_ok newname ->
  sends (P9_Renameat transact od name nd newname) (Trenameat od name nd newname)
    reply_status.
Proof. intros ?. sends. Qed.
Lemma Fsync_sends fid datasync :
  sends (P9_Fsync transact fid datasync) (Tfsync fid datasync) reply_status.
Proof. sends. Qed.
Lemma Flush_sends oldtag : sends (P9_Flush transact oldtag) (Tflush oldtag) reply_status.
Proof. sends. Qed.
Lemma Symlink_sends dfid target : len_ok target ->
  sends (P9_Symlink transact dfid name target) (Tsymlink dfid name target 0) reply_status.
Proof. intros ?. sends. Qed.
Lemma Link_sends dfid fid :
  sends (P9_Link transact dfid fid name) (Tlink dfid fid name) reply_status.
Proof. sends. Qed.
End strings.

(** ** Reading a response *)

Lemma check_error_done n s :
  rx_ok (core s) -> 0 <= n <= Z.of_nat (length (rx (core s))) ->
  check_error n s = Done (r_error n (rx (core s)), s).
Proof.
  intros Hi Hn. destruct Hi. unfold check_error, read, gets.
  unfold mbind, M_bind. by rewrite check_error_eq by lia.
Qed.

Lemma reply_status_done n s :
  rx_ok (core s) -> 0 <= n <= Z.of_nat (length (rx (core s))) ->
  reply_status n s = Done (r_error n (rx (core s)), s).
Proof.
  intros Hi Hn. unfold reply_status. destruct (Z.eqb_spec n 0) as [->|]; [done|].
  by apply check_error_done.
Qed.

Lemma rx_get_u32_done off s :
  rx_ok (core s) -> 0 <= off -> off + 4 <= Z.of_nat (length (rx (core s))) ->
  rx_get p9_get_u32 off s = Done ((rd 4 off (rx (core s)), off + 4), s).
Proof.
  intros Hi Ho Hl. destruct Hi. unfold rx_get, read, gets.
  unfold mbind, M_bind. by rewrite p9_get_u32_spec by (unfold fits; lia).
Qed.

Lemma rx_get_u64_done off s :
  rx_ok (core s) -> 0 <= off -> off + 8 <= Z.of_nat (length (rx (core s))) ->
  rx_get p9_get_u64 off s = Done ((rd 8 off (rx (core s)), off + 8), s).
Proof.
  intros Hi Ho Hl. destruct Hi. unfold rx_get, read, gets.
  unfold mbind, M_bind. by rewrite p9_get_u64_spec by (unfold fits; lia).
Qed.

Lemma rx_get_u16_done off s :
  rx_ok (core s) -> 0 <= off -> off + 2 <= Z.of_nat (length (rx (core s))) ->
  rx_get p9_get_u16 off s = Done ((rd 2 off (rx (core s)), off + 2), s).
Proof.
  intros Hi Ho Hl. destruct Hi. unfold rx_get, read, gets.
  unfold mbind, M_bind. by rewrite p9_get_u16_spec by (unfold fits; lia).
Qed.

Lemma rx_get_qid_done off s :
  rx_ok (core s) -> 0 <= off -> off + 13 <= Z.of_nat (length (rx (core s))) ->
  rx_get p9_get_qid off s = Done ((parse_qid off (rx (core s)), off + 13), s).
Proof.
  intros Hi Ho Hl. destruct Hi. unfold rx_get, read, gets.
  unfold mbind, M_bind, p9_get_qid. rewrite p9_get_u8_spec by (unfold fits; lia).
  cbn [mbind option_bind]. rewrite p9_get_u32_spec by (unfold fits; lia).
  cbn [mbind option_bind]. rewrite p9_get_u64_spec by (unfold fits; lia).
  cbn. unfold parse_qid, rd.
  replace (off + 1 + 4) with (off + 5) by lia. unfold mret, M_ret. tuple_lia.
Qed.

(** The shape of the calls that decode a payload. *)
Lemma reply_decode {A} need (parse : Z -> list Z -> A) (k : M (Z * option A)) n s :
  rx_ok (core s) -> 0 <= n <= Z.of_nat (length (rx (core s))) ->
  (need <= n -> P9_MSIZE <= Z.of_nat (length (rx (core s))) < 2 ^ 31 -> k s = Done ((0, Some (parse n (rx (core s)))), s)) ->
  (if n =? 0 then mret (- EIO, None) else
   err ← check_error n;
   if negb (err =? 0) then mret (err, None) else
   let err := p9_require_size n need in
   if negb (err =? 0) then mret (err, None) else k) s
  = Done (r_decode need parse n (rx (core s)), s).
Proof.
  intros Hi Hn Hk. unfold r_decode. destruct (Z.eqb_spec n 0) as [->|].
  { done. }
  rewrite (bind_done _ _ _ _ _ (check_error_done _ _ Hi Hn)).
  destruct (negb _); [done|]. unfold p9_require_size.
  destruct (Z.ltb_spec n need); [done|]. apply Hk; [done|apply Hi].
Qed.

(** ** From sending to answers *)

Context (inv : Core -> Prop) `{!Transport transact inv}.

Definition msg_fits (m : Tmsg) : Prop := 7 + Z.of_nat (length (t_body m)) <= P9_MSIZE.

(** [op] sends [m] and returns what [dec] makes of the response. *)
Definition answers {A} (op : M A) (m : Tmsg) (dec : Z -> list Z -> A) : Prop :=
  forall s, inv (core s) -> op s = (n ← exchange m; b ← read rx; mret (dec n b)) s.

Lemma framed_frame type tag body b b' :
  blit b 0 (frame type tag body) = Some b' ->
  framed (Z.of_nat (length (frame type tag body))) b'.
Proof.
  intros Hb. pose proof (blit_length _ _ _ _ Hb) as Hl.
  pose proof (take_blit_snoc _ _ _ _ Hb) as Ht. apply blit_inv in Hb as (_ & Hle & _).
  rewrite Z.add_0_l, Nat2Z.id in Ht. cbn [app take] in Ht. change (Z.to_nat 0) with 0%nat in Ht.
  rewrite take_0, app_nil_l in Ht. rewrite length_frame in *. split; [lia|].
  assert (take 7 b' = take 7 (frame type tag body)) as ->.
  { by rewrite <- Ht, take_take, Nat.min_l by lia. }
  unfold frame, w32, w16. rewrite !app_assoc, take_app_le by (rewrite !length_app, !length_le_bytes; lia).
  apply Forall_take. rewrite !Forall_app. auto using le_bytes_byte.
Qed.

Lemma post_inv tag m s n s' :
  inv (core s) -> post transact tag m s = Done (n, s') ->
  rx_ok (core s') /\ 0 <= n <= Z.of_nat (length (rx (core s'))) /\
  (n <> 0 -> inv (core s')).
Proof.
  intros Hi. unfold post, read, gets. unfold mbind at 1, M_bind at 1.
  destruct (blit _ _ _) as [b|] eqn:Hb; [|done]. cbn [lift]. rewrite bind_ret.
  unfold write, modify, mbind, M_bind. pose proof (blit_length _ _ _ _ Hb) as Hl.
  apply transport_result; [by apply transport_tx|]. by eapply framed_frame.
Qed.

Lemma exchange_inv m s n s' :
  inv (core s) -> exchange m s = Done (n, s') ->
  rx_ok (core s') /\ 0 <= n <= Z.of_nat (length (rx (core s'))) /\
  (n <> 0 -> inv (core s')).
Proof.
  intros Hi. unfold exchange. rewrite (bind_done _ _ _ _ _ (next_tag_done s)).
  apply post_inv. by apply transport_tag.
Qed.

Lemma answers_pt {A} (op : M A) m k dec s :
  inv (core s) -> msg_fits m ->
  (room (Z.of_nat (length (frame 0 0 (t_body m)))) s -> op s = (exchange m ≫= k) s) ->
  (forall n s, rx_ok (core s) -> 0 <= n <= Z.of_nat (length (rx (core s))) ->
     k n s = Done (dec n (rx (core s)), s)) ->
  op s = (n ← exchange m; b ← read rx; mret (dec n b)) s.
Proof.
  intros Hi Hf Hs Hk. rewrite Hs.
  2: { unfold room, msg_fits in *. rewrite length_frame, (transport_tx_size _ Hi).
       unfold P9_MSIZE in *. lia. }
  unfold mbind, M_bind. destruct (exchange m s) as [[n s1]| |] eqn:Hx; [|done..].
  destruct (exchange_inv _ _ _ _ Hi Hx) as (? & ? & _). by rewrite Hk.
Qed.

Lemma answers_intro {A} (op : M A) m k dec :
  sends op m k -> msg_fits m ->
  (forall n s, rx_ok (core s) -> 0 <= n <= Z.of_nat (length (rx (core s))) ->
     k n s = Done (dec n (rx (core s)), s)) ->
  answers op m dec.
Proof. intros Hs Hf Hk s Hi. eapply answers_pt; eauto. Qed.
End calls.

(** Reads a response field by field. *)
Ltac rx_step :=
  etransitivity;
  [ apply bind_done;
    lazymatch goal with
    | |- rx_get p9_get_u32 _ _ = _ => apply rx_get_u32_done; [assumption|lia..]
    | |- rx_get p9_get_u64 _ _ = _ => apply rx_get_u64_done; [assumption|lia..]
    | |- rx_get p9_get_u16 _ _ = _ => apply rx_get_u16_done; [assumption|lia..]
    | |- rx_get p9_get_qid _ _ = _ => apply rx_get_qid_done; [assumption|lia..]
    end
  | cbv beta iota ].

Section decoded.
Context {E : Type} `{EnvI : !Env E DevView}.
Abbreviation M := (M (Sys E Core)).
Context (transact : Z -> M Z) (inv : Core -> Prop) `{!Transport transact inv}.
Implicit Types s : Sys E Core.
Abbreviation answers := (answers transact inv).
Abbreviation sends := (sends transact).

Ltac sends_at Hr :=
  apply exchange_start; cbv beta zeta;
  unfold room in Hr; cbn [t_body] in Hr; autorewrite with wire in Hr; simpl length in Hr;
  marshal.
Ltac sends := let s := fresh "s" in let Hr := fresh "Hr" in intros s Hr; sends_at Hr.

Ltac fits := unfold msg_fits, P9_MSIZE, len_ok in *; cbn [t_body];
  autorewrite with wire; simpl length; lia.
Ltac decoded :=
  eapply answers_intro; [assumption|sends| |];
  [ first [assumption | fits]
  | let n := fresh "n" in let s := fresh "s" in
    intros n s ? ?; apply reply_decode; [assumption..|]; unfold P9_MSIZE; intros ? ?;
    repeat rx_step; try done ].

Lemma Getattr_answers fid mask :
  answers (P9_Getattr transact fid mask) (Tgetattr fid mask)
    (r_decode 160 (fun _ => parse_stat)).
Proof. decoded. Qed.

Lemma Statfs_answers fid :
  answers (P9_Statfs transact fid) (Tstatfs fid) (r_decode 59 (fun _ => parse_statfs)).
Proof. decoded. Qed.

(** With a NULL [iounit] nothing is stored. *)
Definition opt_out {A} (want : bool) (r : Z * option A) : Z * option A :=
  (r.1, if want then r.2 else None).

Lemma reply_open iounit n s :
  rx_ok (core s) -> 0 <= n <= Z.of_nat (length (rx (core s))) ->
  (if n =? 0 then mret (- EIO, None) else
   err ← check_error n;
   if negb (err =? 0) then mret (err, None) else
   let err := p9_require_size n 24 in
   if negb (err =? 0) then mret (err, None) else
   '(_, roff) ← rx_get p9_get_qid 7;
   if iounit : bool then '(v, _) ← rx_get p9_get_u32 roff; mret (0, Some v)
   else mret (0, None)) s
  = Done (opt_out iounit (r_decode 24 (fun _ => rd 4 20) n (rx (core s))), s).
Proof.
  intros Hi Hn. destruct iounit.
  - etransitivity; [apply (reply_decode 24 (fun _ => rd 4 20)); [done..|]|].
    + intros ? ?. by repeat rx_step.
    + unfold opt_out. by destruct (r_decode _ _ _ _).
  - unfold r_decode. destruct (Z.eqb_spec n 0) as [->|]; [done|].
    rewrite (bind_done _ _ _ _ _ (check_error_done _ _ Hi Hn)).
    destruct (negb _); [done|]. unfold p9_require_size.
    destruct (Z.ltb_spec n 24); [done|]. cbv zeta. simpl negb. cbv iota.
    pose proof (proj2 Hi). unfold P9_MSIZE in *. by rx_step.
Qed.

Lemma Lopen_answers fid flags iounit :
  answers (P9_Lopen transact fid flags iounit) (Tlopen fid flags)
    (fun n b => opt_out iounit (r_decode 24 (fun _ => rd 4 20) n b)).
Proof.
  eapply answers_intro; [assumption|sends|fits|]. intros. by apply reply_open.
Qed.

Lemma Lcreate_answers dfid name flags mode iounit :
  len_ok name ->
  answers (P9_Lcreate transact dfid name flags mode iounit)
    (Tlcreate dfid name flags mode 0)
    (fun n b => opt_out iounit (r_decode 24 (fun _ => rd 4 20) n b)).
Proof.
  intros. eapply answers_intro; [assumption|sends|fits|]. intros. by apply reply_open.
Qed.

(** ** P9_Read, P9_Write, P9_Readdir: sizes *)

(** The number of bytes asked for: capped by the message size. *)
Definition capped (hdr count msize : Z) : Z := Z.min count (u32 (msize - hdr)).

(** The number of payload bytes used of an Rread or Rreaddir of [n] bytes. *)
Definition payload (count n : Z) (b : list Z) : Z :=
  Z.min (Z.min (rd 4 7 b) count) (n - 11).

Lemma clamp_count_eq d count n :
  11 <= n < 2 ^ 31 -> clamp_count d count n 11 = Z.min (Z.min d count) (n - 11).
Proof.
  intros Hn. unfold clamp_count. rewrite u32_small by lia.
  repeat case_cmp; lia.
Qed.

Lemma payload_range count n b :
  Forall is_byte b -> 0 <= count -> 11 <= n -> 0 <= payload count n b <= n - 11.
Proof.
  intros Hb Hc Hn. unfold payload, rd.
  pose proof (le_val_range _ (slice_byte b 7 4 Hb)). lia.
Qed.

Lemma capped_eq hdr count s :
  (if u32 (msize (hnd (core s)) - hdr) <? count
   then u32 (msize (hnd (core s)) - hdr) else count)
  = capped hdr count (msize (hnd (core s))).
Proof. unfold capped. case_cmp; lia. Qed.

(** The calls that first read the message size from the handler. *)
Definition answers_at {A} (op : M A) (m : Z -> Tmsg) (dec : Z -> Z -> list Z -> A) : Prop :=
  forall s, inv (core s) -> let ms := msize (hnd (core s)) in
    op s = (n ← exchange transact (m ms); b ← read rx; mret (dec ms n b)) s.

Ltac sized :=
  let s := fresh "s" in let Hi := fresh "Hi" in let ms := fresh "ms" in
  intros s Hi ms; etransitivity; [apply bind_done; reflexivity|];
  cbv beta zeta; rewrite capped_eq; fold ms;
  eapply (answers_pt transact inv); [exact Hi|fits|let Hr := fresh "Hr" in intros Hr; sends_at Hr|];
  let n := fresh "n" in let s' := fresh "s'" in intros n s' ? ?;
  apply reply_decode; [done..|]; intros ? ?; rx_step;
  change (7 + 4) with 11; rewrite ?clamp_count_eq by lia.

Lemma Readdir_answers fid offset count :
  answers_at (P9_Readdir transact fid offset count)
    (fun ms => Treaddir fid offset (capped 11 count ms))
    (fun ms => r_decode 11 (fun n b => (11, payload (capped 11 count ms) n b))).
Proof. sized. done. Qed.

Lemma Read_answers fid offset count :
  0 <= count ->
  answers_at (P9_Read transact fid offset count)
    (fun ms => Tread fid offset (capped 11 count ms))
    (fun ms => r_decode 11 (fun n b => slice b 11 (payload (capped 11 count ms) n b))).
Proof.
  intros Hc. sized. fold (payload (capped 11 count ms) n (rx (core s'))).
  pose proof (payload_range (capped 11 count ms) n (rx (core s')) ltac:(apply H)
    ltac:(unfold capped; pose proof (u32_range (ms - 11)); lia) ltac:(lia)).
  etransitivity; [apply bind_done; reflexivity|]. cbv beta.
  destruct (Z.leb_spec (11 + payload (capped 11 count ms) n (rx (core s')))
    (Z.of_nat (length (rx (core s'))))); [done|lia].
Qed.

(** The message fits when the negotiated size is at most the buffer size;
    [P9_Version] does not check it. *)
Lemma Write_answers fid offset count data s :
  let ms := msize (hnd (core s)) in
  inv (core s) -> 23 <= ms <= P9_MSIZE -> 0 <= count <= Z.of_nat (length data) ->
  P9_Write transact fid offset count data s =
    (n ← exchange transact (Twrite fid offset (take (Z.to_nat (capped 23 count ms)) data));
     b ← read rx; mret (r_decode 11 (fun _ => rd 4 7) n b)) s.
Proof.
  intros ms Hi Hms Hc. etransitivity; [apply bind_done; reflexivity|].
  cbv beta zeta. rewrite capped_eq. fold ms.
  assert (Hcap : 0 <= capped 23 count ms <= Z.min count (ms - 23)).
  { unfold capped, P9_MSIZE in *. rewrite u32_small by lia. lia. }
  eapply (answers_pt transact inv); [exact Hi| | |].
  - unfold msg_fits. cbn [t_body]. autorewrite with wire. rewrite length_take. lia.
  - intros Hr. apply exchange_start. cbv beta zeta.
    unfold room in Hr. cbn [t_body] in Hr. autorewrite with wire in Hr.
    rewrite length_take in Hr. simpl length in Hr.
    etransitivity; [apply bind_done; apply put_header_wr; room_tac|]. cbv beta.
    do 3 put_step.
    etransitivity; [apply bind_done; apply put_data_wr; [lia|]|].
    { unfold room, pos. cbn [bump_tag core tx set_core on_hnd set_hnd].
      autorewrite with wire. rewrite length_take. lia. }
    cbv beta. apply finish_post.
    + cbn [t_type t_body]. rewrite <- ?app_assoc, length_take. do 6 f_equal. lia.
    + unfold room. cbn [bump_tag core tx set_core on_hnd set_hnd t_body].
      autorewrite with wire. rewrite length_take. lia.
  - intros n s' ? ?. apply reply_decode; [done..|]. intros. rx_step. done.
Qed.

(** ** P9_Version and P9_Readlink *)

Lemma Readlink_answers fid target maxlen :
  1 <= maxlen <= Z.of_nat (length target) -> maxlen < 2 ^ 32 ->
  answers (P9_Readlink transact fid target maxlen) (Treadlink fid)
    (r_decode 9 (fun n b => (get_str_ref b n 7 target maxlen).1)).
Proof.
  intros Hm Hm32. eapply answers_intro; [assumption|sends|fits|].
  intros n s' Hx Hn. apply reply_decode; [done..|]. intros Hn9 Hl.
  etransitivity; [apply bind_done; reflexivity|]. cbv beta.
  rewrite p9_get_str_eq by (unfold get_str_pre; destruct Hx; split_and!; (done || lia)).
  by destruct (get_str_ref _ _ _ _ _).
Qed.

(** What [P9_Version] does with the response: on success it stores the
    server's message size in the handler, whatever it is. *)
Definition version_reply (n : Z) : M Z :=
  b ← read rx;
  let '(err, ms) := r_decode 13 (fun _ => rd 4 7) n b in
  _ ← write (fun c => match ms with Some m => on_hnd (set_msize m) c | None => c end);
  mret err.

(** The code of [P9_Version] after the transport. *)
Definition version_tail (n : Z) : M Z :=
  if n =? 0 then mret (- EIO) else
  err ← check_error n;
  if negb (err =? 0) then mret err else
  let err := p9_require_size n 13 in
  if negb (err =? 0) then mret err else
  '(m, roff) ← rx_get p9_get_u32 7;
  _ ← write (on_hnd (set_msize m));
  b ← read rx;
  _ ← lift (p9_get_str b n roff (replicate 32 0) 32);
  mret 0.

Lemma Version_sends s :
  Z.of_nat (length (tx (core s))) = P9_MSIZE ->
  P9_Version transact s =
    (post transact P9_NOTAG (Tversion P9_MSIZE P9_VERSION_STR) ≫= version_tail) s.
Proof. intros Ht. unfold P9_MSIZE in Ht. unfold P9_Version. marshal. Qed.

Lemma Version_answers s :
  inv (core s) ->
  P9_Version transact s =
    (post transact P9_NOTAG (Tversion P9_MSIZE P9_VERSION_STR) ≫= version_reply) s.
Proof.
  intros Hi. rewrite (Version_sends s (transport_tx_size _ Hi)).
  unfold mbind at 1 2, M_bind at 1 2.
  destruct (post _ _ _ s) as [[n s1]| |] eqn:Hp; [|done..].
  destruct (post_inv transact inv _ _ _ _ _ Hi Hp) as (Hx & Hn & _).
  unfold version_tail, version_reply, r_decode.
  etransitivity; [|symmetry; apply bind_done; reflexivity]. cbv beta.
  destruct (Z.eqb_spec n 0) as [->|]; [by destruct s1 as [? ? []]|].
  rewrite (bind_done _ _ _ _ _ (check_error_done _ _ Hx Hn)).
  destruct (negb _); [by destruct s1 as [? ? []]|]. unfold p9_require_size.
  destruct (Z.ltb_spec n 13); [by destruct s1 as [? ? []]|]. cbv zeta. simpl negb. cbv iota.
  pose proof Hx as [Hb Hl]. unfold P9_MSIZE in Hl. rx_step.
  etransitivity; [apply bind_done; reflexivity|]. cbv beta.
  etransitivity; [apply bind_done; reflexivity|]. cbv beta. cbn [core rx set_core on_hnd set_hnd].
  rewrite p9_get_str_eq
    by (unfold get_str_pre; rewrite length_replicate; split_and!; (done || lia)).
  done.
Qed.
End decoded.

(** ** Responses that encode a value decode to it *)

Lemma rd_skip k off a b :
  Z.of_nat (length a) <= off -> rd k off (a ++ b) = rd k (off - Z.of_nat (length a)) b.
Proof.
  intros. unfold rd, slice. rewrite drop_app_ge by lia. do 3 f_equal. lia.
Qed.

Lemma rd_here n v b : rd (Z.of_nat n) 0 (le_bytes n v ++ b) = v mod 2 ^ (8 * Z.of_nat n).
Proof.
  unfold rd, slice. rewrite Nat2Z.id, drop_0, take_app_length' by (by rewrite length_le_bytes).
  apply le_val_bytes.
Qed.

Lemma rd_prefix k off n b x :
  0 <= k -> 0 <= off -> off + k <= Z.of_nat n -> take n b = x -> rd k off b = rd k off x.
Proof.
  intros Hk Ho Hn <-. unfold rd, slice. f_equal.
  by rewrite !take_drop_commute, take_take, Nat.min_l by lia.
Qed.

Definition enc_qid (q : P9Qid) : list Z :=
  le_bytes 1 (qid_type q) ++ w32 (qid_version q) ++ w64 (qid_path q).

Definition enc_stat (st : P9Stat) : list Z :=
  w64 (st_valid st) ++ enc_qid (st_qid st) ++ w32 (st_mode st) ++ w32 (st_uid st) ++
  w32 (st_gid st) ++ w64 (st_nlink st) ++ w64 (st_rdev st) ++ w64 (st_size st) ++
  w64 (st_blksize st) ++ w64 (st_blocks st) ++ w64 (st_atime_sec st) ++
  w64 (st_atime_nsec st) ++ w64 (st_mtime_sec st) ++ w64 (st_mtime_nsec st) ++
  w64 (st_ctime_sec st) ++ w64 (st_ctime_nsec st) ++ w64 (st_btime_sec st) ++
  w64 (st_btime_nsec st) ++ w64 (st_gen st) ++ w64 (st_data_version st).

(** Every field is in the range of its C type. *)
Definition stat_ok (st : P9Stat) : Prop :=
  0 <= qid_type (st_qid st) < 2 ^ 8 /\
  Forall (fun v => 0 <= v < 2 ^ 32)
    [qid_version (st_qid st); st_mode st; st_uid st; st_gid st] /\
  Forall (fun v => 0 <= v < 2 ^ 64)
    [qid_path (st_qid st); st_valid st; st_nlink st; st_rdev st; st_size st; st_blksize st;
     st_blocks st; st_atime_sec st; st_atime_nsec st; st_mtime_sec st; st_mtime_nsec st;
     st_ctime_sec st; st_ctime_nsec st; st_btime_sec st; st_btime_nsec st; st_gen st;
     st_data_version st].

Lemma rd_last n v : rd (Z.of_nat n) 0 (le_bytes n v) = v mod 2 ^ (8 * Z.of_nat n).
Proof. rewrite <- (app_nil_r (le_bytes n v)). apply rd_here. Qed.

(** Computes the field at a fixed offset of a concatenation of fields. *)
Ltac rd_field :=
  repeat (rewrite rd_skip by (rewrite length_le_bytes; lia);
          rewrite length_le_bytes; cbn [Z.sub Z.opp Z.of_nat Pos.of_succ_nat Pos.succ]);
  first [ rewrite (rd_here 8) | rewrite (rd_here 4) | rewrite (rd_here 1)
        | rewrite (rd_last 8) | rewrite (rd_last 4) ];
  apply Z.mod_small; cbn; lia.

Lemma frame_shape type tag body :
  exists n, frame type tag body = le_bytes 4 n ++ le_bytes 1 type ++ le_bytes 2 tag ++ body.
Proof. by eexists. Qed.

Lemma parse_stat_enc st tag b :
  stat_ok st -> take 160 b = frame 25 tag (enc_stat st) -> parse_stat b = st.
Proof.
  intros (H1 & H4 & H8) Hb. destruct (frame_shape 25 tag (enc_stat st)) as [n Hn].
  rewrite Hn in Hb. clear Hn. unfold parse_stat, parse_qid.
  set (x := _ ++ _) in Hb.
  rewrite !(fun k off => rd_prefix k off 160 b x) by (done || lia). subst x. clear Hb.
  destruct st as [va [qt qv qp] mo ui gi nl rv sz bs bl a1 a2 m1 m2 c1 c2 b1 b2 ge dv].
  unfold enc_stat, enc_qid, w64, w32, w16. cbn in H1, H4, H8.
  rewrite !list.Forall_cons in H4. rewrite !list.Forall_cons in H8. cbn. rewrite <- !app_assoc.
  f_equal; [|f_equal|..]; rd_field.
Qed.

(** ** Rstatfs: the guard and the last field *)

(** The first [n] bytes of [b], then a last byte at position 66. *)
Definition with_last (n : Z) (b : list Z) (x : Z) : list Z :=
  take (Z.to_nat n) b ++ replicate (Z.to_nat (66 - n)) 0 ++ [x].

Section with_last.
Context (n : Z) (b : list Z) (Hn : 59 <= n < 67) (Hl : n <= Z.of_nat (length b)).
Context (Hb : Forall is_byte b).

Lemma take_with_last x : take (Z.to_nat n) (with_last n b x) = take (Z.to_nat n) b.
Proof.
  unfold with_last. rewrite take_app_le by (rewrite length_take; lia).
  rewrite take_take. f_equal. lia.
Qed.

Lemma statfs_with_last x :
  r_error n b = 0 ->
  r_decode 59 (fun _ => parse_statfs) n (with_last n b x) =
    (0, Some (parse_statfs (with_last n b x))).
Proof.
  intros He. unfold r_decode. assert (r_error n (with_last n b x) = 0) as ->.
  { rewrite <- He. unfold r_error.
    rewrite (rd_prefix 1 4 (Z.to_nat n) b (take (Z.to_nat n) b)) by (done || lia).
    rewrite (rd_prefix 4 7 (Z.to_nat n) b (take (Z.to_nat n) b)) by (done || lia).
    rewrite (rd_prefix 1 4 (Z.to_nat n) (with_last n b x) (take (Z.to_nat n) b))
      by (apply take_with_last || lia).
    rewrite (rd_prefix 4 7 (Z.to_nat n) (with_last n b x) (take (Z.to_nat n) b))
      by (apply take_with_last || lia). done. }
  simpl. by destruct (Z.ltb_spec n 59); [lia|].
Qed.

Lemma with_last_inj : parse_statfs (with_last n b 1) <> parse_statfs (with_last n b 0).
Proof.
  intros Heq%(f_equal sf_namelen). cbn in Heq. unfold rd in Heq.
  assert (Hs : forall x, is_byte x -> exists p, length p = 3%nat /\ Forall is_byte p /\
    slice (with_last n b x) 63 4 = p ++ [x] /\ p = slice (with_last n b 0) 63 3).
  { intros x Hx. set (q := take (Z.to_nat n) b ++ replicate (Z.to_nat (66 - n)) 0).
    assert (Hq : length q = 66%nat)
      by (unfold q; rewrite length_app, length_take, length_replicate; lia).
    assert (Hw : forall y, with_last n b y = q ++ [y])
      by (intros; unfold with_last, q; by rewrite <- app_assoc).
    exists (drop 63 q). rewrite !Hw. unfold slice. change (Z.to_nat 63) with 63%nat.
    rewrite !drop_app_le by lia. split_and!.
    - rewrite length_drop. lia.
    - apply Forall_drop, Forall_app. split; [by apply Forall_take|].
      apply Forall_replicate. unfold is_byte. lia.
    - apply take_ge. rewrite length_app, length_drop. simpl. lia.
    - rewrite take_app_le by (rewrite length_drop; simpl; lia).
      symmetry. apply take_ge. rewrite length_drop. simpl. lia. }
  destruct (Hs 1) as (p1 & Hl1 & Hb1 & Hs1 & Hp1); [unfold is_byte; lia|].
  destruct (Hs 0) as (p0 & Hl0 & Hb0 & Hs0 & Hp0); [unfold is_byte; lia|].
  rewrite Hs1, Hs0 in Heq. apply (f_equal (le_bytes 4)) in Heq.
  assert (Hle : forall p x, length p = 3%nat -> Forall is_byte p -> is_byte x ->
    le_bytes 4 (le_val (p ++ [x])) = p ++ [x]).
  { intros p x Hp Hpb Hx. rewrite <- (le_bytes_val (p ++ [x])) at 2
      by (apply Forall_app; split; [done|by apply list.Forall_singleton]).
    by rewrite length_app, Hp. }
  rewrite !Hle in Heq by (done || unfold is_byte; lia).
  subst. apply app_inv_head in Heq. congruence.
Qed.
End with_last.

(** ** The claims *)

Section claims.
Context {E : Type} `{EnvI : !Env E DevView}.
Abbreviation M := (M (Sys E Core)).
Context (transact : Z -> M Z) (inv : Core -> Prop) (HT : Transport transact inv).
Implicit Types s : Sys E Core.

Ltac fits := unfold msg_fits, P9_MSIZE, len_ok in *; cbn [t_body];
  autorewrite with wire; simpl length; lia.

(** C16: each call that returns only a status (attach, clunk, setattr, mkdir,
    unlinkat, renameat, fsync, flush, symlink, link) sends exactly the
    9P2000.L encoding of its message with a fresh tag, runs the transport on
    its length, and returns the error of the response; for names below 64 KB
    it adds no undefined behaviour of its own. *)
Theorem P9_status_calls_correct (fid dfid fid2 flags mode oldtag : Z) (attr : P9Iattr)
    (name name2 : list Z) (Hn : len_ok name) (Hn2 : len_ok name2) :
  answers transact inv (P9_Attach transact fid) (Tattach fid P9_NOFID [] [] 0) r_error /\
  answers transact inv (P9_Clunk transact fid) (Tclunk fid) r_error /\
  answers transact inv (P9_Setattr transact fid attr) (Tsetattr fid attr) r_error /\
  answers transact inv (P9_Mkdir transact dfid name mode) (Tmkdir dfid name mode 0) r_error /\
  answers transact inv (P9_Unlinkat transact dfid name flags) (Tunlinkat dfid name flags)
    r_error /\
  answers transact inv (P9_Renameat transact dfid name fid2 name2)
    (Trenameat dfid name fid2 name2) r_error /\
  answers transact inv (P9_Fsync transact fid flags) (Tfsync fid flags) r_error /\
  answers transact inv (P9_Flush transact oldtag) (Tflush oldtag) r_error /\
  answers transact inv (P9_Symlink transact dfid name name2) (Tsymlink dfid name name2 0)
    r_error /\
  answers transact inv (P9_Link transact dfid fid name) (Tlink dfid fid name) r_error.
Proof.
  split.
  { eapply answers_intro; [done|by apply Attach_sends|fits|]. intros n s Hx Hl.
    cbv beta. destruct (Z.eqb_spec n 0) as [->|]; [done|].
    rewrite (bind_done _ _ _ _ _ (check_error_done _ _ Hx Hl)).
    destruct (Z.eqb_spec (r_error n (rx (core s))) 0) as [->|]; done. }
  assert (Hst : forall op m, sends transact op m reply_status -> msg_fits m ->
    answers transact inv op m r_error).
  { intros op m Hs Hf. by eapply answers_intro; [| |done|apply reply_status_done]. }
  split_and!; apply Hst; try fits.
  - apply Clunk_sends.
  - apply Setattr_sends.
  - by apply Mkdir_sends.
  - by apply Unlinkat_sends.
  - by apply Renameat_sends.
  - apply Fsync_sends.
  - apply Flush_sends.
  - by apply Symlink_sends.
  - by apply Link_sends.
Qed.

(** C19: [P9_Getattr] sends Tgetattr, rejects short responses and errors, and on
    an Rgetattr that encodes the attributes [st] stores exactly [st]. *)
Theorem P9_Getattr_correct (fid mask : Z) :
  answers transact inv (P9_Getattr transact fid mask) (Tgetattr fid mask)
    (r_decode 160 (fun _ => parse_stat)) /\
  forall st tag b, stat_ok st -> take 160 b = frame 25 tag (enc_stat st) ->
    r_decode 160 (fun _ => parse_stat) 160 b = (0, Some st).
Proof.
  split; [by apply Getattr_answers|]. intros st tag b Hst Hb. unfold r_decode, r_error.
  change (160 <? P9_RHDR_SIZE) with false. cbv iota.
  rewrite (rd_prefix 1 4 160 b _ ltac:(lia) ltac:(lia) ltac:(lia) Hb).
  destruct (frame_shape 25 tag (enc_stat st)) as [n ->].
  rewrite rd_skip, length_le_bytes by (rewrite length_le_bytes; lia).
  change (4 - Z.of_nat 4) with 0. rewrite (rd_here 1). simpl.
  by rewrite (parse_stat_enc st tag b Hst Hb).
Qed.

(** C20: [P9_Read] asks for at most [msize - 11] bytes (in 32-bit arithmetic: for a
    negotiated size below 11 the difference wraps around and is no limit, which
    the statement keeps) and returns a prefix of
    the data of the response, never more than was asked for nor more than the
    response holds. *)
Theorem P9_Read_correct (fid offset count : Z) (s : Sys E Core)
    (Hi : inv (core s)) (Hc : 0 <= count) :
  let ask := Z.min count (u32 (msize (hnd (core s)) - 11)) in
  P9_Read transact fid offset count s =
    (n ← exchange transact (Tread fid offset ask);
     b ← read rx;
     mret (r_decode 11 (fun n b => slice b 11 (payload ask n b)) n b)) s /\
  forall n b d, Forall is_byte b -> n <= Z.of_nat (length b) ->
    r_decode 11 (fun n b => slice b 11 (payload ask n b)) n b = (0, Some d) ->
    Z.of_nat (length d) <= ask /\ 11 + Z.of_nat (length d) <= n /\
    d = slice b 11 (Z.of_nat (length d)).
Proof.
  intros ask. pose proof (u32_range (msize (hnd (core s)) - 11)) as Hu.
  split; [by apply (Read_answers transact inv fid offset count Hc s Hi)|].
  intros n b d Hb Hn. unfold r_decode. destruct (negb _); [done|].
  destruct (Z.ltb_spec n 11); [done|]. intros [= <-].
  pose proof (payload_range ask n b Hb ltac:(lia) ltac:(lia)) as Hp.
  rewrite slice_length by lia. rewrite Z2Nat.id by lia.
  split_and!; [unfold payload; lia|lia|done].
Qed.

(** C21: with a negotiated message size of at most the buffer size, [P9_Write]
    sends at most [msize - 23] bytes of the caller's data, and reports the
    count of the Rwrite. *)
Theorem P9_Write_correct (fid offset count : Z) (data : list Z) (s : Sys E Core)
    (Hi : inv (core s)) (Hms : 23 <= msize (hnd (core s)) <= P9_MSIZE)
    (Hc : 0 <= count <= Z.of_nat (length data)) :
  P9_Write transact fid offset count data s =
    (n ← exchange transact (Twrite fid offset
       (take (Z.to_nat (Z.min count (msize (hnd (core s)) - 23))) data));
     b ← read rx; mret (r_decode 11 (fun _ => rd 4 7) n b)) s.
Proof.
  rewrite (Write_answers transact inv fid offset count data s Hi Hms Hc). unfold capped.
  rewrite u32_small; [done|]. unfold P9_MSIZE in *. lia.
Qed.

(** [P9_Version] offers the size of the buffers and "9P2000.L" under NOTAG
    and, on success, makes the server's size the message size of the session
    whatever its value. *)
Lemma P9_Version_correct (s : Sys E Core) (Hi : inv (core s)) :
  P9_Version transact s =
    (n ← post transact P9_NOTAG (Tversion P9_MSIZE P9_VERSION_STR);
     b ← read rx;
     let '(err, ms) := r_decode 13 (fun _ => rd 4 7) n b in
     _ ← write (fun c => match ms with Some m => on_hnd (set_msize m) c | None => c end);
     mret err) s.
Proof. by apply (Version_answers transact inv). Qed.

(** C22: [P9_Lopen] and [P9_Lcreate] send Tlopen and Tlcreate (group 0) and
    store the iounit at offset 20 of a response of at least 24 bytes when
    asked to; [P9_Readdir] returns a window of the response that starts after
    its count and stays inside it; [P9_Readlink] stores the target as a
    string cut to the caller's buffer. *)
Theorem P9_payload_calls_correct (fid dfid flags mode offset count maxlen : Z) (iounit : bool)
    (name target : list Z) (Hn : len_ok name)
    (Hm : 1 <= maxlen <= Z.of_nat (length target)) (Hm32 : maxlen < 2 ^ 32) :
  answers transact inv (P9_Lopen transact fid flags iounit) (Tlopen fid flags)
    (fun n b => opt_out iounit (r_decode 24 (fun _ => rd 4 20) n b)) /\
  answers transact inv (P9_Lcreate transact dfid name flags mode iounit)
    (Tlcreate dfid name flags mode 0)
    (fun n b => opt_out iounit (r_decode 24 (fun _ => rd 4 20) n b)) /\
  answers_at transact inv (P9_Readdir transact fid offset count)
    (fun ms => Treaddir fid offset (Z.min count (u32 (ms - 11))))
    (fun ms => r_decode 11 (fun n b => (11, payload (Z.min count (u32 (ms - 11))) n b))) /\
  answers transact inv (P9_Readlink transact fid target maxlen) (Treadlink fid)
    (r_decode 9 (fun n b => (get_str_ref b n 7 target maxlen).1)).
Proof.
  split_and!; [by apply Lopen_answers|by apply Lcreate_answers|by apply Readdir_answers|].
  by apply Readlink_answers.
Qed.

(** C24: [P9_Statfs] sends Tstatfs and decodes the nine fields, which take 60
    bytes after the header; its size guard asks for 59 bytes in all, so a
    response that lacks the last field is accepted and the field is taken
    from whatever rx_buf held before. *)
Theorem P9_Statfs_correct (fid : Z) :
  answers transact inv (P9_Statfs transact fid) (Tstatfs fid)
    (r_decode 59 (fun _ => parse_statfs)) /\
  forall n b, 59 <= n < 67 -> n <= Z.of_nat (length b) -> Forall is_byte b ->
    r_error n b = 0 ->
    exists b', take (Z.to_nat n) b' = take (Z.to_nat n) b /\
      (r_decode 59 (fun _ => parse_statfs) n b').1 = 0 /\
      r_decode 59 (fun _ => parse_statfs) n b' <> r_decode 59 (fun _ => parse_statfs) n b.
Proof.
  split; [by apply Statfs_answers|]. intros n b Hn Hl Hb He.
  destruct (decide (r_decode 59 (fun _ => parse_statfs) n (with_last n b 0) =
                    r_decode 59 (fun _ => parse_statfs) n b)) as [H0|H0].
  - exists (with_last n b 1). split; [by apply take_with_last|].
    rewrite <- H0, !statfs_with_last by done. split; [done|].
    intros Heq. apply (with_last_inj n b); [done..|congruence].
  - exists (with_last n b 0). split; [by apply take_with_last|].
    split; [|done]. by rewrite statfs_with_last.
Qed.
End claims.

(** C23: when the server negotiated more than the buffers hold, a large
    [P9_Write] runs past the end of tx_buf. *)
Theorem P9_Write_overflow {E : Type} `{EnvI : !Env E DevView}
    (transact : Z -> M (Sys E Core) Z) (inv : Core -> Prop) (HT : Transport transact inv)
    (fid offset count : Z) (data : list Z) (s : Sys E Core)
    (Hi : inv (core s)) (Hms : P9_MSIZE < msize (hnd (core s)) < 2 ^ 32)
    (Hc : P9_MSIZE - 23 < count <= Z.of_nat (length data)) :
  P9_Write transact fid offset count data s = Fault.
Proof.
  pose proof (transport_tx_size _ Hi) as Ht. unfold P9_MSIZE in *.
  etransitivity; [apply bind_done; reflexivity|]. cbv beta zeta. rewrite capped_eq.
  assert (Hcap : 524288 - 23 < capped 23 count (msize (hnd (core s))) <= count).
  { unfold capped. rewrite u32_small by lia. lia. }
  set (n := capped _ _ _) in *. clearbody n.
  etransitivity; [apply bind_done, next_tag_done|]. cbv beta.
  etransitivity; [apply bind_done; apply put_header_wr; room_tac|]. cbv beta.
  do 3 put_step. unfold mbind at 1, M_bind at 1. unfold put_data, tx_put.
  etransitivity; [reflexivity|].
  unfold mbind at 1, M_bind at 1, read at 1, gets.
  destruct (Z.leb_spec n (Z.of_nat (length data))); [|lia].
  set (acc := _ ++ _). destruct (blit _ (pos acc) _) as [b|] eqn:Hb; [exfalso|done].
  apply blit_inv in Hb as (_ & Hb & _). rewrite length_take in Hb.
  assert (Hl : length (tx (core (wr acc (bump_tag s)))) = length (tx (core s))).
  { eapply (blit_length (tx (core s)) 4 acc). apply (wr_tx acc (bump_tag s)).
    unfold pos, acc. autorewrite with wire. cbn. lia. }
  rewrite Hl in Hb. unfold pos, acc in Hb. autorewrite with wire in Hb. lia.
Qed.
(** ** Errors and tags *)

(** C37: [p9_check_error] on a response inside the buffer: anything shorter than
    a header is EIO, a response that is no Rlerror is no error, an Rlerror with
    an errno from 1 to 2^31 - 1 gives exactly the negated errno; but an Rlerror
    that carries 0 is taken for success, and one that carries more than 2^31
    becomes a positive result. *)
Theorem p9_check_error_cases (b : list Z) (n : Z) (Hn : 0 <= n <= Z.of_nat (length b))
    (Hl : Z.of_nat (length b) < 2 ^ 31) (Hb : Forall is_byte b) :
  exists e, p9_check_error b n = Some e /\
    (n < 7 -> e = - EIO) /\
    (7 <= n -> rd 1 4 b <> P9_RLERROR -> e = 0) /\
    (7 <= n < 11 -> rd 1 4 b = P9_RLERROR -> e = - EIO) /\
    (11 <= n -> rd 1 4 b = P9_RLERROR ->
       (rd 4 7 b < 2 ^ 31 -> e = - rd 4 7 b) /\ (2 ^ 31 < rd 4 7 b -> 0 < e)).
Proof.
  exists (r_error n b). split; [by apply check_error_eq|].
  pose proof (le_val_range _ (slice_byte b 7 4 Hb)) as Hr.
  unfold r_error, P9_RHDR_SIZE, P9_RLERROR_SIZE, P9_RHDR_SIZE.
  destruct (Z.ltb_spec n 7), (Z.eqb_spec (rd 1 4 b) P9_RLERROR), (Z.ltb_spec n (7 + 4));
    split_and!; try lia; try done. intros _ _.
  rewrite slice_length in Hr by lia. change (2 ^ (8 * Z.of_nat (Z.to_nat 4))) with (2 ^ 32) in Hr.
  fold (rd 4 7 b) in Hr. set (v := rd 4 7 b) in *. clearbody v.
  unfold s32. rewrite (Z.mod_small v) by lia. split; intros.
  - destruct (Z.ltb_spec v (2 ^ 31)); [|lia].
    destruct (decide (v = 0)) as [->|]; [done|].
    rewrite <- (Z_mod_plus_full (- v) 1), Z.mod_small by lia. case_cmp; lia.
  - destruct (Z.ltb_spec v (2 ^ 31)); [lia|].
    replace (- (v - 2 ^ 32)) with (2 ^ 32 - v) by lia. rewrite Z.mod_small by lia.
    case_cmp; lia.
Qed.

Lemma p9_check_error_cases_witness :
  exists e, p9_check_error [11; 0; 0; 0; 7; 1; 0; 2; 0; 0; 0] 11 = Some e /\ e = - ENOENT.
Proof.
  destruct (p9_check_error_cases [11; 0; 0; 0; 7; 1; 0; 2; 0; 0; 0] 11)
    as (e & He & _ & _ & _ & H).
  - simpl. lia.
  - simpl. lia.
  - repeat constructor; lia.
  - exists e. split; [exact He|]. destruct H as [H _]; [lia|done|]. by apply H.
Defined.

Section tags.
Context {E : Type} `{EnvI : !Env E DevView}.

(** [k] tags in a row. *)
Fixpoint take_tags (k : nat) : M (Sys E Core) (list Z) :=
  match k with
  | O => mret []
  | S k => t ← p9_next_tag; ts ← take_tags k; mret (t :: ts)
  end.

Lemma take_tags_seq k s :
  0 <= next_tag (hnd (core s)) < 65535 ->
  exists s', take_tags k s =
      Done ((fun i => (next_tag (hnd (core s)) + i) mod 65535) <$> seqZ 0 (Z.of_nat k), s') /\
    next_tag (hnd (core s')) = (next_tag (hnd (core s)) + Z.of_nat k) mod 65535.
Proof.
  revert s. induction k as [|k IH]; intros s Ht.
  { exists s. split; [done|]. rewrite Z.add_0_r, Z.mod_small; lia. }
  cbn [take_tags]. rewrite (bind_done _ _ _ _ _ (next_tag_done s)).
  set (t := next_tag (hnd (core s))) in *.
  assert (Hb : next_tag (hnd (core (bump_tag s))) = (t + 1) mod 65535).
  { cbn. fold t. unfold P9_NOTAG. rewrite (u16_small (t + 1)) by lia.
    destruct (Z.eqb_spec (t + 1) 0xFFFF) as [->|]; [done|]. rewrite Z.mod_small; lia. }
  destruct (IH (bump_tag s)) as (s' & Hrun & Hs').
  { rewrite Hb. apply Z.mod_pos_bound. lia. }
  rewrite (bind_done _ _ _ _ _ Hrun). exists s'. rewrite Hb in *. split.
  - unfold mret, M_ret. do 2 f_equal. rewrite (seqZ_cons 0 (Z.of_nat (S k))) by lia.
    rewrite fmap_cons. f_equal.
    { rewrite Z.add_0_r, Z.mod_small; lia. }
    replace (Z.pred (Z.of_nat (S k))) with (Z.of_nat k) by lia.
    change (Z.succ 0) with (1 + 0). rewrite <- fmap_add_seqZ, <- list_fmap_compose.
    apply list_fmap_ext. intros _ i _. simpl.
    rewrite Zplus_mod_idemp_l. f_equal. lia.
  - rewrite Hs', Zplus_mod_idemp_l. f_equal. lia.
Qed.

(** C38: tags run cyclically through 0 .. 0xFFFE: none is ever NOTAG, and any
    65535 requests in a row carry distinct tags. *)
Theorem p9_next_tag_distinct (k : nat) (s : Sys E Core)
    (Ht : 0 <= next_tag (hnd (core s)) < 65535) (Hk : Z.of_nat k <= 65535) :
  exists ts s', take_tags k s = Done (ts, s') /\ NoDup ts /\
    Forall (fun t => 0 <= t /\ t <> P9_NOTAG) ts /\ 0 <= next_tag (hnd (core s')) < 65535.
Proof.
  destruct (take_tags_seq k s Ht) as (s' & Hrun & Hs').
  eexists _, s'. split; [exact Hrun|]. split_and!.
  - apply NoDup_fmap_2_strong; [|apply NoDup_seqZ].
    intros i j Hi%elem_of_seqZ Hj%elem_of_seqZ Heq.
    set (t := next_tag (hnd (core s))) in *.
    pose proof (Z.div_mod (t + i) 65535 ltac:(lia)).
    pose proof (Z.div_mod (t + j) 65535 ltac:(lia)).
    pose proof (Z.mod_pos_bound (t + i) 65535 ltac:(lia)). nia.
  - apply Forall_fmap, Forall_forall. intros i _. simpl.
    pose proof (Z.mod_pos_bound (next_tag (hnd (core s)) + i) 65535 ltac:(lia)).
    unfold P9_NOTAG. lia.
  - rewrite Hs'. apply Z.mod_pos_bound. lia.
  - rewrite Hs'. apply Z.mod_pos_bound. lia.
Qed.
End tags.

(** ** Concrete instances

    A transport that answers every request with the same bytes. *)

#[local] Existing Instance script_env.

Abbreviation cmd := (M (Sys (list Z) Core)).

(** A buffer of P9_MSIZE zero bytes. *)
Definition pad : list Z := replicate (Z.to_nat P9_MSIZE) 0.

Lemma pad_ok : Z.of_nat (length pad) = P9_MSIZE /\ Forall is_byte pad.
Proof.
  unfold pad. rewrite length_replicate, Z2Nat.id by done. split; [done|].
  apply Forall_replicate. unfold is_byte. lia.
Qed.

#[local] Opaque pad.

Definition canned (resp : list Z) (_ : Z) : cmd Z :=
  _ ← write (set_rx (resp ++ pad)); mret (Z.of_nat (length resp)).

Definition canned_inv (c : Core) : Prop :=
  Z.of_nat (length (tx c)) = P9_MSIZE /\ rx_ok c.

Lemma rx_ok_padded c resp :
  Forall is_byte resp -> Z.of_nat (length resp) < 2 ^ 30 -> rx_ok (set_rx (resp ++ pad) c).
Proof.
  intros Hb Hl. destruct pad_ok as [Hp Hpb]. split; cbn [rx set_rx].
  - apply Forall_app. split; assumption.
  - rewrite length_app, Nat2Z.inj_add, Hp. unfold P9_MSIZE. lia.
Qed.

Lemma canned_transport resp :
  Forall is_byte resp -> Z.of_nat (length resp) < 2 ^ 30 ->
  Transport (canned resp) canned_inv.
Proof.
  intros Hb Hl. split.
  - intros c b [Ht Hr] Hlen. split; [|exact Hr]. cbn [tx set_tx]. rewrite Hlen. exact Ht.
  - intros c t Hc. exact Hc.
  - intros c [Ht _]. exact Ht.
  - intros c [_ Hr]. exact Hr.
  - intros n s r s' [Ht Hr] _ Hrun. unfold canned, write, modify, mbind, M_bind in Hrun.
    injection Hrun as <- <-. split_and!; [by apply rx_ok_padded| | |].
    + lia.
    + cbn [core set_core rx set_rx]. rewrite length_app. lia.
    + intros _. split; [exact Ht|by apply rx_ok_padded].
Qed.

(** An Rlerror with ENOENT, and a machine after start-up. *)
Definition rlerror : list Z := [11; 0; 0; 0; 7; 1; 0; 2; 0; 0; 0].

Lemma rlerror_transport : Transport (canned rlerror) canned_inv.
Proof. apply canned_transport; [repeat constructor; lia|simpl; lia]. Qed.

Definition start (ms : Z) : Sys (list Z) Core :=
  mkSys [] [] (mkCore (set_msize ms handler_zero) pad pad pad pad [] [] 0).

Lemma start_inv ms : canned_inv (core (start ms)).
Proof.
  destruct pad_ok as [Hp Hpb]. unfold canned_inv, rx_ok. cbn [core start tx rx].
  split; [exact Hp|]. split; [exact Hpb|]. rewrite Hp. unfold P9_MSIZE. lia.
Qed.

Lemma P9_status_calls_correct_witness :
  answers (canned rlerror) canned_inv (P9_Clunk (canned rlerror) 5) (Tclunk 5) r_error /\
  answers (canned rlerror) canned_inv (P9_Mkdir (canned rlerror) 1 [97; 98] 0x1ED)
    (Tmkdir 1 [97; 98] 0x1ED 0) r_error.
Proof.
  destruct (P9_status_calls_correct (canned rlerror) canned_inv rlerror_transport
    5 1 2 0 0x1ED 9 (mkP9Iattr 0 0 0 0 0 0 0 0 0) [97; 98] [99])
    as (_ & H1 & _ & H2 & _); [done|done|]. split; [exact H1|exact H2].
Defined.

Lemma P9_Getattr_correct_witness :
  answers (canned rlerror) canned_inv (P9_Getattr (canned rlerror) 5 P9_GETATTR_BASIC)
    (Tgetattr 5 0x7FF) (r_decode 160 (fun _ => parse_stat)).
Proof.
  exact (proj1 (P9_Getattr_correct (canned rlerror) canned_inv rlerror_transport
    5 P9_GETATTR_BASIC)).
Defined.

Lemma P9_Read_correct_witness :
  P9_Read (canned rlerror) 5 0 100 (start 8192) =
    (n ← exchange (canned rlerror) (Tread 5 0 100);
     b ← read rx;
     mret (r_decode 11 (fun n b => slice b 11 (payload 100 n b)) n b)) (start 8192).
Proof.
  exact (proj1 (P9_Read_correct (canned rlerror) canned_inv rlerror_transport 5 0 100
    (start 8192) (start_inv 8192) ltac:(lia))).
Defined.

Lemma P9_Write_correct_witness :
  P9_Write (canned rlerror) 5 0 2 [1; 2; 3] (start 8192) =
    (n ← exchange (canned rlerror) (Twrite 5 0 [1; 2]);
     b ← read rx; mret (r_decode 11 (fun _ => rd 4 7) n b)) (start 8192).
Proof.
  exact (P9_Write_correct (canned rlerror) canned_inv rlerror_transport 5 0 2 [1; 2; 3]
    (start 8192) (start_inv 8192) (conj (Zle_bool_imp_le 23 8192 eq_refl)
    (Zle_bool_imp_le 8192 P9_MSIZE eq_refl)) ltac:(simpl; lia)).
Defined.

Lemma P9_payload_calls_correct_witness :
  answers (canned rlerror) canned_inv (P9_Readlink (canned rlerror) 5 (replicate 16 0) 16)
    (Treadlink 5) (r_decode 9 (fun n b => (get_str_ref b n 7 (replicate 16 0) 16).1)).
Proof.
  destruct (P9_payload_calls_correct (canned rlerror) canned_inv rlerror_transport
    5 1 0 0 0 100 16 false [97] (replicate 16 0)) as (_ & _ & _ & H);
    [done|simpl; lia|lia|]. exact H.
Defined.

Lemma P9_Statfs_correct_witness :
  answers (canned rlerror) canned_inv (P9_Statfs (canned rlerror) 5) (Tstatfs 5)
    (r_decode 59 (fun _ => parse_statfs)).
Proof.
  exact (proj1 (P9_Statfs_correct (canned rlerror) canned_inv rlerror_transport 5)).
Defined.

Lemma P9_Write_overflow_witness :
  P9_Write (canned rlerror) 5 0 600000 (replicate (Z.to_nat 600000) 7) (start 0x100000) = Fault.
Proof.
  apply (P9_Write_overflow (canned rlerror) canned_inv rlerror_transport).
  - apply start_inv.
  - cbn [start core hnd set_msize msize]. unfold P9_MSIZE. lia.
  - rewrite length_replicate, Z2Nat.id by lia. unfold P9_MSIZE. lia.
Defined.

Lemma p9_next_tag_distinct_witness :
  exists ts s', take_tags 3 (start 8192) = Done (ts, s') /\ NoDup ts.
Proof.
  destruct (p9_next_tag_distinct 3 (start 8192)) as (ts & s' & H1 & H2 & _).
  - cbn [start core hnd set_msize next_tag handler_zero]. lia.
  - lia.
  - exists ts, s'. split; [exact H1|exact H2].
Defined.
