(* ===== verification/P9Walk.v ===== *)
(** * P9Walk: P9_Walk splits a path as intended and walks it

    [tokenise] works in place on a C string with moving pointers; here it is
    shown equal to splitting the path on runs of '/' ([components_of]), and
    [P9_Walk] to sending these names in one Twalk. *)

From S2P Require Import Prelude Platform CString Marshal FidPool VirtQueue Handler P9Client P9Correct.

(** ** The reference: the non-empty pieces between slashes *)

Definition flush_piece (cur : list Z) : list (list Z) :=
  match cur with [] => [] | _ => [cur] end.

Fixpoint pieces (s cur : list Z) : list (list Z) :=
  match s with
  | [] => flush_piece cur
  | c :: s => if c =? 47 then flush_piece cur ++ pieces s [] else pieces s (cur ++ [c])
  end.

Definition components_of (path : list Z) : list (list Z) := pieces path [].

Definition no_slash (s : list Z) : Prop := Forall (fun c => c <> 47) s.

Lemma pieces_name name rest cur :
  no_slash name -> pieces (name ++ rest) cur = pieces rest (cur ++ name).
Proof.
  intros Hn. revert cur. induction Hn as [|c name Hc _ IH]; intros cur; simpl.
  { by rewrite app_nil_r. }
  destruct (Z.eqb_spec c 47); [done|]. rewrite IH, <- app_assoc. done.
Qed.

Lemma pieces_end name : name <> [] -> no_slash name -> components_of name = [name].
Proof.
  intros Hne Hn. unfold components_of. rewrite <- (app_nil_r name) at 1.
  rewrite pieces_name by done. by destruct name.
Qed.

Lemma pieces_slash name rest :
  name <> [] -> no_slash name -> components_of (name ++ 47 :: rest) = name :: components_of rest.
Proof.
  intros Hne Hn. unfold components_of. rewrite pieces_name by done. simpl. by destruct name.
Qed.

Lemma pieces_skip k rest : components_of (replicate k 47 ++ rest) = components_of rest.
Proof. induction k; simpl; [done|]. unfold components_of in *. by simpl. Qed.

(** ** Strings in pathbuf *)

Lemma cstr_suffix buf p a b :
  cstr buf p (a ++ b) -> cstr buf (p + Z.of_nat (length a)) b.
Proof.
  revert p. induction a as [|c a IH]; intros p Hc; simpl.
  { by replace (p + Z.of_nat 0) with p by lia. }
  apply cstr_cons_inv in Hc as (_ & _ & Hc). apply IH in Hc.
  by replace (p + Z.of_nat (S (length a))) with (p + 1 + Z.of_nat (length a)) by lia.
Qed.

(** Overwriting the byte behind a prefix cuts the string. *)
Lemma cstr_cut buf p a c b :
  cstr buf p (a ++ c :: b) ->
  exists buf', setb buf (p + Z.of_nat (length a)) 0 = Some buf' /\
    blit buf (p + Z.of_nat (length a)) [0] = Some buf' /\
    length buf' = length buf /\
    cstr buf' p a /\ cstr buf' (p + Z.of_nat (length a) + 1) b.
Proof.
  intros Hc. pose proof (cstr_bound _ _ _ Hc) as Hb.
  rewrite length_app in Hb. simpl in Hb. destruct Hc as (Hp & Hnz & Hs).
  destruct (blit buf (p + Z.of_nat (length a)) [0]) as [buf'|] eqn:Hbl.
  2: { rewrite blit_Some in Hbl by (simpl; lia). done. }
  exists buf'. rewrite setb_blit. split_and!; [done|done|by eapply blit_length| |].
  - split; [done|]. apply Forall_app in Hnz as [Hna _]. split; [done|].
    rewrite slice_app by lia. f_equal.
    + rewrite (slice_blit_ne _ _ _ _ _ _ Hbl) by lia.
      rewrite length_app in Hs. simpl in Hs.
      replace (Z.of_nat (length a + S (length b)) + 1)
        with (Z.of_nat (length a) + (Z.of_nat (length b) + 2)) in Hs by lia.
      rewrite slice_app, <- app_assoc in Hs by lia.
      apply app_inj_1 in Hs; [tauto|]. rewrite slice_length; lia.
    + pose proof (slice_blit_same _ _ _ _ Hbl) as H. by simpl in H.
  - eapply cstr_blit; [exact Hbl| |right; simpl; lia].
    assert (H : cstr buf p ((a ++ [c]) ++ b)) by (rewrite <- app_assoc; by split_and!).
    apply cstr_suffix in H. rewrite length_app in H. simpl in H.
    by replace (p + Z.of_nat (length a) + 1) with (p + Z.of_nat (length a + 1)) by lia.
Qed.

Lemma cstr_of_cstr buf p s : cstr buf p s -> cstr_of (drop (Z.to_nat p) buf) = s.
Proof.
  intros (Hp & Hnz & Hs). unfold slice in Hs.
  rewrite <- (take_drop (Z.to_nat (Z.of_nat (length s) + 1)) (drop (Z.to_nat p) buf)), Hs.
  rewrite <- app_assoc. by apply cstr_of_app_zero.
Qed.

(** ** The pointer loops *)

Lemma skip_slashes_spec buf rest p fuel :
  cstr buf p rest -> (length rest < fuel)%nat ->
  exists k rest', rest = replicate k 47 ++ rest' /\ hd 0 rest' <> 47 /\
    skip_slashes fuel buf p = Some (p + Z.of_nat k) /\ cstr buf (p + Z.of_nat k) rest'.
Proof.
  revert p fuel. induction rest as [|c rest IH]; intros p [|fuel] Hc Hf;
    simpl in Hf; try lia; cbn [skip_slashes].
  - rewrite (cstr_nil_inv _ _ Hc). simpl. exists 0%nat, []. simpl.
    rewrite Z.add_0_r. split_and!; done.
  - pose proof (cstr_cons_inv _ _ _ _ Hc) as (Hc0 & Hg & Hc'). rewrite Hg.
    cbn [mbind option_bind]. destruct (Z.eqb_spec c 47) as [->|Hne].
    + destruct (IH (p + 1) fuel Hc' ltac:(lia)) as (k & rest' & -> & Hh & Hrun & Hcs).
      exists (S k), rest'. replace (p + Z.of_nat (S k)) with (p + 1 + Z.of_nat k) by lia.
      done.
    + exists 0%nat, (c :: rest). simpl. rewrite Z.add_0_r. done.
Qed.

Lemma skip_name_spec buf rest p fuel :
  cstr buf p rest -> (length rest < fuel)%nat ->
  exists name rest', rest = name ++ rest' /\ no_slash name /\
    (rest' = [] \/ exists r, rest' = 47 :: r) /\
    skip_name fuel buf p = Some (p + Z.of_nat (length name)).
Proof.
  revert p fuel. induction rest as [|c rest IH]; intros p [|fuel] Hc Hf;
    simpl in Hf; try lia; cbn [skip_name].
  - rewrite (cstr_nil_inv _ _ Hc). exists [], []. simpl. rewrite Z.add_0_r.
    split_and!; [done|constructor|by left|done].
  - pose proof (cstr_cons_inv _ _ _ _ Hc) as (Hc0 & Hg & Hc'). rewrite Hg.
    cbn [mbind option_bind]. destruct (Z.eqb_spec c 0); [done|].
    destruct (Z.eqb_spec c 47) as [->|Hne]; simpl.
    + exists [], (47 :: rest). simpl. rewrite Z.add_0_r.
      split_and!; [done|constructor|right; eauto|done].
    + destruct (IH (p + 1) fuel Hc' ltac:(lia)) as (name & rest' & -> & Hn & Hr & ->).
      exists (c :: name), rest'. split_and!; [done|by constructor|done|].
      f_equal. simpl. lia.
Qed.

(** The components found so far: each starts where a string with the name is. *)
Definition named (buf : list Z) (p : Z) (os : list Z) (names : list (list Z)) : Prop :=
  Forall2 (fun o nm => cstr buf o nm /\ o + Z.of_nat (length nm) <= p) os names.

Lemma named_blit buf q buf' p os names :
  blit buf q [0] = Some buf' -> p < q -> named buf p os names -> named buf' p os names.
Proof.
  intros Hb Hq Hn. eapply Forall2_impl; [|exact Hn]. intros o nm [Hc Hl]. split; [|done].
  eapply cstr_blit; [exact Hb|exact Hc|]. left. lia.
Qed.

Lemma named_snoc buf p p' os names o nm :
  named buf p os names -> p <= p' -> cstr buf o nm -> o + Z.of_nat (length nm) <= p' ->
  named buf p' (os ++ [o]) (names ++ [nm]).
Proof.
  intros Hn Hp Hc Hl. apply Forall2_app; [|apply Forall2_cons; [done|constructor]].
  eapply Forall2_impl; [|exact Hn]. intros ? ? [? ?]. split; [done|lia].
Qed.

(** The result the loop must have when the names [all] are in the path. *)
Definition tokenised (buf : list Z) (all : list (list Z)) (r : option (option (list Z * list Z)))
    : Prop :=
  if Z.of_nat (length all) <=? P9_MAXWELEM
  then exists buf' os, r = Some (Some (buf', os)) /\ length buf' = length buf /\
         Forall2 (cstr buf') os all
  else r = Some None.

Lemma named_done buf p os names :
  named buf p os names -> Z.of_nat (length os) <= P9_MAXWELEM ->
  tokenised buf names (Some (Some (buf, os))).
Proof.
  intros Hn Hl. unfold tokenised. pose proof (Forall2_length Hn) as Hlen.
  destruct (Z.leb_spec (Z.of_nat (length names)) P9_MAXWELEM); [|lia].
  exists buf, os. split_and!; [done..|]. eapply Forall2_impl; [|exact Hn]. simpl. tauto.
Qed.

Lemma tokenised_too_many buf p os names more :
  named buf p os names -> P9_MAXWELEM <= Z.of_nat (length os) -> more <> [] ->
  tokenised buf (names ++ more) (Some None).
Proof.
  intros Hn Hl Hm. unfold tokenised. pose proof (Forall2_length Hn).
  rewrite length_app. destruct more as [|x more]; [done|]. simpl.
  destruct (Z.leb_spec (Z.of_nat (length names + S (length more))) P9_MAXWELEM); [lia|done].
Qed.

Lemma tokenise_spec fuel buf p os names rest :
  cstr buf p rest -> (length rest < fuel)%nat ->
  named buf p os names -> Z.of_nat (length os) <= P9_MAXWELEM ->
  tokenised buf (names ++ components_of rest) (tokenise fuel buf p os).
Proof.
  revert buf p os names rest.
  induction fuel as [|fuel IH]; intros buf p os names rest Hc Hf Hn Hl; [lia|].
  cbn [tokenise]. destruct rest as [|c rest].
  { rewrite (cstr_nil_inv _ _ Hc). simpl. rewrite app_nil_r. by eapply named_done. }
  pose proof (cstr_cons_inv _ _ _ _ Hc) as (Hc0 & Hg & _). rewrite Hg.
  cbn [mbind option_bind]. destruct (Z.eqb_spec c 0); [done|].
  destruct (skip_slashes_spec buf (c :: rest) p (S fuel) Hc Hf)
    as (k & rest1 & Hr & Hh & -> & Hc1).
  rewrite Hr, pieces_skip. cbn [mbind option_bind].
  assert (Hlr : (k + length rest1 < S fuel)%nat).
  { rewrite <- (length_replicate k 47), <- length_app, <- Hr. done. }
  destruct rest1 as [|c1 rest1].
  { rewrite (cstr_nil_inv _ _ Hc1). simpl. rewrite app_nil_r. by eapply named_done. }
  pose proof (cstr_cons_inv _ _ _ _ Hc1) as (Hc10 & Hg1 & _). rewrite Hg1.
  cbn [mbind option_bind]. destruct (Z.eqb_spec c1 0); [done|].
  destruct (skip_name_spec buf (c1 :: rest1) (p + Z.of_nat k) (S fuel) Hc1
    ltac:(simpl in *; lia)) as (name & rest2 & Hr2 & Hns & Hcase & Hskip).
  assert (Hne : name <> []).
  { intros ->. simpl in Hr2. destruct Hcase as [->|[r ->]]; [done|].
    injection Hr2 as -> ->. done. }
  destruct (Z.leb_spec P9_MAXWELEM (Z.of_nat (length os))).
  { eapply tokenised_too_many; [exact Hn|done|]. rewrite Hr2.
    destruct Hcase as [->|[r ->]];
      [rewrite app_nil_r, pieces_end by done|rewrite pieces_slash by done]; discriminate. }
  rewrite Hskip. cbn [mbind option_bind]. rewrite Hr2 in Hc1 |- *.
  assert (Hlen : (0 < length name)%nat) by (destruct name; [done|simpl; lia]).
  apply (f_equal length) in Hr2. rewrite length_app in Hr2. simpl in Hr2, Hlr.
  destruct Hcase as [->|[r ->]].
  - rewrite app_nil_r in *. pose proof (cstr_suffix buf (p + Z.of_nat k) name [])
      as Hend. rewrite app_nil_r in Hend. specialize (Hend Hc1).
    rewrite (cstr_nil_inv _ _ Hend). simpl.
    rewrite pieces_end by done.
    rewrite <- (app_nil_r (names ++ [name])). apply (IH _ _ _ _ []); [done|simpl in *; lia| |].
    + apply (named_snoc _ p); [done|lia|done|lia].
    + rewrite length_app. simpl. lia.
  - destruct (cstr_cut _ _ _ _ _ Hc1) as (buf' & Hset & Hblit & Hlb & Hca & Hcb).
    pose proof (cstr_suffix _ _ _ _ Hc1) as Hmid.
    apply cstr_cons_inv in Hmid as (_ & Hg47 & _). rewrite Hg47. cbn [mbind option_bind].
    simpl (47 =? 47). cbv iota. rewrite Hset. cbn [mbind option_bind].
    rewrite pieces_slash by done.
    replace (names ++ name :: components_of r) with ((names ++ [name]) ++ components_of r)
      by (by rewrite <- app_assoc).
    assert (Htok : tokenised buf' ((names ++ [name]) ++ components_of r)
      (tokenise fuel buf' (p + Z.of_nat k + Z.of_nat (length name) + 1)
         (os ++ [p + Z.of_nat k]))).
    { apply IH; [done|simpl in *; lia| |].
      - apply (named_snoc _ p); [|lia|done|lia]. eapply named_blit; [done|lia|done].
      - rewrite length_app. simpl. lia. }
    unfold tokenised in *. by rewrite <- Hlb.
Qed.

(** The in-place splitting loop of [P9_Walk] finds exactly the non-empty
    pieces of the path between slashes, in order, each a terminated string in
    the buffer; it reports "too deep" exactly when there are more than 16, it
    never leaves the buffer and its three nested loops end. *)
Lemma tokenise_correct (buf path : list Z) (fuel : nat)
    (Hs : cstr buf 0 path) (Hf : (length path < fuel)%nat) :
  if Z.of_nat (length (components_of path)) <=? P9_MAXWELEM
  then exists buf' os, tokenise fuel buf 0 [] = Some (Some (buf', os)) /\
         length buf' = length buf /\ Forall2 (cstr buf') os (components_of path)
  else tokenise fuel buf 0 [] = Some None.
Proof. apply (tokenise_spec fuel buf 0 [] [] path); [done..|constructor|done]. Qed.

(** ** The walk *)

Lemma pieces_length s cur :
  (length (concat (pieces s cur)) + length (pieces s cur) <= length s + length cur + 1 +
   length s)%nat /\ (length (concat (pieces s cur)) <= length s + length cur)%nat.
Proof.
  revert cur. induction s as [|c s IH]; intros cur; simpl.
  { destruct cur; simpl; rewrite ?app_nil_r; simpl; lia. }
  destruct (c =? 47).
  - specialize (IH []). rewrite concat_app, !length_app.
    destruct cur; simpl in *; rewrite ?app_nil_r; simpl; lia.
  - specialize (IH (cur ++ [c])). rewrite length_app in IH. simpl in IH. lia.
Qed.

Lemma length_concat_enc names :
  length (concat (enc_str <$> names)) = (2 * length names + length (concat names))%nat.
Proof.
  induction names as [|nm names IH]; [done|].
  rewrite fmap_cons. cbn [concat]. rewrite !length_app, length_enc_str, IH. simpl. lia.
Qed.

Lemma Forall_len_ok names n :
  (length (concat names) <= n)%nat -> Z.of_nat n < 65536 -> Forall len_ok names.
Proof.
  intros Hc Hn. induction names as [|nm names IH]; [constructor|].
  simpl in Hc. rewrite length_app in Hc. constructor; [unfold len_ok; lia|apply IH; lia].
Qed.

Section walk.
Context {E : Type} `{EnvI : !Env E DevView}.
Abbreviation M := (M (Sys E Core)).
Context (transact : Z -> M Z) (inv : Core -> Prop) `{!Transport transact inv}.
Implicit Types s : Sys E Core.

Lemma put_components_wr names os pathbuf acc s :
  Forall2 (cstr pathbuf) os names -> Forall len_ok names ->
  room (pos (acc ++ concat (enc_str <$> names))) s ->
  put_components (pos acc) pathbuf os (wr acc s) =
    Done (pos (acc ++ concat (enc_str <$> names)), wr (acc ++ concat (enc_str <$> names)) s).
Proof.
  intros Hn. revert acc. induction Hn as [|o nm os names Ho _ IH]; intros acc Hl Hr.
  { simpl. by rewrite app_nil_r. }
  apply list.Forall_cons in Hl as [Hnm Hl]. cbn [put_components].
  rewrite (cstr_of_cstr _ _ _ Ho). rewrite fmap_cons in *. cbn [concat] in *.
  rewrite app_assoc in Hr |- *.
  etransitivity; [apply bind_done, put_str_wr; [done|]|].
  { unfold room, pos in *. rewrite length_app in Hr. lia. }
  cbv beta. by apply IH.
Qed.

(** What becomes of the response: a short walk is an error, and the fid that
    the server bound to the part that exists is given back. *)
Definition walk_reply (newfid nwname n : Z) : M Z :=
  b ← read rx;
  match r_decode 9 (fun _ => rd 2 7) n b with
  | (err, None) => mret err
  | (_, Some nwqid) =>
      if nwqid =? nwname then mret 0
      else
        _ ← (if 0 <? nwqid then P9_Clunk transact newfid else mret 0);
        mret (- ENOENT)
  end.

Definition walk_tail (newfid nwname n : Z) : M Z :=
  if n =? 0 then mret (- EIO) else
  err ← check_error n;
  if negb (err =? 0) then mret err else
  let err := p9_require_size n (P9_RHDR_SIZE + 2) in
  if negb (err =? 0) then mret err else
  '(nwqid, _) ← rx_get p9_get_u16 7;
  if negb (nwqid =? nwname) then
    _ ← (if 0 <? nwqid then P9_Clunk transact newfid else mret 0);
    mret (- ENOENT)
  else mret 0.

Lemma walk_tail_eq newfid nwname n s :
  rx_ok (core s) -> 0 <= n <= Z.of_nat (length (rx (core s))) ->
  walk_tail newfid nwname n s = walk_reply newfid nwname n s.
Proof.
  intros Hi Hn. unfold walk_tail, walk_reply.
  etransitivity; [|symmetry; apply bind_done; reflexivity]. cbv beta. unfold r_decode.
  destruct (Z.eqb_spec n 0) as [->|]; [done|].
  rewrite (bind_done _ _ _ _ _ (check_error_done _ _ Hi Hn)).
  destruct (negb (r_error _ _ =? 0)); [done|]. unfold p9_require_size.
  change (P9_RHDR_SIZE + 2) with 9. destruct (Z.ltb_spec n 9); [done|].
  cbv zeta. cbn [negb Z.eqb]. cbv iota. pose proof (proj2 Hi). unfold P9_MSIZE in *.
  rx_step. by destruct (_ =? nwname).
Qed.

Lemma path_buffer (path : list Z) g :
  Z.of_nat (length path) < PATHBUF_SIZE -> Forall (fun c => c <> 0) path ->
  exists buf buf', blit (replicate (Z.to_nat PATHBUF_SIZE) g) 0
      (path ++ replicate (Z.to_nat (PATHBUF_SIZE - 1) - length path) 0) = Some buf /\
    setb buf (PATHBUF_SIZE - 1) 0 = Some buf' /\ cstr buf' 0 path.
Proof.
  unfold PATHBUF_SIZE. intros Hl Hnz. change (Z.to_nat 1024) with 1024%nat.
  change (Z.to_nat (1024 - 1)) with 1023%nat.
  assert (Hll : length (path ++ replicate (1023 - length path) 0) = 1023%nat)
    by (rewrite length_app, length_replicate; lia).
  rewrite blit_Some by (rewrite ?Hll, ?length_replicate; lia). rewrite Hll.
  eexists _, _. split; [done|]. simpl take. rewrite app_nil_l.
  rewrite drop_replicate. rewrite setb_mid by (rewrite ?Hll, ?length_replicate; simpl; lia).
  split; [done|]. split_and!; [lia|done|].
  unfold slice. simpl drop. rewrite drop_0, <- app_assoc.
  replace (Z.to_nat (Z.of_nat (length path) + 1)) with (length path + 1)%nat by lia.
  rewrite take_app_add. f_equal.
  destruct (1023 - length path)%nat eqn:Hk; simpl; [done|]. done.
Qed.

Lemma Walk_eq fid newfid path s :
  inv (core s) -> Forall (fun c => c <> 0) path ->
  P9_Walk transact fid newfid path s =
    if (PATHBUF_SIZE <=? Z.of_nat (length path)) ||
       (P9_MAXWELEM <? Z.of_nat (length (components_of path)))
    then Done (- ENAMETOOLONG, s)
    else (n ← exchange transact (Twalk fid newfid (components_of path));
          walk_reply newfid (Z.of_nat (length (components_of path))) n) s.
Proof.
  intros Hi Hnz. unfold P9_Walk.
  destruct (Z.leb_spec PATHBUF_SIZE (Z.of_nat (length path))) as [|Hlen]; [done|]. simpl orb.
  destruct (path_buffer path (u8 env_garbage) Hlen Hnz) as (buf & buf' & Hb & Hb' & Hcs).
  rewrite (bind_lift _ _ _ _ Hb), (bind_lift _ _ _ _ Hb').
  pose proof (tokenise_spec (S (Z.to_nat PATHBUF_SIZE)) buf' 0 [] [] path Hcs
    ltac:(lia) ltac:(constructor) ltac:(done)) as Htok. simpl app in Htok.
  unfold tokenised in Htok. set (names := components_of path) in *.
  destruct (Z.leb_spec (Z.of_nat (length names)) P9_MAXWELEM) as [Hle|Hgt],
    (Z.ltb_spec P9_MAXWELEM (Z.of_nat (length names))); try lia.
  2: { by rewrite (bind_lift _ _ _ _ Htok). }
  destruct Htok as (pb & os & Hrun & _ & Hos). rewrite (bind_lift _ _ _ _ Hrun).
  pose proof (Forall2_length Hos) as Hlos. unfold P9_MAXWELEM, PATHBUF_SIZE in *.
  destruct (pieces_length path []) as [_ Hpl]. fold (components_of path) in Hpl.
  fold names in Hpl. simpl in Hpl.
  pose proof (Forall_len_ok names _ Hpl ltac:(lia)) as Hok.
  pose proof (transport_tx_size _ Hi) as Htx. unfold P9_MSIZE in Htx.
  rewrite Hlos, u16_small by lia.
  transitivity ((exchange transact (Twalk fid newfid names)
                 ≫= walk_tail newfid (Z.of_nat (length names))) s).
  - apply exchange_start. cbv zeta.
    pose proof (length_concat_enc names) as Hce.
    etransitivity; [apply bind_done; apply put_header_wr; room_tac|]. cbv beta.
    do 3 put_step.
    etransitivity; [apply bind_done, put_components_wr; [exact Hos|done|]|].
    { unfold room, pos. cbn [bump_tag core tx set_core on_hnd set_hnd].
      autorewrite with wire. rewrite Hce. lia. }
    cbv beta. apply finish_post.
    + cbn [t_type t_body]. by rewrite <- ?app_assoc.
    + unfold room. cbn [bump_tag core tx set_core on_hnd set_hnd t_body].
      autorewrite with wire. rewrite Hce. lia.
  - unfold mbind, M_bind. destruct (exchange _ _ s) as [[n s1]| |] eqn:Hx; [|done..].
    destruct (exchange_inv transact inv _ _ _ _ Hi Hx) as (? & ? & _).
    by apply walk_tail_eq.
Qed.
End walk.

(** C17: [P9_Walk] refuses a path of 1024 bytes or more and one of more than 16
    components without sending anything; otherwise it walks exactly the
    components in one Twalk.  It succeeds only if the server walked all of
    them; a partial walk is ENOENT, and the new fid, which the server bound to
    the part that exists, is clunked first. *)
Theorem P9_Walk_correct {E : Type} `{EnvI : !Env E DevView}
    (transact : Z -> M (Sys E Core) Z) (inv : Core -> Prop) (HT : Transport transact inv)
    (fid newfid : Z) (path : list Z) (s : Sys E Core)
    (Hi : inv (core s)) (Hnz : Forall (fun c => c <> 0) path) :
  let names := components_of path in
  let too_long := (1024 <=? Z.of_nat (length path)) || (16 <? Z.of_nat (length names)) in
  P9_Walk transact fid newfid path s =
    if too_long then Done (- ENAMETOOLONG, s)
    else (n ← exchange transact (Twalk fid newfid names);
          b ← read rx;
          match r_decode 9 (fun _ => rd 2 7) n b with
          | (err, None) => mret err
          | (_, Some nwqid) =>
              if nwqid =? Z.of_nat (length names) then mret 0
              else
                _ ← (if 0 <? nwqid then P9_Clunk transact newfid else mret 0);
                mret (- ENOENT)
          end) s.
Proof. by apply (Walk_eq transact inv). Qed.

#[local] Existing Instance script_env.

Lemma P9_Walk_correct_witness :
  P9_Walk (canned rlerror) 0 5 [47; 97; 47; 98] (start 8192) =
    (n ← exchange (canned rlerror) (Twalk 0 5 [[97]; [98]]);
     walk_reply (canned rlerror) 5 2 n) (start 8192).
Proof.
  assert (Hnz : Forall (fun c => c <> 0) [47; 97; 47; 98]) by (repeat constructor; discriminate).
  pose proof (P9_Walk_correct (canned rlerror) canned_inv rlerror_transport 0 5
    [47; 97; 47; 98] (start 8192) (start_inv 8192) Hnz) as H.
  cbv zeta in H. change (components_of [47; 97; 47; 98]) with [[97]; [98]] in H.
  cbn [length orb Z.of_nat Z.leb Z.ltb Z.compare Pos.compare Pos.compare_cont
    Pos.of_succ_nat Pos.succ] in H.
  rewrite H. unfold walk_reply. reflexivity.
Defined.
