(* ===== verification/VirtioInit.v ===== *)
(** * VirtioInit: bringing the device up and down (src/virtio/virtio_init.c)

    The VirtIO handshake in its legacy (I/O ports) and modern (MMIO) form, the
    mount tag in the device configuration, and the teardown.  V9P_Reset, which
    also redoes the 9P handshake, is in Transact.v. *)

From S2P Require Import Prelude Platform FidPool VirtQueue Handler.

(** ** Registers (include/virtio/virtio_pci.h, virtio_pci_modern.h) *)

Definition VIRTIO_PCI_HOST_FEATURES : Z := 0x00.
Definition VIRTIO_PCI_GUEST_FEATURES : Z := 0x04.
Definition VIRTIO_PCI_QUEUE_PFN : Z := 0x08.
Definition VIRTIO_PCI_QUEUE_NUM : Z := 0x0C.
Definition VIRTIO_PCI_QUEUE_SEL : Z := 0x0E.
Definition VIRTIO_PCI_STATUS : Z := 0x12.
Definition VIRTIO_PCI_ISR : Z := 0x13.
Definition VIRTIO_PCI_DEVICE_CONFIG_OFFSET : Z := 0x14.

Definition VIRTIO_STATUS_ACKNOWLEDGE : Z := 1.
Definition VIRTIO_STATUS_DRIVER : Z := 2.
Definition VIRTIO_STATUS_DRIVER_OK : Z := 4.
Definition VIRTIO_STATUS_FEATURES_OK : Z := 8.
Definition VIRTIO_STATUS_FAILED : Z := 128.

Definition VIRTIO_9P_F_MOUNT_TAG : Z := 1.

Definition VIRTIO_PCI_COMMON_DFSELECT : Z := 0x00.
Definition VIRTIO_PCI_COMMON_DF : Z := 0x04.
Definition VIRTIO_PCI_COMMON_DFSELECTG : Z := 0x08.
Definition VIRTIO_PCI_COMMON_DFG : Z := 0x0C.
Definition VIRTIO_PCI_COMMON_STATUS : Z := 0x14.
Definition VIRTIO_PCI_COMMON_CFGGEN : Z := 0x15.
Definition VIRTIO_PCI_COMMON_Q_SELECT : Z := 0x16.
Definition VIRTIO_PCI_COMMON_Q_SIZE : Z := 0x18.
Definition VIRTIO_PCI_COMMON_Q_ENABLE : Z := 0x1C.
Definition VIRTIO_PCI_COMMON_Q_NOFF : Z := 0x1E.
Definition VIRTIO_PCI_COMMON_Q_DESCLO : Z := 0x20.
Definition VIRTIO_PCI_COMMON_Q_DESCHI : Z := 0x24.
Definition VIRTIO_PCI_COMMON_Q_AVAILLO : Z := 0x28.
Definition VIRTIO_PCI_COMMON_Q_AVAILHI : Z := 0x2C.
Definition VIRTIO_PCI_COMMON_Q_USEDLO : Z := 0x30.
Definition VIRTIO_PCI_COMMON_Q_USEDHI : Z := 0x34.

(** PCI configuration header. *)
Definition PCI_COMMAND : Z := 0x04.
Definition PCI_COMMAND_MEMORY : Z := 0x2.
Definition PCI_COMMAND_MASTER : Z := 0x4.

(** The fields the initialisation sets on a fresh queue. *)
Definition set_transport (dphys dents avphys usphys notify : Z) (m evidx : bool)
    (kick : Z) (indirect : bool) (flags : Z) (q : virtqueue) : virtqueue :=
  mkVirtqueue (vq_ptr q) (desc_ptr q) (cookies_ptr q) (indirect_ptr q)
    (vq_index q) (num q) (desc q)
    (mkAvail flags (av_idx (avail q)) (av_ring (avail q))) (used q) (free_head q) (num_free q)
    (last_used_idx q) (cookies q) (mem_block q) (mem_size q)
    dphys dents avphys usphys notify m evidx kick indirect (indirect_tables q).

Section init.
Context {E : Type} `{EnvI : !Env E DevView}.
Abbreviation M := (M (Sys E Core)).

(** [do { rst = ...; tries++; } while (rst != 0 && tries < 1000);] with [n]
    more tries after this one. *)
Fixpoint poll_status (c : ExtCall) (n : nat) : M Z :=
  rst ← ext c;
  if rst =? 0 then mret rst
  else match n with O => mret rst | S n => poll_status c n end.

(** StartDMA and the physical address of the vring, the same code in both
    paths: [None] after the cleanup when it fails, otherwise the address and
    the number of entries (1). *)
Definition map_vring (q : virtqueue) : M (option (Z * Z)) :=
  vring_entries ← ext (StartDMA (desc_ptr q) (mem_size q) [DMA_ReadFromRAM]);
  if vring_entries =? 0 then
    _ ← VirtQueue_Free (Some q); mret None
  else if 1 <? vring_entries then
    _ ← ext (EndDMA (desc_ptr q) (mem_size q) [DMA_ReadFromRAM; DMAF_NoModify]);
    _ ← VirtQueue_Free (Some q); mret None
  else
    vring_dma ← ext (AllocDMAEntry vring_entries);
    if vring_dma =? 0 then
      _ ← ext (EndDMA (desc_ptr q) (mem_size q) [DMA_ReadFromRAM; DMAF_NoModify]);
      _ ← VirtQueue_Free (Some q); mret None
    else
      phys_addr ← ext (GetDMAPhys (desc_ptr q) (mem_size q) [DMA_ReadFromRAM]);
      _ ← ext (FreeDMAEntry vring_dma);
      mret (Some (phys_addr, vring_entries)).

Definition V9P_InitVirtIO_Modern : M bool :=
  base ← read (fun c => common_cfg_base (hnd c));
  pci_cmd ← ext (ReadConfigWord PCI_COMMAND);
  _ ← (if Z.land pci_cmd (Z.lor PCI_COMMAND_MEMORY PCI_COMMAND_MASTER) =? 0
       then ext (WriteConfigWord PCI_COMMAND
              (Z.lor (Z.lor pci_cmd PCI_COMMAND_MEMORY) PCI_COMMAND_MASTER))
       else mret 0);
  caps ← ext GetCapabilities;
  _ ← (if Z.land caps env_PCI_CAP_BUSMASTER =? 0
       then ext (SetCapabilities (Z.lor env_PCI_CAP_BUSMASTER env_PCI_CAP_SETCLR))
       else mret 0);
  (* reset *)
  _ ← ext (MmioW8 (u32 (base + VIRTIO_PCI_COMMON_STATUS)) 0x00);
  rst ← poll_status (MmioR8 (u32 (base + VIRTIO_PCI_COMMON_STATUS))) 999;
  if negb (rst =? 0) then mret false else
  _ ← ext (MmioW8 (u32 (base + VIRTIO_PCI_COMMON_STATUS)) VIRTIO_STATUS_ACKNOWLEDGE);
  _ ← ext (MmioW8 (u32 (base + VIRTIO_PCI_COMMON_STATUS))
             (Z.lor VIRTIO_STATUS_ACKNOWLEDGE VIRTIO_STATUS_DRIVER));
  (* features *)
  _ ← ext (MmioW32 (u32 (base + VIRTIO_PCI_COMMON_DFSELECT)) 0);
  dev_feat_lo ← ext (MmioR32 (u32 (base + VIRTIO_PCI_COMMON_DF)));
  _ ← ext (MmioW32 (u32 (base + VIRTIO_PCI_COMMON_DFSELECT)) 1);
  dev_feat_hi ← ext (MmioR32 (u32 (base + VIRTIO_PCI_COMMON_DF)));
  let drv_feat_lo := Z.land dev_feat_lo VIRTIO_9P_F_MOUNT_TAG in
  let drv_feat_hi := Z.land dev_feat_hi 1 in
  _ ← ext (MmioW32 (u32 (base + VIRTIO_PCI_COMMON_DFSELECTG)) 0);
  _ ← ext (MmioW32 (u32 (base + VIRTIO_PCI_COMMON_DFG)) drv_feat_lo);
  _ ← ext (MmioW32 (u32 (base + VIRTIO_PCI_COMMON_DFSELECTG)) 1);
  _ ← ext (MmioW32 (u32 (base + VIRTIO_PCI_COMMON_DFG)) drv_feat_hi);
  _ ← ext (MmioW8 (u32 (base + VIRTIO_PCI_COMMON_STATUS))
             (Z.lor (Z.lor VIRTIO_STATUS_ACKNOWLEDGE VIRTIO_STATUS_DRIVER)
                    VIRTIO_STATUS_FEATURES_OK));
  status_check ← ext (MmioR8 (u32 (base + VIRTIO_PCI_COMMON_STATUS)));
  if Z.land status_check VIRTIO_STATUS_FEATURES_OK =? 0 then
    _ ← ext (MmioW8 (u32 (base + VIRTIO_PCI_COMMON_STATUS)) VIRTIO_STATUS_FAILED);
    mret false
  else
  (* queue 0 *)
  _ ← ext (MmioW16 (u32 (base + VIRTIO_PCI_COMMON_Q_SELECT)) 0);
  q_max ← ext (MmioR16 (u32 (base + VIRTIO_PCI_COMMON_Q_SIZE)));
  if q_max =? 0 then mret false else
  oq ← VirtQueue_Allocate 0 q_max;
  match oq with
  | None => mret false
  | Some q =>
      dma ← map_vring q;
      match dma with
      | None => mret false
      | Some (desc_phys, vring_entries) =>
          let desc_size := u32 (16 * q_max) in
          let avail_size := u32 (2 * (3 + q_max)) in
          let used_offset :=
            Z.land (u32 (u32 (desc_size + avail_size) + 4095)) 0xFFFFF000 in
          let avail_phys := u32 (desc_phys + desc_size) in
          let used_phys := u32 (desc_phys + used_offset) in
          _ ← ext (MmioW32 (u32 (base + VIRTIO_PCI_COMMON_Q_DESCLO)) desc_phys);
          _ ← ext (MmioW32 (u32 (base + VIRTIO_PCI_COMMON_Q_DESCHI)) 0);
          _ ← ext (MmioW32 (u32 (base + VIRTIO_PCI_COMMON_Q_AVAILLO)) avail_phys);
          _ ← ext (MmioW32 (u32 (base + VIRTIO_PCI_COMMON_Q_AVAILHI)) 0);
          _ ← ext (MmioW32 (u32 (base + VIRTIO_PCI_COMMON_Q_USEDLO)) used_phys);
          _ ← ext (MmioW32 (u32 (base + VIRTIO_PCI_COMMON_Q_USEDHI)) 0);
          _ ← ext (MmioW16 (u32 (base + VIRTIO_PCI_COMMON_Q_ENABLE)) 1);
          q_noff ← ext (MmioR16 (u32 (base + VIRTIO_PCI_COMMON_Q_NOFF)));
          notify_mult ← read (fun c => notify_off_mult (hnd c));
          notify_base ← read (fun c => notify_cfg_base (hnd c));
          let notify_addr :=
            u32 (notify_base + (if notify_mult =? 0 then 0 else u32 (q_noff * notify_mult))) in
          _ ← write (on_hnd (set_vq (Some (set_transport desc_phys vring_entries avail_phys
                 used_phys notify_addr true false 0xFFFF false
                 (vr16 true VRING_AVAIL_F_NO_INTERRUPT) q))));
          _ ← ext (MmioW8 (u32 (base + VIRTIO_PCI_COMMON_STATUS))
                (Z.lor (Z.lor (Z.lor VIRTIO_STATUS_ACKNOWLEDGE VIRTIO_STATUS_DRIVER)
                   VIRTIO_STATUS_FEATURES_OK) VIRTIO_STATUS_DRIVER_OK));
          _ ← ext (MmioR8 (u32 (base + VIRTIO_PCI_COMMON_STATUS)));
          mret true
      end
  end.

Definition V9P_InitVirtIO : M bool :=
  h ← read hnd;
  if pciDevice h =? 0 then mret false
  else if modern_mode h then V9P_InitVirtIO_Modern
  else if bar0 h =? 0 then mret false
  else
  let iobase := iobase h in
  (* reset *)
  _ ← ext (OutByte (u32 (iobase + VIRTIO_PCI_STATUS)) 0x00);
  rst ← poll_status (InByte (u32 (iobase + VIRTIO_PCI_STATUS))) 999;
  if negb (rst =? 0) then mret false else
  _ ← ext (InByte (u32 (iobase + VIRTIO_PCI_ISR)));
  _ ← ext (OutByte (u32 (iobase + VIRTIO_PCI_STATUS)) VIRTIO_STATUS_ACKNOWLEDGE);
  _ ← ext (OutByte (u32 (iobase + VIRTIO_PCI_STATUS))
             (Z.lor VIRTIO_STATUS_ACKNOWLEDGE VIRTIO_STATUS_DRIVER));
  (* features *)
  host_features ← ext (InLong (u32 (iobase + VIRTIO_PCI_HOST_FEATURES)));
  let guest_features := Z.land host_features VIRTIO_9P_F_MOUNT_TAG in
  _ ← ext (OutLong (u32 (iobase + VIRTIO_PCI_GUEST_FEATURES)) guest_features);
  (* queue 0 *)
  _ ← ext (OutWord (u32 (iobase + VIRTIO_PCI_QUEUE_SEL)) 0);
  q_max ← ext (InWord (u32 (iobase + VIRTIO_PCI_QUEUE_NUM)));
  if q_max =? 0 then mret false else
  oq ← VirtQueue_Allocate 0 q_max;
  match oq with
  | None => mret false
  | Some q =>
      dma ← map_vring q;
      match dma with
      | None => mret false
      | Some (phys_addr, vring_entries) =>
          let pfn := phys_addr / 4096 in
          _ ← ext (OutLong (u32 (iobase + VIRTIO_PCI_QUEUE_PFN)) pfn);
          _ ← write (on_hnd (set_vq (Some (set_transport phys_addr vring_entries
                 (avail_phys q) (used_phys q) (notify_addr q) false false 0xFFFF false
                 (vr16 false VRING_AVAIL_F_NO_INTERRUPT) q))));
          _ ← ext (OutByte (u32 (iobase + VIRTIO_PCI_STATUS))
                (Z.lor (Z.lor VIRTIO_STATUS_ACKNOWLEDGE VIRTIO_STATUS_DRIVER)
                   VIRTIO_STATUS_DRIVER_OK));
          _ ← ext (InByte (u32 (iobase + VIRTIO_PCI_STATUS)));
          mret true
      end
  end.

(** ** The mount tag *)

(** [for (i = 0; i < tag_len; i++) handler->mount_tag[i] = ...;] *)
Fixpoint read_tag_bytes (mk : Z -> ExtCall) (n : nat) (i : Z) : M unit :=
  match n with
  | O => mret tt
  | S n =>
      b ← ext (mk i);
      tag ← read (fun c => mount_tag (hnd c));
      tag ← lift (setb tag i b);
      _ ← write (on_hnd (set_mount_tag tag));
      read_tag_bytes mk n (i + 1)
  end.

Definition clamp_tag_len (n : Z) : Z := if 32 <? n then 32 else n.

(** [do { ... } while (gen1 != gen2);] *)
Fixpoint read_tag_modern (k : nat) : M Z :=
  match k with
  | O => hang
  | S k =>
      h ← read hnd;
      gen1 ← ext (MmioR8 (u32 (common_cfg_base h + VIRTIO_PCI_COMMON_CFGGEN)));
      n ← ext (MmioR16 (u32 (device_cfg_base h + 0)));
      let tag_len := clamp_tag_len n in
      _ ← read_tag_bytes (fun i => MmioR8 (u32 (device_cfg_base h + 2 + i)))
            (Z.to_nat tag_len) 0;
      gen2 ← ext (MmioR8 (u32 (common_cfg_base h + VIRTIO_PCI_COMMON_CFGGEN)));
      if negb (gen1 =? gen2) then read_tag_modern k else mret tag_len
  end.

(** [for (i = 0; i < tag_len; i++) if (...) { mount_tag[i] = 0; break; }] *)
Fixpoint cut_tag (n : nat) (i : Z) (tag : list Z) : option (list Z) :=
  match n with
  | O => Some tag
  | S n =>
      ch ← getb tag i;
      if (ch =? 0) || (ch <? 0x20) || (0x7E <? ch) then setb tag i 0
      else cut_tag n (i + 1) tag
  end.

Definition V9P_ReadMountTag `{!Fuel} : M unit :=
  h ← read hnd;
  tag_len ←
    (if modern_mode h then read_tag_modern fuel
     else
       n ← ext (InWord (u32 (iobase h + VIRTIO_PCI_DEVICE_CONFIG_OFFSET)));
       let tag_len := clamp_tag_len n in
       _ ← read_tag_bytes
             (fun i => InByte (u32 (iobase h + VIRTIO_PCI_DEVICE_CONFIG_OFFSET + 2 + i)))
             (Z.to_nat tag_len) 0;
       mret tag_len);
  tag ← read (fun c => mount_tag (hnd c));
  tag ← lift (setb tag tag_len 0);
  tag ← lift (cut_tag (Z.to_nat tag_len) 0 tag);
  write (on_hnd (set_mount_tag tag)).

Definition V9P_CleanupVirtIO : M unit :=
  h ← read hnd;
  _ ← (if pciDevice h =? 0 then mret 0
       else if modern_mode h && negb (common_cfg_base h =? 0)
       then ext (MmioW8 (u32 (common_cfg_base h + VIRTIO_PCI_COMMON_STATUS)) 0x00)
       else if negb (bar0 h =? 0)
       then ext (OutByte (u32 (iobase h + VIRTIO_PCI_STATUS)) 0x00)
       else mret 0);
  match vq h with
  | Some q => _ ← VirtQueue_Free (Some q); write (on_hnd (set_vq None))
  | None => mret tt
  end.
End init.

(** ** The accesses to the device in the trace *)

(** An access to a register of the device: a store (what the bus call returns for
    it does not matter), or a load with the value that the device gave. *)
Definition reg_access (x : ExtCall * Z) : option (ExtCall * Z) :=
  match x.1 with
  | OutByte _ _ | OutWord _ _ | OutLong _ _ | MmioW8 _ _ | MmioW16 _ _ | MmioW32 _ _ => Some (x.1, 0)
  | InByte _ | InWord _ | InLong _ | MmioR8 _ | MmioR16 _ | MmioR32 _ => Some x
  | _ => None
  end.
Definition accesses (l : list (ExtCall * Z)) : list (ExtCall * Z) := omap reg_access l.

Lemma accesses_app l1 l2 : accesses (l1 ++ l2) = accesses l1 ++ accesses l2.
Proof. apply omap_app. Qed.

Lemma accesses_cons x l : accesses (x :: l) = omap reg_access [x] ++ accesses l.
Proof. apply (accesses_app [x]). Qed.

Lemma accesses_mem l0 l : extends mem_call l0 l -> accesses l = accesses l0.
Proof. apply omap_extends. by intros []. Qed.

(** Accesses to the PCI configuration header. *)
Definition config_call (c : ExtCall) : bool :=
  match c with
  | ReadConfigWord _ | WriteConfigWord _ _ | GetCapabilities | SetCapabilities _ => true
  | _ => false
  end.

Lemma accesses_config l0 l : extends config_call l0 l -> accesses l = accesses l0.
Proof. apply omap_extends. by intros []. Qed.

(** A loop that reads with [c] until it gets 0, [n] times at most; the latest
    answer is first. *)
Definition polled (c : ExtCall) (n : nat) (l : list (ExtCall * Z)) : Prop :=
  exists l', l = (c, 0) :: l' /\ Forall (fun x => x.1 = c /\ x.2 <> 0) l' /\ (length l <= n)%nat.

(** Reads of registers and accesses to the PCI configuration: they neither
    acquire nor release anything, nor write a register. *)
Definition reg_read (c : ExtCall) : bool :=
  match c with
  | InByte _ | InWord _ | InLong _ | MmioR8 _ | MmioR16 _ | MmioR32 _ => true
  | ReadConfigWord _ | WriteConfigWord _ _ | GetCapabilities | SetCapabilities _ => true
  | _ => false
  end.

Lemma balanced_reads l0 l xs : extends reg_read l0 l -> balanced l0 l xs xs.
Proof.
  intros (new & -> & Hn). exists new. split; [done|].
  assert (Hx : extends reg_read [] new) by (exists new; by rewrite app_nil_r).
  rewrite (omap_extends acquired reg_read [] new), (omap_extends released reg_read [] new);
    [done| |done| |done]; intros [] v'; simpl; by destruct (v' =? 0).
Qed.

Section correct.
Context {E : Type} `{EnvI : !Env E DevView}.
Abbreviation M := (M (Sys E Core)).
Implicit Types s : Sys E Core.

Definition reads_reg (c : ExtCall) : Prop :=
  forall r, reg_access (c, r) = Some (c, r) /\ reg_read c = true.

Lemma poll_status_wp H c n s (Q : Z -> Sys E Core -> Prop) :
  reads_reg c ->
  (forall r l s', core s' = core s -> sys_log s' = l ++ sys_log s ->
     extends reg_read (sys_log s) (sys_log s') ->
     accesses l = l -> (r = 0 -> polled c (S n) l) -> Q r s') ->
  wp H (poll_status c n) Q s.
Proof.
  intros Hc. revert s. induction n as [|n IH]; intros s HQ; cbn [poll_status]; wp_sys.
  all: destruct (Hc r) as [Ha Hr]; assert (Hx : extends reg_read (sys_log s) ((c, r) :: sys_log s))
    by (apply extends_cons; [done|apply extends_refl]).
  all: assert (Hl : accesses [(c, r)] = [(c, r)]) by (unfold accesses; simpl; by rewrite Ha).
  all: assert (Hz : r = 0 -> forall m, (1 <= m)%nat -> polled c m [(c, r)])
    by (intros -> m Hm; exists []; repeat split; [constructor|simpl; lia]).
  - case_cmp; wp_sys; (apply (HQ _ [(c, r)]); try done; intros Hr0; apply Hz; (done || lia)).
  - case_cmp; wp_sys.
    + apply (HQ _ [(c, r)]); try done. intros Hr0. apply Hz; (done || lia).
    + apply IH. intros r' l s' Hs' Hlog Hext Hal Hpol. cbn [sys_log core] in *.
      apply (HQ _ (l ++ [(c, r)])); [done|by rewrite <- app_assoc|by eapply extends_trans| |].
      * by rewrite accesses_app, Hal, Hl.
      * intros (l' & -> & Hf & Hn)%Hpol. exists (l' ++ [(c, r)]). split; [done|].
        split; [apply Forall_app; split; [done|by apply list.Forall_singleton]|].
        rewrite length_app. simpl in *. lia.
Qed.

Definition vq_owned (q : virtqueue) : Prop :=
  Forall (fun p => p <> 0) [indirect_ptr q; cookies_ptr q; mem_block q; vq_ptr q].

Lemma map_vring_wp H q s :
  vq_owned q -> dma_entries q = 0 ->
  wp H (map_vring q) (fun r s' => core s' = core s /\
    extends mem_call (sys_log s) (sys_log s') /\
    match r with
    | None => balanced (sys_log s) (sys_log s') (vq_blocks q) []
    | Some (phys, n) => n = 1 /\ 0 <= phys < 2 ^ 32 /\
        (exists a b c, sys_log s' = (FreeDMAEntry a, b) ::
           (GetDMAPhys (desc_ptr q) (mem_size q) [DMA_ReadFromRAM], phys) :: c ++ sys_log s) /\
        balanced (sys_log s) (sys_log s') (vq_blocks q) (RDma (desc_ptr q) :: vq_blocks q)
    end) s.
Proof.
  intros Ho Hd. unfold map_vring. wp_sys.
  assert (Hfree : forall s1, core s1 = core s -> extends mem_call (sys_log s) (sys_log s1) ->
    balanced (sys_log s) (sys_log s1) (vq_blocks q) (vq_blocks q) ->
    wp H (VirtQueue_Free (Some q)) (fun _ s' => wp H (mret (@None (Z * Z))) (fun r s' =>
      core s' = core s /\ extends mem_call (sys_log s) (sys_log s') /\
      match r with
      | None => balanced (sys_log s) (sys_log s') (vq_blocks q) []
      | Some (phys, n) => n = 1 /\ 0 <= phys < 2 ^ 32 /\
          (exists a b c, sys_log s' = (FreeDMAEntry a, b) ::
             (GetDMAPhys (desc_ptr q) (mem_size q) [DMA_ReadFromRAM], phys) :: c ++ sys_log s) /\
          balanced (sys_log s) (sys_log s') (vq_blocks q) (RDma (desc_ptr q) :: vq_blocks q)
      end) s') s1).
  { intros s1 Hc Hl Hb. eapply wp_mono; [apply Free_wp; [done|lia]|].
    intros _ s' (Hc' & Hl' & Hb'). wp_sys. split_and!; [congruence|by eapply extends_trans|].
    unfold vq_res in Hb'. rewrite Hd in Hb'. by eapply balanced_trans. }
  case_cmp; wp_sys.
  { apply Hfree; [done|cbn [sys_log]; quiet|cbn [sys_log]; balance]. }
  case_cmp; wp_sys.
  { apply Hfree; [done|cbn [sys_log]; quiet|cbn [sys_log]; balance]. }
  case_cmp; wp_sys.
  { apply Hfree; [done|cbn [sys_log]; quiet|cbn [sys_log]; balance]. }
  cbn [ext_norm] in *. pose proof (u32_range r). pose proof (u32_range r1).
  cbn [sys_log]. split_and!; [done|quiet|lia..| |balance].
  eexists _, _, [_; _]. reflexivity.
Qed.

(** The part the two paths share: allocate and map the queue. *)
Lemma queue_wp q_max (k : virtqueue -> Z -> Z -> M bool) s (Q : bool -> Sys E Core -> Prop) :
  0 < q_max < 65536 ->
  (forall s', core s' = core s -> extends mem_call (sys_log s) (sys_log s') ->
     balanced (sys_log s) (sys_log s') [] [] -> Q false s') ->
  (forall q phys s', core s' = core s -> extends mem_call (sys_log s) (sys_log s') ->
     vq_fresh 0 q_max q -> 0 <= phys < 2 ^ 32 ->
     (exists m, sys_log s' = m ++ sys_log s /\ accesses m = [] /\
        (GetDMAPhys (desc_ptr q) (mem_size q) [DMA_ReadFromRAM], phys) ∈ m) ->
     balanced (sys_log s) (sys_log s') [] (RDma (desc_ptr q) :: vq_blocks q) ->
     wp False (k q phys 1) Q s') ->
  wp False (VirtQueue_Allocate 0 q_max) (fun oq s1 => wp False
    match oq with
    | Some q =>
        dma ← map_vring q;
        match dma with Some (p, n) => k q p n | None => mret false end
    | None => mret false
    end Q s1) s.
Proof.
  intros Hq HF HT. eapply wp_mono; [by apply Allocate_wp|].
  intros [q|] s1 (Hc1 & Hl1 & Hr1); [|wp_sys; by apply HF].
  destruct Hr1 as [Hfr Hb1]. pose proof Hfr as (_ & _ & _ & _ & _ & Hd & _ & _ & Ho & _).
  wp_step. eapply wp_mono; [by apply map_vring_wp|].
  intros [[phys n]|] s2 (Hc2 & Hl2 & Hr2).
  - destruct Hr2 as (-> & Hp & (a & b & c & Hg) & Hb2).
    apply HT; [congruence|by eapply extends_trans|done|done| |by eapply balanced_trans].
    destruct (extends_trans _ _ _ _ Hl1 Hl2) as (m & Hm & Hmf). exists m. split; [done|]. split.
    { apply (accesses_mem [] m). exists m. by rewrite app_nil_r. }
    destruct Hl1 as (new & Hn & _). rewrite Hg, Hn, app_assoc, !app_comm_cons in Hm.
    apply app_inv_tail in Hm as <-. apply list_elem_of_further, list_elem_of_here.
  - wp_sys. apply HF; [congruence|by eapply extends_trans|by eapply balanced_trans].
Qed.

Lemma rep_set_transport q fr dphys dents avp usp no m ev ki ind fl :
  vq_rep q fr [] -> vq_rep (set_transport dphys dents avp usp no m ev ki ind fl q) fr [].
Proof. intros []. by split. Qed.

(** A queue that is ready for requests in the mode of the handler. *)
Definition vq_ready (m : bool) (q : virtqueue) : Prop :=
  vq_rep q (seqZ 0 (num q)) [] /\ vq_owned q /\ modern q = m /\ vq_index q = 0 /\
  use_event_idx q = false /\ dma_entries q = 1 /\
  us_idx (used q) = 0 /\ last_used_idx q = 0 /\
  vr16 m (av_flags (avail q)) = VRING_AVAIL_F_NO_INTERRUPT /\
  (m = true -> avail_phys q = u32 (dma_phys q + vring_desc_size (num q)) /\
               used_phys q = u32 (dma_phys q + vring_used_offset (num q))).

(** What the device is asked and told once it is reset, the latest access first:
    the features, the queue and the status, each at the offset of its register
    in the VirtIO specification.  [lo], [hi] are the features that the device
    offers, [ok] its status after FEATURES_OK, [noff] the notification offset of
    the queue and [st] the status read back at the end. *)
Definition modern_programme (h : V9PHandler) (q : virtqueue) (lo hi ok noff st : Z)
    : list (ExtCall * Z) :=
  let r o := u32 (common_cfg_base h + o) in
  let w8 o v := (MmioW8 (r o) v, 0) in
  let w16 o v := (MmioW16 (r o) v, 0) in
  let w32 o v := (MmioW32 (r o) v, 0) in
  [(MmioR8 (r 0x14), st); w8 0x14 15; (MmioR16 (r 0x1E), noff); w16 0x1C 1;
   w32 0x34 0; w32 0x30 (used_phys q); w32 0x2C 0; w32 0x28 (avail_phys q);
   w32 0x24 0; w32 0x20 (dma_phys q); (MmioR16 (r 0x18), num q); w16 0x16 0;
   (MmioR8 (r 0x14), ok); w8 0x14 11;
   w32 0x0C (Z.land hi 1); w32 0x08 1; w32 0x0C (Z.land lo 1); w32 0x08 0;
   (MmioR32 (r 0x04), hi); w32 0x00 1; (MmioR32 (r 0x04), lo); w32 0x00 0;
   w8 0x14 3; w8 0x14 1].

Definition legacy_programme (h : V9PHandler) (q : virtqueue) (features isr st : Z)
    : list (ExtCall * Z) :=
  let r o := u32 (iobase h + o) in
  [(InByte (r 0x12), st); (OutByte (r 0x12) 7, 0); (OutLong (r 0x08) (dma_phys q / 4096), 0);
   (InWord (r 0x0C), num q); (OutWord (r 0x0E) 0, 0);
   (OutLong (r 0x04) (Z.land features 1), 0); (InLong (r 0x00), features);
   (OutByte (r 0x12) 3, 0); (OutByte (r 0x12) 1, 0); (InByte (r 0x13), isr)].

(** The whole handshake with the device: the status register is set to 0 and read
    until it is 0, a thousand times at most; then the programme, with the
    addresses of the queue, which is mapped at [dma_phys] by exec.  FEATURES_OK
    was accepted, and the queue is notified at its own address. *)
Definition handshake (h : V9PHandler) (q : virtqueue) (new : list (ExtCall * Z)) : Prop :=
  (GetDMAPhys (desc_ptr q) (mem_size q) [DMA_ReadFromRAM], dma_phys q) ∈ new /\
  exists polls,
    if modern_mode h then
      let status := u32 (common_cfg_base h + 0x14) in
      polled (MmioR8 status) 1000 polls /\
      exists lo hi ok noff st, Z.testbit ok 3 = true /\
        accesses new = modern_programme h q lo hi ok noff st ++ polls ++ [(MmioW8 status 0, 0)] /\
        notify_addr q = u32 (notify_cfg_base h + u32 (noff * notify_off_mult h))
    else
      let status := u32 (iobase h + 0x12) in
      polled (InByte status) 1000 polls /\
      exists features isr st,
        accesses new = legacy_programme h q features isr st ++ polls ++ [(OutByte status 0, 0)].

Lemma vq_ready_legacy n q phys avp usp no ki :
  vq_fresh 0 n q ->
  vq_ready false (set_transport phys 1 avp usp no false false ki false
    (vr16 false VRING_AVAIL_F_NO_INTERRUPT) q).
Proof.
  intros (Hr & Hn & Hi & _ & _ & _ & _ & _ & Ho & Hu & Hl). unfold vq_ready.
  split_and!; try done. apply rep_set_transport. cbn. by rewrite Hn.
Qed.

(** The modern path computes the offset of the used ring again. *)
Lemma used_offset_eq n :
  Z.land (u32 (u32 (u32 (16 * n) + u32 (2 * (3 + n))) + 4095)) 0xFFFFF000 =
  vring_used_offset n.
Proof.
  unfold vring_used_offset, align_up, vring_desc_size, vring_avail_size.
  set (x := u32 (u32 (16 * n) + u32 (2 * (3 + n)))). clearbody x. f_equal.
  unfold VIRTIO_PCI_VRING_ALIGN, u32. rewrite Zminus_mod_idemp_l. f_equal. lia.
Qed.

Lemma vq_ready_modern n q phys no ki :
  vq_fresh 0 n q ->
  vq_ready true (set_transport phys 1 (u32 (phys + u32 (16 * n)))
    (u32 (phys + Z.land (u32 (u32 (u32 (16 * n) + u32 (2 * (3 + n))) + 4095)) 0xFFFFF000))
    no true false ki false (vr16 true VRING_AVAIL_F_NO_INTERRUPT) q).
Proof.
  intros (Hr & Hn & Hi & _ & _ & _ & _ & _ & Ho & Hu & Hl). unfold vq_ready.
  split_and!; try done.
  - apply rep_set_transport. cbn. by rewrite Hn.
  - intros _. rewrite used_offset_eq. cbn. rewrite Hn. done.
Qed.

(** What [V9P_InitVirtIO] leaves behind. *)
Definition init_post s (ok : bool) (s' : Sys E Core) : Prop :=
  if ok then
    exists q, core s' = on_hnd (set_vq (Some q)) (core s) /\
      vq_ready (modern_mode (hnd (core s))) q /\
      balanced (sys_log s) (sys_log s') [] (RDma (desc_ptr q) :: vq_blocks q) /\
      (exists new, sys_log s' = new ++ sys_log s /\ handshake (hnd (core s)) q new)
  else core s' = core s /\ balanced (sys_log s) (sys_log s') [] [].

Lemma InitVirtIO_legacy_wp s :
  modern_mode (hnd (core s)) = false -> wp False V9P_InitVirtIO (init_post s) s.
Proof.
  intros Hm. unfold V9P_InitVirtIO. wp_sys. rewrite Hm.
  case_cmp; [wp_sys; split; [done|apply balanced_refl]|].
  case_cmp; [wp_sys; split; [done|apply balanced_refl]|]. wp_sys.
  apply poll_status_wp; [done|]. intros rst polls s1 Hc1 Hp1 Hl1 Ha1 Hz1.
  cbn [core sys_log] in Hc1, Hp1, Hl1. pose proof (balanced_reads _ _ [] Hl1) as Hb1.
  assert (Hb1' : balanced (sys_log s) (sys_log s1) [] []).
  { eapply balanced_trans; [|exact Hb1]. balance. }
  case_cmp; simpl negb; cbv iota; wp_sys.
  2: { split; [done|]. cbn [sys_log]. balance. }
  case_cmp; wp_sys; [split; [done|]; cbn [sys_log]; balance|].
  cbn [ext_norm] in *.
  match goal with |- context [VirtQueue_Allocate 0 ?q] =>
    match goal with Hq : u16 q = q |- _ => pose proof (u16_range q); rewrite Hq in * end end.
  apply queue_wp; [lia| |].
  - intros s2 Hc2 Hl2 Hb2. cbn [core sys_log] in *. split; [congruence|].
    eapply balanced_trans; [|exact Hb2]. balance.
  - intros q phys s2 Hc2 Hl2 Hf Hp Hg Hb2. cbn [core sys_log] in *. wp_sys.
    eexists. cbn [core sys_log set_core]. split; [by rewrite Hc2, Hc1|].
    rewrite Hm. split; [by eapply vq_ready_legacy|]. split.
    + assert (Hb2' : balanced (sys_log s) (sys_log s2) [] (RDma (desc_ptr q) :: vq_blocks q)).
      { eapply balanced_trans; [|exact Hb2]. balance. }
      balance.
    + destruct Hg as (m & Hm2 & Hma & Hin). rewrite Hm2, Hp1. eexists (_ :: _ :: _ :: m ++ _ :: _ :: _
        :: _ :: _ :: _ :: _ :: polls ++ [_]).
      split; [do 2 (cbn [app]; rewrite <- app_assoc); reflexivity|]. split.
      { cbn. set_solver. }
      exists polls. rewrite Hm. split; [by apply Hz1|]. do 3 eexists.
      unfold accesses in *. cbn [omap list_omap reg_access fst]. rewrite omap_app, Hma.
      cbn [app omap list_omap reg_access fst]. rewrite omap_app, Ha1. unfold legacy_programme.
      cbn [app num dma_phys set_transport]. rewrite (proj1 (proj2 Hf)). reflexivity.
Qed.

Lemma cond_ext_wp H (b : bool) c s (Q : Z -> Sys E Core -> Prop) :
  config_call c = true ->
  (forall r s', core s' = core s -> extends config_call (sys_log s) (sys_log s') -> Q r s') ->
  wp H (if b then ext c else mret 0) Q s.
Proof.
  intros Hc HQ. destruct b; wp_sys; apply HQ; try done; cbn [sys_log].
  - by apply extends_cons, extends_refl.
  - apply extends_refl.
Qed.

Lemma land_8_testbit x : Z.land x 8 <> 0 -> Z.testbit x 3 = true.
Proof.
  intros Hx. destruct (Z.testbit x 3) eqn:Hb; [done|]. destruct Hx.
  apply Z.bits_inj'. intros n Hn. rewrite Z.bits_0, Z.land_spec. change 8 with (2 ^ 3).
  rewrite Z.pow2_bits_eqb by lia. destruct (Z.eqb_spec 3 n) as [<-|]; [by rewrite Hb|apply andb_false_r].
Qed.

Lemma InitVirtIO_modern_wp s :
  modern_mode (hnd (core s)) = true -> wp False V9P_InitVirtIO (init_post s) s.
Proof.
  intros Hm. unfold V9P_InitVirtIO. wp_sys. rewrite Hm.
  case_cmp; [wp_sys; split; [done|apply balanced_refl]|].
  unfold V9P_InitVirtIO_Modern. wp_sys.
  apply cond_ext_wp; [done|]. intros _ sa Hca Hla. wp_sys.
  apply cond_ext_wp; [done|]. intros _ s0 Hc0 Hl0. cbn [core sys_log] in *.
  assert (Hl : extends config_call (sys_log s) (sys_log s0)).
  { eapply extends_trans; [|exact Hl0]. apply extends_cons; [done|].
    eapply extends_trans; [|exact Hla]. quiet. }
  assert (Hb0 : balanced (sys_log s) (sys_log s0) [] [])
    by (apply balanced_reads; revert Hl; apply extends_impl; by intros []).
  assert (Hc : core s0 = core s) by congruence. clear sa Hca Hla Hl0 Hc0.
  destruct Hl as (cfg & Hcfg & Hcf).
  assert (Hc0 : accesses cfg = []) by (apply (accesses_config []); exists cfg; by rewrite app_nil_r).
  wp_sys. apply poll_status_wp; [done|]. intros rst polls s1 Hc1 Hp1 Hl1 Ha1 Hz1.
  cbn [core sys_log] in Hc1, Hp1, Hl1. pose proof (balanced_reads _ _ [] Hl1) as Hb1.
  assert (Hb1' : balanced (sys_log s) (sys_log s1) [] []).
  { eapply balanced_trans; [|exact Hb1]. balance. }
  rewrite Hc in *. clear Hb1 Hl1.
  case_cmp; simpl negb; cbv iota; wp_sys.
  2: { split; [done|]. cbn [sys_log]. balance. }
  case_cmp; wp_sys; [split; [done|]; cbn [sys_log]; balance|].
  case_cmp; wp_sys; [split; [done|]; cbn [sys_log]; balance|].
  cbn [ext_norm] in *.
  match goal with |- context [VirtQueue_Allocate 0 ?q] =>
    match goal with Hq : u16 q = q |- _ => pose proof (u16_range q); rewrite Hq in * end end.
  apply queue_wp; [lia| |].
  - intros s2 Hc2 Hl2 Hb2. cbn [core sys_log] in *. split; [congruence|].
    eapply balanced_trans; [|exact Hb2]. balance.
  - intros q phys s2 Hc2 Hl2 Hf Hp Hg Hb2. cbn [core sys_log] in *.
    assert (Hb2' : balanced (sys_log s) (sys_log s2) [] (RDma (desc_ptr q) :: vq_blocks q)).
    { eapply balanced_trans; [|exact Hb2]. balance. }
    clear Hb2 Hl2. wp_sys.
    eexists. cbn [core sys_log set_core]. split; [by rewrite Hc2, Hc1|].
    rewrite Hm. split; [by eapply vq_ready_modern|]. split; [balance|].
    destruct Hg as (m & Hm2 & Hma & Hin). rewrite Hm2, Hp1, Hcfg.
    eexists (_ :: _ :: _ :: _ :: _ :: _ :: _ :: _ :: _ :: _ :: m ++ _ :: _ :: _ :: _ :: _ :: _ :: _
      :: _ :: _ :: _ :: _ :: _ :: _ :: _ :: polls ++ _ :: cfg).
    split; [do 2 (cbn [app]; rewrite <- app_assoc); reflexivity|]. split.
    { cbn. set_solver. }
    exists polls. rewrite Hm. split; [by apply Hz1|]. do 5 eexists. split; [by apply land_8_testbit|].
    unfold accesses in *. cbn [omap list_omap reg_access fst]. rewrite omap_app, Hma.
    cbn [app omap list_omap reg_access fst]. rewrite omap_app, Ha1. cbn [omap list_omap reg_access fst].
    rewrite Hc0. unfold modern_programme.
    cbn [app num dma_phys avail_phys used_phys notify_addr set_transport].
    rewrite (proj1 (proj2 Hf)). split; [reflexivity|].
    destruct (Z.eqb_spec (notify_off_mult (hnd (core s))) 0) as [->|]; [|done].
    by rewrite Z.mul_0_r.
Qed.

Lemma InitVirtIO_wp s : wp False V9P_InitVirtIO (init_post s) s.
Proof.
  destruct (modern_mode (hnd (core s))) eqn:Hm;
    [by apply InitVirtIO_modern_wp|by apply InitVirtIO_legacy_wp].
Qed.

(** ** Teardown *)

Definition reset_write (h : V9PHandler) : list ExtCall :=
  if pciDevice h =? 0 then []
  else if modern_mode h && negb (common_cfg_base h =? 0)
  then [MmioW8 (u32 (common_cfg_base h + VIRTIO_PCI_COMMON_STATUS)) 0]
  else if negb (bar0 h =? 0) then [OutByte (u32 (iobase h + VIRTIO_PCI_STATUS)) 0]
  else [].

Lemma CleanupVirtIO_wp s :
  (forall q, vq (hnd (core s)) = Some q -> vq_owned q /\ (0 < dma_entries q -> desc_ptr q <> 0)) ->
  wp False V9P_CleanupVirtIO (fun _ s' =>
    core s' = on_hnd (set_vq None) (core s) /\
    (exists mid, calls mid = reset_write (hnd (core s)) /\
       extends mem_call (mid ++ sys_log s) (sys_log s')) /\
    balanced (sys_log s) (sys_log s')
      (match vq (hnd (core s)) with Some q => vq_res q | None => [] end) []) s.
Proof.
  intros Hq. unfold V9P_CleanupVirtIO. wp_sys.
  assert (Hreset : forall Q : Z -> Sys E Core -> Prop,
    (forall r s', core s' = core s ->
       (exists mid, sys_log s' = mid ++ sys_log s /\
          calls mid = reset_write (hnd (core s))) ->
       (forall xs, balanced (sys_log s) (sys_log s') xs xs) -> Q r s') ->
    wp False (if pciDevice (hnd (core s)) =? 0 then mret 0
       else if modern_mode (hnd (core s)) && negb (common_cfg_base (hnd (core s)) =? 0)
       then ext (MmioW8 (u32 (common_cfg_base (hnd (core s)) + VIRTIO_PCI_COMMON_STATUS)) 0)
       else if negb (bar0 (hnd (core s)) =? 0)
       then ext (OutByte (u32 (iobase (hnd (core s)) + VIRTIO_PCI_STATUS)) 0)
       else mret 0) Q s).
  { intros Q HQ. unfold reset_write in HQ.
    destruct (pciDevice _ =? 0); [wp_sys; apply HQ; [done|by exists []|apply balanced_refl]|].
    destruct (modern_mode _ && _); [wp_sys|].
    { apply HQ; [done|eexists [_]; split; reflexivity|]. intros. cbn [sys_log]. balance. }
    destruct (negb _); wp_sys; [apply HQ; [done|eexists [_]; split; reflexivity|]|].
    { intros. cbn [sys_log]. balance. }
    apply HQ; [done|by exists []|apply balanced_refl]. }
  apply Hreset. intros r s1 Hc1 (mid & Hl1 & Hm) Hb1.
  destruct (vq (hnd (core s))) as [q|] eqn:Hvq.
  - destruct (Hq q eq_refl) as [Ho Hd]. wp_step.
    eapply wp_mono; [by apply Free_wp|]. intros _ s2 (Hc2 & Hl2 & Hb2). wp_sys.
    cbn [core set_core sys_log]. split_and!; [by rewrite Hc2, Hc1| |].
    + exists mid. rewrite <- Hl1. done.
    + eapply balanced_trans; [apply Hb1|done].
  - wp_sys. split_and!; [| |apply Hb1].
    + rewrite Hc1. destruct (core s) as [[]]. cbn in *. by subst.
    + exists mid. split; [done|]. rewrite Hl1. apply extends_refl.
Qed.

(** ** The mount tag *)

Lemma read_tag_bytes_wp H mk n i s (Q : unit -> Sys E Core -> Prop) :
  length (mount_tag (hnd (core s))) = 33%nat -> 0 <= i -> i + Z.of_nat n <= 32 ->
  (forall t s', length t = 33%nat -> core s' = on_hnd (set_mount_tag t) (core s) ->
     Q tt s') ->
  wp H (read_tag_bytes mk n i) Q s.
Proof.
  revert i s. induction n as [|n IH]; intros i s Hl Hi Hn HQ; cbn [read_tag_bytes]; wp_sys.
  - apply (HQ (mount_tag (hnd (core s)))); [done|]. by destruct s as [? ? [[]]].
  - rewrite setb_Some by (cbn [core]; rewrite Hl; lia).
    eapply wp_lift; [done|]. wp_sys. apply IH; cbn.
    + by rewrite length_insert.
    + lia.
    + lia.
    + intros t s' Ht Hs'. by apply (HQ t).
Qed.

Definition printable (c : Z) : Prop := 0x20 <= c <= 0x7E.

Lemma cut_tag_spec n i tag :
  0 <= i -> getb tag (i + Z.of_nat n) = Some 0 ->
  exists tag' k, cut_tag n i tag = Some tag' /\ length tag' = length tag /\
    i <= k <= i + Z.of_nat n /\ getb tag' k = Some 0 /\
    (forall j, j < i -> getb tag' j = getb tag j) /\
    (forall j, i <= j < k -> exists c, getb tag' j = Some c /\ printable c).
Proof.
  revert i. induction n as [|n IH]; intros i Hi Hz.
  { exists tag, i. rewrite Z.add_0_r in Hz. split_and!; try done; lia. }
  pose proof (getb_Some_range _ _ _ Hz) as Hr. cbn [cut_tag].
  destruct (getb_is_Some tag i) as [ch Hch]; [lia|]. rewrite Hch. cbn [mbind option_bind].
  destruct ((ch =? 0) || (ch <? 0x20) || (0x7E <? ch)) eqn:Hp.
  - rewrite setb_blit. destruct (blit tag i [0]) as [t|] eqn:Hb;
      [|rewrite blit_Some in Hb by (simpl; lia); done].
    exists t, i. split_and!; try lia; [done|by eapply blit_length| |].
    + rewrite (getb_blit _ _ _ _ _ Hb). simpl length.
      destruct (Z.leb_spec i i), (Z.ltb_spec i (i + Z.of_nat 1)); try lia.
      by rewrite Z.sub_diag.
    + intros j Hj. rewrite (getb_blit_ne _ _ _ _ _ Hb); [done|lia].
  - destruct (IH (i + 1)) as (t & k & -> & Hl & Hk & Hk0 & Hpre & Hin); [lia| |].
    { rewrite <- Hz. f_equal. lia. }
    exists t, k. split_and!; try lia; [done|done| |].
    + intros j Hj. apply Hpre. lia.
    + intros j Hj. destruct (decide (j = i)) as [->|]; [|apply Hin; lia].
      exists ch. rewrite Hpre by lia. split; [done|]. unfold printable.
      apply orb_false_elim in Hp as [[_ H1%Z.ltb_ge]%orb_false_elim H2%Z.ltb_ge]. lia.
Qed.

(** A mount tag array that holds a printable string of at most 32 bytes. *)
Definition tag_ok (tag : list Z) : Prop :=
  length tag = 33%nat /\ exists k, 0 <= k <= 32 /\ getb tag k = Some 0 /\
    forall j, 0 <= j < k -> exists c, getb tag j = Some c /\ printable c.

Lemma finish_tag t n :
  length t = 33%nat -> 0 <= n <= 32 ->
  exists t1 t2, setb t n 0 = Some t1 /\ cut_tag (Z.to_nat n) 0 t1 = Some t2 /\ tag_ok t2.
Proof.
  intros Hl Hn. rewrite setb_blit.
  destruct (blit t n [0]) as [t1|] eqn:Hb; [|rewrite blit_Some in Hb by (simpl; lia); done].
  destruct (cut_tag_spec (Z.to_nat n) 0 t1) as (t2 & k & Hc & Hl2 & Hk & Hk0 & _ & Hin).
  { lia. }
  { rewrite (getb_blit _ _ _ _ _ Hb). simpl length. rewrite Z.add_0_l, Z2Nat.id by lia.
    destruct (Z.leb_spec n n), (Z.ltb_spec n (n + Z.of_nat 1)); try lia.
    by rewrite Z.sub_diag. }
  exists t1, t2. apply blit_length in Hb. split_and!; [done|done|]. split; [lia|].
  exists k. split_and!; [lia|lia|done|]. intros j Hj. apply Hin. lia.
Qed.

(** The end of [V9P_ReadMountTag] after [n] bytes were stored. *)
Lemma tag_end_wp s n t s1 :
  0 <= n <= 32 -> length t = 33%nat -> core s1 = on_hnd (set_mount_tag t) (core s) ->
  wp False (tag ← read (fun c => mount_tag (hnd c));
    tag ← lift (setb tag n 0);
    tag ← lift (cut_tag (Z.to_nat n) 0 tag);
    write (on_hnd (set_mount_tag tag))) (fun _ s' => exists t, tag_ok t /\
      core s' = on_hnd (set_mount_tag t) (core s)) s1.
Proof.
  intros Hn Ht Hc. destruct (finish_tag t n Ht Hn) as (t1 & t2 & H1 & H2 & H3).
  wp_sys. rewrite Hc. cbn [on_hnd set_hnd hnd set_mount_tag mount_tag].
  eapply wp_lift; [exact H1|]. wp_sys. eapply wp_lift; [exact H2|]. wp_sys.
  exists t2. split; [done|]. cbn [set_core core]. by rewrite Hc.
Qed.

Lemma clamp_tag_range n : 0 <= n -> 0 <= clamp_tag_len n <= 32.
Proof. unfold clamp_tag_len. case_cmp; lia. Qed.

(** On any device the reading ends with a good tag, unless the generation
    never settles. *)
Lemma read_tag_modern_wp k s :
  length (mount_tag (hnd (core s))) = 33%nat ->
  wp True (read_tag_modern k) (fun n s' => 0 <= n <= 32 /\ exists t, length t = 33%nat /\
    core s' = on_hnd (set_mount_tag t) (core s)) s.
Proof.
  revert s. induction k as [|k IH]; intros s Hl; [done|]. cbn [read_tag_modern].
  wp_step. apply wp_read. wp_step. wp_ext. wp_step. apply wp_ext. intros ? n Hn.
  cbn [ext_norm] in Hn. pose proof (clamp_tag_range n ltac:(pose proof (u16_range n); lia)).
  wp_step. apply read_tag_bytes_wp; [done|lia|lia|]. intros t s1 Ht Hs1. cbn [core] in Hs1.
  wp_step. wp_ext. case_cmp; cbn [negb]; [apply wp_ret; eauto|].
  eapply wp_mono; [apply IH; cbn [core]; by rewrite Hs1|].
  intros m s2 (Hm & t2 & Ht2 & Hs2). split; [done|]. exists t2. split; [done|].
  by rewrite Hs2; cbn [core]; rewrite Hs1.
Qed.

Lemma ReadMountTag_any `{!Fuel} s :
  length (mount_tag (hnd (core s))) = 33%nat ->
  wp True V9P_ReadMountTag (fun _ s' => exists t, tag_ok t /\
    core s' = on_hnd (set_mount_tag t) (core s)) s.
Proof.
  intros Hl. unfold V9P_ReadMountTag. wp_step. apply wp_read. wp_step.
  destruct (modern_mode (hnd (core s))).
  - eapply wp_mono; [by apply read_tag_modern_wp|]. intros n s1 (Hn & t & Ht & Hs1).
    eapply (wp_hang True _ _ False); [done|]. by apply (tag_end_wp s n t).
  - wp_step. apply wp_ext. intros e n Hn. cbn [ext_norm] in Hn.
    pose proof (clamp_tag_range n ltac:(pose proof (u16_range n); lia)).
    wp_step. apply read_tag_bytes_wp; [done|lia|lia|]. intros t s1 Ht Hs1. apply wp_ret.
    eapply (wp_hang True _ _ False); [done|]. by apply (tag_end_wp s _ t).
Qed.
End correct.

(** ** The claims *)

Section claims.
Context {E : Type} `{EnvI : !Env E DevView}.
Implicit Types s : Sys E Core.

(** C25: [V9P_InitVirtIO], legacy or modern, always ends without a fault.  If it
    succeeds, the handler has a queue with all descriptors free in the byte
    order of the mode, interrupts are declined, and the accesses to the device
    are exactly the prescribed ones, each at the address of its register
    ([handshake]): reset and wait, ACKNOWLEDGE, DRIVER, of the offered features
    the mount tag (and version 1 on a modern device), FEATURES_OK and its check
    on a modern device, queue 0 with the number of descriptors that the device
    reported and the addresses of the mapped vring in its layout, DRIVER_OK; a
    modern queue is notified at its own address.  If it fails, the handler is
    unchanged and everything that was allocated or mapped has been released. *)
Theorem V9P_InitVirtIO_correct (s : Sys E Core) :
  exists ok s', V9P_InitVirtIO s = Done (ok, s') /\
    if ok : bool then
      exists q, core s' = on_hnd (set_vq (Some q)) (core s) /\
        vq_ready (modern_mode (hnd (core s))) q /\
        balanced (sys_log s) (sys_log s') [] (RDma (desc_ptr q) :: vq_blocks q) /\
        (exists new, sys_log s' = new ++ sys_log s /\ handshake (hnd (core s)) q new)
    else core s' = core s /\ balanced (sys_log s) (sys_log s') [] [].
Proof. apply wp_total, InitVirtIO_wp. Qed.

(** C26: [V9P_CleanupVirtIO] resets the device before it touches any memory,
    then unmaps and frees everything the queue owns, once, and clears the
    pointer to it; without a queue it only resets the device. *)
Theorem V9P_CleanupVirtIO_correct (s : Sys E Core)
    (Hq : forall q, vq (hnd (core s)) = Some q ->
            vq_owned q /\ (0 < dma_entries q -> desc_ptr q <> 0)) :
  exists s', V9P_CleanupVirtIO s = Done (tt, s') /\
    core s' = on_hnd (set_vq None) (core s) /\
    (exists mid, calls mid = reset_write (hnd (core s)) /\
       extends mem_call (mid ++ sys_log s) (sys_log s')) /\
    balanced (sys_log s) (sys_log s')
      (match vq (hnd (core s)) with Some q => vq_res q | None => [] end) [].
Proof.
  destruct (wp_total _ _ _ (CleanupVirtIO_wp s Hq)) as ([] & s' & Hrun & Hpost). eauto.
Qed.

(** [V9P_ReadMountTag] on a legacy device stays inside the 33-byte array
    whatever length the device reports, and leaves a terminated string of at
    most 32 printable characters; on a modern device it does so as soon as
    the configuration generation is stable. *)
Lemma V9P_ReadMountTag_correct `{!Fuel} (s : Sys E Core) (g : Z)
    (Hl : length (mount_tag (hnd (core s))) = 33%nat)
    (Hgen : modern_mode (hnd (core s)) = true -> (0 < fuel)%nat /\
       forall e, (env_call e (MmioR8 (u32 (common_cfg_base (hnd (core s)) +
                              VIRTIO_PCI_COMMON_CFGGEN)))).2 = g) :
  exists s' t, V9P_ReadMountTag s = Done (tt, s') /\ tag_ok t /\
    core s' = on_hnd (set_mount_tag t) (core s).
Proof.
  enough (Hwp : wp False V9P_ReadMountTag (fun _ s' => exists t, tag_ok t /\
    core s' = on_hnd (set_mount_tag t) (core s)) s).
  { destruct (wp_total _ _ _ Hwp) as ([] & s' & Hrun & t & Ht & Hc). eauto 6. }
  unfold V9P_ReadMountTag. wp_step. apply wp_read. cbv beta. wp_step.
  destruct (modern_mode (hnd (core s))) eqn:Hm.
  - destruct (Hgen eq_refl) as [Hf Hg]. destruct fuel as [|k]; [lia|]. cbn [read_tag_modern].
    wp_step. apply wp_read. wp_step. apply (wp_ext_val _ _ g); [apply Hg|]. intros e1. wp_sys.
    cbn [ext_norm] in *. match goal with Hr : u16 ?r = ?r |- _ =>
      pose proof (clamp_tag_range r ltac:(pose proof (u16_range r); lia)) end.
    apply read_tag_bytes_wp; [done|lia|lia|]. intros t s1 Ht Hs1. wp_step.
    apply (wp_ext_val _ _ g); [apply Hg|]. intros e2. cbn [ext_norm]. rewrite Z.eqb_refl.
    simpl negb. cbv iota. wp_step. by apply (tag_end_wp s _ t).
  - wp_sys. cbn [ext_norm] in *. match goal with Hr : u16 ?r = ?r |- _ =>
      pose proof (clamp_tag_range r ltac:(pose proof (u16_range r); lia)) end.
    apply read_tag_bytes_wp; [done|lia|lia|]. intros t s1 Ht Hs1. wp_step.
    by apply (tag_end_wp s _ t).
Qed.
End claims.

#[local] Existing Instance script_env.

(** A queue owning four blocks, mapped. *)
Definition owned_vq : virtqueue :=
  mkVirtqueue 0x300 0x1000 0x400 0x500 0 1 [mkDesc 0 0 0 0] (mkAvail 1 0 [0; 0])
    (mkUsed 0 0 [mkElem 0 0]) 0 1 0 [0] 0xF00 0x1020 0x8000 1 0 0 0 false false 0xFFFF false [0].

Definition legacy_core (h : V9PHandler) : Core := mkCore h [] [] [] [] [] [] 0.

Lemma V9P_CleanupVirtIO_correct_witness :
  exists s', V9P_CleanupVirtIO
    (mkSys (E := list Z) [] [] (legacy_core (set_vq (Some owned_vq) handler_zero)))
    = Done (tt, s').
Proof.
  destruct (V9P_CleanupVirtIO_correct
    (mkSys (E := list Z) [] [] (legacy_core (set_vq (Some owned_vq) handler_zero))))
    as (s' & H & _).
  - intros q [= <-]. split; [|done]. repeat constructor; discriminate.
  - exists s'. exact H.
Defined.
