(* ===== verification/CacheDma.v ===== *)
(** * CacheDma: the cache operations make DMA buffers coherent

    [cache_flush] and [cache_invalidate] of src/p9_client.c visit the 32-byte
    lines from the one that contains the first byte to the one that contains
    the last.  Here: they cover every byte of the range, whatever the alignment
    of the buffer, so that after a flush the device sees the CPU's bytes and
    after an invalidation the CPU sees the device's. *)

From S2P Require Import Prelude Platform FidPool VirtQueue Handler.

(** ** The lines that are visited *)

Lemma land_lnot_31 a : 0 <= a -> Z.land a (Z.lnot (CACHE_LINE - 1)) = a - a mod 32.
Proof.
  intros Ha. change (CACHE_LINE - 1) with (Z.ones 5).
  rewrite <- Z.ldiff_land, Z.ldiff_ones_r by lia.
  rewrite Z.shiftr_div_pow2, Z.shiftl_mul_pow2 by lia. change (2 ^ 5) with 32.
  pose proof (Z.div_mod a 32 ltac:(lia)). lia.
Qed.

Lemma line_loop_covers fuel p e x :
  0 <= p -> p mod 32 = 0 -> e + 32 <= 2 ^ 32 -> p <= x < e ->
  (e - p) / 32 < Z.of_nat fuel -> x - x mod 32 ∈ line_loop fuel p e.
Proof.
  revert p. induction fuel as [|fuel IH]; intros p Hp Hal He Hx Hf.
  { pose proof (Z.div_pos (e - p) 32 ltac:(lia) ltac:(lia)). lia. }
  cbn [line_loop]. destruct (Z.ltb_spec p e); [|lia].
  destruct (decide (x < p + 32)) as [Hin|Hout].
  - apply list_elem_of_In. left.
    pose proof (Z.div_mod p 32 ltac:(lia)). pose proof (Z.div_mod x 32 ltac:(lia)).
    pose proof (Z.mod_pos_bound x 32 ltac:(lia)). lia.
  - apply list_elem_of_In. right. apply list_elem_of_In.
    unfold CACHE_LINE. rewrite u32_small by lia. apply IH; try lia.
    + replace (p + 32) with (p + 1 * 32) by lia. by rewrite Z_mod_plus_full.
    + replace (e - (p + 32)) with (e - p + (-1) * 32) by lia.
      rewrite Z.div_add by lia. lia.
Qed.

Lemma cache_lines_cover addr len x :
  0 <= addr -> addr + len + 32 <= 2 ^ 32 -> addr <= x < addr + len ->
  exists p, p ∈ cache_lines addr len /\ p <= x < p + CACHE_LINE.
Proof.
  intros Ha He Hx. exists (x - x mod 32).
  pose proof (Z.mod_pos_bound x 32 ltac:(lia)). split; [|unfold CACHE_LINE; lia].
  unfold cache_lines. rewrite land_lnot_31, u32_small by lia.
  pose proof (Z.mod_pos_bound addr 32 ltac:(lia)).
  pose proof (Z.div_mod addr 32 ltac:(lia)). apply line_loop_covers; try lia.
  - replace (addr - addr mod 32) with (addr / 32 * 32) by lia. apply Z_mod_mult.
  - pose proof (Z.div_pos len 32 ltac:(lia) ltac:(lia)). unfold CACHE_LINE.
    replace (addr + len - (addr - addr mod 32)) with (len + addr mod 32) by lia.
    assert ((len + addr mod 32) / 32 < len / 32 + 2); [|lia].
    apply Z.div_lt_upper_bound; [lia|]. pose proof (Z.div_mod len 32 ltac:(lia)).
    pose proof (Z.mod_pos_bound len 32 ltac:(lia)). lia.
Qed.

(** ** The bytes that are copied *)

Definition covered (addr : Z) (ps : list Z) (i : nat) : Prop :=
  exists p, p ∈ ps /\ p <= addr + Z.of_nat i < p + CACHE_LINE.

Lemma copy_line_lookup addr src dst p i :
  length src = length dst ->
  copy_line addr src dst p !! i =
    if (p <=? addr + Z.of_nat i) && (addr + Z.of_nat i <? p + CACHE_LINE)
    then src !! i else dst !! i.
Proof.
  intros Hl. unfold copy_line. rewrite list_lookup_imap.
  destruct (dst !! i) as [d|] eqn:Hd.
  - simpl. destruct (_ && _); [|done]. rewrite nth_lookup.
    destruct (src !! i) eqn:Hs; [done|]. apply lookup_ge_None in Hs.
    apply lookup_lt_Some in Hd. lia.
  - simpl. destruct (_ && _); [|done]. symmetry. apply lookup_ge_None.
    apply lookup_ge_None in Hd. lia.
Qed.

Lemma copy_lines_lookup addr src ps dst i :
  length src = length dst ->
  (covered addr ps i -> copy_lines addr src dst ps !! i = src !! i) /\
  ((forall p, p ∈ ps -> ~ p <= addr + Z.of_nat i < p + CACHE_LINE) ->
     copy_lines addr src dst ps !! i = dst !! i).
Proof.
  unfold copy_lines. revert dst. induction ps as [|p ps IH]; intros dst Hl; simpl.
  { split; [|done]. intros (p & Hp & _). by apply list.not_elem_of_nil in Hp. }
  assert (Hl1 : length src = length (copy_line addr src dst p))
    by (unfold copy_line; by rewrite length_imap).
  destruct (IH _ Hl1) as [IH1 IH2].
  pose proof (copy_line_lookup addr src dst p i Hl) as Hline.
  destruct (Z.leb_spec p (addr + Z.of_nat i)), (Z.ltb_spec (addr + Z.of_nat i) (p + CACHE_LINE));
    simpl in Hline.
  1: { split; [|intros Hno; exfalso; apply (Hno p); [set_solver|done]].
       intros _. destruct (decide (Exists (fun q => q <= addr + Z.of_nat i < q + CACHE_LINE) ps))
         as [Hex|Hnex].
       - apply IH1. apply Exists_exists in Hex as (q & Hq%list_elem_of_In & Hqr). by exists q.
       - rewrite IH2; [done|]. intros q Hq Hqr. apply Hnex, Exists_exists.
         exists q. split; [by apply list_elem_of_In|done]. }
  all: split; [intros (q & [->|Hq]%elem_of_cons & Hqr); [lia|]; apply IH1; by exists q
              |intros Hno; rewrite IH2; [done|]; intros q Hq; apply Hno; set_solver].
Qed.

(** A copy of all lines of the first [len] bytes brings these bytes over. *)
Lemma copy_lines_prefix addr src dst len :
  0 <= addr -> 0 <= len -> addr + len + 32 <= 2 ^ 32 -> length src = length dst ->
  take (Z.to_nat len) (copy_lines addr src dst (cache_lines addr len)) =
  take (Z.to_nat len) src.
Proof.
  intros Ha Hlen Hb Hl. apply list_eq. intros i.
  destruct (decide (i < Z.to_nat len)%nat) as [Hi|Hi].
  - rewrite !lookup_take_lt by lia. apply copy_lines_lookup; [done|].
    destruct (cache_lines_cover addr len (addr + Z.of_nat i)) as (p & Hp & Hr); [lia..|].
    by exists p.
  - rewrite !lookup_take_ge by lia. done.
Qed.

Section coherent.
Context {E : Type} `{EnvI : !Env E DevView}.
Implicit Types s : Sys E Core.

(** A buffer at [addr] whose lines for [len] bytes do not wrap around. *)
Definition dma_range (addr len : Z) : Prop := 0 <= addr /\ 0 <= len /\ addr + len + 32 <= 2 ^ 32.

(** The first [n] bytes of rx_buf, as the CPU reads them, are those in RAM. *)
Definition rx_fresh (n : Z) (c : Core) : Prop :=
  take (Z.to_nat n) (rx c) = take (Z.to_nat n) (rx_ram c).

Lemma invalidate_fresh n s s' :
  cache_invalidate_rx n s = Done (tt, s') ->
  dma_range (rx_buf (hnd (core s))) n -> length (rx_ram (core s)) = length (rx (core s)) ->
  rx_fresh n (core s').
Proof.
  intros Hrun (? & ? & ?) Hl. revert Hrun. unfold cache_invalidate_rx, dev_run, mbind, M_bind.
  destruct (env_device _ _) as [e ef]. intros [= <-]. unfold rx_fresh.
  cbn [core set_core write modify rx rx_ram set_rx].
  assert (Hh : rx_buf (hnd (apply_effect ef (core s))) = rx_buf (hnd (core s))).
  { unfold apply_effect. cbn. by destruct (vq (hnd (core s))). }
  assert (Hr : rx (apply_effect ef (core s)) = rx (core s)).
  { unfold apply_effect. cbn. by destruct (vq (hnd (core s))). }
  assert (Hm : length (rx_ram (apply_effect ef (core s))) = length (rx_ram (core s))).
  { unfold apply_effect. cbn. destruct (vq (hnd (core s))); cbn;
      generalize (rx_ram (core s)); induction (ef_rx ef) as [|x xs IH]; intros b; try done;
      simpl; rewrite IH; unfold dev_rx; destruct (blit _ _ _) eqn:Hb; simpl; try done;
      by eapply blit_length. }
  rewrite Hh. apply copy_lines_prefix; [lia|lia|lia|]. by rewrite Hm, Hr.
Qed.

(** C34: after [cache_flush] on the first [n] bytes of tx_buf or flush_buf, RAM,
    and so the device, has the bytes the CPU wrote, for every alignment of
    the buffer; after [cache_invalidate] on the first [n] bytes of rx_buf the
    CPU reads what is in RAM. *)
Theorem cache_coherent (n : Z) (s : Sys E Core)
    (Htx : dma_range (tx_buf (hnd (core s))) n) (Hrx : dma_range (rx_buf (hnd (core s))) n)
    (Hfl : dma_range (flush_buf (hnd (core s))) n)
    (Ltx : length (tx (core s)) = length (tx_ram (core s)))
    (Lrx : length (rx_ram (core s)) = length (rx (core s)))
    (Lfl : length (fl (core s)) = length (fl_ram (core s))) :
  (exists s', cache_flush_tx n s = Done (tt, s') /\
     take (Z.to_nat n) (tx_ram (core s')) = take (Z.to_nat n) (tx (core s)) /\
     tx (core s') = tx (core s)) /\
  (exists s', cache_flush_fl n s = Done (tt, s') /\
     take (Z.to_nat n) (fl_ram (core s')) = take (Z.to_nat n) (fl (core s)) /\
     fl (core s') = fl (core s)) /\
  (exists s', cache_invalidate_rx n s = Done (tt, s') /\
     take (Z.to_nat n) (rx (core s')) = take (Z.to_nat n) (rx_ram (core s'))).
Proof.
  destruct Htx as (? & ? & ?), Hfl as (? & _ & ?). split_and!.
  - eexists. split; [done|]. split; [|done]. cbn. by apply copy_lines_prefix.
  - eexists. split; [done|]. split; [|done]. cbn. by apply copy_lines_prefix.
  - assert (Hrun : exists s', cache_invalidate_rx n s = Done (tt, s')).
    { unfold cache_invalidate_rx, dev_run, mbind, M_bind. destruct (env_device _ _). by eexists. }
    destruct Hrun as [s' Hrun]. exists s'. split; [done|]. by eapply invalidate_fresh.
Qed.
End coherent.

#[local] Existing Instance script_env.

(** Buffers of four bytes at address 0. *)
Definition small_core : Core :=
  mkCore handler_zero [1; 2; 3; 4] [0; 0; 0; 0] [0; 0; 0; 0] [5; 6; 7; 8] [9; 9; 9; 9]
    [0; 0; 0; 0] 0.

Lemma cache_coherent_witness :
  exists s', cache_flush_tx 3 (mkSys (E := list Z) [] [] small_core) = Done (tt, s') /\
    take 3 (tx_ram (core s')) = [1; 2; 3].
Proof.
  destruct (cache_coherent 3 (mkSys (E := list Z) [] [] small_core))
    as ((s' & H1 & H2 & _) & _ & _); [unfold dma_range; cbn; lia..|done|done|done|].
  exists s'. split; [exact H1|exact H2].
Defined.
