(* ===== verification/Transact.v ===== *)
(** * Transact: one 9P exchange over the virtqueue, and the transport reset

    Models V9P_Transact (src/p9_client.c) and V9P_Reset
    (src/virtio/virtio_init.c).  The two call each other: V9P_Transact
    escalates to V9P_Reset when a timed-out request cannot be flushed, and
    V9P_Reset redoes Tversion and Tattach through V9P_Transact, guarded by the
    flag [in_reset].  [V9P_Transact_gen] is V9P_Transact with the reset as a
    parameter; [V9P_Transact] ties the knot at depth two, and [transact_knot]
    proves that this is the recursive program.

    The poll loops run until a response arrives or a deadline of the time base
    passes; [fuel] bounds the iterations of the model, and
    Exchange.v gives a bound that is enough for every clock that advances. *)

From S2P Require Import Prelude Platform CString Marshal FidPool VirtQueue Handler P9Client P9Correct VirtioInit CacheDma.

Definition V9P_TRANSACT_TIMEOUT_SEC : Z := 10.
Definition V9P_TRANSACT_CLOCK_CHECK_MASK : Z := 0xFFF.

Section transact.
Context {E : Type} `{EnvI : !Env E DevView} `{FuelI : !Fuel}.
Abbreviation M := (M (Sys E Core)).

(** ** The queue behind handler->vq; a NULL pointer is a fault *)

Definition the_vq : M virtqueue :=
  oq ← read (fun c => vq (hnd c));
  lift oq.

Definition vq_addbuf (sg : list vring_sg) (cookie : Z) : M Z :=
  q ← the_vq;
  '(q, rc) ← lift (VirtQueue_AddBuf q sg 1 1 cookie);
  _ ← write (on_hnd (set_vq (Some q)));
  mret rc.

Definition vq_kick : M unit :=
  q ← the_vq;
  io ← read (fun c => iobase (hnd c));
  VirtQueue_Kick q io.

(** The device may complete requests before the used ring is read. *)
Definition vq_getbuf : M (Z * option Z) :=
  _ ← dev_run;
  q ← the_vq;
  '(q, cookie, len) ← VirtQueue_GetBuf q;
  _ ← write (on_hnd (set_vq (Some q)));
  mret (cookie, len).

(** [cookie] was returned with [written] bytes: is this the response? *)
Definition accept (expected_tag written : Z) : M bool :=
  _ ← cache_invalidate_rx 32;
  m ← read (fun c => msize (hnd c));
  if (7 <=? written) && (written <=? m) then
    b ← read rx;
    b0 ← lift (getb b 0); b1 ← lift (getb b 1); b2 ← lift (getb b 2);
    b3 ← lift (getb b 3); b5 ← lift (getb b 5); b6 ← lift (getb b 6);
    let got_tag := Z.lor b5 (Z.shiftl b6 8) in
    let got_size := Z.lor (Z.lor (Z.lor b0 (Z.shiftl b1 8)) (Z.shiftl b2 16))
                          (Z.shiftl b3 24) in
    mret ((got_tag =? expected_tag) && (got_size =? written))
  else mret false.

(** The poll loop: [Some written] for the response, [None] on timeout. *)
Fixpoint poll_loop (k : nat) (expected_tag deadline_tb written poll_count : Z)
    : M (option Z) :=
  match k with
  | O => hang
  | S k =>
      '(ret_cookie, len) ← vq_getbuf;
      let written := default written len in
      ok ← (if ret_cookie =? 0 then mret false else accept expected_tag written);
      if ok : bool then mret (Some written)
      else
        let written := if ret_cookie =? 0 then written else 0 in
        let poll_count := u32 (poll_count + 1) in
        if Z.land poll_count V9P_TRANSACT_CLOCK_CHECK_MASK =? 0 then
          tb ← v9p_read_tb;
          if deadline_tb <=? tb then mret None
          else poll_loop k expected_tag deadline_tb written poll_count
        else poll_loop k expected_tag deadline_tb written poll_count
  end.

(** Draining: [true] when a chain came back before the deadline. *)
Fixpoint drain_loop (k : nat) (drain_deadline drain_polls : Z) : M bool :=
  match k with
  | O => hang
  | S k =>
      '(ret_cookie, _) ← vq_getbuf;
      if negb (ret_cookie =? 0) then mret true
      else
        let drain_polls := u32 (drain_polls + 1) in
        if Z.land drain_polls V9P_TRANSACT_CLOCK_CHECK_MASK =? 0 then
          tb ← v9p_read_tb;
          if drain_deadline <=? tb then mret false
          else drain_loop k drain_deadline drain_polls
        else drain_loop k drain_deadline drain_polls
  end.

(** [v9p_read_tb() + (uint64)v9p_tb_freq_hz() * sec] *)
Definition deadline (sec : Z) : M Z :=
  tb ← v9p_read_tb;
  freq ← v9p_tb_freq_hz;
  mret (u64 (tb + u64 (freq * sec))).

(** [for (drain = 0; drain < 2; drain++)], with the number drained so far. *)
Fixpoint drain (n : nat) (drained : Z) : M Z :=
  match n with
  | O => mret drained
  | S n =>
      d ← deadline 2;
      got ← drain_loop fuel d 0;
      if got : bool then drain n (drained + 1) else mret drained
  end.

(** The Tflush in its own buffer. *)
Definition build_flush (stalled_tag : Z) : M Z :=
  tag ← p9_next_tag;
  b ← read fl;
  '(b, off) ← lift (p9_put_header b P9_TFLUSH tag);
  '(b, off) ← lift (p9_put_u16 b off stalled_tag);
  b ← lift (p9_finalize b off);
  _ ← write (set_fl b);
  mret off.

(** The timeout path up to the decision to reset: the number of chains that
    came back. *)
Definition flush_request (stalled_tag : Z) : M Z :=
  flush_off ← build_flush stalled_tag;
  _ ← cache_flush_fl flush_off;
  h ← read hnd;
  rc ← vq_addbuf [mkSg (flush_phys h) flush_off; mkSg (rx_phys h) (msize h)] (flush_buf h);
  if 0 <=? rc then _ ← vq_kick; drain 2 0 else mret 0.

Section gen.
Context (V9P_Reset : M bool).

Definition V9P_Transact_gen (tx_size : Z) : M Z :=
  b ← read tx;
  b5 ← lift (getb b 5);
  b6 ← lift (getb b 6);
  let expected_tag := Z.lor b5 (Z.shiftl b6 8) in
  _ ← cache_flush_tx tx_size;
  h ← read hnd;
  rc ← vq_addbuf [mkSg (tx_phys h) tx_size; mkSg (rx_phys h) (msize h)] (tx_buf h);
  if rc <? 0 then mret 0
  else
    _ ← vq_kick;
    deadline_tb ← deadline V9P_TRANSACT_TIMEOUT_SEC;
    r ← poll_loop fuel expected_tag deadline_tb 0 0;
    match r with
    | Some written => _ ← cache_invalidate_rx written; mret written
    | None =>
        drained ← flush_request expected_tag;
        busy ← read (fun c => in_reset (hnd c));
        _ ← (if (drained <? 2) && negb busy then V9P_Reset else mret false);
        mret 0
    end.
End gen.

(** ** V9P_Reset, with the transport used for the handshake *)

(** The 9P handshake after the device is up again. *)
Definition rehandshake (transact : Z -> M Z) : M bool :=
  _ ← write (on_hnd (set_next_tag 1));
  err ← P9_Version transact;
  if negb (err =? 0) then mret false
  else
    root ← read (fun c => root_fid (hnd c));
    err ← P9_Attach transact root;
    if negb (err =? 0) then mret false
    else
      pool ← read (fun c => fid_pool (hnd c));
      match pool with
      | None => mret true
      | Some _ =>
          _ ← FidPool_Destroy pool;
          p ← FidPool_Create;
          _ ← write (on_hnd (set_fid_pool p));
          mret (match p with Some _ => true | None => false end)
      end.

Definition V9P_Reset_gen (transact : Z -> M Z) : M bool :=
  busy ← read (fun c => in_reset (hnd c));
  if busy : bool then mret false
  else
    _ ← write (on_hnd (set_in_reset true));
    _ ← V9P_CleanupVirtIO;
    up ← V9P_InitVirtIO;
    ok ← (if negb up then mret false else rehandshake transact);
    _ ← write (on_hnd (set_in_reset false));
    mret ok.

(** During a reset no reset is started: the parameter is irrelevant. *)
Definition V9P_Transact_in_reset : Z -> M Z := V9P_Transact_gen fault.
Definition V9P_Reset : M bool := V9P_Reset_gen V9P_Transact_in_reset.
Definition V9P_Transact : Z -> M Z := V9P_Transact_gen V9P_Reset.
End transact.

(** ** What an exchange leaves alone

    Between two points of an exchange without a reset: the T-message, the sizes
    of all buffers and the handler stay, except for its queue and tag counter. *)

Record same_session (c c' : Core) : Prop := {
  ss_tx : tx c' = tx c;
  ss_rx : length (rx c') = length (rx c);
  ss_rx_ram : length (rx_ram c') = length (rx_ram c);
  ss_fl : length (fl c') = length (fl c);
  ss_bytes : Forall is_byte (rx c) -> Forall is_byte (rx_ram c) ->
    Forall is_byte (rx c') /\ Forall is_byte (rx_ram c');
  ss_hnd : exists q t, hnd c' = set_next_tag t (set_vq q (hnd c)) /\
    (is_Some (vq (hnd c)) -> is_Some q);
  ss_tx_ram : length (tx_ram c') = length (tx_ram c);
  ss_tb : 0 <= tb_cached c < 2 ^ 32 -> 0 <= tb_cached c' < 2 ^ 32 }.

Lemma same_session_refl c : same_session c c.
Proof.
  split; try done. exists (vq (hnd c)), (next_tag (hnd c)). split; [|done].
  by destruct c as [[]].
Qed.

Lemma same_session_trans c1 c2 c3 :
  same_session c1 c2 -> same_session c2 c3 -> same_session c1 c3.
Proof.
  intros [T1 R1 M1 F1 B1 (q1 & t1 & H1 & V1) X1 C1] [T2 R2 M2 F2 B2 (q2 & t2 & H2 & V2) X2 C2].
  split; try congruence; [| |auto].
  - intros Hr Hm. destruct (B1 Hr Hm). by apply B2.
  - exists q2, t2. split; [by rewrite H2, H1|]. intros Hv. apply V2. rewrite H1. by apply V1.
Qed.

#[global] Instance same_session_preorder : PreOrder same_session.
Proof. split; [exact same_session_refl|exact same_session_trans]. Qed.

Lemma length_copy_line addr src dst p : length (copy_line addr src dst p) = length dst.
Proof. apply length_imap. Qed.

Lemma length_copy_lines addr src dst ps : length (copy_lines addr src dst ps) = length dst.
Proof.
  unfold copy_lines. revert dst. induction ps as [|p ps IH]; intros dst; [done|].
  simpl. by rewrite IH, length_copy_line.
Qed.

Lemma copy_line_byte addr src dst p :
  Forall is_byte src -> Forall is_byte dst -> Forall is_byte (copy_line addr src dst p).
Proof.
  intros Hs Hd. apply Forall_lookup_2. intros i b Hb. unfold copy_line in Hb.
  rewrite list_lookup_imap in Hb. destruct (dst !! i) as [d|] eqn:Hdi; [|done].
  simpl in Hb. injection Hb as <-. pose proof (Forall_lookup_1 _ _ _ _ Hd Hdi).
  destruct (_ && _); [|done]. rewrite nth_lookup.
  destruct (src !! i) eqn:Hsi; simpl; [exact (Forall_lookup_1 _ _ _ _ Hs Hsi)|done].
Qed.

Lemma copy_lines_byte addr src dst ps :
  Forall is_byte src -> Forall is_byte dst -> Forall is_byte (copy_lines addr src dst ps).
Proof.
  intros Hs. unfold copy_lines. revert dst. induction ps as [|p ps IH]; intros dst Hd; [done|].
  simpl. by apply IH, copy_line_byte.
Qed.

Lemma dev_rx_keeps b xs :
  length (fold_left dev_rx xs b) = length b /\
  (Forall is_byte b -> Forall is_byte (fold_left dev_rx xs b)).
Proof.
  revert b. induction xs as [|x xs IH]; intros b; [done|]. simpl.
  destruct (IH (dev_rx b x)) as [Hl Hb]. unfold dev_rx in *.
  destruct (blit b x.1 (u8 <$> x.2)) as [b'|] eqn:Hx; simpl in *; [|done].
  rewrite Hl. split; [by eapply blit_length|]. intros Hbb. apply Hb.
  eapply blit_byte; [exact Hbb| |exact Hx]. apply Forall_fmap, Forall_true.
  intros v. apply u8_range.
Qed.

Lemma same_session_effect ef c : same_session c (apply_effect ef c).
Proof.
  destruct (dev_rx_keeps (rx_ram c) (ef_rx ef)) as [Hl Hb].
  unfold apply_effect. cbn [set_rx_ram hnd].
  destruct (vq (hnd c)) as [q|] eqn:Hq; (split; cbn; try done; [by auto|]).
  - exists (Some (set_used (dev_idx (fold_left dev_used (ef_used ef) (used q)) (ef_idx ef)) q)),
      (next_tag (hnd c)). split; [|done]. by destruct (hnd c).
  - exists None, (next_tag (hnd c)). split; [|by rewrite ?Hq].
    destruct c as [[]]. cbn in *. by subst.
Qed.

Section keeps.
Context {E : Type} `{EnvI : !Env E DevView}.
Abbreviation M := (M (Sys E Core)).
Implicit Types s : Sys E Core.

Definition keeps {A} (m : M A) : Prop :=
  forall s a s', m s = Done (a, s') -> same_session (core s) (core s').

Lemma keeps_bind {A B} (m : M A) (f : A -> M B) :
  keeps m -> (forall a, keeps (f a)) -> keeps (m ≫= f).
Proof.
  intros Hm Hf s b s'. unfold mbind, M_bind. destruct (m s) as [[a s1]| |] eqn:H1; [|done..].
  intros H2. etransitivity; [by eapply Hm|by eapply Hf].
Qed.

Lemma keeps_ret {A} (a : A) : keeps (mret a).
Proof. intros s b s' [= <- <-]. reflexivity. Qed.
Lemma keeps_fault {A} : keeps (@fault (Sys E Core) A).
Proof. done. Qed.
Lemma keeps_hang {A} : keeps (@hang (Sys E Core) A).
Proof. done. Qed.
Lemma keeps_lift {A} (o : option A) : keeps (lift o).
Proof. destruct o; [apply keeps_ret|apply keeps_fault]. Qed.
Lemma keeps_read {A} (f : Core -> A) : keeps (read f).
Proof. intros s a s' [= <- <-]. reflexivity. Qed.
Lemma keeps_ext c : keeps (ext c).
Proof. intros s r s' H. apply ext_core in H. rewrite H. reflexivity. Qed.
Lemma keeps_write f : (forall c, same_session c (f c)) -> keeps (write f).
Proof. intros Hf s a s' [= <- <-]. apply Hf. Qed.
Lemma keeps_if {A} (b : bool) (m m' : M A) : keeps m -> keeps m' -> keeps (if b then m else m').
Proof. by destruct b. Qed.

Lemma keeps_dev_run : keeps dev_run.
Proof.
  intros s a s'. unfold dev_run. destruct (env_device _ _) as [e ef]. intros [= <- <-].
  apply same_session_effect.
Qed.
End keeps.

Create HintDb keeps.
#[export] Hint Resolve keeps_ret keeps_fault keeps_hang keeps_lift keeps_read keeps_ext
  keeps_dev_run : keeps.

(** Decides [keeps] along the structure of a program, with the lemmas of the
    hint database for its parts. *)
Ltac keeps :=
  repeat first
    [ lazymatch goal with |- forall _, _ => intro end
    | solve [auto 2 with keeps]
    | simple apply keeps_bind
    | simple apply keeps_if
    | lazymatch goal with |- keeps (match ?x with _ => _ end) => destruct x end ].

Lemma same_session_vq q q' c :
  vq (hnd c) = Some q -> same_session c (on_hnd (set_vq (Some q')) c).
Proof.
  intros Hq. split; try done. exists (Some q'), (next_tag (hnd c)). split; [|done].
  by destruct c as [[]].
Qed.

Section pieces.
Context {E : Type} `{EnvI : !Env E DevView} `{FuelI : !Fuel}.
Abbreviation M := (M (Sys E Core)).
Implicit Types s : Sys E Core.

Lemma keeps_next_tag : keeps (E := E) p9_next_tag.
Proof.
  unfold p9_next_tag. keeps. apply keeps_write. intros c. split; try done.
  eexists (vq (hnd c)), _. split; [|done]. by destruct c as [[]].
Qed.

Lemma keeps_cache_flush_tx n : keeps (E := E) (cache_flush_tx n).
Proof.
  apply keeps_write. intros c. split; try done; [apply (same_session_refl c)|].
  apply length_copy_lines.
Qed.

Lemma keeps_cache_flush_fl n : keeps (E := E) (cache_flush_fl n).
Proof. apply keeps_write. intros c. split; try done. apply (same_session_refl c). Qed.

Lemma keeps_cache_invalidate n : keeps (E := E) (cache_invalidate_rx n).
Proof.
  unfold cache_invalidate_rx. keeps. apply keeps_write. intros c. split; try done.
  - apply length_copy_lines.
  - intros Hr Hm. split; [|done]. by apply copy_lines_byte.
  - apply (same_session_refl c).
Qed.

Lemma keeps_read_tb : keeps (E := E) v9p_read_tb.
Proof. unfold v9p_read_tb. induction fuel; cbn [read_tb_loop]; keeps. Qed.

Lemma keeps_tb_freq : keeps (E := E) v9p_tb_freq_hz.
Proof.
  unfold v9p_tb_freq_hz. keeps. apply keeps_write. intros c. split; try done.
  - apply (same_session_refl c).
  - intros _. apply u32_range.
Qed.

Lemma keeps_free_chain k m i d fh n : keeps (E := E) (free_chain_loop k m i d fh n).
Proof. revert i d fh n. induction k; intros; cbn [free_chain_loop]; keeps. Qed.

Lemma keeps_GetBuf q : keeps (E := E) (VirtQueue_GetBuf q).
Proof. unfold VirtQueue_GetBuf. keeps. apply keeps_free_chain. Qed.

Lemma keeps_Kick q io : keeps (E := E) (VirtQueue_Kick q io).
Proof. unfold VirtQueue_Kick. keeps. Qed.

(** A computation on the queue that ends by storing it back. *)
Lemma keeps_on_vq {A} (f : virtqueue -> M A) (g : A -> virtqueue) {B} (r : A -> B) :
  (forall q, keeps (f q)) ->
  keeps (q ← the_vq; a ← f q; _ ← write (on_hnd (set_vq (Some (g a)))); mret (r a)).
Proof.
  intros Hf s b s'. unfold the_vq, read, gets, mbind, M_bind.
  destruct (vq (hnd (core s))) as [q|] eqn:Hq; [|done]. cbn.
  destruct (f q s) as [[a s1]| |] eqn:H1; [|done..]. intros [= <- <-].
  pose proof (Hf q s a s1 H1) as Hs. etransitivity; [exact Hs|].
  destruct (ss_hnd _ _ Hs) as (q1 & t & Hh & Hv). destruct q1 as [q1|].
  2: { destruct Hv as [? ?]; [by rewrite Hq|done]. }
  apply (same_session_vq q1). by rewrite Hh.
Qed.

Lemma keeps_addbuf sg cookie : keeps (E := E) (vq_addbuf sg cookie).
Proof.
  intros s b s' H. eapply (keeps_on_vq (fun q => lift (VirtQueue_AddBuf q sg 1 1 cookie))
    fst snd); [keeps|]. rewrite <- H. unfold vq_addbuf, the_vq, read, gets, mbind, M_bind.
  destruct (vq (hnd (core s))); [|done]. cbn.
  by destruct (VirtQueue_AddBuf _ _ _ _ _) as [[]|].
Qed.

Lemma keeps_getbuf : keeps (E := E) vq_getbuf.
Proof.
  unfold vq_getbuf. apply keeps_bind; [apply keeps_dev_run|]. intros _.
  intros s b s' H. eapply (keeps_on_vq VirtQueue_GetBuf (fun x => x.1.1)
    (fun x => (x.1.2, x.2))); [apply keeps_GetBuf|]. rewrite <- H.
  unfold the_vq, read, gets, mbind, M_bind. destruct (vq (hnd (core s))); [|done]. cbn.
  by destruct (VirtQueue_GetBuf _ _) as [[[[]]]| |].
Qed.
End pieces.

#[export] Hint Resolve keeps_next_tag keeps_cache_flush_tx keeps_cache_flush_fl
  keeps_cache_invalidate keeps_read_tb keeps_tb_freq keeps_free_chain keeps_GetBuf keeps_Kick
  keeps_addbuf keeps_getbuf : keeps.

Section exchange.
Context {E : Type} `{EnvI : !Env E DevView} `{FuelI : !Fuel}.
Abbreviation M := (M (Sys E Core)).
Implicit Types s : Sys E Core.

Lemma keeps_the_vq : keeps (E := E) the_vq.
Proof. unfold the_vq. keeps. Qed.

Lemma keeps_kick : keeps (E := E) vq_kick.
Proof. unfold vq_kick. keeps; apply keeps_the_vq. Qed.

Lemma keeps_accept tag w : keeps (E := E) (accept tag w).
Proof. unfold accept. keeps. Qed.
#[local] Hint Resolve keeps_the_vq keeps_kick keeps_accept : keeps.

Lemma keeps_poll k tag d w n : keeps (E := E) (poll_loop k tag d w n).
Proof. revert w n. induction k; intros; cbn [poll_loop]; keeps. Qed.

Lemma keeps_drain_loop k d n : keeps (E := E) (drain_loop k d n).
Proof. revert n. induction k; intros; cbn [drain_loop]; keeps. Qed.

Lemma keeps_deadline sec : keeps (E := E) (deadline sec).
Proof. unfold deadline. keeps. Qed.
#[local] Hint Resolve keeps_poll keeps_drain_loop keeps_deadline : keeps.

Lemma keeps_drain n k : keeps (E := E) (drain n k).
Proof. revert k. induction n; intros; cbn [drain]; keeps. Qed.
#[local] Hint Resolve keeps_drain : keeps.

Lemma finalize_length b n b' : p9_finalize b n = Some b' -> length b' = length b.
Proof.
  unfold p9_finalize, p9_put_u32. rewrite !setb_blit.
  destruct (blit b 0 _) as [b1|] eqn:H1; [|done]. cbn [mbind option_bind]. rewrite !setb_blit.
  destruct (blit b1 _ _) as [b2|] eqn:H2; [|done]. cbn [mbind option_bind]. rewrite !setb_blit.
  destruct (blit b2 _ _) as [b3|] eqn:H3; [|done]. cbn [mbind option_bind]. rewrite !setb_blit.
  destruct (blit b3 _ _) as [b4|] eqn:H4; [|done]. cbn. intros [= <-].
  by rewrite (blit_length _ _ _ _ H4), (blit_length _ _ _ _ H3), (blit_length _ _ _ _ H2),
    (blit_length _ _ _ _ H1).
Qed.

Lemma setb_length l i v l' : setb l i v = Some l' -> length l' = length l.
Proof. rewrite setb_blit. apply blit_length. Qed.

Lemma put_u16_length b off v b' off' :
  p9_put_u16 b off v = Some (b', off') -> length b' = length b.
Proof.
  unfold p9_put_u16. destruct (setb b _ _) as [b1|] eqn:H1; [|done]. cbn [mbind option_bind].
  destruct (setb b1 _ _) as [b2|] eqn:H2; [|done]. intros [= <- _].
  by rewrite (setb_length _ _ _ _ H2), (setb_length _ _ _ _ H1).
Qed.

Lemma put_header_length b t g b' off' :
  p9_put_header b t g = Some (b', off') -> length b' = length b.
Proof.
  unfold p9_put_header, p9_put_u8. destruct (setb b _ _) as [b1|] eqn:H1; [|done].
  cbn [mbind option_bind]. intros H2%put_u16_length.
  by rewrite H2, (setb_length _ _ _ _ H1).
Qed.

Lemma keeps_build_flush t : keeps (E := E) (build_flush t).
Proof.
  unfold build_flush. apply keeps_bind; [auto with keeps|]. intros tag s a s'.
  unfold read, gets, mbind, M_bind.
  destruct (p9_put_header _ _ _) as [[b1 o1]|] eqn:H1; [|done]. cbn [lift mret M_ret].
  destruct (p9_put_u16 _ _ _) as [[b2 o2]|] eqn:H2; [|done]. cbn [lift mret M_ret].
  destruct (p9_finalize _ _) as [b3|] eqn:H3; [|done]. cbn. intros [= <- <-].
  apply put_header_length in H1. apply put_u16_length in H2. apply finalize_length in H3.
  split; cbn; try done; [congruence|]. apply (same_session_refl (core s)).
Qed.
#[local] Hint Resolve keeps_build_flush : keeps.

Lemma keeps_flush_request t : keeps (E := E) (flush_request t).
Proof. unfold flush_request. keeps. Qed.

(** ** The accepted response *)

(** The header in rx_buf carries the tag and the size. *)
Definition header_ok (tag written : Z) (c : Core) : Prop :=
  7 <= written <= msize (hnd c) /\ rd 2 5 (rx c) = tag /\ rd 4 0 (rx c) = written.

Lemma rd2_bytes b i x y :
  0 <= i -> getb b i = Some x -> getb b (i + 1) = Some y ->
  rd 2 i b = Z.lor x (Z.shiftl y 8).
Proof.
  intros Hi Hx Hy. unfold rd. rewrite (slice_cons b i 2 x) by (done || lia).
  rewrite (slice_cons b (i + 1) (2 - 1) y) by (done || lia). simpl Z.sub.
  rewrite slice_nil. unfold le_val. by rewrite Z.shiftl_0_l, Z.lor_0_r.
Qed.

Lemma rd4_bytes b i b0 b1 b2 b3 :
  0 <= i -> getb b i = Some b0 -> getb b (i + 1) = Some b1 -> getb b (i + 2) = Some b2 ->
  getb b (i + 3) = Some b3 ->
  rd 4 i b = Z.lor (Z.lor (Z.lor b0 (Z.shiftl b1 8)) (Z.shiftl b2 16)) (Z.shiftl b3 24).
Proof.
  intros Hi H0 H1 H2 H3. unfold rd. rewrite (slice_cons b i 4 b0) by (done || lia).
  rewrite (slice_cons b (i + 1) (4 - 1) b1) by (done || lia).
  rewrite (slice_cons b (i + 1 + 1) (4 - 1 - 1) b2) by (first [by rewrite <- Z.add_assoc | lia]).
  rewrite (slice_cons b (i + 1 + 1 + 1) (4 - 1 - 1 - 1) b3)
    by (first [by rewrite <- !Z.add_assoc | lia]).
  by rewrite slice_nil, le_val_4.
Qed.

(** The CPU reads the header as it is in RAM: its lines were invalidated. *)
Definition header_fresh (c : Core) : Prop :=
  dma_range (rx_buf (hnd c)) 32 -> length (rx_ram c) = length (rx c) -> rx_fresh 32 c.

Lemma invalidate_header s s' :
  cache_invalidate_rx 32 s = Done (tt, s') -> header_fresh (core s').
Proof.
  intros Hrun Hd Hl. pose proof (keeps_cache_invalidate _ _ _ _ Hrun) as Hss.
  pose proof (ss_rx _ _ Hss). pose proof (ss_rx_ram _ _ Hss).
  destruct (ss_hnd _ _ Hss) as (q & t & Hh & _). rewrite Hh in Hd.
  eapply invalidate_fresh; [exact Hrun|exact Hd|congruence].
Qed.

Lemma accept_post tag w s s' :
  accept tag w s = Done (true, s') -> header_ok tag w (core s') /\ header_fresh (core s').
Proof.
  unfold accept. unfold mbind at 1, M_bind at 1.
  destruct (cache_invalidate_rx 32 s) as [[[] s1]| |] eqn:Hinv; [|done..].
  apply invalidate_header in Hinv.
  unfold read, gets. unfold mbind at 1, M_bind at 1.
  destruct (Z.leb_spec 7 w), (Z.leb_spec w (msize (hnd (core s1)))); simpl; try done.
  unfold mbind, M_bind.
  destruct (getb (rx (core s1)) 0) as [b0|] eqn:Hb0; [|done].
  destruct (getb (rx (core s1)) 1) as [b1|] eqn:Hb1; [|done].
  destruct (getb (rx (core s1)) 2) as [b2|] eqn:Hb2; [|done].
  destruct (getb (rx (core s1)) 3) as [b3|] eqn:Hb3; [|done].
  destruct (getb (rx (core s1)) 5) as [b5|] eqn:Hb5; [|done].
  destruct (getb (rx (core s1)) 6) as [b6|] eqn:Hb6; [|done].
  cbn. intros [= Hand <-]. apply andb_prop in Hand as [Ht%Z.eqb_eq Hs%Z.eqb_eq].
  split; [|done]. split_and!; try done.
  - rewrite (rd2_bytes _ 5 b5 b6) by done. exact Ht.
  - rewrite (rd4_bytes _ 0 b0 b1 b2 b3) by done. exact Hs.
Qed.

Lemma poll_post k tag d w n s r s' :
  poll_loop k tag d w n s = Done (Some r, s') ->
  header_ok tag r (core s') /\ header_fresh (core s').
Proof.
  revert w n s. induction k as [|k IH]; intros w n s; [done|]. cbn [poll_loop].
  unfold mbind at 1, M_bind at 1. destruct (vq_getbuf s) as [[[ck len] s1]| |]; [|done..].
  cbv zeta. unfold mbind at 1, M_bind at 1.
  assert (Hnext : forall w n s2,
    (if Z.land (u32 (n + 1)) V9P_TRANSACT_CLOCK_CHECK_MASK =? 0 then
       tb ← v9p_read_tb;
       if d <=? tb then mret None else poll_loop k tag d w (u32 (n + 1))
     else poll_loop k tag d w (u32 (n + 1))) s2 = Done (Some r, s') ->
    header_ok tag r (core s') /\ header_fresh (core s')).
  { intros w' n' s2. destruct (_ =? 0); [|apply IH]. unfold mbind, M_bind.
    destruct (v9p_read_tb s2) as [[tb s3]| |]; [|done..].
    destruct (d <=? tb); [done|apply IH]. }
  destruct (ck =? 0); [cbn; apply Hnext|].
  destruct (accept tag _ s1) as [[[] s2]| |] eqn:Ha; [|apply Hnext|done..].
  intros [= <- <-]. by eapply accept_post.
Qed.
End exchange.

#[export] Hint Resolve keeps_the_vq keeps_kick keeps_accept keeps_poll keeps_drain_loop
  keeps_deadline keeps_drain keeps_build_flush keeps_flush_request : keeps.

Lemma same_session_in_reset c c' : same_session c c' -> in_reset (hnd c') = in_reset (hnd c).
Proof. intros [_ _ _ _ _ (q & t & -> & _)]. by destruct (hnd c). Qed.

Lemma same_session_msize c c' : same_session c c' -> msize (hnd c') = msize (hnd c).
Proof. intros [_ _ _ _ _ (q & t & -> & _)]. by destruct (hnd c). Qed.

Section whole.
Context {E : Type} `{EnvI : !Env E DevView} `{FuelI : !Fuel}.
Abbreviation M := (M (Sys E Core)).
Implicit Types s : Sys E Core.

(** V9P_Transact up to the point where it decides about a reset: the number
    of bytes received, or the number of chains drained after a timeout. *)
Inductive attempt := Received (n : Z) | Refused | TimedOut (drained : Z).

Definition try_exchange (tx_size : Z) : M attempt :=
  b ← read tx;
  b5 ← lift (getb b 5);
  b6 ← lift (getb b 6);
  let expected_tag := Z.lor b5 (Z.shiftl b6 8) in
  _ ← cache_flush_tx tx_size;
  h ← read hnd;
  rc ← vq_addbuf [mkSg (tx_phys h) tx_size; mkSg (rx_phys h) (msize h)] (tx_buf h);
  if rc <? 0 then mret Refused
  else
    _ ← vq_kick;
    deadline_tb ← deadline V9P_TRANSACT_TIMEOUT_SEC;
    r ← poll_loop fuel expected_tag deadline_tb 0 0;
    match r with
    | Some written => _ ← cache_invalidate_rx written; mret (Received written)
    | None => drained ← flush_request expected_tag; mret (TimedOut drained)
    end.

Definition settle (reset : M bool) (a : attempt) : M Z :=
  match a with
  | Received n => mret n
  | Refused => mret 0
  | TimedOut drained =>
      busy ← read (fun c => in_reset (hnd c));
      _ ← (if (drained <? 2) && negb busy then reset else mret false);
      mret 0
  end.

Lemma transact_split reset n s :
  V9P_Transact_gen reset n s = (try_exchange n ≫= settle reset) s.
Proof.
  unfold V9P_Transact_gen, try_exchange.
  do 3 (rewrite bind_assoc; apply bind_ext; intros ? ? _). cbv zeta.
  do 3 (rewrite bind_assoc; apply bind_ext; intros ? ? _). destruct (_ <? 0); [done|].
  do 3 (rewrite bind_assoc; apply bind_ext; intros ? ? _).
  match goal with |- (match ?o with _ => _ end) _ = _ => destruct o end;
    by rewrite bind_assoc.
Qed.

Lemma keeps_try n : keeps (E := E) (try_exchange n).
Proof. unfold try_exchange. keeps. Qed.

(** ** Success *)

Lemma try_received n s r s' :
  try_exchange n s = Done (Received r, s') ->
  exists s1, same_session (core s) (core s1) /\
    (header_ok (rd 2 5 (tx (core s))) r (core s1) /\ header_fresh (core s1)) /\
    cache_invalidate_rx r s1 = Done (tt, s').
Proof.
  unfold try_exchange. intros (b & s0 & [-> ->]%read_inv & H)%bind_inv.
  apply bind_inv in H as (b5 & s0 & [H5 ->]%lift_inv & H).
  apply bind_inv in H as (b6 & s0 & [H6 ->]%lift_inv & H). cbv zeta in H.
  apply bind_inv in H as ([] & s1 & H1%keeps_cache_flush_tx & H).
  apply bind_inv in H as (h & s1' & [-> ->]%read_inv & H).
  apply bind_inv in H as (rc & s2 & H2%keeps_addbuf & H).
  destruct (rc <? 0); [done|].
  apply bind_inv in H as ([] & s3 & H3%keeps_kick & H).
  apply bind_inv in H as (d & s4 & H4%keeps_deadline & H).
  apply bind_inv in H as ([w|] & s5 & Hp & H).
  2: { apply bind_inv in H as (dr & s6 & _ & [? _]%ret_inv). done. }
  apply bind_inv in H as ([] & s6 & Hc & [[= ->] ->]%ret_inv).
  exists s5. split; [|split; [|exact Hc]].
  - apply keeps_poll in Hp. by rewrite H1, H2, H3, H4.
  - apply poll_post in Hp. by rewrite (rd2_bytes _ 5 b5 b6).
Qed.
End whole.

(** ** Invariants that are coarser than a session

    Relations that also a reset, or a part of it, respects. *)

Section preserves.
Context {E : Type} `{EnvI : !Env E DevView} (R : relation Core).
Context `{!PreOrder R} `{!subrelation same_session R}.
Abbreviation M := (M (Sys E Core)).

Definition preserves {A} (m : M A) : Prop :=
  forall s a s', m s = Done (a, s') -> R (core s) (core s').

Lemma pres_bind {A B} (m : M A) (f : A -> M B) :
  preserves m -> (forall a, preserves (f a)) -> preserves (m ≫= f).
Proof.
  intros Hm Hf s b s' (a & s1 & H1 & H2)%bind_inv. etransitivity; [by eapply Hm|by eapply Hf].
Qed.
Lemma pres_keeps {A} (m : M A) : keeps m -> preserves m.
Proof. intros Hm s a s' H. apply subrelation0. by eapply Hm. Qed.
Lemma pres_write f : (forall c, R c (f c)) -> preserves (write f).
Proof. intros Hf s a s' [= <- <-]. apply Hf. Qed.
Lemma pres_if {A} (b : bool) (m m' : M A) :
  preserves m -> preserves m' -> preserves (if b then m else m').
Proof. by destruct b. Qed.
End preserves.

Ltac pres_bind :=
  lazymatch goal with |- preserves ?R (mbind ?f ?m) => refine (pres_bind R m f _ _) end.
Ltac pres_keeps := refine (pres_keeps _ _ _); keeps.

(** The guard flag. *)
Definition same_guard (c c' : Core) : Prop := in_reset (hnd c') = in_reset (hnd c).

#[global] Instance same_guard_preorder : PreOrder same_guard.
Proof. unfold same_guard. split; [done|]. intros c1 c2 c3. congruence. Qed.
#[global] Instance same_guard_session : subrelation same_session same_guard.
Proof. intros c c'. apply same_session_in_reset. Qed.

(** The message buffers: their sizes, and that they hold bytes. *)
Record same_bufs (c c' : Core) : Prop := {
  sb_tx : length (tx c') = length (tx c);
  sb_rx : length (rx c') = length (rx c);
  sb_bytes : Forall is_byte (rx c) -> Forall is_byte (rx_ram c) ->
    Forall is_byte (rx c') /\ Forall is_byte (rx_ram c') }.

#[global] Instance same_bufs_preorder : PreOrder same_bufs.
Proof.
  split; [done|]. intros c1 c2 c3 [T1 R1 B1] [T2 R2 B2].
  split; [congruence..|]. intros Hr Hm. destruct (B1 Hr Hm). by apply B2.
Qed.
#[global] Instance same_bufs_session : subrelation same_session same_bufs.
Proof. intros c c' [Ht Hr _ _ Hb _]. split; [by rewrite Ht|done|done]. Qed.

(** ** Tying the knot *)

Section knot.
Context {E : Type} `{EnvI : !Env E DevView} `{FuelI : !Fuel}.
Abbreviation M := (M (Sys E Core)).
Implicit Types s : Sys E Core.

(** A completed run gives the guard flag back as it was. *)
Abbreviation guards := (preserves (E := E) same_guard).

Lemma guards_tx_put f : guards (tx_put f).
Proof.
  unfold tx_put. pres_bind; [pres_keeps|]. intros b.
  pres_bind; [pres_keeps|]. intros [b' off].
  pres_bind; [by apply pres_write|]. intros _. pres_keeps.
Qed.

Lemma guards_finalize n : guards (finalize n).
Proof.
  unfold finalize. pres_bind; [pres_keeps|]. intros b.
  pres_bind; [pres_keeps|]. intros b'. by apply pres_write.
Qed.

Lemma guards_gen reset n : guards reset -> guards (V9P_Transact_gen reset n).
Proof.
  intros Hr s a s'. rewrite transact_split. revert s a s'.
  change (guards (try_exchange n ≫= settle reset)).
  pres_bind; [refine (pres_keeps _ _ (keeps_try n))|].
  intros [w| |d]; cbn [settle]; [pres_keeps..|].
  pres_bind; [pres_keeps|]. intros busy.
  pres_bind; [apply pres_if; [done|pres_keeps]|].
  intros _. pres_keeps.
Qed.

Lemma guards_in_reset n : guards (V9P_Transact_in_reset n).
Proof. by apply guards_gen. Qed.

(** While the guard flag is set, the reset cannot be reached. *)
Lemma gen_irrelevant r r' n s :
  in_reset (hnd (core s)) = true -> V9P_Transact_gen r n s = V9P_Transact_gen r' n s.
Proof.
  intros Hs. rewrite !transact_split. apply bind_ext. intros a s' Ha.
  apply keeps_try, same_session_in_reset in Ha. rewrite Hs in Ha.
  destruct a; cbn [settle]; [done..|]. unfold read, gets, mbind, M_bind. rewrite Ha.
  by rewrite andb_false_r.
Qed.

(** The handshake depends on the transport only under the guard flag. *)
Section handshake.
Context (t1 t2 : Z -> M Z).
Context (Heq : forall n s, in_reset (hnd (core s)) = true -> t1 n s = t2 n s).

Lemma bind_guarded {A B} (m : M A) (f g : A -> M B) s :
  guards m -> in_reset (hnd (core s)) = true ->
  (forall a s', in_reset (hnd (core s')) = true -> f a s' = g a s') ->
  (m ≫= f) s = (m ≫= g) s.
Proof. intros Hm Hs Hf. apply bind_ext. intros a s' Ha. apply Hf. by rewrite (Hm _ _ _ Ha). Qed.

Lemma transport_guarded {B} n (f : Z -> M B) s :
  in_reset (hnd (core s)) = true -> (t1 n ≫= f) s = (t2 n ≫= f) s.
Proof. intros Hs. unfold mbind, M_bind. by rewrite Heq. Qed.

Lemma Version_guarded s :
  in_reset (hnd (core s)) = true -> P9_Version t1 s = P9_Version t2 s.
Proof.
  intros Hs. unfold P9_Version.
  do 3 (apply bind_guarded; [apply guards_tx_put|done|clear s Hs; intros ? s Hs]).
  apply bind_guarded; [apply guards_finalize|done|clear s Hs; intros ? s Hs].
  by apply transport_guarded.
Qed.

Lemma Attach_guarded fid s :
  in_reset (hnd (core s)) = true -> P9_Attach t1 fid s = P9_Attach t2 fid s.
Proof.
  intros Hs. unfold P9_Attach.
  apply bind_guarded; [refine (pres_keeps _ _ keeps_next_tag)|done|clear s Hs; intros ? s Hs].
  do 6 (apply bind_guarded; [apply guards_tx_put|done|clear s Hs; intros ? s Hs]).
  apply bind_guarded; [apply guards_finalize|done|clear s Hs; intros ? s Hs].
  by apply transport_guarded.
Qed.
End handshake.

Lemma guards_Init : guards V9P_InitVirtIO.
Proof.
  intros s ok s' H. pose proof (wp_done _ _ _ _ _ _ H (InitVirtIO_wp s)) as Hp.
  destruct ok; [destruct Hp as (q & -> & _); done|].
  by destruct Hp as [-> _].
Qed.

Lemma guards_Cleanup : guards V9P_CleanupVirtIO.
Proof.
  unfold V9P_CleanupVirtIO. pres_bind; [pres_keeps|]. intros h.
  pres_bind; [pres_keeps|]. intros _.
  destruct (vq h); [|pres_keeps].
  pres_bind; [|intros _; by apply pres_write].
  unfold VirtQueue_Free. pres_keeps.
Qed.

Lemma guards_Version t : (forall n, guards (t n)) -> guards (P9_Version t).
Proof.
  intros Ht. unfold P9_Version.
  do 3 (pres_bind; [apply guards_tx_put|intros ?]).
  pres_bind; [apply guards_finalize|intros _]. pres_bind; [done|intros n].
  apply pres_if; [pres_keeps|].
  unfold check_error, rx_get. repeat (pres_bind; [pres_keeps|intros ?]).
  repeat (apply pres_if; [pres_keeps|]).
  repeat (pres_bind; [pres_keeps|intros ?]).
  destruct _ as [m roff] eqn:?. pres_bind; [by apply pres_write|intros _].
  repeat (pres_bind; [pres_keeps|intros ?]). pres_keeps.
Qed.

Lemma Reset_guarded t1 t2 s :
  (forall n s, in_reset (hnd (core s)) = true -> t1 n s = t2 n s) ->
  (forall n, guards (t2 n)) ->
  V9P_Reset_gen t1 s = V9P_Reset_gen t2 s.
Proof.
  intros Heq Ht. unfold V9P_Reset_gen. apply bind_ext. intros busy s0 [-> ->]%read_inv.
  destruct (in_reset (hnd (core s))) eqn:Hs; [done|].
  apply bind_ext. intros [] s1 Hw.
  assert (Hs1 : in_reset (hnd (core s1)) = true) by (by injection Hw as <-). clear Hw.
  apply bind_guarded; [apply guards_Cleanup|done|]. intros _ s2 Hs2.
  apply bind_guarded; [apply guards_Init|done|]. intros up s3 Hs3.
  apply bind_eq_l. destruct up; [|done]. simpl negb. cbv iota. unfold rehandshake.
  apply bind_guarded; [by apply pres_write|done|]. intros _ s4 Hs4.
  etransitivity; [apply bind_eq_l; by apply (Version_guarded t1 t2)|].
  apply bind_guarded; [by apply guards_Version|done|]. intros err s5 Hs5.
  destruct (negb _); [done|].
  apply bind_guarded; [pres_keeps|done|]. intros root s6 Hs6.
  apply bind_eq_l. by apply Attach_guarded.
Qed.

Lemma Reset_clears t :
  (forall n, guards (t n)) -> guards (V9P_Reset_gen t).
Proof.
  intros Ht s ok s'. unfold V9P_Reset_gen.
  intros (busy & s0 & [-> ->]%read_inv & H)%bind_inv.
  destruct (in_reset (hnd (core s))) eqn:Hs; [by apply ret_inv in H as [_ ->]|].
  apply bind_inv in H as ([] & s1 & _ & H). apply bind_inv in H as ([] & s2 & _ & H).
  apply bind_inv in H as (up & s3 & _ & H). apply bind_inv in H as (ok' & s4 & _ & H).
  apply bind_inv in H as ([] & s5 & Hw & [_ ->]%ret_inv). by injection Hw as <-.
Qed.
End knot.

(** ** Buffers across a reset *)

Section buffers.
Context {E : Type} `{EnvI : !Env E DevView} `{FuelI : !Fuel}.
Abbreviation M := (M (Sys E Core)).
Abbreviation bufs := (preserves (E := E) same_bufs).
Implicit Types s : Sys E Core.

Lemma bufs_gen reset n : bufs reset -> bufs (V9P_Transact_gen reset n).
Proof.
  intros Hr s a s'. rewrite transact_split. revert s a s'.
  change (bufs (try_exchange n ≫= settle reset)).
  pres_bind; [refine (pres_keeps _ _ (keeps_try n))|].
  intros [w| |d]; cbn [settle]; [pres_keeps..|].
  pres_bind; [pres_keeps|]. intros busy.
  pres_bind; [apply pres_if; [done|pres_keeps]|].
  intros _. pres_keeps.
Qed.

Lemma bufs_post t tag m : (forall n, bufs (t n)) -> bufs (post t tag m).
Proof.
  intros Ht s n s'. unfold post. intros (b & s0 & [-> ->]%read_inv & H)%bind_inv.
  apply bind_inv in H as (b & s0 & [Hb ->]%lift_inv & H).
  apply bind_inv in H as ([] & s1 & Hw & H). injection Hw as <-.
  etransitivity; [|by eapply Ht]. split; try done. by apply blit_length in Hb.
Qed.

Lemma bufs_version_tail n : bufs (version_tail n).
Proof.
  unfold version_tail, check_error, rx_get. apply pres_if; [pres_keeps|].
  pres_bind; [pres_keeps|intros err]. apply pres_if; [pres_keeps|]. cbv zeta.
  apply pres_if; [pres_keeps|]. pres_bind; [pres_keeps|intros [m roff]].
  pres_bind; [by apply pres_write|intros _]. pres_keeps.
Qed.

Lemma bufs_Cleanup : bufs V9P_CleanupVirtIO.
Proof.
  unfold V9P_CleanupVirtIO. pres_bind; [pres_keeps|]. intros h.
  pres_bind; [pres_keeps|]. intros _. destruct (vq h); [|pres_keeps].
  pres_bind; [|intros _; by apply pres_write]. unfold VirtQueue_Free. pres_keeps.
Qed.

Lemma bufs_Init : bufs V9P_InitVirtIO.
Proof.
  intros s ok s' H. pose proof (wp_done _ _ _ _ _ _ H (InitVirtIO_wp s)) as Hp.
  destruct ok; [by destruct Hp as (q & -> & _)|by destruct Hp as [-> _]].
Qed.

Lemma bufs_renew :
  bufs (pool ← read (fun c => fid_pool (hnd c));
        match pool with
        | None => mret true
        | Some _ =>
            _ ← FidPool_Destroy pool;
            p ← FidPool_Create;
            _ ← write (on_hnd (set_fid_pool p));
            mret (match p with Some _ => true | None => false end)
        end).
Proof.
  unfold FidPool_Destroy, FidPool_Create, alloc_u32s.
  pres_bind; [pres_keeps|]. intros [pool|]; [|pres_keeps].
  pres_bind; [pres_keeps|]. intros _. pres_bind; [pres_keeps|]. intros p.
  pres_bind; [by apply pres_write|]. intros _. pres_keeps.
Qed.

Lemma bufs_handshake t s ok s' :
  (forall n, bufs (t n)) -> Z.of_nat (length (tx (core s))) = P9_MSIZE ->
  rehandshake t s = Done (ok, s') -> same_bufs (core s) (core s').
Proof.
  intros Ht Htx. unfold rehandshake. intros ([] & s1 & H1 & H)%bind_inv.
  assert (B1 : same_bufs (core s) (core s1)) by (by injection H1 as <-). clear H1.
  apply bind_inv in H as (e & s2 & H2 & H).
  assert (B2 : same_bufs (core s1) (core s2)).
  { rewrite Version_sends in H2 by (by rewrite (sb_tx _ _ B1)). revert H2.
    apply pres_bind; [exact _|by apply bufs_post|apply bufs_version_tail]. }
  etransitivity; [exact B1|]. etransitivity; [exact B2|].
  destruct (negb _); [by apply ret_inv in H as [_ ->]|].
  apply bind_inv in H as (root & s3 & [-> ->]%read_inv & H).
  apply bind_inv in H as (e' & s3 & H3 & H).
  assert (B3 : same_bufs (core s2) (core s3)).
  { rewrite Attach_sends in H3.
    2: { unfold room. rewrite length_frame, (sb_tx _ _ B2), (sb_tx _ _ B1), Htx.
         cbn [t_body]. autorewrite with wire. unfold P9_MSIZE. simpl. lia. }
    revert H3. apply pres_bind; [exact _| |].
    - unfold exchange. pres_bind; [pres_keeps|]. intros tag. by apply bufs_post.
    - intros n. unfold check_error. pres_keeps. }
  etransitivity; [exact B3|]. destruct (negb _); [by apply ret_inv in H as [_ ->]|].
  eapply (bufs_renew s3). exact H.
Qed.

Lemma Reset_bufs s ok s' :
  Z.of_nat (length (tx (core s))) = P9_MSIZE -> V9P_Reset s = Done (ok, s') ->
  same_bufs (core s) (core s').
Proof.
  set (t := V9P_Transact_in_reset (E := E)).
  assert (Ht : forall n, bufs (t n)) by (intros n; by apply bufs_gen).
  intros Htx. unfold V9P_Reset, V9P_Reset_gen. fold t.
  intros (busy & s0 & [-> ->]%read_inv & H)%bind_inv.
  destruct (in_reset (hnd (core s))); [by apply ret_inv in H as [_ ->]|].
  apply bind_inv in H as ([] & s1 & H1 & H).
  assert (B1 : same_bufs (core s) (core s1)) by (by injection H1 as <-). clear H1.
  apply bind_inv in H as ([] & s2 & H2 & H). apply bufs_Cleanup in H2.
  apply bind_inv in H as (up & s3 & H3 & H). apply bufs_Init in H3.
  apply bind_inv in H as (ok' & s4 & H4 & H).
  apply bind_inv in H as ([] & s5 & H5 & [_ ->]%ret_inv).
  assert (B5 : same_bufs (core s4) (core s5)) by (by injection H5 as <-). clear H5.
  rewrite B1, H2, H3, <- B5. clear B5. destruct up; [|by apply ret_inv in H4 as [_ ->]].
  simpl negb in H4. cbv iota in H4. apply (bufs_handshake t) in H4; [done..|].
  rewrite <- Htx. by rewrite (sb_tx _ _ H3), (sb_tx _ _ H2), (sb_tx _ _ B1).
Qed.

Lemma bufs_rx_ok c c' : same_bufs c c' -> rx_ok c -> Forall is_byte (rx_ram c) -> rx_ok c'.
Proof. intros [_ Hr Hb] [Hx Hl] Hm. destruct (Hb Hx Hm). split; [done|]. by rewrite Hr. Qed.
End buffers.

(** ** The claims *)

Section claims.
Context {E : Type} `{EnvI : !Env E DevView} `{FuelI : !Fuel}.
Implicit Types s : Sys E Core.

(** C18: the two mutually recursive C functions: [V9P_Transact] satisfies the
    recursion equation of the source, in which the reset handshake itself
    runs through V9P_Transact.  Every completed exchange or reset leaves the
    guard flag [in_reset] as it found it. *)
Theorem transact_knot (n : Z) (s : Sys E Core) :
  V9P_Transact n s = V9P_Transact_gen (V9P_Reset_gen V9P_Transact) n s /\
  V9P_Reset s = V9P_Reset_gen V9P_Transact s /\
  (forall r s', V9P_Transact n s = Done (r, s') ->
     in_reset (hnd (core s')) = in_reset (hnd (core s))) /\
  (forall ok s', V9P_Reset s = Done (ok, s') ->
     in_reset (hnd (core s')) = in_reset (hnd (core s))).
Proof.
  assert (Hr : forall s, V9P_Reset s = V9P_Reset_gen V9P_Transact s).
  { intros s0. apply Reset_guarded; [|].
    - intros. by apply gen_irrelevant.
    - intros k. apply guards_gen. apply Reset_clears, guards_in_reset. }
  assert (Hg : preserves same_guard V9P_Reset) by apply Reset_clears, guards_in_reset.
  split; [|split; [apply Hr|split; [exact (guards_gen _ _ Hg s)|exact (Hg s)]]].
  unfold V9P_Transact at 1. rewrite !transact_split. apply bind_ext. intros a s1 _.
  destruct a; cbn [settle]; [done..|]. apply bind_ext. intros busy s2 _.
  destruct (_ && _); [|done]. apply bind_eq_l, Hr.
Qed.

(** The header at the start of a buffer depends on its first 32 bytes only. *)
Lemma rd_take_32 k i b :
  0 <= k -> 0 <= i -> i + k <= 32 -> rd k i b = rd k i (take 32 b).
Proof. intros. by apply (rd_prefix k i 32). Qed.

(** C1: when [V9P_Transact] returns a length, there was a state in which the
    response was accepted: the header that the CPU read carried the tag of the
    request in tx_buf and exactly this length, at least 7 and at most [msize];
    the T-message and the handler (queue and tag counter apart) were those of the
    call.  With rx_buf in its DMA range, this header was not a stale one from the
    cache: it is the one in RAM, where the device stores its response.  After it
    only the cache lines of the response are invalidated, and then all bytes of
    the response that the CPU reads are those in RAM. *)
Theorem V9P_Transact_response (n r : Z) (s s' : Sys E Core)
    (Hrun : V9P_Transact n s = Done (r, s')) (Hr : r <> 0) :
  exists s1, same_session (core s) (core s1) /\
    header_ok (rd 2 5 (tx (core s))) r (core s1) /\
    cache_invalidate_rx r s1 = Done (tt, s') /\
    (length (rx_ram (core s)) = length (rx (core s)) ->
       (dma_range (rx_buf (hnd (core s))) 32 ->
          rd 2 5 (rx_ram (core s1)) = rd 2 5 (tx (core s)) /\ rd 4 0 (rx_ram (core s1)) = r) /\
       (dma_range (rx_buf (hnd (core s))) r ->
          take (Z.to_nat r) (rx (core s')) = take (Z.to_nat r) (rx_ram (core s')))).
Proof.
  unfold V9P_Transact in Hrun. rewrite transact_split in Hrun.
  apply bind_inv in Hrun as ([w| |d] & s1 & H1 & H2); cbn [settle] in H2.
  - apply ret_inv in H2 as [-> ->].
    destruct (try_received n _ _ _ H1) as (s2 & Hss & [Hok Hfr] & Hinv). exists s2.
    do 3 (split; [done|]). intros Hl. destruct (ss_hnd _ _ Hss) as (q & t & Hh & _).
    assert (Hb : rx_buf (hnd (core s2)) = rx_buf (hnd (core s))) by by rewrite Hh.
    assert (Hl2 : length (rx_ram (core s2)) = length (rx (core s2)))
      by (rewrite (ss_rx _ _ Hss), (ss_rx_ram _ _ Hss); done).
    split; intros Hd; rewrite <- Hb in Hd.
    + destruct Hok as (_ & <- & <-). pose proof (Hfr Hd Hl2) as Hx. unfold rx_fresh in Hx.
      change (Z.to_nat 32) with 32%nat in Hx.
      rewrite (rd_take_32 2 5 (rx_ram _)), (rd_take_32 4 0 (rx_ram _)), <- Hx by lia.
      by rewrite <- !rd_take_32 by lia.
    + by eapply invalidate_fresh.
  - apply ret_inv in H2 as [-> _]. done.
  - apply bind_inv in H2 as (busy & s2 & _ & H2). apply bind_inv in H2 as (b & s3 & _ & H2).
    apply ret_inv in H2 as [-> _]. done.
Qed.

(** ** The interface for the client calls *)

(** The invariant of a session: buffers of the allocated size, and a message
    size that fits them. *)
Definition session_inv (c : Core) : Prop :=
  Z.of_nat (length (tx c)) = P9_MSIZE /\ rx_ok c /\ Forall is_byte (rx_ram c) /\
  0 <= msize (hnd c) <= Z.of_nat (length (rx c)).

Lemma session_same c c' : session_inv c -> same_session c c' -> session_inv c'.
Proof.
  intros (Ht & [Hb Hl] & Hm & Hs) Hss. pose proof (same_session_msize _ _ Hss) as Hms.
  destruct Hss as [E1 E2 E3 _ EB _]. destruct (EB Hb Hm) as [Hb' Hm'].
  unfold session_inv, rx_ok. by rewrite E1, E2, Hms.
Qed.

Lemma transact_settled n s r s' :
  V9P_Transact n s = Done (r, s') ->
  exists a s1, try_exchange n s = Done (a, s1) /\ settle V9P_Reset a s1 = Done (r, s').
Proof. unfold V9P_Transact. rewrite transact_split. by intros H%bind_inv. Qed.

(** C2: [V9P_Transact] discharges the transport interface against which the
    client calls are verified, so that all theorems on the [P9_*] calls hold
    over the real exchange: a returned length is inside rx_buf, a successful
    exchange keeps the session invariant, and even a reset, whatever it
    renegotiates and whether or not it succeeds, keeps the buffers. *)
Theorem V9P_Transact_transport : Transport V9P_Transact session_inv.
Proof.
  split.
  - intros c b (Ht & Hr) Hl. split; [|exact Hr]. cbn [tx set_tx]. rewrite Hl. exact Ht.
  - intros c t Hc. exact Hc.
  - intros c [Ht _]. exact Ht.
  - intros c (_ & Hr & _). exact Hr.
  - intros n s r s' Hi _ (a & s1 & H1 & H2)%transact_settled.
    pose proof (session_same _ _ Hi (keeps_try _ _ _ _ H1)) as Hi1.
    destruct a as [w| |d]; cbn [settle] in H2.
    + apply ret_inv in H2 as [-> ->].
      destruct (try_received _ _ _ _ H1) as (s2 & Hs2 & ((Hw & _) & _) & Hc).
      apply keeps_cache_invalidate in Hc. rewrite (same_session_msize _ _ Hs2) in Hw.
      rewrite (ss_rx _ _ Hc), (ss_rx _ _ Hs2).
      destruct Hi as (_ & _ & _ & Hm), Hi1 as (? & Hx & ?).
      split_and!; [apply Hx..|lia|lia|]. intros _. by split.
    + apply ret_inv in H2 as [-> ->]. split_and!; [apply Hi1..|lia|lia|done].
    + apply bind_inv in H2 as (busy & s2 & [_ ->]%read_inv & H2).
      apply bind_inv in H2 as (b & s3 & H3 & [-> ->]%ret_inv).
      assert (Hb : same_bufs (core s1) (core s3)).
      { destruct (_ && _); [|by apply ret_inv in H3 as [_ ->]].
        eapply Reset_bufs; [apply Hi1|exact H3]. }
      split_and!; [apply (bufs_rx_ok _ _ Hb); apply Hi1..|lia|lia|done].
Qed.

(** ** The flush message *)

Lemma build_flush_run tag s :
  9 <= Z.of_nat (length (fl (core s))) < 2 ^ 32 ->
  exists b, build_flush tag s =
      Done (9, set_core (set_fl b (core (bump_tag s))) (bump_tag s)) /\
    take 9 b = frame 108 (next_tag (hnd (core s))) (w16 tag).
Proof.
  intros Hfl. unfold build_flush. rewrite (bind_done _ _ _ _ _ (next_tag_done s)).
  set (t := next_tag (hnd (core s))). unfold read at 1, gets, mbind at 1, M_bind at 1.
  cbn [core bump_tag set_core on_hnd set_hnd fl].
  rewrite p9_put_header_spec by (unfold fits; autorewrite with wire; simpl; lia).
  destruct (blit (fl (core s)) 4 (le_bytes 1 P9_TFLUSH ++ w16 t)) as [b1|] eqn:E1.
  2: { rewrite blit_Some in E1; [done|lia|]. autorewrite with wire. simpl. lia. }
  pose proof (blit_length _ _ _ _ E1) as L1. cbn [fmap option_fmap option_map lift].
  rewrite bind_ret. autorewrite with wire. change (4 + Z.of_nat (1 + 2)) with 7.
  rewrite p9_put_u16_spec by (unfold fits; lia).
  pose proof (blit_blit _ _ _ (w16 tag) _ E1) as E2. autorewrite with wire in E2.
  change (4 + Z.of_nat (1 + 2)) with 7 in E2. unfold w16 at 1 in E2. rewrite E2.
  rewrite <- app_assoc in E2 |- *.
  destruct (blit (fl (core s)) 4 (le_bytes 1 P9_TFLUSH ++ w16 t ++ w16 tag)) as [b2|] eqn:E3.
  2: { rewrite blit_Some in E3; [done|lia|]. autorewrite with wire. simpl. lia. }
  cbn [fmap option_fmap option_map lift]. rewrite bind_ret.
  pose proof (p9_finalize_spec _ _ _ _ _ E3) as Hf. rewrite length_w16 in Hf.
  change (7 + Z.of_nat 2) with 9 in Hf. change (7 + 2) with 9.
  rewrite Hf by lia. change P9_TFLUSH with 108.
  destruct (blit (fl (core s)) 0 (frame 108 t (w16 tag))) as [b3|] eqn:E4.
  2: { rewrite blit_Some in E4; [done|lia|]. autorewrite with wire. simpl. lia. }
  exists b3. split; [done|].
  pose proof (take_blit_snoc _ _ _ _ E4) as Ht. by autorewrite with wire in Ht.
Qed.

(** On a timeout the Tflush for the stalled tag is built in its own buffer:
    a complete frame with a fresh tag; tx_buf, which the device may still be
    reading, is not touched. *)
Lemma build_flush_frame (tag : Z) (s : Sys E Core)
    (Hfl : 9 <= Z.of_nat (length (fl (core s))) < 2 ^ 32) :
  exists s', build_flush tag s = Done (9, s') /\
    take 9 (fl (core s')) = frame 108 (next_tag (hnd (core s))) (w16 tag) /\
    tx (core s') = tx (core s) /\ tx_ram (core s') = tx_ram (core s).
Proof.
  destruct (build_flush_run tag s Hfl) as (b & -> & Hb). by eexists.
Qed.

(** ** After a reset that fails *)

Lemma Cleanup_null s s' : V9P_CleanupVirtIO s = Done (tt, s') -> vq (hnd (core s')) = None.
Proof.
  unfold V9P_CleanupVirtIO. intros (h & s0 & [-> ->]%read_inv & H)%bind_inv.
  apply bind_inv in H as (r & s1 & H1 & H).
  assert (Hc : core s1 = core s).
  { destruct (_ =? 0); [by apply ret_inv in H1 as [_ ->]|].
    destruct (_ && _); [by apply ext_core in H1|].
    destruct (negb _); [by apply ext_core in H1|by apply ret_inv in H1 as [_ ->]]. }
  destruct (vq (hnd (core s))) as [q|] eqn:Hq.
  - apply bind_inv in H as (u & s2 & _ & H). by injection H as <-.
  - apply ret_inv in H as [_ ->]. by rewrite Hc.
Qed.

Lemma Transact_null reset n s : vq (hnd (core s)) = None -> V9P_Transact_gen reset n s = Fault.
Proof.
  intros Hq. unfold V9P_Transact_gen.
  etransitivity; [apply bind_done; reflexivity|]. cbv beta.
  unfold mbind at 1, M_bind at 1.
  destruct (getb (tx (core s)) 5) as [b5|]; [|done]. cbn [lift mret M_ret].
  unfold mbind at 1, M_bind at 1.
  destruct (getb (tx (core s)) 6) as [b6|]; [|done]. cbn [lift mret M_ret]. cbv zeta.
  etransitivity; [apply bind_done; reflexivity|]. cbv beta.
  etransitivity; [apply bind_done; reflexivity|]. cbv beta.
  unfold mbind at 1, M_bind at 1, vq_addbuf, the_vq, read, gets, mbind, M_bind.
  cbn. by rewrite Hq.
Qed.

(** C35: when the device cannot be brought up again, [V9P_Reset] returns FALSE
    with a NULL queue pointer in the handler; the next exchange dereferences
    it. *)
Theorem V9P_Reset_failure_faults (s s1 s2 : Sys E Core)
    (Hs : in_reset (hnd (core s)) = false)
    (Hclean : V9P_CleanupVirtIO (set_core (on_hnd (set_in_reset true) (core s)) s)
              = Done (tt, s1))
    (Hinit : V9P_InitVirtIO s1 = Done (false, s2)) :
  exists s', V9P_Reset s = Done (false, s') /\ vq (hnd (core s')) = None /\
    forall n, V9P_Transact n s' = Fault.
Proof.
  pose proof (Cleanup_null _ _ Hclean) as Hq.
  pose proof (wp_done _ _ _ _ _ _ Hinit (InitVirtIO_wp s1)) as [Hc _].
  assert (Hrun : V9P_Reset s =
    Done (false, set_core (on_hnd (set_in_reset false) (core s2)) s2)).
  { unfold V9P_Reset, V9P_Reset_gen.
    etransitivity; [apply bind_done; reflexivity|]. cbv beta. rewrite Hs.
    etransitivity; [apply bind_done; reflexivity|]. cbv beta.
    etransitivity; [apply bind_done; exact Hclean|]. cbv beta.
    etransitivity; [apply bind_done; exact Hinit|]. done. }
  exists (set_core (on_hnd (set_in_reset false) (core s2)) s2). split; [exact Hrun|].
  assert (Hnull : vq (hnd (core (set_core (on_hnd (set_in_reset false) (core s2)) s2))) = None).
  { cbn. by rewrite Hc. }
  split; [exact Hnull|]. intros n. by apply Transact_null.
Qed.
End claims.

(** ** Concrete instances *)

#[local] Existing Instance script_env.
#[local] Instance no_fuel : Fuel := 0%nat.

Lemma V9P_Reset_failure_faults_witness :
  exists s', V9P_Reset (mkSys (E := list Z) [] []
      (mkCore handler_zero [1; 2] [] [] [] [] [] 0)) = Done (false, s') /\
    V9P_Transact 7 s' = Fault.
Proof.
  destruct (V9P_Reset_failure_faults
    (mkSys (E := list Z) [] [] (mkCore handler_zero [1; 2] [] [] [] [] [] 0))
    (mkSys (E := list Z) [] [] (mkCore (set_in_reset true handler_zero) [1; 2] [] [] [] [] [] 0))
    (mkSys (E := list Z) [] [] (mkCore (set_in_reset true handler_zero) [1; 2] [] [] [] [] [] 0)))
    as (s' & H1 & _ & H2); [reflexivity|reflexivity|reflexivity|].
  exists s'. split; [exact H1|apply H2].
Defined.

(** A server that answers each request with an Rlerror (ENOENT) as soon as it
    looks at the ring, on a queue of four descriptors in legacy mode. *)
Definition server_env : Env unit DevView :=
  mkEnv unit DevView
    (fun e c => (e, match c with GetTimeBaseSpeed => 1000 | _ => 0 end))
    (fun e v => (e,
       match dv_vq v with
       | Some q =>
           let i := us_idx (used q) in
           if i =? av_idx (avail q) then no_effect
           else mkDevEffect
             [(i mod num q, nth (Z.to_nat (i mod num q)) (av_ring (avail q)) 0, 11)]
             (Some (i + 1)) [(0, [11; 0; 0; 0; 7] ++ slice (dv_tx v) 5 2 ++ [2; 0; 0; 0])]
       | None => no_effect
       end))
    0xDEADBEEF 72 4 0x80000000.

Definition small_vq : virtqueue :=
  mkVirtqueue 0x100 0x1000 0x200 0x300 0 4
    [mkDesc 0 0 0 1; mkDesc 0 0 0 2; mkDesc 0 0 0 3; mkDesc 0 0 0 4]
    (mkAvail 1 0 [0; 0; 0; 0; 0]) (mkUsed 0 0 (replicate 4 (mkElem 0 0)))
    0 4 0 [0; 0; 0; 0] 0x400 0x2000 0x1000 1 0 0 0 false false 0 false [0; 0; 0; 0].

(** Buffers of 64 bytes at 0x10000, 0x20000 and 0x30000; a Tclunk in tx_buf. *)
Definition small_core : Core :=
  mkCore
    (mkV9PHandler 1 1 0 0x8000 false 0 0 0 0 0 (Some small_vq) 0 false 64 0 None 6
       0x10000 0x20000 0x10000 0x20000 0x30000 0x30000 true true true false [])
    ([11; 0; 0; 0; 120; 5; 0; 9; 0; 0; 0] ++ replicate 53 0) (replicate 64 0)
    (replicate 64 0) (replicate 64 0) (replicate 64 0) (replicate 64 0) 0.

Lemma V9P_Transact_response_witness :
  exists s' : Sys unit Core,
    V9P_Transact (EnvI := server_env) (FuelI := 1%nat) 11 (mkSys tt [] small_core)
      = Done (11, s') /\
    exists s1 : Sys unit Core, same_session small_core (core s1) /\ header_ok 5 11 (core s1) /\
      rd 2 5 (rx_ram (core s1)) = 5 /\ rd 4 0 (rx_ram (core s1)) = 11 /\
      take 11 (rx (core s')) = take 11 (rx_ram (core s')).
Proof.
  set (run := V9P_Transact (EnvI := server_env) (FuelI := 1%nat) 11 (mkSys tt [] small_core)).
  assert (Hrun : run = Done (11, match run with Done (_, s) => s | _ => mkSys tt [] small_core end)).
  { vm_compute. reflexivity. }
  set (s' := match run with Done (_, s) => s | _ => _ end) in Hrun. exists s'.
  split; [exact Hrun|].
  destruct (V9P_Transact_response (EnvI := server_env) (FuelI := 1%nat) 11 11
    (mkSys tt [] small_core) s') as (s1 & H1 & H2 & _ & Hfresh); [exact Hrun|discriminate|].
  destruct (Hfresh eq_refl) as [Hh Hp].
  destruct Hh as [H3 H4]; [unfold dma_range; cbn; lia|].
  exists s1. split; [exact H1|]. split; [exact H2|]. split; [exact H3|]. split; [exact H4|].
  apply Hp. unfold dma_range. cbn. lia.
Defined.
