(* ===== verification/Clock.v ===== *)
(** * Clock: the PowerPC time base

    v9p_read_tb of src/p9_client.c reads the 64-bit time base in two halves and
    retries when the upper half changed in between.  [Clock] states what the
    hardware documents: a 64-bit counter that only grows, that advances with
    every read of its lower half, and that does not run through an eighth of its
    lower half during one read of a half (other calls may take any time).  The
    model does not look past the overflow of the whole counter, centuries after
    power-on: the clock stands still there.
    The timeouts of the exchange are proved against this interface. *)

From S2P Require Import Prelude Platform Handler.

Class Clock (E : Type) `{EnvI : !Env E DevView} := {
  now : E -> Z;
  clock_range e : 0 <= now e < 2 ^ 64;
  clock_hi e : (env_call e Mftbu).2 = now e / 2 ^ 32;
  clock_lo e : (env_call e Mftb).2 = now e mod 2 ^ 32;
  clock_step e c : now e <= now (env_call e c).1;
  clock_slow e c : c = Mftbu \/ c = Mftb -> now (env_call e c).1 < now e + 2 ^ 29;
  clock_tick e : now e < 2 ^ 64 - 1 -> now e < now (env_call e Mftb).1;
  clock_device e v : now e <= now (env_device e v).1 }.

Section clock.
Context {E : Type} `{EnvI : !Env E DevView} `{ClockI : !Clock E}.
Implicit Types s : Sys E Core.

Definition time s : Z := now (sys_env s).

(** One call to the hardware: its answer, and how the time passes. *)
Lemma wp_clock H c (Q : Z -> Sys E Core -> Prop) s :
  (forall s', core s' = core s -> time s <= time s' ->
     (c = Mftbu \/ c = Mftb -> time s' < time s + 2 ^ 29) ->
     (c = Mftb -> time s < 2 ^ 64 - 1 -> time s < time s') -> Q (ext_norm c (env_call (sys_env s) c).2) s') ->
  wp H (ext c) Q s.
Proof.
  intros HQ. unfold wp, ext. pose proof (clock_step (sys_env s) c) as Hs.
  pose proof (clock_tick (sys_env s)) as Ht. pose proof (clock_slow (sys_env s) c) as Hl.
  destruct (env_call (sys_env s) c) as [e r] eqn:He. apply HQ; [done|exact Hs|exact Hl|].
  intros ->. unfold time. cbn. by rewrite He in Ht.
Qed.

Lemma time_range s : 0 <= time s < 2 ^ 64.
Proof. apply clock_range. Qed.

(** The two halves of a 64-bit value. *)
Lemma tb_join t :
  0 <= t < 2 ^ 64 ->
  Z.lor (u64 (Z.shiftl (u32 (t / 2 ^ 32)) 32)) (u32 (t mod 2 ^ 32)) = t.
Proof.
  intros Ht. pose proof (Z.mod_pos_bound t (2 ^ 32) ltac:(lia)).
  assert (0 <= t / 2 ^ 32 < 2 ^ 32).
  { split; [apply Z.div_pos; lia|apply Z.div_lt_upper_bound; lia]. }
  rewrite !u32_small by lia.
  rewrite u64_small by (rewrite Z.shiftl_mul_pow2; lia).
  rewrite Z.lor_comm, lor_shiftl_add by lia.
  pose proof (Z.div_mod t (2 ^ 32) ltac:(lia)). lia.
Qed.

(** The time base was [t] at some moment of the call, and advanced. *)
Definition tb_post s (t : Z) (s' : Sys E Core) : Prop :=
  core s' = core s /\ time s <= t <= time s' /\ (time s < 2 ^ 64 - 1 -> time s < time s').

Lemma read_tb_attempt H k (Q : Z -> Sys E Core -> Prop) s :
  (forall t s', tb_post s t s' -> Q t s') ->
  (forall s', core s' = core s -> time s <= time s' < time s + 3 * 2 ^ 29 ->
     time s / 2 ^ 32 < time s' / 2 ^ 32 -> wp H (read_tb_loop k) Q s') ->
  wp H (read_tb_loop (S k)) Q s.
Proof.
  intros HQ Hk. cbn [read_tb_loop]. wp_step. apply wp_clock. intros s1 C1 T1 U1 _. specialize (U1 (or_introl eq_refl)).
  wp_step. apply wp_clock. intros s2 C2 T2 U2 T2'. specialize (T2' eq_refl).
  specialize (U2 (or_intror eq_refl)).
  wp_step. apply wp_clock. intros s3 C3 T3 U3 _. specialize (U3 (or_introl eq_refl)). cbn [ext_norm].
  pose proof (time_range s). pose proof (time_range s1). pose proof (time_range s2).
  rewrite !clock_hi, clock_lo. fold (time s) (time s1) (time s2).
  pose proof (Z.div_le_mono (time s) (time s1) (2 ^ 32) ltac:(lia) ltac:(lia)).
  pose proof (Z.div_le_mono (time s1) (time s2) (2 ^ 32) ltac:(lia) ltac:(lia)).
  pose proof (Z.div_le_mono (time s2) (time s3) (2 ^ 32) ltac:(lia) ltac:(lia)).
  assert (Hgap : time s2 / 2 ^ 32 <= time s / 2 ^ 32 + 1).
  { transitivity ((time s + 1 * 2 ^ 32) / 2 ^ 32);
      [apply Z.div_le_mono; lia|rewrite Z.div_add; lia]. }
  assert (Hu : forall x, 0 <= x < 2 ^ 64 -> u32 (x / 2 ^ 32) = x / 2 ^ 32).
  { intros x Hx. apply u32_small. change 4294967296 with (2 ^ 32).
    split; [apply Z.div_pos; lia|apply Z.div_lt_upper_bound; lia]. }
  destruct (Z.eqb_spec (u32 (time s / 2 ^ 32)) (u32 (time s2 / 2 ^ 32))) as [Heq|Hne];
    rewrite !Hu in * by done; simpl negb; cbv iota.
  - wp_step. apply HQ. replace (time s / 2 ^ 32) with (time s1 / 2 ^ 32) by lia.
    rewrite <- (Hu (time s1)), tb_join by done. split; [congruence|]. lia.
  - apply Hk; [congruence|lia|lia].
Qed.

(** Two attempts are enough: the upper half changes at most once. *)
Lemma read_tb_wp `{!Fuel} s :
  (2 <= fuel)%nat -> wp False v9p_read_tb (tb_post s) s.
Proof.
  intros Hf. unfold v9p_read_tb. destruct fuel as [|[|k]]; [lia..|].
  apply read_tb_attempt; [done|]. intros s1 C1 T1 Hhi. apply read_tb_attempt.
  { intros t s' (C & T & T'). split; [congruence|lia]. }
  intros s2 C2 T2 Hhi2. exfalso.
  pose proof (Z.div_mod (time s) (2 ^ 32) ltac:(lia)).
  pose proof (Z.div_mod (time s2) (2 ^ 32) ltac:(lia)).
  pose proof (Z.mod_pos_bound (time s) (2 ^ 32) ltac:(lia)).
  pose proof (Z.mod_pos_bound (time s2) (2 ^ 32) ltac:(lia)). lia.
Qed.

(** C39: [v9p_read_tb] never returns a torn value: for every clock it ends after at
    most one retry, and the result is the 64-bit time base at a moment between
    the call and the return, even when the lower half wraps around between the
    two reads. *)
Theorem v9p_read_tb_correct `{!Fuel} (s : Sys E Core) (Hf : (2 <= fuel)%nat) :
  exists t s', v9p_read_tb s = Done (t, s') /\ core s' = core s /\ time s <= t <= time s' /\
    (time s < 2 ^ 64 - 1 -> time s < time s').
Proof. exact (wp_total _ _ _ (read_tb_wp s Hf)). Qed.
End clock.

(** A clock that advances by one with every call, beside any device without a
    state of its own; [tick_env] has an idle one. *)
Definition tick (e : Z) : Z := Z.min (Z.max 0 e + 1) (2 ^ 64 - 1).
Definition tick_now (e : Z) : Z := Z.min (Z.max 0 e) (2 ^ 64 - 1).

Definition clocked (dev : DevView -> DevEffect) : Env Z DevView :=
  mkEnv Z DevView
    (fun e c => (tick e, match c with
                         | Mftbu => tick_now e / 2 ^ 32
                         | Mftb => tick_now e mod 2 ^ 32
                         | GetTimeBaseSpeed => 33000000
                         | _ => 0
                         end))
    (fun e v => (tick e, dev v))
    0xDEADBEEF 72 4 0x80000000.

Definition tick_env : Env Z DevView := clocked (fun _ => no_effect).

Lemma clocked_clock dev : @Clock Z (clocked dev).
Proof.
  refine (@Build_Clock Z (clocked dev) tick_now _ _ _ _ _ _ _); intros; try reflexivity;
    unfold tick_now in *; cbn [env_call env_device clocked fst] in *; unfold tick; lia.
Defined.

Definition tick_clock : @Clock Z tick_env := clocked_clock _.

(** Called one tick before the lower half wraps around. *)
Lemma v9p_read_tb_correct_witness :
  let s := mkSys (E := Z) 0x1FFFFFFFF [] (mkCore handler_zero [] [] [] [] [] [] 0) in
  exists t s', v9p_read_tb (EnvI := tick_env) (H := 2%nat) s = Done (t, s') /\
    0x1FFFFFFFF <= t.
Proof.
  intros s. destruct (v9p_read_tb_correct (ClockI := tick_clock) (H := 2%nat) s)
    as (t & s' & H1 & _ & H2 & _); [exact (le_n 2)|]. exists t, s'. split; [exact H1|]. exact (proj1 H2).
Defined.
