(* ===== verification/Exchange.v ===== *)
(** * Exchange: every exchange ends

    [V9P_Transact] polls, times out, flushes, drains and finally resets the
    transport.  Here the whole of it is shown to return, without a fault, for
    every clock ([Clock]) and every device that follows the VirtIO rule for the
    used ring ([Honest]): whatever it publishes there names a chain that is in
    flight, each chain once.  The device may be slow, silent, answer out of
    order or with arbitrary bytes.

    [queue_inv] is the invariant that driver and device maintain together: the
    representation of the queue, with the chains that the device has completed
    and the driver has not reaped yet. *)

From S2P Require Import Prelude Platform CString Marshal FidPool VirtQueue Handler P9Client P9Correct VirtioInit Transact Clock.

(** ** The used ring *)

(** The used ring holds the completions [comp], in this order, from the index
    the driver reads next. *)
Definition used_at (q : virtqueue) (comp : list (flight * Z)) : Prop :=
  vr16 (modern q) (us_idx (used q)) = u16 (last_used_idx q + Z.of_nat (length comp)) /\
  forall i f len, comp !! i = Some (f, len) ->
    exists e, geti (us_ring (used q)) (u16 (last_used_idx q + Z.of_nat i) mod num q) = Some e /\
      vr32 (modern q) (ue_id e) = fl_head f /\ vr32 (modern q) (ue_len e) = len.

Record queue_inv (q : virtqueue) (fr : list Z) (fs : list flight) (comp : list (flight * Z))
    : Prop := {
  qi_rep : vq_rep q fr fs;
  qi_event : use_event_idx q = false;
  qi_pend : exists pend, fs ≡ₚ comp.*1 ++ pend;
  qi_used : used_at q comp }.

(** The flights are fewer than the descriptors. *)
Lemma flights_length q fr fs : vq_rep q fr fs -> Z.of_nat (length fs) <= num q.
Proof.
  intros [Hnum _ _ _ _ _ _ _ _ _ Hnd Hr Hfl].
  apply list.NoDup_app in Hnd as (_ & _ & Hnd). apply Forall_app in Hr as [_ Hr].
  apply (range_length _ 0) in Hr; [|lia|done]. etransitivity; [|exact Hr].
  clear -Hfl. unfold flight_descs. induction Hfl as [|f fs Hf _ IH]; [done|].
  destruct Hf as (Hne & _). destruct (fl_chain f) eqn:Hc; [done|].
  rewrite fmap_cons. cbn [concat]. rewrite Hc, length_app. simpl length in *. lia.
Qed.

Lemma comp_length q fr fs comp : queue_inv q fr fs comp -> Z.of_nat (length comp) < 65536.
Proof.
  intros [Hrep _ (pend & Hp) _]. pose proof (flights_length _ _ _ Hrep) as Hl.
  apply Permutation_length in Hp. rewrite length_app, length_fmap in Hp.
  pose proof (rep_num _ _ _ Hrep). lia.
Qed.

(** ** The queue operations keep the invariant *)

Lemma used_at_tail q q' f len comp :
  used_at q ((f, len) :: comp) -> used q' = used q -> num q' = num q ->
  modern q' = modern q -> last_used_idx q' = u16 (last_used_idx q + 1) -> used_at q' comp.
Proof.
  intros [Hi He] Hu Hn Hm Hl. unfold used_at. rewrite Hu, Hn, Hm, Hl.
  assert (Hs : forall k, u16 (u16 (last_used_idx q + 1) + Z.of_nat k) =
                         u16 (last_used_idx q + Z.of_nat (S k))).
  { intros k. unfold u16. rewrite Zplus_mod_idemp_l. f_equal. lia. }
  split; [by rewrite Hs, Hi|]. intros i g l Hg. rewrite Hs. by apply (He (S i)).
Qed.

(** A chain is posted. *)
Lemma AddBuf_inv q c rest fs comp sg cookie :
  queue_inv q (c ++ rest) fs comp -> length c = 2%nat -> length sg = 2%nat -> Forall sg_ok sg ->
  exists q', VirtQueue_AddBuf q sg 1 1 cookie = Some (q', 0) /\
    queue_inv q' rest (fs ++ [mkFlight c cookie]) comp /\
    (let h := fl_head (mkFlight c cookie) in
     let a := vr16 (modern q) (av_idx (avail q)) in
     geti (av_ring (avail q')) (a mod num q) = Some (vr16 (modern q) h) /\
     vr16 (modern q) (av_idx (avail q')) = u16 (a + 1) /\
     dev_chain 2 (modern q) (desc q') h = Some (sg_view 1 0 sg)) /\
    last_used_idx q' = last_used_idx q /\ num q' = num q /\ modern q' = modern q /\
    used q' = used q.
Proof.
  intros [Hrep Hev (pend & Hp) Hu] Hc Hsg Hok.
  destruct (AddBuf_rep q c rest fs sg 1 1 cookie) as
    (q' & Hrun & Hrep' & Hdev & Hus & Hlu & Hn & Hm); try done.
  { by destruct c. } { by rewrite Hc. } { by rewrite Hc. }
  exists q'. split; [done|]. rewrite Hc in Hdev.
  split; [|split_and!; try done; apply Hdev]. split; [done| | |].
  - revert Hrun. unfold VirtQueue_AddBuf. repeat case_match; try done; intros; simplify_option_eq; done.
  - exists (pend ++ [mkFlight c cookie]). by rewrite Hp, app_assoc.
  - unfold used_at in *. by rewrite Hus, Hlu, Hn, Hm.
Qed.

Section reap.
Context {E : Type} `{EnvI : !Env E DevView}.
Implicit Types s : Sys E Core.

Lemma GetBuf_idle q fr fs s :
  queue_inv q fr fs [] -> VirtQueue_GetBuf q s = Done ((q, 0, None), s).
Proof.
  intros [Hrep _ _ [Hi _]]. unfold VirtQueue_GetBuf. rewrite Hi. simpl length.
  rewrite Z.add_0_r, u16_small by apply (rep_last _ _ _ Hrep). by rewrite Z.eqb_refl.
Qed.

(** The oldest completion is reaped. *)
Lemma GetBuf_inv q fr fs f len comp s :
  queue_inv q fr fs ((f, len) :: comp) ->
  exists q' fs', VirtQueue_GetBuf q s = Done ((q', fl_cookie f, Some len), s) /\
    fs ≡ₚ f :: fs' /\ queue_inv q' (rev (fl_chain f) ++ fr) fs' comp /\
    avail q' = avail q /\ num q' = num q /\ modern q' = modern q /\
    last_used_idx q' = u16 (last_used_idx q + 1) /\ used q' = used q.
Proof.
  intros Hinv. pose proof (comp_length _ _ _ _ Hinv) as Hcl.
  destruct Hinv as [Hrep Hev (pend & Hp) Hu]. simpl in Hp, Hcl.
  destruct (list_elem_of_split fs f) as (fs1 & fs2 & ->).
  { rewrite Hp. by left. }
  assert (Hdone : completed q f len).
  { destruct Hu as [Hi He]. split.
    - rewrite Hi. simpl length. pose proof (rep_last _ _ _ Hrep) as Hl. intros Heq.
      unfold u16 in Heq.
      destruct (Z_lt_le_dec (last_used_idx q + Z.of_nat (S (length comp))) 65536) as [Hlt|Hge].
      + rewrite Z.mod_small in Heq; lia.
      + rewrite <- (Z_mod_plus_full _ (-1)), Z.mod_small in Heq; lia.
    - destruct (He 0%nat f len eq_refl) as (e & Hg & H1 & H2). exists e.
      rewrite Z.add_0_r, u16_small in Hg by apply (rep_last _ _ _ Hrep). done. }
  destruct (GetBuf_rep q fr fs1 f fs2 len s Hrep Hev Hdone)
    as (q' & Hrun & Hrep' & Hlu & Hus & Hav & Hn & Hm & Hev').
  exists q', (fs1 ++ fs2). split; [done|].
  assert (Hpp : fs1 ++ f :: fs2 ≡ₚ f :: (fs1 ++ fs2)) by (symmetry; apply Permutation_middle).
  split; [done|]. split; [|done]. split; [done|done| |by eapply used_at_tail].
  exists pend. rewrite Hpp in Hp. by apply Permutation_cons_inv in Hp.
Qed.
End reap.

(** ** The device *)

Definition used_after (ef : DevEffect) (q : virtqueue) : virtqueue :=
  set_used (dev_idx (fold_left dev_used (ef_used ef) (used q)) (ef_idx ef)) q.

(** The device publishes only completions of chains in flight, and each chain
    once. *)
Class Honest (E : Type) `{EnvI : !Env E DevView} : Prop :=
  honest e c q fr fs comp :
    vq (hnd c) = Some q -> queue_inv q fr fs comp ->
    exists more, queue_inv (used_after (env_device e (dev_view c)).2 q) fr fs (comp ++ more).

(** What a device does that only writes into rx_buf, or nothing. *)
Lemma used_after_none ef q : ef_used ef = [] -> ef_idx ef = None -> used_after ef q = q.
Proof. unfold used_after. intros -> ->. by destruct q. Qed.

(** ** The state between two steps of an exchange *)

Section total.
Context {E : Type} `{EnvI : !Env E DevView} `{ClockI : !Clock E} `{HonestI : !Honest E}.
Context `{FuelI : !Fuel}.
Abbreviation M := (M (Sys E Core)).
Implicit Types s : Sys E Core.

Definition linked (c : Core) : Prop :=
  exists q fr fs comp, vq (hnd c) = Some q /\ queue_inv q fr fs comp.

(** Addresses and lengths of the buffers. *)
Record sized (c : Core) : Prop := {
  sz_rx : (7 <= length (rx c))%nat;
  sz_fl : 9 <= Z.of_nat (length (fl c)) < 2 ^ 32;
  sz_msize : 0 <= msize (hnd c) < 2 ^ 32;
  sz_tx_phys : 0 <= tx_phys (hnd c) < 2 ^ 32;
  sz_rx_phys : 0 <= rx_phys (hnd c) < 2 ^ 32;
  sz_flush_phys : 0 <= flush_phys (hnd c) < 2 ^ 32;
  sz_freq : 0 <= tb_cached c < 2 ^ 32 }.

Definition alive (c : Core) : Prop := linked c /\ sized c.

(** From a live state [s] the program reaches a live state of the same session,
    not earlier. *)
Definition lives s s' : Prop :=
  alive (core s') /\ same_session (core s) (core s') /\ time s <= time s'.

Lemma lives_trans s1 s2 s3 : lives s1 s2 -> lives s2 s3 -> lives s1 s3.
Proof.
  intros (_ & S1 & T1) (A2 & S2 & T2). split; [done|]. split; [by etransitivity|lia].
Qed.

Lemma sized_session c c' :
  same_session c c' -> 0 <= tb_cached c' < 2 ^ 32 -> sized c -> sized c'.
Proof.
  intros [_ Hr _ Hf _ (q & t & Hh & _)] Htb [].
  split; rewrite ?Hr, ?Hf, ?Hh; try done; by destruct (hnd c).
Qed.

(** What an operation [m] has to be shown to do from [s]: the rest follows from
    [keeps]. *)
Lemma lives_intro {A} (m : M A) (P : A -> Sys E Core -> Prop) s :
  keeps m -> alive (core s) ->
  wp False m (fun a s' => linked (core s') /\ 0 <= tb_cached (core s') < 2 ^ 32 /\
    time s <= time s' /\ P a s') s ->
  wp False m (fun a s' => lives s s' /\ P a s') s.
Proof.
  intros Hk [_ Hs] Hwp. unfold wp in *. destruct (m s) as [[a s']| |] eqn:Hm; [|done..].
  destruct Hwp as (Hl & Htb & Ht & HP). pose proof (Hk _ _ _ Hm) as Hss.
  split; [|done]. split; [|by split]. split; [done|by eapply sized_session].
Qed.

(** Operations that do not touch the queue. *)
Lemma lives_core {A} (m : M A) (P : A -> Sys E Core -> Prop) s :
  keeps m -> alive (core s) ->
  wp False m (fun a s' => vq (hnd (core s')) = vq (hnd (core s)) /\
    0 <= tb_cached (core s') < 2 ^ 32 /\ time s <= time s' /\ P a s') s ->
  wp False m (fun a s' => lives s s' /\ P a s') s.
Proof.
  intros Hk Ha Hwp. apply lives_intro; [done..|]. eapply wp_mono; [exact Hwp|].
  intros a s' (Hq & Htb & Ht & HP). split; [|done]. unfold linked.
  rewrite Hq. apply Ha.
Qed.

Lemma wp_lives_step {A B} (m : M A) (f : A -> M B) (Q : B -> Sys E Core -> Prop) s0 s :
  lives s0 s -> wp False m (fun _ s' => lives s s' /\ True) s ->
  (forall a s', lives s0 s' -> time s <= time s' -> wp False (f a) Q s') ->
  wp False (m ≫= f) Q s.
Proof.
  intros H0 Hm Hf. wp_step. eapply wp_mono; [exact Hm|]. intros a s' [Hl _].
  apply Hf; [by eapply lives_trans|apply Hl].
Qed.

Lemma lives_refl s : alive (core s) -> lives s s.
Proof. intros Ha. split; [done|]. split; [reflexivity|lia]. Qed.

(** The device acts. *)
Lemma apply_effect_vq ef c :
  vq (hnd (apply_effect ef c)) = used_after ef <$> vq (hnd c).
Proof. unfold apply_effect. cbn. by destruct (vq (hnd c)) eqn:Hq; cbn; rewrite ?Hq. Qed.

Lemma dev_run_lives s :
  alive (core s) -> wp False dev_run (fun _ s' => lives s s' /\ True) s.
Proof.
  intros Ha. apply lives_intro; [apply keeps_dev_run|done|].
  destruct Ha as [(q & fr & fs & comp & Hq & Hinv) Hs].
  pose proof (honest (sys_env s) _ _ _ _ _ Hq Hinv) as (more & Hinv').
  pose proof (clock_device (sys_env s) (dev_view (core s))) as Ht.
  unfold wp, dev_run, time. destruct (env_device _ _) as [e ef]. cbn in *.
  split; [|split].
  - exists (used_after ef q), fr, fs, (comp ++ more). by rewrite apply_effect_vq, Hq.
  - pose proof (sz_freq _ Hs) as Hf. unfold apply_effect. cbn.
    destruct (vq (hnd (core s))); exact Hf.
  - split; [exact Ht|done].
Qed.

(** ** The pieces of an exchange *)

Lemma getbuf_lives s :
  alive (core s) -> wp False vq_getbuf (fun _ s' => lives s s' /\ True) s.
Proof.
  intros Ha. apply lives_intro; [apply keeps_getbuf|done|]. unfold vq_getbuf. wp_step.
  eapply wp_mono; [by apply dev_run_lives|]. intros _ s1 [(Ha1 & _ & Ht1) _].
  destruct Ha1 as [(q & fr & fs & comp & Hq & Hinv) Hs1]. pose proof (sz_freq _ Hs1) as Hf.
  unfold the_vq. wp_step. wp_step. apply wp_read. rewrite Hq. eapply wp_lift; [done|].
  wp_step. destruct comp as [|[f len] comp].
  - unfold wp at 1. rewrite (GetBuf_idle q fr fs s1 Hinv). wp_sys. cbn.
    split; [|by split]. by exists q, fr, fs, [].
  - destruct (GetBuf_inv q fr fs f len comp s1 Hinv) as (q' & fs' & Hrun & _ & Hinv' & _).
    unfold wp at 1. rewrite Hrun. wp_sys. cbn. split; [|by split]. by eexists q', _, fs', comp.
Qed.

Lemma kick_lives s :
  alive (core s) -> wp False vq_kick (fun _ s' => lives s s' /\ True) s.
Proof.
  intros Ha. apply lives_core; [apply keeps_kick|done|].
  pose proof (sz_freq _ (proj2 Ha)) as Hf.
  destruct Ha as [(q & fr & fs & comp & Hq & _) _]. unfold vq_kick, the_vq, VirtQueue_Kick.
  wp_step. wp_step. apply wp_read. rewrite Hq. eapply wp_lift; [done|]. wp_step. apply wp_read.
  wp_step. destruct (modern q); apply wp_clock; intros s1 Hc Ht _ _; wp_step; rewrite Hc;
    (split; [done|]; split; [done|]; split; [lia|done]).
Qed.

(** Posting either succeeds or finds too few free descriptors. *)
Lemma addbuf_lives sg cookie s :
  alive (core s) -> length sg = 2%nat -> Forall sg_ok sg ->
  wp False (vq_addbuf sg cookie) (fun _ s' => lives s s' /\ True) s.
Proof.
  intros Ha Hl Hsg. apply lives_intro; [apply keeps_addbuf|done|].
  pose proof (sz_freq _ (proj2 Ha)) as Hf.
  destruct Ha as [(q & fr & fs & comp & Hq & Hinv) _]. unfold vq_addbuf, the_vq.
  wp_step. wp_step. apply wp_read. rewrite Hq. eapply wp_lift; [done|]. wp_step.
  assert (Hend : exists q' rc fr' fs', VirtQueue_AddBuf q sg 1 1 cookie = Some (q', rc) /\
    queue_inv q' fr' fs' comp).
  { destruct fr as [|x [|y fr]].
    1-2: exists q, (-1); do 2 eexists; split; [|exact Hinv]; unfold VirtQueue_AddBuf;
      by rewrite (rep_num_free _ _ _ (qi_rep _ _ _ _ Hinv)).
    destruct (AddBuf_inv q [x; y] fr fs comp sg cookie) as (q' & Hrun & Hinv' & _); [done..|].
    by eexists q', 0, fr, _. }
  destruct Hend as (q' & rc & fr' & fs' & Hrun & Hinv').
  eapply wp_lift; [exact Hrun|]. wp_sys. cbn. split; [by eexists q', _, _, _|].
  split; [done|]. split; [unfold time; cbn; lia|done].
Qed.

Lemma invalidate_lives n s :
  alive (core s) -> wp False (cache_invalidate_rx n) (fun _ s' => lives s s' /\ True) s.
Proof.
  intros Ha. apply lives_intro; [apply keeps_cache_invalidate|done|].
  unfold cache_invalidate_rx. wp_step.
  eapply wp_mono; [by apply dev_run_lives|]. intros _ s1 [((Hl & Hs) & _ & Ht) _].
  apply wp_write. cbn. split; [exact Hl|]. split; [exact (sz_freq _ Hs)|done].
Qed.

Lemma flush_tx_lives n s :
  alive (core s) -> wp False (cache_flush_tx n) (fun _ s' => lives s s' /\ True) s.
Proof.
  intros Ha. apply lives_core; [apply keeps_cache_flush_tx|done|]. apply wp_write. cbn.
  split; [done|]. split; [exact (sz_freq _ (proj2 Ha))|]. split; [unfold time; cbn; lia|done].
Qed.

Lemma flush_fl_lives n s :
  alive (core s) -> wp False (cache_flush_fl n) (fun _ s' => lives s s' /\ True) s.
Proof.
  intros Ha. apply lives_core; [apply keeps_cache_flush_fl|done|]. apply wp_write. cbn.
  split; [done|]. split; [exact (sz_freq _ (proj2 Ha))|]. split; [unfold time; cbn; lia|done].
Qed.

Lemma accept_lives tag w s :
  alive (core s) -> wp False (accept tag w) (fun _ s' => lives s s' /\ True) s.
Proof.
  intros Ha. unfold accept. eapply wp_lives_step; [by apply lives_refl|by apply invalidate_lives|].
  intros _ s1 Hl1 _. wp_step. apply wp_read.
  destruct (_ && _); [|wp_step; by split].
  wp_step. apply wp_read. pose proof (sz_rx _ (proj2 (proj1 Hl1))) as Hrx.
  assert (Hget : forall i, 0 <= i < 7 -> exists b, getb (rx (core s1)) i = Some b).
  { intros i Hi. apply getb_is_Some. lia. }
  destruct (Hget 0) as (b0 & H0); [lia|]. destruct (Hget 1) as (b1 & H1); [lia|].
  destruct (Hget 2) as (b2 & H2); [lia|]. destruct (Hget 3) as (b3 & H3); [lia|].
  destruct (Hget 5) as (b5 & H5); [lia|]. destruct (Hget 6) as (b6 & H6); [lia|].
  wp_step. eapply wp_lift; [exact H0|]. wp_step. eapply wp_lift; [exact H1|].
  wp_step. eapply wp_lift; [exact H2|]. wp_step. eapply wp_lift; [exact H3|].
  wp_step. eapply wp_lift; [exact H5|]. wp_step. eapply wp_lift; [exact H6|].
  cbv zeta. wp_step. by split.
Qed.

(** ** The loops *)

(** Enough polls for the longest timeout, 10 s of the fastest time base. *)
Definition exchange_fuel : Z := 4096 * (10 * 2 ^ 32 + 1).

Context (Hfuel : exchange_fuel <= Z.of_nat fuel).

Lemma fuel_2 : (2 <= fuel)%nat.
Proof. unfold exchange_fuel in Hfuel. lia. Qed.

Lemma read_tb_lives s :
  alive (core s) ->
  wp False v9p_read_tb (fun t s' => lives s s' /\ time s <= t <= time s' /\
    (time s < 2 ^ 64 - 1 -> time s < time s')) s.
Proof.
  intros Ha. apply lives_core; [apply keeps_read_tb|done|].
  eapply wp_mono; [apply read_tb_wp, fuel_2|]. intros t s' (Hc & Ht & Ht'). rewrite Hc.
  split; [done|]. split; [exact (sz_freq _ (proj2 Ha))|]. split; [lia|done].
Qed.

Lemma deadline_lives sec s :
  alive (core s) -> 0 <= sec <= 10 ->
  wp False (deadline sec) (fun d s' => lives s s' /\
    d <= time s' + 10 * 2 ^ 32 /\ d < 2 ^ 64) s.
Proof.
  intros Ha Hsec. apply lives_core; [apply keeps_deadline|done|].
  pose proof (sz_freq _ (proj2 Ha)) as Hf. unfold deadline. wp_step.
  eapply wp_mono; [apply read_tb_wp, fuel_2|]. intros t s1 (Hc & Ht & _).
  assert (Hd : forall freq s2, 0 <= freq < 2 ^ 32 -> time s1 <= time s2 ->
    u64 (t + u64 (freq * sec)) <= time s2 + 10 * 2 ^ 32).
  { intros freq s2 Hfr Hts. unfold u64. pose proof (time_range s).
    pose proof (Z.mod_le (freq * sec) (2 ^ 64) ltac:(nia) ltac:(lia)).
    pose proof (Z.mod_pos_bound (freq * sec) (2 ^ 64) ltac:(lia)).
    pose proof (Z.mod_le (t + (freq * sec) mod 2 ^ 64) (2 ^ 64) ltac:(lia) ltac:(lia)). nia. }
  unfold v9p_tb_freq_hz. wp_step. wp_step. apply wp_read. rewrite Hc.
  destruct (Z.eqb_spec (tb_cached (core s)) 0) as [Hz|]; wp_step.
  - apply wp_clock. intros s2 Hc2 Ht2 _ _. wp_step. apply wp_write. wp_step.
    set (freq := u32 _). assert (Hfr : 0 <= freq < 2 ^ 32) by apply u32_range.
    wp_step. cbn [core set_core set_tb_cached hnd tb_cached]. rewrite Hc2, Hc.
    split; [done|]. split; [done|]. unfold time in *. cbn. split; [lia|].
    split; [|apply u64_range]. apply (Hd freq s2 Hfr). unfold time. lia.
  - wp_step. rewrite Hc. split; [done|]. split; [done|]. split; [lia|].
    split; [by apply Hd|apply u64_range].
Qed.

(** A loop that checks the clock at every 4096th iteration: the iterations
    that are left before the deadline [d]. *)
Definition polls_left (d polls : Z) s : Z :=
  4096 - polls mod 4096 + 4096 * Z.max 0 (d - time s).

Lemma polls_check polls :
  (Z.land (u32 (polls + 1)) V9P_TRANSACT_CLOCK_CHECK_MASK =? 0) = ((polls + 1) mod 4096 =? 0).
Proof.
  change V9P_TRANSACT_CLOCK_CHECK_MASK with (Z.ones 12). rewrite Z.land_ones by lia.
  change (2 ^ 12) with 4096. unfold u32. f_equal.
  change (2 ^ 32) with (4096 * 1048576). by rewrite Z.rem_mul_r, Z.mul_comm, Z_mod_plus_full, Z.mod_mod by lia.
Qed.

Lemma polls_mod polls : u32 (polls + 1) mod 4096 = (polls + 1) mod 4096.
Proof.
  unfold u32. change (2 ^ 32) with (4096 * 1048576).
  by rewrite Z.rem_mul_r, Z.mul_comm, Z_mod_plus_full, Z.mod_mod by lia.
Qed.

(** The end of an iteration, the same in both loops. *)
Lemma tick_wp {A} (again : M A) (stop : A) d polls k s (Q : A -> Sys E Core -> Prop) :
  alive (core s) -> d < 2 ^ 64 -> polls_left d polls s <= Z.of_nat (S k) ->
  (forall s', lives s s' -> Q stop s') ->
  (forall s', lives s s' -> polls_left d (u32 (polls + 1)) s' <= Z.of_nat k ->
     wp False again Q s') ->
  wp False (if Z.land (u32 (polls + 1)) V9P_TRANSACT_CLOCK_CHECK_MASK =? 0 then
              tb ← v9p_read_tb; if d <=? tb then mret stop else again
            else again) Q s.
Proof.
  intros Ha Hd Hk Hstop Hagain. rewrite polls_check. unfold polls_left in *.
  pose proof (Z.mod_pos_bound polls 4096 ltac:(lia)) as Hp.
  destruct (Z.eqb_spec ((polls + 1) mod 4096) 0) as [H0|H0].
  - wp_step. eapply wp_mono; [by apply read_tb_lives|]. intros t s1 (Hl & Ht & Ht').
    destruct (Z.leb_spec d t); [wp_step; by apply Hstop|]. apply Hagain; [done|].
    rewrite polls_mod, H0. pose proof (time_range s1).
    assert (polls mod 4096 = 4095).
    { rewrite Z.add_mod in H0 by lia. rewrite (Z.mod_small 1) in H0 by lia.
      destruct (decide (polls mod 4096 = 4095)) as [|Hn]; [done|].
      rewrite Z.mod_small in H0; lia. }
    lia.
  - apply Hagain; [by apply lives_refl|]. rewrite polls_mod.
    assert ((polls + 1) mod 4096 = polls mod 4096 + 1).
    { rewrite Z.add_mod by lia. rewrite (Z.mod_small 1) by lia.
      destruct (decide (polls mod 4096 = 4095)) as [E1|Hn].
      - exfalso. apply H0. by rewrite Z.add_mod, E1 by lia.
      - rewrite Z.mod_small; lia. }
    lia.
Qed.

Lemma poll_lives k tag d w polls s :
  alive (core s) -> d < 2 ^ 64 -> polls_left d polls s <= Z.of_nat k ->
  wp False (poll_loop k tag d w polls) (fun _ s' => lives s s' /\ True) s.
Proof.
  revert w polls s. induction k as [|k IH]; intros w polls s Ha Hd Hk.
  { pose proof (Z.mod_pos_bound polls 4096 ltac:(lia)). unfold polls_left in Hk. lia. }
  cbn [poll_loop]. eapply wp_lives_step; [by apply lives_refl|by apply getbuf_lives|].
  intros [ck len] s1 Hl1 Ht1. cbv zeta.
  eapply (wp_lives_step _ _ _ s); [exact Hl1| |].
  { destruct (ck =? 0); [wp_step; split; [by apply lives_refl, Hl1|done]|].
    apply accept_lives, Hl1. }
  intros ok s2 Hl2 Ht2. destruct ok; [wp_step; by split|].
  apply (tick_wp _ _ d polls k); [apply Hl2|done| | |].
  - unfold polls_left in *. lia.
  - intros s3 Hl3. split; [by eapply lives_trans|done].
  - intros s3 Hl3 Hk3. eapply wp_mono; [apply IH; [apply Hl3|done..]|].
    intros r s4 [Hl4 _]. split; [|done]. by do 2 (eapply lives_trans; [eassumption|]).
Qed.

Lemma drain_loop_lives k d polls s :
  alive (core s) -> d < 2 ^ 64 -> polls_left d polls s <= Z.of_nat k ->
  wp False (drain_loop k d polls) (fun _ s' => lives s s' /\ True) s.
Proof.
  revert polls s. induction k as [|k IH]; intros polls s Ha Hd Hk.
  { pose proof (Z.mod_pos_bound polls 4096 ltac:(lia)). unfold polls_left in Hk. lia. }
  cbn [drain_loop]. eapply wp_lives_step; [by apply lives_refl|by apply getbuf_lives|].
  intros [ck len] s1 Hl1 Ht1. destruct (negb _); [wp_step; by split|]. cbv zeta.
  apply (tick_wp _ _ d polls k); [apply Hl1|done| | |].
  - unfold polls_left in *. lia.
  - intros s2 Hl2. split; [by eapply lives_trans|done].
  - intros s2 Hl2 Hk2. eapply wp_mono; [apply IH; [apply Hl2|done..]|].
    intros r s3 [Hl3 _]. split; [|done]. by do 2 (eapply lives_trans; [eassumption|]).
Qed.

Lemma polls_fuel d s : d <= time s + 10 * 2 ^ 32 -> polls_left d 0 s <= Z.of_nat fuel.
Proof. unfold polls_left, exchange_fuel in *. change (0 mod 4096) with 0. lia. Qed.

Lemma drain_lives n got s :
  alive (core s) -> wp False (drain n got) (fun _ s' => lives s s' /\ True) s.
Proof.
  revert got s. induction n as [|n IH]; intros got s Ha; cbn [drain].
  { wp_step. split; [by apply lives_refl|done]. }
  wp_step. eapply wp_mono; [apply deadline_lives; [done|lia]|]. intros d s1 (Hl1 & Hd & Hd').
  eapply (wp_lives_step _ _ _ s); [exact Hl1|apply drain_loop_lives; [apply Hl1|done|by apply polls_fuel]|].
  intros [] s2 Hl2 _; [|wp_step; by split].
  eapply wp_mono; [apply IH, Hl2|]. intros r s3 [Hl3 _]. split; [by eapply lives_trans|done].
Qed.

Lemma build_flush_lives tag s :
  alive (core s) -> wp False (build_flush tag) (fun n s' => lives s s' /\ n = 9) s.
Proof.
  intros Ha. apply lives_core; [apply keeps_build_flush|done|].
  destruct (build_flush_run tag s (sz_fl _ (proj2 Ha))) as (b & Hrun & _).
  unfold wp. rewrite Hrun. cbn. split; [done|]. split; [exact (sz_freq _ (proj2 Ha))|].
  split; [unfold time; cbn; lia|done].
Qed.

Lemma sg_two a n b m :
  0 <= a < 2 ^ 32 -> 0 <= n < 2 ^ 32 -> 0 <= b < 2 ^ 32 -> 0 <= m < 2 ^ 32 ->
  Forall sg_ok [mkSg a n; mkSg b m].
Proof. intros. repeat constructor; simpl; lia. Qed.

Lemma flush_request_lives tag s :
  alive (core s) -> wp False (flush_request tag) (fun _ s' => lives s s' /\ True) s.
Proof.
  intros Ha. unfold flush_request. wp_step.
  eapply wp_mono; [by apply build_flush_lives|]. intros n s1 [Hl1 ->].
  eapply (wp_lives_step _ _ _ s); [exact Hl1|apply flush_fl_lives, Hl1|]. intros _ s2 Hl2 _.
  wp_step. apply wp_read. pose proof (proj2 (proj1 Hl2)) as [].
  eapply (wp_lives_step _ _ _ s); [exact Hl2|apply addbuf_lives; [apply Hl2|done|apply sg_two; lia]|].
  intros rc s3 Hl3 _. destruct (0 <=? rc); [|wp_step; by split].
  eapply (wp_lives_step _ _ _ s); [exact Hl3|apply kick_lives, Hl3|]. intros _ s4 Hl4 _.
  eapply wp_mono; [apply drain_lives, Hl4|]. intros r s5 [Hl5 _]. split; [by eapply lives_trans|done].
Qed.

(** The exchange up to the decision about a reset. *)
Lemma try_lives n s :
  alive (core s) -> (7 <= length (tx (core s)))%nat -> 0 <= n < 2 ^ 32 ->
  wp False (try_exchange n) (fun _ s' => lives s s' /\ True) s.
Proof.
  intros Ha Htx Hn. unfold try_exchange. wp_step. apply wp_read.
  destruct (getb_is_Some (tx (core s)) 5) as (b5 & H5); [lia|].
  destruct (getb_is_Some (tx (core s)) 6) as (b6 & H6); [lia|].
  wp_step. eapply wp_lift; [exact H5|]. wp_step. eapply wp_lift; [exact H6|]. cbv zeta.
  eapply (wp_lives_step _ _ _ s); [by apply lives_refl|by apply flush_tx_lives|]. intros _ s1 Hl1 _.
  wp_step. apply wp_read. pose proof (proj2 (proj1 Hl1)) as [].
  eapply (wp_lives_step _ _ _ s); [exact Hl1|apply addbuf_lives; [apply Hl1|done|apply sg_two; lia]|].
  intros rc s2 Hl2 _. destruct (rc <? 0); [wp_step; by split|].
  eapply (wp_lives_step _ _ _ s); [exact Hl2|apply kick_lives, Hl2|]. intros _ s3 Hl3 _.
  wp_step. eapply wp_mono; [apply deadline_lives; [apply Hl3|unfold V9P_TRANSACT_TIMEOUT_SEC; lia]|].
  intros d s4 (Hl4 & Hd & Hd').
  eapply (wp_lives_step _ _ _ s); [by eapply lives_trans|
    apply poll_lives; [apply Hl4|done|by apply polls_fuel]|].
  intros [w|] s5 Hl5 _.
  - eapply (wp_lives_step _ _ _ s); [exact Hl5|apply invalidate_lives, Hl5|]. intros _ s6 Hl6 _.
    wp_step. by split.
  - eapply (wp_lives_step _ _ _ s); [exact Hl5|apply flush_request_lives, Hl5|]. intros dr s6 Hl6 _.
    wp_step. by split.
Qed.

(** ** The reset *)

(** Programs that only call the system: they return and change nothing else. *)
Definition calm {A} (m : M A) : Prop :=
  forall s, wp False m (fun _ s' => core s' = core s) s.

Lemma calm_ret {A} (a : A) : calm (mret a).
Proof. intros s. by wp_step. Qed.
Lemma calm_ext c : calm (ext c).
Proof. intros s. by apply wp_ext. Qed.
Lemma calm_bind {A B} (m : M A) (f : A -> M B) : calm m -> (forall a, calm (f a)) -> calm (m ≫= f).
Proof.
  intros Hm Hf s. wp_step. eapply wp_mono; [apply Hm|]. intros a s1 Hc. rewrite <- Hc. apply Hf.
Qed.
Lemma calm_if {A} (b : bool) (m m' : M A) : calm m -> calm m' -> calm (if b then m else m').
Proof. by destruct b. Qed.

Lemma calm_wp {A} (m : M A) (Q : A -> Sys E Core -> Prop) s :
  calm m -> (forall a s', core s' = core s -> Q a s') -> wp False m Q s.
Proof. intros Hm HQ. eapply wp_mono; [apply Hm|]. exact HQ. Qed.

Ltac calm :=
  repeat first
    [ lazymatch goal with |- forall _, _ => intro end
    | apply calm_ret | apply calm_ext | apply calm_bind | apply calm_if ].

Lemma Free_calm q : calm (VirtQueue_Free (Some q)).
Proof. unfold VirtQueue_Free. calm. Qed.

Lemma Cleanup_total s :
  wp False V9P_CleanupVirtIO (fun _ s' => core s' = on_hnd (set_vq None) (core s)) s.
Proof.
  unfold V9P_CleanupVirtIO. wp_step. apply wp_read. wp_step.
  apply calm_wp; [calm|]. intros _ s1 Hc1.
  destruct (vq (hnd (core s))) as [q|] eqn:Hq.
  - wp_step. apply calm_wp; [apply Free_calm|]. intros _ s2 Hc2. apply wp_write. cbn. congruence.
  - wp_step. rewrite Hc1. destruct (core s) as [[]]. cbn in *. by subst.
Qed.

Lemma ready_inv m q : vq_ready m q -> queue_inv q (seqZ 0 (num q)) [] [].
Proof.
  intros (Hrep & _ & Hm & _ & Hev & _ & Hu & Hl & _). split; [done|done|by exists []|].
  split; [|done]. rewrite Hu, Hl, Hm. by destruct m.
Qed.

(** The exchange of the handshake: no reset, a length of at most [msize]. *)
Lemma in_reset_lives n s :
  alive (core s) -> in_reset (hnd (core s)) = true -> (7 <= length (tx (core s)))%nat ->
  0 <= n < 2 ^ 32 ->
  wp False (V9P_Transact_in_reset n) (fun r s' => lives s s' /\ 0 <= r <= msize (hnd (core s))) s.
Proof.
  intros Ha Hg Htx Hn. destruct (wp_total _ _ _ (try_lives n s Ha Htx Hn)) as (a & s1 & Hrun & Hl & _).
  unfold wp, V9P_Transact_in_reset. rewrite transact_split.
  rewrite (bind_done _ _ _ _ _ Hrun). pose proof (proj1 (proj2 Hl)) as Hss.
  pose proof (sz_msize _ (proj2 Ha)). destruct a as [w| |d]; cbn [settle].
  - cbn. split; [done|]. destruct (try_received _ _ _ _ Hrun) as (s2 & Hs2 & ((Hw & _) & _) & _).
    rewrite (same_session_msize _ _ Hs2) in Hw. lia.
  - cbn. split; [done|lia].
  - unfold read, gets, mbind, M_bind. rewrite (same_session_in_reset _ _ Hss), Hg, andb_false_r.
    cbn. split; [done|lia].
Qed.

(** A state during the handshake. *)
Record shaking (c : Core) : Prop := {
  sh_alive : alive c;
  sh_guard : in_reset (hnd c) = true;
  sh_tx : Z.of_nat (length (tx c)) = P9_MSIZE;
  sh_rx : rx_ok c;
  sh_ram : Forall is_byte (rx_ram c) }.

Lemma shaking_lives s s' : shaking (core s) -> lives s s' -> shaking (core s').
Proof.
  intros [Ha Hg Ht Hr Hm] (Ha' & Hss & _). pose proof (same_bufs_session _ _ Hss) as Hb.
  destruct (sb_bytes _ _ Hb (proj1 Hr) Hm) as [Hb1 Hb2].
  split; [done|by rewrite (same_session_in_reset _ _ Hss)|by rewrite (sb_tx _ _ Hb)| |done].
  by eapply bufs_rx_ok.
Qed.

Lemma shaking_tx c b : shaking c -> length b = length (tx c) -> shaking (set_tx b c).
Proof.
  intros [[(q & fr & fs & comp & Hq & Hi) []] Hg Ht Hr Hm] Hl.
  split; [|done|cbn; by rewrite Hl|done|done]. split; [by exists q, fr, fs, comp|by split].
Qed.

Lemma shaking_tag c t : shaking c -> shaking (on_hnd (set_next_tag t) c).
Proof.
  intros [[(q & fr & fs & comp & Hq & Hi) []] Hg Ht Hr Hm].
  split; [|done|done|done|done]. split; [by exists q, fr, fs, comp|by split].
Qed.

Lemma shaking_msize c m : 0 <= m < 2 ^ 32 -> shaking c -> shaking (on_hnd (set_msize m) c).
Proof.
  intros Hm' [[(q & fr & fs & comp & Hq & Hi) []] Hg Ht Hr Hm].
  split; [|done|done|done|done]. split; [by exists q, fr, fs, comp|by split].
Qed.

Lemma post_shaking tag m s :
  shaking (core s) -> msg_fits m ->
  wp False (post V9P_Transact_in_reset tag m) (fun r s' => shaking (core s') /\
    msize (hnd (core s')) = msize (hnd (core s)) /\ 0 <= r <= msize (hnd (core s))) s.
Proof.
  intros Hs Hf. unfold post. wp_step. apply wp_read. unfold msg_fits in Hf.
  set (msg := frame _ _ _). assert (Hl : Z.of_nat (length msg) <= P9_MSIZE).
  { unfold msg. rewrite length_frame. lia. }
  destruct (blit (tx (core s)) 0 msg) as [b|] eqn:Hb.
  2: { rewrite blit_Some in Hb; [done|lia|]. rewrite (sh_tx _ Hs). lia. }
  wp_step. eapply wp_lift; [done|]. wp_step. apply wp_write.
  pose proof (shaking_tx _ b Hs (blit_length _ _ _ _ Hb)) as Hs1.
  eapply wp_mono; [apply in_reset_lives|].
  - apply Hs1.
  - apply Hs1.
  - pose proof (sh_tx _ Hs1). cbn. cbn in H. unfold P9_MSIZE in *. lia.
  - unfold P9_MSIZE in *. lia.
  - cbn [core set_core]. intros r s' [Hl' Hr]. split; [exact (shaking_lives (set_core (set_tx b (core s)) s) s' Hs1 Hl')|].
    split; [|done]. by rewrite (same_session_msize _ _ (proj1 (proj2 Hl'))).
Qed.

(** Looking at the header of a response never leaves rx_buf. *)
Lemma check_error_total n s :
  rx_ok (core s) -> exists e, check_error n s = Done (e, s).
Proof.
  intros [Hb Hl]. unfold check_error, read, gets, mbind, M_bind. unfold P9_MSIZE in Hl.
  assert (Hce : exists e, p9_check_error (rx (core s)) n = Some e).
  { unfold p9_check_error. destruct (_ <? _); [by eexists|].
    rewrite p9_get_u8_spec by (unfold fits; lia). cbn [mbind option_bind].
    destruct (_ =? _); [|by eexists]. destruct (_ <? _); [by eexists|].
    rewrite p9_get_u32_spec by (unfold fits; lia). by eexists. }
  destruct Hce as (e & ->). by exists e.
Qed.

Lemma wp_pres {A} (R : relation Core) (m : M A) (Q : A -> Sys E Core -> Prop) s :
  preserves R m -> wp False m Q s -> wp False m (fun a s' => Q a s' /\ R (core s) (core s')) s.
Proof.
  intros Hp. unfold wp. destruct (m s) as [[a s']| |] eqn:Hm; [|done..]. intros HQ.
  split; [done|]. by eapply Hp.
Qed.

Lemma Version_shaking s :
  shaking (core s) -> msize (hnd (core s)) <= Z.of_nat (length (rx (core s))) ->
  wp False (P9_Version V9P_Transact_in_reset) (fun _ s' => shaking (core s')) s.
Proof.
  intros Hs Hms. unfold wp. rewrite Version_sends by apply Hs.
  change (wp False (post V9P_Transact_in_reset P9_NOTAG (Tversion P9_MSIZE P9_VERSION_STR)
    ≫= version_tail) (fun _ s' => shaking (core s')) s).
  wp_step. eapply wp_mono.
  { apply wp_pres; [|by apply post_shaking].
    intros s0 r s1. apply bufs_post. intros k. by apply bufs_gen. }
  intros n s1 [(Hs1 & Hm1 & Hn) Hb1]. unfold version_tail.
  destruct (n =? 0) eqn:Hn0; [by wp_step|]. apply Z.eqb_neq in Hn0.
  destruct (check_error_total n s1) as (e & He); [apply Hs1|].
  wp_step. apply (wp_run _ _ _ _ _ _ He). destruct (negb _); [by wp_step|]. cbv zeta.
  unfold p9_require_size. destruct (Z.ltb_spec n 13); [change (negb (- EIO =? 0)) with true; cbv iota; by wp_step|].
  change (negb (0 =? 0)) with false. cbv iota.
  pose proof (sh_rx _ Hs1) as Hx. pose proof Hx as [Hby Hl]. pose proof (sb_rx _ _ Hb1) as Hlen.
  unfold P9_MSIZE in *. wp_step.
  eapply wp_run; [apply rx_get_u32_done; [done|lia..]|]. cbv beta iota.
  wp_step. apply wp_write. wp_step. apply wp_read. wp_step.
  cbn [core set_core on_hnd set_hnd rx].
  rewrite p9_get_str_eq
    by (unfold get_str_pre; rewrite length_replicate; split_and!; (done || lia)).
  eapply wp_lift; [done|]. wp_step. cbn [core set_core].
  apply shaking_msize; [|done]. unfold rd.
  pose proof (le_val_range _ (slice_byte (rx (core s1)) 7 4 Hby)) as Hr.
  rewrite slice_length in Hr by lia. exact Hr.
Qed.

Lemma Attach_shaking root s :
  shaking (core s) -> wp False (P9_Attach V9P_Transact_in_reset root) (fun _ s' => shaking (core s')) s.
Proof.
  intros Hs. unfold wp. rewrite Attach_sends.
  2: { unfold room. rewrite length_frame, (sh_tx _ Hs). cbn [t_body].
       autorewrite with wire. unfold P9_MSIZE. simpl. lia. }
  change (wp False (exchange V9P_Transact_in_reset (Tattach root P9_NOFID [] [] 0) ≫= fun n =>
    if n =? 0 then mret (- EIO) else
    err ← check_error n; if negb (err =? 0) then mret err else mret 0)
    (fun _ s' => shaking (core s')) s).
  wp_step. unfold exchange. wp_step. apply (wp_run _ _ _ _ _ _ (next_tag_done s)).
  eapply wp_mono; [apply post_shaking|].
  - by apply shaking_tag.
  - unfold msg_fits. cbn [t_body]. autorewrite with wire. unfold P9_MSIZE. simpl. lia.
  - intros n s1 (Hs1 & _). destruct (n =? 0); [by wp_step|].
    destruct (check_error_total n s1) as (e & He); [apply Hs1|].
    wp_step. apply (wp_run _ _ _ _ _ _ He). destruct (negb _); by wp_step.
Qed.

Lemma handshake_total s :
  shaking (core s) -> msize (hnd (core s)) <= Z.of_nat (length (rx (core s))) ->
  wp False (rehandshake V9P_Transact_in_reset) (fun _ _ => True) s.
Proof.
  intros Hs Hms. unfold rehandshake. wp_step. apply wp_write. wp_step.
  eapply wp_mono; [apply Version_shaking; [by apply shaking_tag|exact Hms]|].
  intros e s1 Hs1. cbv beta. destruct (negb _); [by wp_step|]. wp_step. apply wp_read. wp_step.
  eapply wp_mono; [by apply Attach_shaking|]. intros e' s2 _. cbv beta.
  destruct (negb _); [by wp_step|]. wp_step. apply wp_read.
  destruct (fid_pool _) as [p|]; [|by wp_step].
  unfold FidPool_Destroy, FidPool_Create, alloc_u32s.
  wp_step. apply calm_wp; [calm|]. intros _ s3 _. wp_step.
  apply calm_wp; [calm|]. intros p' s4 _. wp_step. apply wp_write. by wp_step.
Qed.

Lemma Reset_total s :
  alive (core s) -> session_inv (core s) -> wp False V9P_Reset (fun _ _ => True) s.
Proof.
  intros Ha (Ht & Hr & Hm & Hms). unfold V9P_Reset, V9P_Reset_gen. wp_step. apply wp_read.
  destruct (in_reset _) eqn:Hg; [by wp_step|]. wp_step. apply wp_write. wp_step.
  eapply wp_mono; [apply Cleanup_total|]. intros [] s1 Hc1. cbn [core set_core] in Hc1. wp_step.
  eapply wp_mono; [apply InitVirtIO_wp|]. intros up s2 Hi. wp_step.
  assert (Hend : forall s3, wp False (if negb up then mret false else rehandshake V9P_Transact_in_reset)
    (fun _ _ => True) s3 -> wp False (if negb up then mret false else rehandshake V9P_Transact_in_reset)
    (fun a s' => wp False (_ ← write (on_hnd (set_in_reset false)); mret a) (fun _ _ => True) s') s3).
  { intros s3 Hw. eapply wp_mono; [exact Hw|]. intros a s' _. wp_step. apply wp_write. by wp_step. }
  apply Hend. destruct up; simpl negb; cbv iota; [|by wp_step].
  destruct Hi as (q & Hc2 & Hq & _). rewrite Hc1 in Hc2. destruct Ha as [_ []].
  apply handshake_total; rewrite Hc2; [|exact (proj2 Hms)].
  split; [|done|done|done|done].
  split; [exists q, (seqZ 0 (num q)), [], []; split; [done|by eapply ready_inv]|by split].
Qed.
End total.

(** ** The claims *)

(** C3: every exchange ends: for every clock and every device that completes only
    chains in flight, [V9P_Transact] returns from any state of a session,
    without a fault, through polling, timeout, flush, drain and reset, within
    [exchange_fuel] iterations of each loop.  After a successful exchange the
    session is in such a state again. *)
Theorem V9P_Transact_total {E : Type} `{EnvI : !Env E DevView} `{ClockI : !Clock E}
    `{HonestI : !Honest E} `{FuelI : !Fuel} (n : Z) (s : Sys E Core)
    (Hfuel : exchange_fuel <= Z.of_nat fuel)
    (Ha : alive (core s)) (Hs : session_inv (core s)) (Hn : 0 <= n < 2 ^ 32) :
  exists r s', V9P_Transact n s = Done (r, s') /\
    (r <> 0 -> alive (core s') /\ session_inv (core s')).
Proof.
  assert (Htx : (7 <= length (tx (core s)))%nat).
  { destruct Hs as [Ht _]. unfold P9_MSIZE in Ht. lia. }
  destruct (wp_total _ _ _ (try_lives Hfuel n s Ha Htx Hn)) as (a & s1 & Hrun & (Ha1 & Hss & _) & _).
  pose proof (session_same _ _ Hs Hss) as Hs1.
  unfold V9P_Transact. setoid_rewrite transact_split. setoid_rewrite (bind_done _ _ _ _ _ Hrun).
  destruct a as [w| |d]; cbn [settle].
  - by exists w, s1.
  - by exists 0, s1.
  - destruct (wp_total _ _ _ (Reset_total Hfuel s1 Ha1 Hs1)) as (ok & s2 & Hreset & _).
    unfold read, gets, mbind, M_bind. destruct (_ && _).
    + rewrite Hreset. by exists 0, s2.
    + by exists 0, s1.
Qed.

(** ** Concrete instances *)

(** The device that never answers. *)
Lemma tick_honest : @Honest Z tick_env.
Proof.
  intros e c q fr fs comp Hq Hi. exists []. rewrite app_nil_r.
  by rewrite used_after_none.
Qed.

Lemma small_vq_inv : queue_inv small_vq [0; 1; 2; 3] [] [].
Proof.
  split; [|done|by exists []|done]. split; try done.
  - simpl. repeat (split; [done|]; eexists; split; [done|]; simpl). done.
  - apply (bool_decide_eq_true_1 _). vm_compute. reflexivity.
  - repeat constructor; lia.
Qed.

#[local] Opaque pad.

(** A session with buffers of full size; a Tclunk is in tx_buf. *)
Definition session_core : Core :=
  mkCore (hnd small_core) pad pad pad pad (replicate 16 0) (replicate 16 0) 0.

Lemma session_core_ok : alive session_core /\ session_inv session_core.
Proof.
  destruct pad_ok as [Hp Hb]. split.
  - split; [exists small_vq, [0; 1; 2; 3], [], []; split; [done|exact small_vq_inv]|].
    split; cbn -[pad]; try lia. unfold P9_MSIZE in Hp. lia.
  - unfold session_inv, rx_ok. cbn -[pad]. rewrite Hp. unfold P9_MSIZE.
    split; [done|]. split; [split; [exact Hb|lia]|]. split; [exact Hb|lia].
Qed.

Lemma V9P_Transact_total_witness :
  exists r s', V9P_Transact (EnvI := tick_env) (FuelI := Z.to_nat exchange_fuel) 11
    (mkSys 0 [] session_core) = Done (r, s').
Proof.
  destruct session_core_ok as [Ha Hs].
  destruct (V9P_Transact_total (EnvI := tick_env) (ClockI := tick_clock) (HonestI := tick_honest)
    (FuelI := Z.to_nat exchange_fuel) 11 (mkSys 0 [] session_core)) as (r & s' & H & _).
  - unfold fuel. rewrite Z2Nat.id; [reflexivity|]. unfold exchange_fuel. lia.
  - exact Ha.
  - exact Hs.
  - lia.
  - exists r, s'. exact H.
Defined.
