(* ===== verification/Deliver.v ===== *)
(** * Deliver: an exchange computes the server's answer

    The functional counterpart of Exchange.v: when the device is a server that
    answers each request it finds in the available ring ([Serves]), then
    [V9P_Transact] returns exactly this server's response to the T-message in
    tx_buf: through the cache flush of the request, the descriptor chain, the
    completion in the used ring, the header check and the cache invalidation of
    the response.  The server has a state, which the exchange advances by this
    one request: it is delivered exactly once. *)

From S2P Require Import Prelude Platform CString Marshal FidPool VirtQueue Handler P9Client P9Correct VirtioInit CacheDma Transact Clock Exchange.

(** What the device leaves in RAM when it writes [resp] to the receive buffer. *)
Definition written (resp ram : list Z) : list Z := resp ++ drop (length resp) ram.

(** The chain with this head is the newest in the available ring, at index [a]. *)
Definition published (q : virtqueue) (a head : Z) : Prop :=
  geti (av_ring (avail q)) (a mod num q) = Some (vr16 (modern q) head) /\
  vr16 (modern q) (av_idx (avail q)) = u16 (a + 1).

(** The device has used all chains that were made available. *)
Definition caught_up (q : virtqueue) : Prop :=
  vr16 (modern q) (av_idx (avail q)) = vr16 (modern q) (us_idx (used q)).

(** A device that implements [serve], a server whose state is [srv e] in the
    environment [e]: it looks at the chain in flight, reads the request from the
    first buffer, which must be tx_buf, and completes the chain with the
    response in the second, which must be rx_buf.  Without a request it does
    nothing; only requests change its state. *)
Class Serves (E : Type) `{EnvI : !Env E DevView} {St : Type} (srv : E -> St)
    (serve : St -> list Z -> St * list Z) : Prop := {
  serves_call e c : srv (env_call e c).1 = srv e;
  serves_idle e c q fr :
    vq (hnd c) = Some q -> queue_inv q fr [] [] -> caught_up q ->
    let ef := (env_device e (dev_view c)).2 in
    srv (env_device e (dev_view c)).1 = srv e /\
    queue_inv (used_after ef q) fr [] [] /\ fold_left dev_rx (ef_rx ef) (rx_ram c) = rx_ram c;
  serves_request e c q fr f n m :
    vq (hnd c) = Some q -> queue_inv q fr [f] [] ->
    published q (vr16 (modern q) (us_idx (used q))) (fl_head f) ->
    dev_chain 2 (modern q) (desc q) (fl_head f) =
      Some [(tx_phys (hnd c), n, false); (rx_phys (hnd c), m, true)] ->
    let ef := (env_device e (dev_view c)).2 in
    let req := take (Z.to_nat n) (tx_ram c) in
    let resp := (serve (srv e) req).2 in
    Z.of_nat (length resp) <= m < 2 ^ 32 -> (length resp <= length (rx_ram c))%nat ->
    srv (env_device e (dev_view c)).1 = (serve (srv e) req).1 /\
    queue_inv (used_after ef q) fr [f] [(f, Z.of_nat (length resp))] /\
    fold_left dev_rx (ef_rx ef) (rx_ram c) = written resp (rx_ram c) }.

Lemma session_field {A} (f : V9PHandler -> A) c c' :
  same_session c c' -> (forall h q t, f (set_next_tag t (set_vq q h)) = f h) ->
  f (hnd c') = f (hnd c).
Proof. intros [_ _ _ _ _ (q & t & -> & _)] Hf. apply Hf. Qed.

(** The index of a used ring without a completion is the one read next. *)
Lemma used_nil q fr fs : queue_inv q fr fs [] -> vr16 (modern q) (us_idx (used q)) = last_used_idx q.
Proof.
  intros [Hrep _ _ [Hu _]]. rewrite Hu. simpl length.
  by rewrite Z.add_0_r, u16_small by apply (rep_last _ _ _ Hrep).
Qed.

Lemma caught_up_after q fr fs ef :
  queue_inv q fr fs [] -> queue_inv (used_after ef q) fr fs [] -> caught_up q ->
  caught_up (used_after ef q).
Proof.
  intros H1 H2. unfold caught_up. rewrite (used_nil _ _ _ H1), (used_nil _ _ _ H2). done.
Qed.

Section deliver.
Context {E : Type} `{EnvI : !Env E DevView} `{ClockI : !Clock E} `{FuelI : !Fuel}.
Context {St : Type} (srv : E -> St) (serve : St -> list Z -> St * list Z).
Context `{ServesI : !Serves E srv serve}.
Abbreviation M := (M (Sys E Core)).
Implicit Types s : Sys E Core.

(** The state of the server. *)
Definition state s : St := srv (sys_env s).

(** An operation that makes calls only: the device does not act. *)
Definition stays {A} (m : M A) : Prop :=
  forall s a s', m s = Done (a, s') -> state s' = state s.

Lemma stays_bind {A B} (m : M A) (f : A -> M B) :
  stays m -> (forall a, stays (f a)) -> stays (mbind f m).
Proof.
  intros Hm Hf s b s'. unfold mbind, M_bind. destruct (m s) as [[a s1]| |] eqn:H1; [|done..].
  intros H2. by rewrite (Hf a _ _ _ H2), (Hm _ _ _ H1).
Qed.

Lemma stays_ext c : stays (ext c).
Proof.
  intros s a s'. unfold ext. pose proof (serves_call (sys_env s) c) as Hc.
  destruct (env_call _ _) as [e r]. intros [= <- <-]. exact Hc.
Qed.

Lemma stays_read {A} (f : Core -> A) : stays (read f).
Proof. by intros s a s' [= <- <-]. Qed.

Lemma stays_write f : stays (write f).
Proof. by intros s a s' [= <- <-]. Qed.

Lemma stays_ret {A} (a : A) : stays (mret a).
Proof. by intros s b s' [= <- <-]. Qed.

Lemma stays_lift {A} (o : option A) : stays (lift o).
Proof. destruct o; [|done]. by intros s b s' [= <- <-]. Qed.

Lemma stays_read_tb k : stays (read_tb_loop k).
Proof.
  induction k as [|k IH]; [done|]. cbn [read_tb_loop].
  do 3 (apply stays_bind; [apply stays_ext|intros ?]).
  destruct (negb _); [exact IH|apply stays_ret].
Qed.

Lemma stays_deadline sec : stays (deadline sec).
Proof.
  unfold deadline, v9p_tb_freq_hz. apply stays_bind; [apply stays_read_tb|intros ?].
  apply stays_bind; [|intros ?; apply stays_ret].
  apply stays_bind; [apply stays_read|intros ?]. destruct (_ =? 0); [|apply stays_ret].
  apply stays_bind; [apply stays_ext|intros ?].
  apply stays_bind; [apply stays_write|intros ?]. apply stays_ret.
Qed.

Lemma stays_kick : stays vq_kick.
Proof.
  unfold vq_kick, the_vq, VirtQueue_Kick.
  repeat first [apply stays_read | apply stays_ext | apply stays_ret | apply stays_lift
               | apply stays_bind; [|intros ?] | case_match].
Qed.

Lemma wp_stays {A} H (m : M A) (Q : A -> Sys E Core -> Prop) s :
  stays m -> wp H m Q s -> wp H m (fun a s' => state s' = state s /\ Q a s') s.
Proof.
  intros Hm. unfold wp. specialize (Hm s). destruct (m s) as [[a s']| |]; [|done..].
  intros HQ. split; [by apply (Hm a)|done].
Qed.

(** The queue has nothing in flight, and room for a request. *)
Definition idle (c : Core) : Prop :=
  exists q fr, vq (hnd c) = Some q /\ queue_inv q fr [] [] /\ caught_up q /\
    (2 <= length fr)%nat.

Lemma idle_run s (Q : unit -> Sys E Core -> Prop) :
  idle (core s) ->
  (forall s', idle (core s') -> same_session (core s) (core s') -> state s' = state s ->
     rx_ram (core s') = rx_ram (core s) -> rx (core s') = rx (core s) -> Q tt s') ->
  wp False dev_run Q s.
Proof.
  intros (q & fr & Hq & Hi & Hcu & Hfr) HQ.
  destruct (serves_idle (sys_env s) (core s) q fr Hq Hi Hcu) as (Hst & Hi' & Hrx).
  unfold wp, dev_run. destruct (env_device _ _) as [e ef] eqn:Hd. rewrite ?Hd in *. cbn in *.
  apply HQ; cbn.
  - exists (used_after ef q), fr. split; [by rewrite apply_effect_vq, Hq|]. split; [done|].
    split; [by apply (caught_up_after q fr [])|done].
  - apply same_session_effect.
  - exact Hst.
  - unfold apply_effect. cbn. rewrite Hq. exact Hrx.
  - unfold apply_effect. cbn. by rewrite Hq.
Qed.

Lemma invalidate_idle n s (Q : unit -> Sys E Core -> Prop) :
  idle (core s) -> dma_range (rx_buf (hnd (core s))) n ->
  length (rx_ram (core s)) = length (rx (core s)) ->
  (forall s', idle (core s') -> same_session (core s) (core s') -> state s' = state s ->
     rx_ram (core s') = rx_ram (core s) ->
     take (Z.to_nat n) (rx (core s')) = take (Z.to_nat n) (rx_ram (core s)) -> Q tt s') ->
  wp False (cache_invalidate_rx n) Q s.
Proof.
  intros Hi (Ha & Hn & Hr) Hl HQ.
  assert (Hw : wp False (cache_invalidate_rx n) (fun u s' => idle (core s') /\
    state s' = state s /\ rx_ram (core s') = rx_ram (core s) /\
    take (Z.to_nat n) (rx (core s')) = take (Z.to_nat n) (rx_ram (core s))) s).
  { unfold cache_invalidate_rx. wp_step. apply idle_run; [done|]. intros s1 Hi1 Hss Hst Hm Hx.
    apply wp_write. cbn. split; [exact Hi1|]. do 2 (split; [done|]). rewrite Hm, Hx.
    rewrite (session_field rx_buf _ _ Hss) by done. by apply copy_lines_prefix. }
  eapply wp_mono; [apply wp_pres; [|exact Hw]; apply keeps_cache_invalidate|].
  intros [] s' [(H1 & H2 & H3 & H4) H5]. by apply HQ.
Qed.

(** The request is answered at the first look at the used ring. *)
Lemma getbuf_serves s q fr f n m (Q : Z * option Z -> Sys E Core -> Prop) :
  vq (hnd (core s)) = Some q -> queue_inv q fr [f] [] -> length (fl_chain f) = 2%nat ->
  published q (last_used_idx q) (fl_head f) ->
  dev_chain 2 (modern q) (desc q) (fl_head f) =
    Some [(tx_phys (hnd (core s)), n, false); (rx_phys (hnd (core s)), m, true)] ->
  let step := serve (state s) (take (Z.to_nat n) (tx_ram (core s))) in
  let resp := step.2 in
  Z.of_nat (length resp) <= m < 2 ^ 32 -> (length resp <= length (rx_ram (core s)))%nat ->
  (forall s', idle (core s') -> same_session (core s) (core s') -> state s' = step.1 ->
     rx_ram (core s') = written resp (rx_ram (core s)) ->
     Q (fl_cookie f, Some (Z.of_nat (length resp))) s') ->
  wp False vq_getbuf Q s.
Proof.
  intros Hq Hi Hlc Hpub Hch step resp Hm Hfit HQ.
  rewrite <- (used_nil _ _ _ Hi) in Hpub.
  destruct (serves_request (sys_env s) (core s) q fr f n m Hq Hi Hpub Hch Hm Hfit)
    as (Hst & Hi' & Hrx).
  assert (Hw : wp False vq_getbuf (fun r s' => r = (fl_cookie f, Some (Z.of_nat (length resp))) /\
    idle (core s') /\ state s' = step.1 /\ rx_ram (core s') = written resp (rx_ram (core s))) s).
  { unfold vq_getbuf, dev_run, the_vq. wp_step.
    destruct (env_device (sys_env s) (dev_view (core s))) as [e ef] eqn:Hd. cbn in Hst, Hi', Hrx.
    eapply wp_run; [by rewrite Hd|]. wp_step. wp_step. apply wp_read. cbn [core].
    rewrite apply_effect_vq, Hq. eapply wp_lift; [done|]. wp_step.
    destruct (GetBuf_inv _ _ _ _ _ _ (mkSys e (sys_log s) (apply_effect ef (core s))) Hi')
      as (q' & fs' & Hrun & Hp & Hi2 & Hav & _ & Hmo & Hla & Hus).
    eapply wp_run; [exact Hrun|]. wp_sys. cbn.
    apply Permutation_length in Hp. simpl in Hp. destruct fs'; [|done].
    split; [done|]. split.
    { eexists q', _. split; [done|]. split; [done|].
      split; [|rewrite length_app, length_rev; lia].
      unfold caught_up. rewrite (used_nil _ _ _ Hi2), Hla, Hav, Hmo. cbn.
      destruct Hpub as [_ ->]. by rewrite (used_nil _ _ _ Hi). }
    split; [exact Hst|].
    unfold apply_effect. cbn. by rewrite Hq. }
  eapply wp_mono; [apply wp_pres; [|exact Hw]; apply keeps_getbuf|].
  intros r s' [(-> & H2 & H3 & H4) H5]. by apply HQ.
Qed.

(** The header of the response is accepted. *)
Lemma accept_idle resp ram tag s (Q : bool -> Sys E Core -> Prop) :
  idle (core s) -> dma_range (rx_buf (hnd (core s))) 32 ->
  rx_ram (core s) = written resp ram -> length (rx_ram (core s)) = length (rx (core s)) ->
  7 <= Z.of_nat (length resp) <= msize (hnd (core s)) ->
  rd 4 0 resp = Z.of_nat (length resp) -> rd 2 5 resp = tag ->
  (forall s', idle (core s') -> same_session (core s) (core s') -> state s' = state s ->
     rx_ram (core s') = rx_ram (core s) -> Q true s') ->
  wp False (accept tag (Z.of_nat (length resp))) Q s.
Proof.
  intros Hi Hd Hram Hl Hlen Hsz Htag HQ. unfold accept. wp_step.
  apply invalidate_idle; [done..|]. intros s1 Hi1 Hss Hst Hm Hx. wp_step. apply wp_read.
  rewrite (same_session_msize _ _ Hss).
  destruct (Z.leb_spec 7 (Z.of_nat (length resp))), (Z.leb_spec (Z.of_nat (length resp))
    (msize (hnd (core s)))); try lia. simpl andb. cbv iota. wp_step. apply wp_read.
  assert (H7 : take 7 (rx (core s1)) = take 7 resp).
  { apply (f_equal (take 7)) in Hx. change (Z.to_nat 32) with 32%nat in Hx.
    rewrite !take_take in Hx. change (7 `min` 32)%nat with 7%nat in Hx. rewrite Hx, Hram.
    unfold written. by rewrite take_app_le by lia. }
  assert (Hrd : forall k off, 0 <= k -> 0 <= off -> off + k <= 7 ->
    rd k off (rx (core s1)) = rd k off resp).
  { intros k off Hk Ho Hko.
    rewrite (rd_prefix k off 7 (rx (core s1)) (take 7 resp)) by (done || lia).
    symmetry. apply (rd_prefix k off 7); (done || lia). }
  assert (Hlx : (7 <= length (rx (core s1)))%nat).
  { apply (f_equal length) in H7. rewrite !length_take in H7. lia. }
  assert (Hget : forall i, 0 <= i < 7 -> exists b, getb (rx (core s1)) i = Some b).
  { intros i Hi0. apply getb_is_Some. lia. }
  destruct (Hget 0) as (b0 & G0); [lia|]. destruct (Hget 1) as (b1 & G1); [lia|].
  destruct (Hget 2) as (b2 & G2); [lia|]. destruct (Hget 3) as (b3 & G3); [lia|].
  destruct (Hget 5) as (b5 & G5); [lia|]. destruct (Hget 6) as (b6 & G6); [lia|].
  wp_step. eapply wp_lift; [exact G0|]. wp_step. eapply wp_lift; [exact G1|].
  wp_step. eapply wp_lift; [exact G2|]. wp_step. eapply wp_lift; [exact G3|].
  wp_step. eapply wp_lift; [exact G5|]. wp_step. eapply wp_lift; [exact G6|].
  cbv zeta. wp_step. rewrite <- (rd2_bytes _ 5 b5 b6), <- (rd4_bytes _ 0 b0 b1 b2 b3) by done.
  rewrite !Hrd, Hsz, Htag, !Z.eqb_refl by lia. by apply HQ.
Qed.

Lemma deadline_core sec s :
  (2 <= fuel)%nat ->
  wp False (deadline sec) (fun _ s' => exists t, core s' = set_tb_cached t (core s)) s.
Proof.
  intros Hf. unfold deadline, v9p_tb_freq_hz. wp_step.
  eapply wp_mono; [by apply read_tb_wp|]. intros t s1 (Hc & _). wp_step. wp_step. apply wp_read.
  rewrite Hc. destruct (_ =? 0); wp_step.
  - wp_ext. wp_step. apply wp_write. wp_step. wp_step. cbn. rewrite Hc. by eexists.
  - wp_step. exists (tb_cached (core s)). rewrite Hc. by destruct (core s).
Qed.

Lemma kick_core s :
  is_Some (vq (hnd (core s))) -> wp False vq_kick (fun _ s' => core s' = core s) s.
Proof.
  intros [q Hq]. unfold vq_kick, the_vq, VirtQueue_Kick. wp_step. wp_step. apply wp_read.
  rewrite Hq. eapply wp_lift; [done|]. wp_step. apply wp_read. wp_step.
  destruct (modern q); wp_ext; by wp_step.
Qed.

(** A state in which the T-message of [n] bytes in tx_buf can be sent. *)
Record can_send (n : Z) (c : Core) : Prop := {
  cs_idle : idle c;
  cs_sized : sized c;
  cs_n : 7 <= n <= Z.of_nat (length (tx c));
  cs_tx_ram : length (tx c) = length (tx_ram c);
  cs_rx_ram : length (rx_ram c) = length (rx c);
  cs_tx_dma : dma_range (tx_buf (hnd c)) n;
  cs_rx_dma : dma_range (rx_buf (hnd c)) (Z.max 32 (Z.of_nat (length (rx c))));
  cs_cookie : tx_buf (hnd c) <> 0 }.

(** A well-formed response to [msg] that fits. *)
Record answer_ok (msg resp : list Z) (c : Core) : Prop := {
  an_len : 7 <= Z.of_nat (length resp) <= msize (hnd c);
  an_fits : (length resp <= length (rx c))%nat;
  an_size : rd 4 0 resp = Z.of_nat (length resp);
  an_tag : rd 2 5 resp = rd 2 5 msg }.

Lemma dma_range_le a n m : dma_range a m -> 0 <= n <= m -> dma_range a n.
Proof. unfold dma_range. lia. Qed.

(** Posting the request. *)
Lemma addbuf_idle n s (Q : Z -> Sys E Core -> Prop) :
  idle (core s) -> sized (core s) -> 0 <= n < 2 ^ 32 ->
  let h := hnd (core s) in
  (forall s' q fr f, vq (hnd (core s')) = Some q -> queue_inv q fr [f] [] ->
     length (fl_chain f) = 2%nat -> fl_cookie f = tx_buf h ->
     published q (last_used_idx q) (fl_head f) ->
     dev_chain 2 (modern q) (desc q) (fl_head f) =
       Some [(tx_phys h, n, false); (rx_phys h, msize h, true)] ->
     core s' = on_hnd (set_vq (Some q)) (core s) -> state s' = state s -> Q 0 s') ->
  wp False (vq_addbuf [mkSg (tx_phys h) n; mkSg (rx_phys h) (msize h)] (tx_buf h)) Q s.
Proof.
  intros (q & fr & Hq & Hi & Hcu & Hfr) [] Hn h HQ. unfold vq_addbuf, the_vq.
  wp_step. wp_step. apply wp_read. rewrite Hq. eapply wp_lift; [done|]. wp_step.
  destruct fr as [|x [|y fr]]; simpl in Hfr; try lia.
  destruct (AddBuf_inv q [x; y] fr [] [] [mkSg (tx_phys h) n; mkSg (rx_phys h) (msize h)]
    (tx_buf h)) as (q' & Hrun & Hi' & (Hav & Hai & Hch) & Hlu & Hnu & Hm & _);
    [done|done|done|apply sg_two; assumption|].
  eapply wp_lift; [exact Hrun|]. wp_sys.
  unfold caught_up in Hcu. rewrite (used_nil _ _ _ Hi) in Hcu. rewrite Hcu in Hav, Hai.
  eapply (HQ _ q'); [done|exact Hi'|done|done| | |done|done].
  - unfold published. by rewrite Hm, Hnu, Hlu.
  - rewrite Hm. exact Hch.
Qed.

(** Polling for a posted request: the first look at the used ring finds the
    response, and its header is accepted. *)
Lemma poll_delivers k d s q fr f n (Q : option Z -> Sys E Core -> Prop) :
  vq (hnd (core s)) = Some q -> queue_inv q fr [f] [] -> length (fl_chain f) = 2%nat ->
  published q (last_used_idx q) (fl_head f) ->
  dev_chain 2 (modern q) (desc q) (fl_head f) = Some [(tx_phys (hnd (core s)), n, false);
    (rx_phys (hnd (core s)), msize (hnd (core s)), true)] ->
  fl_cookie f <> 0 -> msize (hnd (core s)) < 2 ^ 32 ->
  length (rx_ram (core s)) = length (rx (core s)) -> dma_range (rx_buf (hnd (core s))) 32 ->
  let step := serve (state s) (take (Z.to_nat n) (tx_ram (core s))) in
  forall msg, answer_ok msg step.2 (core s) ->
  (forall s', idle (core s') -> same_session (core s) (core s') -> state s' = step.1 ->
     rx_ram (core s') = written step.2 (rx_ram (core s)) ->
     Q (Some (Z.of_nat (length step.2))) s') ->
  wp False (poll_loop (S k) (rd 2 5 msg) d 0 0) Q s.
Proof.
  intros Hq Hi Hlc Hpub Hch Hck Hms Hl Hd step msg [Hal Haf Has Hat] HQ. cbn [poll_loop]. wp_step.
  eapply (getbuf_serves s q fr f n (msize (hnd (core s)))); [done..|fold step; lia|fold step; lia|].
  fold step. intros s1 Hi1 Hss1 Hst1 Hram1. cbn [from_option id].
  destruct (Z.eqb_spec (fl_cookie f) 0); [done|]. wp_step.
  eapply (accept_idle step.2 (rx_ram (core s))); [done| |done| | |done|done|].
  { by rewrite (session_field rx_buf _ _ Hss1). }
  { by rewrite (ss_rx_ram _ _ Hss1), (ss_rx _ _ Hss1). }
  { by rewrite (session_field msize _ _ Hss1). }
  intros s2 Hi2 Hss2 Hst2 Hram2. wp_step.
  apply HQ; [done|by etransitivity|by rewrite Hst2|by rewrite Hram2].
Qed.

(** The tag of the message in tx_buf. *)
Lemma tx_tag n s :
  7 <= n <= Z.of_nat (length (tx (core s))) ->
  exists b5 b6, getb (tx (core s)) 5 = Some b5 /\ getb (tx (core s)) 6 = Some b6 /\
    Z.lor b5 (Z.shiftl b6 8) = rd 2 5 (take (Z.to_nat n) (tx (core s))).
Proof.
  intros Hn. destruct (getb_is_Some (tx (core s)) 5) as (b5 & H5); [lia|].
  destruct (getb_is_Some (tx (core s)) 6) as (b6 & H6); [lia|].
  exists b5, b6. do 2 (split; [done|]). rewrite <- (rd2_bytes _ 5 b5 b6) by done.
  apply (rd_prefix 2 5 (Z.to_nat n)); (done || lia).
Qed.

Lemma try_delivers n s :
  (2 <= fuel)%nat -> can_send n (core s) ->
  let msg := take (Z.to_nat n) (tx (core s)) in
  let resp := (serve (state s) msg).2 in
  answer_ok msg resp (core s) ->
  wp False (try_exchange n) (fun a s' => a = Received (Z.of_nat (length resp)) /\
    state s' = (serve (state s) msg).1 /\
    idle (core s') /\ take (length resp) (rx (core s')) = resp) s.
Proof.
  intros Hf [Hi Hsz Hn Hlt Hlr Hdt Hdr Hck] msg resp Han.
  unfold try_exchange. wp_step. apply wp_read.
  destruct (tx_tag n s Hn) as (b5 & b6 & H5 & H6 & Htag).
  wp_step. eapply wp_lift; [exact H5|]. wp_step. eapply wp_lift; [exact H6|]. cbv zeta.
  rewrite Htag. fold msg. wp_step. apply wp_write. wp_step. apply wp_read. wp_step.
  set (s1 := set_core _ s).
  assert (Hram : take (Z.to_nat n) (tx_ram (core s1)) = msg).
  { destruct Hdt as (? & ? & ?). by apply copy_lines_prefix. }
  apply (addbuf_idle n s1); [exact Hi|by destruct Hsz|destruct Hdt as (? & ? & ?); lia|].
  intros s2 q fr f Hq2 Hi2 Hlc Hfc Hpub Hch Hc2 Hst2. change (0 <? 0) with false. cbv iota. wp_step.
  eapply wp_mono; [apply wp_stays, kick_core; [apply stays_kick|by exists q]|].
  intros [] s3 [Hst3 Hc3]. wp_step.
  eapply wp_mono; [by apply wp_stays, deadline_core; [apply stays_deadline|]|].
  intros d s4 [Hst4 (t & Hc4)]. rewrite Hc3, Hc2 in Hc4.
  assert (Hst : state s4 = state s) by (rewrite Hst4, Hst3, Hst2; done).
  assert (Hstep : serve (state s4) (take (Z.to_nat n) (tx_ram (core s4))) = serve (state s) msg).
  { rewrite Hst, Hc4. cbn [tx_ram set_tb_cached on_hnd set_hnd]. by rewrite Hram. }
  wp_step. destruct fuel as [|k]; [lia|].
  apply (poll_delivers k d s4 q fr f n); rewrite ?Hstep; try (rewrite Hc4; done); try done.
  { by rewrite Hfc. } { rewrite Hc4. apply Hsz. }
  { rewrite Hc4. eapply dma_range_le; [exact Hdr|lia]. } { rewrite Hc4. by destruct Han. }
  fold resp. intros s5 Hi5 Hss5 Hst5 Hram5. wp_step.
  assert (Hrb : rx_buf (hnd (core s5)) = rx_buf (hnd (core s))).
  { rewrite (session_field rx_buf _ _ Hss5), Hc4 by done. done. }
  apply invalidate_idle; [done| | |].
  { rewrite Hrb. eapply dma_range_le; [exact Hdr|]. destruct Han. lia. }
  { rewrite (ss_rx_ram _ _ Hss5), (ss_rx _ _ Hss5), Hc4. exact Hlr. }
  intros s7 Hi7 Hss7 Hst7 Hram7 Hx7. wp_step. split; [done|].
  split; [by rewrite Hst7, Hst5|]. split; [done|].
  rewrite Nat2Z.id, Hram5 in Hx7. rewrite Hx7. apply take_app_length.
Qed.
End deliver.

(** ** The claim *)


(** ** A serving device

    It polls the available ring, in either byte order, and answers in order. *)

Definition serving {St : Type} (serve : St -> list Z -> St * list Z) (st : St) (v : DevView)
    : St * DevEffect :=
  match dv_vq v with
  | None => (st, no_effect)
  | Some q =>
      let m := modern q in
      let i := vr16 m (us_idx (used q)) in
      if i =? vr16 m (av_idx (avail q)) then (st, no_effect)
      else
        let h := vr16 m (default 0 (geti (av_ring (avail q)) (i mod num q))) in
        match dev_chain 2 m (desc q) h with
        | Some ((_, n, _) :: _) =>
            let '(st, resp) := serve st (take (Z.to_nat n) (dv_tx v)) in
            (st, mkDevEffect [(i mod num q, vr32 m h, vr32 m (Z.of_nat (length resp)))]
              (Some (vr16 m (u16 (i + 1)))) [(0, resp)])
        | _ => (st, no_effect)
        end
  end.

(** Its machine: the clock of [tick_env], and the state of the server. *)
Definition server_env {St : Type} (serve : St -> list Z -> St * list Z) : Env (Z * St) DevView :=
  mkEnv (Z * St) DevView
    (fun e c => let '(t, r) := @env_call _ _ tick_env e.1 c in ((t, e.2), r))
    (fun e v => let '(st, ef) := serving serve e.2 v in ((tick e.1, st), ef))
    0xDEADBEEF 72 4 0x80000000.

Lemma server_clock {St : Type} (serve : St -> list Z -> St * list Z) :
  @Clock (Z * St) (server_env serve).
Proof.
  refine (@Build_Clock _ (server_env serve) (fun e => tick_now e.1) _ _ _ _ _ _ _);
    intros; try reflexivity; unfold tick_now in *;
    cbn [env_call env_device server_env tick_env clocked fst] in *;
    [unfold tick; lia..|]. destruct (serving _ _ _). cbn. unfold tick. lia.
Defined.

Lemma vr32_range m v : 0 <= v < 2 ^ 32 -> 0 <= vr32 m v < 2 ^ 32.
Proof. destruct m; [intros _; apply (bswap_range 4)|done]. Qed.

Lemma u8_bytes b : Forall is_byte b -> u8 <$> b = b.
Proof.
  induction 1 as [|x b Hx _ IH]; [done|]. rewrite fmap_cons, IH, u8_small; [done|exact Hx].
Qed.

(** One completion is published. *)
Lemma publish q fr f len :
  queue_inv q fr [f] [] -> 0 <= len < 2 ^ 32 ->
  let m := modern q in let i := last_used_idx q in
  queue_inv (used_after (mkDevEffect [(i mod num q, vr32 m (fl_head f), vr32 m len)]
    (Some (vr16 m (u16 (i + 1)))) []) q) fr [f] [(f, len)].
Proof.
  intros [Hrep Hev Hp Hu] Hlen m i. pose proof (rep_num _ _ _ Hrep) as Hnum.
  pose proof (rep_last _ _ _ Hrep) as Hlast. pose proof (rep_used _ _ _ Hrep) as Hul.
  destruct (reap_facts q fr [] f [] Hrep) as (_ & Hh & _).
  pose proof (Z.mod_pos_bound i (num q) ltac:(lia)) as Hslot.
  pose proof (u16_range (i + 1)) as Hi1. pose proof (vr16_range m _ Hi1) as Hv.
  pose proof (vr32_range m (fl_head f) ltac:(lia)) as Hh32.
  pose proof (vr32_range m len Hlen) as Hl32.
  unfold used_after. cbn [ef_used ef_idx fold_left dev_used dev_idx us_flags us_idx us_ring].
  destruct (Z.leb_spec 0 (i mod num q)); [|lia].
  rewrite (u16_small (vr16 m _)), (u32_small (vr32 m (fl_head f))), (u32_small (vr32 m len)) by lia.
  split; [|done|by exists []|].
  - destruct Hrep. split; try done. cbn. by rewrite length_insert.
  - split; cbn [modern used us_idx set_used last_used_idx us_ring num length].
    + fold m i. rewrite vr16_vr16 by lia. done.
    + intros [|k] g l; [|done]. intros [= <- <-]. fold m i.
      rewrite Z.add_0_r, u16_small by (unfold i; lia).
      exists (mkElem (vr32 m (fl_head f)) (vr32 m len)). cbn [ue_id ue_len].
      rewrite !vr32_vr32 by lia. split; [|done].
      unfold geti. destruct (Z.leb_spec 0 (i mod num q)); [|lia].
      apply list_lookup_insert_eq. lia.
Qed.

Lemma serving_serves {St : Type} (serve : St -> list Z -> St * list Z) :
  (forall st req, Forall is_byte (serve st req).2) ->
  @Serves (Z * St) (server_env serve) St snd serve.
Proof.
  intros Hbytes. split.
  - done.
  - intros e c q fr Hq Hi Hcu ef. subst ef. cbn [env_device server_env].
    assert (serving serve e.2 (dev_view c) = (e.2, no_effect)) as ->.
    { unfold serving. cbn. rewrite Hq. unfold caught_up in Hcu. by rewrite Hcu, Z.eqb_refl. }
    split; [done|]. split; [|done]. by rewrite used_after_none.
  - intros e c q fr f n m Hq Hi Hpub Hch ef req resp Hm Hfit.
    pose proof (rep_last _ _ _ (qi_rep _ _ _ _ Hi)) as Hlast.
    destruct (reap_facts q fr [] f [] (qi_rep _ _ _ _ Hi)) as (_ & Hh & _).
    pose proof (rep_num _ _ _ (qi_rep _ _ _ _ Hi)) as Hnum.
    rewrite (used_nil _ _ _ Hi) in Hpub. destruct Hpub as [Hg Hav].
    assert (Hne : last_used_idx q <> u16 (last_used_idx q + 1)).
    { intros Heq. unfold u16 in Heq. destruct (decide (last_used_idx q = 65535)) as [E1|].
      - by rewrite E1 in Heq.
      - rewrite Z.mod_small in Heq; lia. }
    subst ef. cbn [env_device server_env].
    assert (serving serve e.2 (dev_view c) = ((serve e.2 req).1,
      mkDevEffect [(last_used_idx q mod num q, vr32 (modern q) (fl_head f),
        vr32 (modern q) (Z.of_nat (length resp)))]
      (Some (vr16 (modern q) (u16 (last_used_idx q + 1)))) [(0, resp)])) as ->.
    { unfold serving. cbn [dv_vq dv_tx dev_view]. rewrite Hq.
      rewrite (used_nil _ _ _ Hi), Hav, Hg. destruct (Z.eqb_spec (last_used_idx q)
        (u16 (last_used_idx q + 1))); [done|]. cbn [from_option id].
      rewrite vr16_vr16, Hch by lia. fold req. unfold resp. by destruct (serve e.2 req). }
    cbn [fst snd]. split; [done|]. split; [apply (publish q fr f (Z.of_nat (length resp)) Hi); lia|].
    cbn [ef_rx fold_left]. unfold dev_rx, written. cbn [fst snd].
    rewrite (u8_bytes resp) by apply Hbytes. by rewrite blit_Some by lia.
Qed.

(** A server that answers everything with Rlerror ENOENT. *)
Definition refuse (req : list Z) : list Z :=
  [11; 0; 0; 0; 7; u8 (nth 5 req 0); u8 (nth 6 req 0); 2; 0; 0; 0].

Lemma refuse_bytes req : Forall is_byte (refuse req).
Proof. unfold refuse, is_byte. repeat constructor; try lia; apply u8_range. Qed.

(** A server without a state. *)
Definition stateless (f : list Z -> list Z) (st : unit) (req : list Z) : unit * list Z :=
  (st, f req).

(** A server that counts its requests, and refuses them. *)
Definition counting (st : Z) (req : list Z) : Z * list Z := (st + 1, refuse req).

