(* ===== verification/Fuse.v ===== *)
(** * Fuse: the FileSysBox callbacks

    The callbacks of src/fuse_ops.c, over the 9P client calls.  Each works on
    the global handler; a path is walked to a fid of its own, which is clunked
    and given back to the pool unless it becomes the handle of an open file.

    Strings are lists of their bytes without the terminator; the local arrays
    of the C code are lists of their full size, which start with arbitrary
    content.  The types of the SDK headers (mode_t and the like) are parameters:
    [SdkTypes] has the conversion to each of them.  The directory filler of
    FileSysBox is an external call. *)

From S2P Require Import Prelude Platform CString Marshal FidPool VirtQueue Handler P9Client.

(** ** Strings in arrays of their own *)

(** Two objects are laid out one after the other, and the string functions of
    CString.v run on this memory. *)
Definition str_cmp (a b : list Z) : option Z :=
  strcmp (a ++ [0] ++ b ++ [0]) 0 (Z.of_nat (length a) + 1).

Definition str_rchr (s : list Z) (c : Z) : option (option Z) := strrchr (s ++ [0]) 0 c.

Definition strncpy_to (dst src : list Z) (n : Z) : option (list Z) :=
  mem ← strncpy (dst ++ src ++ [0]) 0 (Z.of_nat (length dst)) (Z.to_nat n);
  Some (take (length dst) mem).

Definition memcpy_to (dst src : list Z) (n : Z) : option (list Z) :=
  mem ← memcpy (dst ++ src ++ [0]) 0 (Z.of_nat (length dst)) (Z.to_nat n);
  Some (take (length dst) mem).

(** [strncpy(dst, src, sizeof(dst) - 1); dst[sizeof(dst) - 1] = 0;] *)
Definition str_copy (dst src : list Z) : option (list Z) :=
  let max := Z.of_nat (length dst) in
  dst ← strncpy_to dst src (max - 1);
  setb dst (max - 1) 0.

Definition SLASH : Z := 47.

(** The two output arrays, filled. *)
Definition split_path (path parent name : list Z) : option (list Z * list Z) :=
  eq ← str_cmp path [SLASH];
  if eq =? 0 then
    parent ← str_copy parent [SLASH];
    name ← setb name 0 0;
    Some (parent, name)
  else
    last_slash ← str_rchr path SLASH;
    match last_slash with
    | None =>
        parent ← str_copy parent [SLASH];
        name ← str_copy name path;
        Some (parent, name)
    | Some p =>
        if p =? 0 then
          parent ← str_copy parent [SLASH];
          name ← str_copy name (drop 1 path);
          Some (parent, name)
        else
          let parent_max := Z.of_nat (length parent) in
          let plen := if parent_max <=? p then parent_max - 1 else p in
          parent ← memcpy_to parent path plen;
          parent ← setb parent plen 0;
          name ← str_copy name (drop (Z.to_nat p + 1) path);
          Some (parent, name)
    end.

(** ** Structures of FileSysBox and the C library *)

Class SdkTypes := mkSdkTypes {
  to_mode_t : Z -> Z; to_nlink_t : Z -> Z; to_fbx_uid_t : Z -> Z; to_fbx_gid_t : Z -> Z;
  to_dev_t : Z -> Z; to_fbx_off_t : Z -> Z; to_ino_t : Z -> Z; to_time_t : Z -> Z;
  to_fsblkcnt_t : Z -> Z; to_fsfilcnt_t : Z -> Z }.

Record fbx_stat := mkFbxStat {
  fs_mode : Z; fs_nlink : Z; fs_uid : Z; fs_gid : Z; fs_rdev : Z; fs_size : Z;
  fs_blocks : Z; fs_blksize : Z; fs_ino : Z; fs_atime : Z; fs_atimensec : Z;
  fs_mtime : Z; fs_mtimensec : Z; fs_ctime : Z; fs_ctimensec : Z }.

Record statvfs := mkStatvfs {
  f_bsize : Z; f_frsize : Z; f_blocks : Z; f_bfree : Z; f_bavail : Z; f_files : Z;
  f_ffree : Z; f_favail : Z; f_fsid : Z; f_namemax : Z }.

Record fuse_file_info := mkFileInfo { fi_flags : Z; fi_fh : Z }.

Record timespec := mkTimespec { tv_sec : Z; tv_nsec : Z }.

(** [(int64)] of an unsigned value. *)
Definition s64 (z : Z) : Z := let m := u64 z in if m <? 2 ^ 63 then m else m - 2 ^ 64.

Definition p9stat_to_fbxstat `{!SdkTypes} (p9 : P9Stat) : fbx_stat :=
  mkFbxStat (to_mode_t (st_mode p9)) (to_nlink_t (st_nlink p9)) (to_fbx_uid_t (st_uid p9))
    (to_fbx_gid_t (st_gid p9)) (to_dev_t (st_rdev p9)) (to_fbx_off_t (st_size p9))
    (s64 (st_blocks p9)) (s32 (st_blksize p9)) (to_ino_t (qid_path (st_qid p9)))
    (to_time_t (st_atime_sec p9)) (u32 (st_atime_nsec p9))
    (to_time_t (st_mtime_sec p9)) (u32 (st_mtime_nsec p9))
    (to_time_t (st_ctime_sec p9)) (u32 (st_ctime_nsec p9)).

(** The permission bits come from the caller, the file type from the server. *)
Definition chmod_mode (old mode : Z) : Z :=
  Z.lor (Z.land old (Z.lnot 0xFFF)) (Z.land (u32 mode) 0xFFF).

(** ** The knobs of a debug build *)

Definition V9P_DEBUG_RESET_PATH : list Z :=
  [47;95;118;57;112;95;100;101;98;117;103;95;114;101;115;101;116;95;110;111;119].
Definition V9P_DEBUG_ORPHANS_PATH : list Z :=
  [47;95;118;57;112;95;100;101;98;117;103;95;111;114;112;104;97;110;95;99;111;117;110;116].
Definition V9P_DEBUG_TAG_PATH : list Z :=
  [47;95;118;57;112;95;100;101;98;117;103;95;110;101;120;116;95;116;97;103].

(** mode 0100444 *)
Definition debug_stat (size : Z) : fbx_stat :=
  mkFbxStat 0x8124 0 0 0 0 size 0 0 0 0 0 0 0 0 0.

Section callbacks.
Context {E : Type} `{EnvI : !Env E DevView} `{FuelI : !Fuel} `{SdkI : !SdkTypes}.
Abbreviation M := (M (Sys E Core)).

(** [DEBUG], the transport, and V9P_Reset (called by a debug knob). *)
Context (debug : bool) (transact : Z -> M Z) (V9P_Reset : M bool).

(** ** The pool of the handler; a NULL pool is dereferenced *)

Definition the_pool : M FidPool := p ← read (fun c => fid_pool (hnd c)); lift p.
Definition put_pool (p : FidPool) : M unit := write (on_hnd (set_fid_pool (Some p))).

Definition fid_alloc : M Z :=
  p ← the_pool; '(p, fid) ← FidPool_Alloc p; _ ← put_pool p; mret fid.
Definition fid_free (fid : Z) : M unit :=
  p ← the_pool; p ← FidPool_Free p fid; put_pool p.
Definition fid_orphan (fid : Z) : M unit :=
  p ← the_pool; p ← FidPool_MarkOrphan p fid; put_pool p.

(** [P9_Clunk(h, fid); FidPool_Free(h->fid_pool, fid);] *)
Definition clunk_free (fid : Z) : M unit := _ ← P9_Clunk transact fid; fid_free fid.

(** The error and, on success, the fid. *)
Definition walk_to (path : list Z) : M (Z * option Z) :=
  fid ← fid_alloc;
  root ← read (fun c => root_fid (hnd c));
  err ← P9_Walk transact root fid path;
  if negb (err =? 0) then
    _ ← (if err =? -5 then fid_orphan fid else fid_free fid);
    mret (err, None)
  else mret (0, Some fid).

(** An uninitialised array on the stack. *)
Definition array (n : nat) : list Z := replicate n (u8 env_garbage).

(** [char parent[1024], name[256]; split_path(path, ...)] *)
Definition split (path : list Z) : M (list Z * list Z) :=
  '(parent, name) ← lift (split_path path (array 1024) (array 256));
  mret (cstr_of parent, cstr_of name).

(** ** Attributes *)

Definition v9p_getattr_file (path : list Z) : M (Z * option fbx_stat) :=
  w ← walk_to path;
  match w with
  | (err, None) => mret (err, None)
  | (_, Some fid) =>
      '(err, p9st) ← P9_Getattr transact fid P9_GETATTR_BASIC;
      _ ← clunk_free fid;
      if negb (err =? 0) then mret (err, None)
      else p9st ← lift p9st; mret (0, Some (p9stat_to_fbxstat p9st))
  end.

Definition v9p_getattr (path : list Z) : M (Z * option fbx_stat) :=
  if debug then
    c ← lift (str_cmp path V9P_DEBUG_RESET_PATH);
    if c =? 0 then
      ok ← V9P_Reset;
      mret (0, Some (debug_stat (if ok : bool then 1 else 0)))
    else
    c ← lift (str_cmp path V9P_DEBUG_ORPHANS_PATH);
    if c =? 0 then
      n ← read (fun c => FidPool_OrphanCount (fid_pool (hnd c)));
      mret (0, Some (debug_stat (to_fbx_off_t n)))
    else
    c ← lift (str_cmp path V9P_DEBUG_TAG_PATH);
    if c =? 0 then
      n ← read (fun c => next_tag (hnd c));
      mret (0, Some (debug_stat (to_fbx_off_t n)))
    else v9p_getattr_file path
  else v9p_getattr_file path.

(** ** Directories *)

Definition v9p_opendir (path : list Z) (fi : fuse_file_info) : M (Z * fuse_file_info) :=
  w ← walk_to path;
  match w with
  | (err, None) => mret (err, fi)
  | (_, Some fid) =>
      '(err, _) ← P9_Lopen transact fid 0 false;
      if negb (err =? 0) then _ ← clunk_free fid; mret (err, fi)
      else mret (0, mkFileInfo (fi_flags fi) fid)
  end.

(** The entries of one response: qid[13] offset[8] type[1] name[s].  The
    result is the offset of the last entry, and whether the filler is full. *)
Fixpoint entries_loop (k : nat) (data : list Z) (actual pos dir_offset : Z) : M (Z * bool) :=
  match k with
  | O => hang
  | S k =>
      if pos <? actual then
        if actual <? u32 (pos + 24) then mret (dir_offset, false)
        else
          '(_, pos) ← lift (p9_get_qid data pos);
          '(dir_offset, pos) ← lift (p9_get_u64 data pos);
          '(_, pos) ← lift (p9_get_u8 data pos);
          '(name, pos) ← lift (p9_get_str data actual pos (array 256) 256);
          full ← ext (FillDir (cstr_of name));
          if negb (full =? 0) then mret (dir_offset, true)
          else entries_loop k data actual pos dir_offset
      else mret (dir_offset, false)
  end.

Fixpoint readdir_loop (k : nat) (fid max_count dir_offset : Z) : M Z :=
  match k with
  | O => hang
  | S k =>
      '(err, r) ← P9_Readdir transact fid dir_offset max_count;
      if negb (err =? 0) then mret err else
      '(roff, actual) ← lift r;
      if actual =? 0 then mret 0 else
      data ← read (fun c => drop (Z.to_nat roff) (rx c));
      '(dir_offset, full) ← entries_loop (S (Z.to_nat actual)) data actual 0 dir_offset;
      if full : bool then mret 0 else readdir_loop k fid max_count dir_offset
  end.

Definition v9p_readdir (fi : fuse_file_info) : M Z :=
  max_count ← read (fun c => u32 (msize (hnd c) - 11));
  readdir_loop fuel (u32 (fi_fh fi)) max_count 0.

Definition v9p_releasedir (fi : fuse_file_info) : M Z :=
  _ ← clunk_free (u32 (fi_fh fi)); mret 0.

(** ** Files *)

(** [(uint32)fi->flags & (0x3 | 0x08 | 0x200)] *)
Definition open_flags (fi : fuse_file_info) : Z :=
  Z.land (u32 (fi_flags fi)) (Z.lor 0x3 (Z.lor 0x08 0x200)).

Definition v9p_open (path : list Z) (fi : fuse_file_info) : M (Z * fuse_file_info) :=
  w ← walk_to path;
  match w with
  | (err, None) => mret (err, fi)
  | (_, Some fid) =>
      '(err, _) ← P9_Lopen transact fid (open_flags fi) false;
      if negb (err =? 0) then _ ← clunk_free fid; mret (err, fi)
      else mret (0, mkFileInfo (fi_flags fi) fid)
  end.

Definition v9p_release (fi : fuse_file_info) : M Z :=
  _ ← clunk_free (u32 (fi_fh fi)); mret 0.

(** The result: the value returned and the caller's buffer. *)
Fixpoint read_loop (k : nat) (fid off size : Z) (buf : list Z) (total_read : Z)
    : M (Z * list Z) :=
  match k with
  | O => hang
  | S k =>
      if total_read <? size then
        '(err, r) ← P9_Read transact fid (u64 (off + total_read)) (size - total_read);
        if negb (err =? 0) then mret (err, buf) else
        bytes ← lift r;
        buf ← lift (blit buf total_read bytes);
        let actual := Z.of_nat (length bytes) in
        if actual =? 0 then mret (s32 total_read, buf)
        else read_loop k fid off size buf (u32 (total_read + actual))
      else mret (s32 total_read, buf)
  end.

(** Every round adds at least one byte to [total_read]. *)
Definition v9p_read (buf : list Z) (size off : Z) (fi : fuse_file_info) : M (Z * list Z) :=
  read_loop (S (Z.to_nat (u32 size))) (u32 (fi_fh fi)) off (u32 size) buf 0.

Fixpoint write_loop (k : nat) (fid off size : Z) (buf : list Z) (total_written : Z) : M Z :=
  match k with
  | O => hang
  | S k =>
      if total_written <? size then
        '(err, r) ← P9_Write transact fid (u64 (off + total_written)) (size - total_written)
          (drop (Z.to_nat total_written) buf);
        if negb (err =? 0) then mret err else
        actual ← lift r;
        if actual =? 0 then mret (s32 total_written)
        else write_loop k fid off size buf (u32 (total_written + actual))
      else mret (s32 total_written)
  end.

Definition v9p_write (buf : list Z) (size off : Z) (fi : fuse_file_info) : M Z :=
  write_loop fuel (u32 (fi_fh fi)) off (u32 size) buf 0.

Definition v9p_create (path : list Z) (mode : Z) (fi : fuse_file_info)
    : M (Z * fuse_file_info) :=
  '(parent, name) ← split path;
  w ← walk_to parent;
  match w with
  | (err, None) => mret (err, fi)
  | (_, Some dfid) =>
      '(err, _) ← P9_Lcreate transact dfid name (open_flags fi) (u32 mode) false;
      if negb (err =? 0) then _ ← clunk_free dfid; mret (err, fi)
      else mret (0, mkFileInfo (fi_flags fi) dfid)
  end.

(** ** Names *)

Definition v9p_mkdir (path : list Z) (mode : Z) : M Z :=
  '(parent, name) ← split path;
  w ← walk_to parent;
  match w with
  | (err, None) => mret err
  | (_, Some dfid) =>
      err ← P9_Mkdir transact dfid name (u32 mode);
      _ ← clunk_free dfid;
      mret err
  end.

Definition v9p_unlink (path : list Z) : M Z :=
  '(parent, name) ← split path;
  w ← walk_to parent;
  match w with
  | (err, None) => mret err
  | (_, Some dfid) =>
      err ← P9_Unlinkat transact dfid name 0;
      _ ← clunk_free dfid;
      mret err
  end.

Definition v9p_rmdir (path : list Z) : M Z :=
  '(parent, name) ← split path;
  w ← walk_to parent;
  match w with
  | (err, None) => mret err
  | (_, Some dfid) =>
      err ← P9_Unlinkat transact dfid name P9_AT_REMOVEDIR;
      _ ← clunk_free dfid;
      mret err
  end.

Definition v9p_rename (oldpath newpath : list Z) : M Z :=
  '(oldparent, oldname) ← split oldpath;
  '(newparent, newname) ← split newpath;
  w ← walk_to oldparent;
  match w with
  | (err, None) => mret err
  | (_, Some olddirfid) =>
      w ← walk_to newparent;
      match w with
      | (err, None) => _ ← clunk_free olddirfid; mret err
      | (_, Some newdirfid) =>
          err ← P9_Renameat transact olddirfid oldname newdirfid newname;
          _ ← P9_Clunk transact olddirfid;
          _ ← P9_Clunk transact newdirfid;
          _ ← fid_free olddirfid;
          _ ← fid_free newdirfid;
          mret err
      end
  end.

Definition v9p_symlink (target path : list Z) : M Z :=
  '(parent, name) ← split path;
  w ← walk_to parent;
  match w with
  | (err, None) => mret err
  | (_, Some dfid) =>
      err ← P9_Symlink transact dfid name target;
      _ ← clunk_free dfid;
      mret err
  end.

(** [buf] is the caller's array; it is written only on success. *)
Definition v9p_readlink (path buf : list Z) (size : Z) : M (Z * list Z) :=
  w ← walk_to path;
  match w with
  | (err, None) => mret (err, buf)
  | (_, Some fid) =>
      '(err, r) ← P9_Readlink transact fid buf (u32 size);
      _ ← clunk_free fid;
      mret (err, default buf r)
  end.

Definition v9p_link (oldpath newpath : list Z) : M Z :=
  '(parent, name) ← split newpath;
  w ← walk_to oldpath;
  match w with
  | (err, None) => mret err
  | (_, Some srcfid) =>
      w ← walk_to parent;
      match w with
      | (err, None) => _ ← clunk_free srcfid; mret err
      | (_, Some dfid) =>
          err ← P9_Link transact dfid srcfid name;
          _ ← P9_Clunk transact dfid;
          _ ← P9_Clunk transact srcfid;
          _ ← fid_free dfid;
          _ ← fid_free srcfid;
          mret err
      end
  end.

(** ** Changing attributes *)

Definition size_attr (size : Z) : P9Iattr :=
  mkP9Iattr P9_SETATTR_SIZE 0 0 0 (u64 size) 0 0 0 0.

Definition v9p_truncate (path : list Z) (size : Z) : M Z :=
  w ← walk_to path;
  match w with
  | (err, None) => mret err
  | (_, Some fid) =>
      err ← P9_Setattr transact fid (size_attr size);
      _ ← clunk_free fid;
      mret (if negb (err =? 0) then err else s32 size)
  end.

Definition v9p_ftruncate (size : Z) (fi : fuse_file_info) : M Z :=
  err ← P9_Setattr transact (u32 (fi_fh fi)) (size_attr size);
  mret (if negb (err =? 0) then err else s32 size).

Definition v9p_statfs : M (Z * option statvfs) :=
  root ← read (fun c => root_fid (hnd c));
  '(err, r) ← P9_Statfs transact root;
  if negb (err =? 0) then mret (err, None) else
  p9st ← lift r;
  mret (0, Some (mkStatvfs (sf_bsize p9st) (sf_bsize p9st) (to_fsblkcnt_t (sf_blocks p9st))
    (to_fsblkcnt_t (sf_bfree p9st)) (to_fsblkcnt_t (sf_bavail p9st))
    (to_fsfilcnt_t (sf_files p9st)) (to_fsfilcnt_t (sf_ffree p9st))
    (to_fsfilcnt_t (sf_ffree p9st)) (u32 (sf_fsid p9st)) (sf_namelen p9st))).

Definition time_attr (atime mtime : timespec) : P9Iattr :=
  mkP9Iattr (Z.lor (Z.lor P9_SETATTR_ATIME P9_SETATTR_ATIME_SET)
               (Z.lor P9_SETATTR_MTIME P9_SETATTR_MTIME_SET))
    0 0 0 0 (u64 (tv_sec atime)) (u64 (tv_nsec atime))
    (u64 (tv_sec mtime)) (u64 (tv_nsec mtime)).

Definition v9p_utimens (path : list Z) (atime mtime : timespec) : M Z :=
  w ← walk_to path;
  match w with
  | (err, None) => mret err
  | (_, Some fid) =>
      err ← P9_Setattr transact fid (time_attr atime mtime);
      _ ← clunk_free fid;
      mret err
  end.

Definition v9p_fsync (datasync : Z) (fi : option fuse_file_info) : M Z :=
  match fi with
  | None => mret 0
  | Some fi => P9_Fsync transact (u32 (fi_fh fi)) (if datasync =? 0 then 0 else 1)
  end.

Definition v9p_chmod (path : list Z) (mode : Z) : M Z :=
  w ← walk_to path;
  match w with
  | (err, None) => mret err
  | (_, Some fid) =>
      '(err, r) ← P9_Getattr transact fid P9_GETATTR_MODE;
      if negb (err =? 0) then _ ← clunk_free fid; mret err
      else
        p9st ← lift r;
        err ← P9_Setattr transact fid
          (mkP9Iattr P9_SETATTR_MODE (chmod_mode (st_mode p9st) mode) 0 0 0 0 0 0 0);
        _ ← clunk_free fid;
        mret err
  end.

Definition v9p_chown (path : list Z) (uid gid : Z) : M Z :=
  w ← walk_to path;
  match w with
  | (err, None) => mret err
  | (_, Some fid) =>
      err ← P9_Setattr transact fid
        (mkP9Iattr (Z.lor P9_SETATTR_UID P9_SETATTR_GID) 0 (u32 uid) (u32 gid) 0 0 0 0 0);
      _ ← clunk_free fid;
      mret err
  end.

(** [conn->volume_name], when there is a [conn]. *)
Definition v9p_init (volume_name : option (list Z)) : M (option (list Z)) :=
  match volume_name with
  | None => mret None
  | Some volume_name =>
      tag ← read (fun c => mount_tag (hnd c));
      volume_name ← lift (str_copy volume_name (cstr_of tag));
      mret (Some volume_name)
  end.

Definition v9p_destroy : M unit := mret tt.

(** ** The table of callbacks *)

Record fuse_operations := mkOperations {
  op_init : option (list Z) -> M (option (list Z));
  op_destroy : M unit;
  op_getattr : list Z -> M (Z * option fbx_stat);
  op_opendir : list Z -> fuse_file_info -> M (Z * fuse_file_info);
  op_readdir : fuse_file_info -> M Z;
  op_releasedir : fuse_file_info -> M Z;
  op_open : list Z -> fuse_file_info -> M (Z * fuse_file_info);
  op_release : fuse_file_info -> M Z;
  op_read : list Z -> Z -> Z -> fuse_file_info -> M (Z * list Z);
  op_write : list Z -> Z -> Z -> fuse_file_info -> M Z;
  op_create : list Z -> Z -> fuse_file_info -> M (Z * fuse_file_info);
  op_mkdir : list Z -> Z -> M Z;
  op_unlink : list Z -> M Z;
  op_rmdir : list Z -> M Z;
  op_rename : list Z -> list Z -> M Z;
  op_truncate : list Z -> Z -> M Z;
  op_ftruncate : Z -> fuse_file_info -> M Z;
  op_fsync : Z -> option fuse_file_info -> M Z;
  op_symlink : list Z -> list Z -> M Z;
  op_readlink : list Z -> list Z -> Z -> M (Z * list Z);
  op_link : list Z -> list Z -> M Z;
  op_chmod : list Z -> Z -> M Z;
  op_chown : list Z -> Z -> Z -> M Z;
  op_statfs : M (Z * option statvfs);
  op_utimens : list Z -> timespec -> timespec -> M Z }.

Definition V9P_FillOperations : fuse_operations :=
  mkOperations v9p_init v9p_destroy v9p_getattr v9p_opendir v9p_readdir v9p_releasedir
    v9p_open v9p_release v9p_read v9p_write v9p_create v9p_mkdir v9p_unlink v9p_rmdir
    v9p_rename v9p_truncate v9p_ftruncate v9p_fsync v9p_symlink v9p_readlink v9p_link
    v9p_chmod v9p_chown v9p_statfs v9p_utimens.
End callbacks.
