(* ===== verification/FusePath.v ===== *)
(** * FusePath: split_path divides a path into directory and name

    The in-place string code of [split_path] is compared with a division at
    the last slash; the division is the one that makes walking the directory
    and then naming the entry the same as walking the path. *)

From S2P Require Import Prelude Platform CString Marshal FidPool VirtQueue Handler P9Client P9Correct P9Walk Fuse.

(** The content of a C string. *)
Definition str_ok (s : list Z) : Prop := Forall (fun c => 0 < c < 256) s.

Lemma str_ok_nz s : str_ok s -> Forall (fun c => c <> 0) s.
Proof. apply Forall_impl. lia. Qed.

Lemma str_ok_bytes s : str_ok s -> Forall is_byte s.
Proof. apply Forall_impl. unfold is_byte. lia. Qed.

Lemma str_ok_take n s : str_ok s -> str_ok (take n s).
Proof. apply Forall_take. Qed.

Lemma str_ok_drop n s : str_ok s -> str_ok (drop n s).
Proof. apply Forall_drop. Qed.

Create HintDb strings.
#[export] Hint Resolve str_ok_nz str_ok_bytes str_ok_take str_ok_drop : strings.

(** ** The string functions on separate objects *)

Lemma cstr_at a s rest : Forall (fun c => c <> 0) s ->
  cstr (a ++ s ++ [0] ++ rest) (Z.of_nat (length a)) s.
Proof.
  intros Hs. split_and!; [lia|done|]. unfold slice.
  rewrite Nat2Z.id, drop_app_length, app_assoc.
  apply take_app_length'. rewrite length_app. simpl. lia.
Qed.

Lemma str_cmp_spec a b : str_ok a -> str_ok b ->
  exists r, str_cmp a b = Some r /\ (r = 0 <-> a = b).
Proof.
  intros Ha Hb. apply strcmp_zero_iff.
  - apply (cstr_at [] a (b ++ [0])). auto with strings.
  - replace (Z.of_nat (length a) + 1) with (Z.of_nat (length (a ++ [0])))
      by (rewrite length_app; simpl; lia).
    pose proof (cstr_at (a ++ [0]) b [] ltac:(auto with strings)) as Hc.
    by rewrite app_nil_r, <- !app_assoc in Hc.
Qed.

Lemma str_rchr_spec s c : str_ok s -> 0 < c < 256 ->
  str_rchr s c = Some (Z.of_nat <$> last_index c s).
Proof.
  intros Hs Hc. pose proof (cstr_at [] s [] ltac:(auto with strings)) as Hm.
  rewrite app_nil_l, app_nil_r in Hm. unfold str_rchr.
  destruct (strchr_strrchr_correct (s ++ [0]) 0 c s Hm ltac:(unfold is_byte; lia) ltac:(lia))
    as [_ ->].
  by destruct (last_index c s).
Qed.

(** A copy into an array of its own. *)
Lemma blit_front dst bs rest :
  (length bs <= length dst)%nat ->
  exists mem, blit (dst ++ rest) 0 bs = Some mem /\
    take (length dst) mem = bs ++ drop (length bs) dst.
Proof.
  intros Hl. rewrite blit_Some by (rewrite ?length_app; lia). eexists. split; [done|].
  change (Z.to_nat 0) with 0%nat. change (0 + length bs)%nat with (length bs).
  rewrite take_0, drop_app_le, app_nil_l, app_assoc by done.
  apply take_app_length'. rewrite length_app, length_drop. lia.
Qed.

Lemma str_copy_spec dst src : str_ok src -> dst <> [] ->
  exists out, str_copy dst src = Some out /\ length out = length dst /\
    cstr_of out = take (length dst - 1) src.
Proof.
  intros Hs Hd. assert (Hl : (0 < length dst)%nat) by (destruct dst; [done|simpl; lia]).
  set (n := (length dst - 1)%nat). set (bs := take n src ++ replicate (n - length src) 0).
  assert (Hbs : length bs = n) by (unfold bs; rewrite length_app, length_take, length_replicate; lia).
  destruct (blit_front dst bs (src ++ [0])) as (mem & Hm & Ht); [lia|].
  exists (bs ++ [0]). unfold str_copy, strncpy_to.
  replace (Z.to_nat (Z.of_nat (length dst) - 1)) with n by lia.
  pose proof (cstr_at dst src [] ltac:(auto with strings)) as Hc. rewrite app_nil_r in Hc.
  rewrite (strncpy_correct _ _ _ _ src Hc) by (rewrite ?length_app; lia). fold bs. rewrite Hm.
  cbn [mbind option_bind]. rewrite Ht, Hbs.
  assert (Hdr : length (drop n dst) = 1%nat) by (rewrite length_drop; lia).
  destruct (drop n dst) as [|x [|]]; simpl in Hdr; try lia.
  rewrite setb_Some by (rewrite length_app; simpl; lia).
  replace (Z.to_nat (Z.of_nat (length dst) - 1)) with (length bs + 0)%nat by lia.
  rewrite insert_app_r. split; [done|]. split; [rewrite length_app; simpl; lia|].
  unfold bs. rewrite <- app_assoc. destruct (n - length src)%nat as [|k]; simpl;
    apply cstr_of_app_zero; auto with strings.
Qed.

Lemma memcpy_to_spec dst src n :
  Forall is_byte dst -> str_ok src -> (n <= length dst)%nat -> (n <= length src)%nat ->
  memcpy_to dst src (Z.of_nat n) = Some (take n src ++ drop n dst).
Proof.
  intros Hd Hs Hn Hm. unfold memcpy_to. rewrite Nat2Z.id.
  assert (Hsl : slice (dst ++ src ++ [0]) (Z.of_nat (length dst)) (Z.of_nat n) = take n src).
  { unfold slice. rewrite !Nat2Z.id, drop_app_length. by rewrite take_app_le. }
  rewrite memcpy_correct, Hsl; rewrite ?length_app; try lia.
  2: { rewrite !Forall_app. split_and!; auto with strings. repeat constructor; lia. }
  destruct (blit_front dst (take n src) (src ++ [0])) as (mem & -> & Ht);
    [rewrite length_take; lia|].
  cbn [mbind option_bind]. by rewrite Ht, length_take, Nat.min_l by lia.
Qed.

(** ** The division at the last slash *)

Definition split_ref (path : list Z) : list Z * list Z :=
  match last_index SLASH path with
  | None => ([SLASH], path)
  | Some O => ([SLASH], drop 1 path)
  | Some k => (take k path, drop (S k) path)
  end.

Lemma last_index_Some c s k :
  last_index c s = Some k ->
  s = take k s ++ c :: drop (S k) s /\ Forall (fun x => x <> c) (drop (S k) s).
Proof.
  revert k. induction s as [|x s IH]; intros k; simpl; [done|].
  destruct (last_index c s) as [j|] eqn:Hj.
  - intros [= <-]. destruct (IH j eq_refl) as [He Hf]. simpl. split; [by rewrite He at 1|done].
  - destruct (Z.eqb_spec x c) as [->|]; [|done]. intros [= <-]. simpl. rewrite drop_0.
    split; [done|]. clear IH. induction s as [|y s IH]; [done|]. simpl in Hj.
    destruct (last_index c s) eqn:?; [done|]. destruct (Z.eqb_spec y c); [done|].
    constructor; auto.
Qed.

Lemma last_index_None c s : last_index c s = None -> Forall (fun x => x <> c) s.
Proof.
  induction s as [|x s IH]; simpl; [done|]. destruct (last_index c s); [done|].
  destruct (Z.eqb_spec x c); [done|]. auto.
Qed.

(** A component in progress and a rest without a slash. *)
Lemma pieces_snoc a base cur :
  no_slash base -> pieces (a ++ 47 :: base) cur = pieces a cur ++ flush_piece base.
Proof.
  intros Hb. revert cur. induction a as [|c a IH]; intros cur; simpl.
  - f_equal. rewrite <- (app_nil_r base) at 1. by rewrite pieces_name.
  - destruct (c =? 47); [|apply IH]. by rewrite IH, app_assoc.
Qed.

Lemma split_ref_ok path : str_ok path -> str_ok (split_ref path).1 /\ str_ok (split_ref path).2.
Proof.
  intros Hp. unfold split_ref. destruct (last_index _ _) as [[|k]|]; simpl; split;
    auto with strings; repeat constructor; unfold SLASH; lia.
Qed.

Lemma cut_array a rest n : (n < length rest)%nat -> Forall (fun c => c <> 0) a ->
  exists out, setb (a ++ rest) (Z.of_nat (length a)) 0 = Some out /\
    length out = length (a ++ rest) /\ cstr_of out = a.
Proof.
  intros Hr Ha. destruct rest as [|x rest]; simpl in Hr; [lia|].
  rewrite setb_Some by (rewrite length_app; simpl; lia). eexists. split; [done|].
  split; [by rewrite length_insert|].
  rewrite Nat2Z.id. replace (length a) with (length a + 0)%nat at 1 by lia.
  rewrite insert_app_r. simpl. by apply cstr_of_app_zero.
Qed.

(** The last slash of a path that is divided there. *)
Lemma last_index_app dir base :
  no_slash base -> last_index SLASH (dir ++ SLASH :: base) = Some (length dir).
Proof.
  intros Hb. assert (Hn : last_index SLASH base = None).
  { induction Hb as [|x base Hx _ IH]; [done|]. cbn [last_index]. rewrite IH.
    by rewrite (proj2 (Z.eqb_neq x SLASH) Hx). }
  induction dir as [|x dir IH]; cbn [app last_index length].
  - by rewrite Hn, Z.eqb_refl.
  - by rewrite IH.
Qed.

Lemma split_ref_app dir base :
  no_slash base ->
  split_ref (dir ++ SLASH :: base) = (match dir with [] => [SLASH] | _ => dir end, base).
Proof.
  intros Hb. unfold split_ref. rewrite last_index_app by done. destruct dir as [|x dir]; [done|].
  cbn [length]. f_equal.
  - by rewrite (take_app_length' (x :: dir)).
  - change (drop (S (S (length dir))) ((x :: dir) ++ SLASH :: base))
      with (drop (S (length dir)) (dir ++ SLASH :: base)).
    rewrite drop_app_ge by lia. by replace (S (length dir) - length dir)%nat with 1%nat by lia.
Qed.

Lemma split_ref_none path : no_slash path -> split_ref path = ([SLASH], path).
Proof.
  intros Hp. unfold split_ref. destruct (last_index SLASH path) as [k|] eqn:Hk; [|done].
  apply last_index_Some in Hk as [He _]. unfold no_slash in Hp. rewrite He in Hp.
  apply Forall_app in Hp as [_ [? _]%list.Forall_cons]. done.
Qed.

Lemma split_path_spec path parent name :
  str_ok path -> Forall is_byte parent -> (2 <= length parent)%nat -> name <> [] ->
  exists pa na, split_path path parent name = Some (pa, na) /\
    cstr_of pa = take (length parent - 1) (split_ref path).1 /\
    cstr_of na = take (length name - 1) (split_ref path).2 /\
    length pa = length parent /\ length na = length name.
Proof.
  intros Hp Hb Hl Hn. unfold split_path.
  assert (Hsl : str_ok [SLASH]) by (repeat constructor; unfold SLASH; lia).
  assert (Hpar : parent <> []) by (destruct parent; [simpl in Hl; lia|done]).
  destruct (str_copy_spec parent [SLASH] Hsl Hpar) as (root & Hroot & Hrl & Hr).
  destruct (str_cmp_spec path [SLASH] Hp Hsl) as (r & -> & Hr0). cbn [mbind option_bind].
  destruct (Z.eqb_spec r 0) as [Hz|Hne].
  { apply Hr0 in Hz as ->. rewrite Hroot. cbn [mbind option_bind].
    destruct name as [|x name]; [done|]. rewrite setb_Some by (simpl; lia).
    eexists _, _. split; [done|]. simpl. by rewrite take_nil. }
  rewrite str_rchr_spec by (unfold SLASH; auto with lia). cbn [mbind option_bind].
  unfold split_ref. destruct (last_index SLASH path) as [[|k]|] eqn:Hk; cbn [fmap option_fmap option_map].
  - rewrite Hroot. cbn [mbind option_bind]. change (Z.of_nat 0 =? 0) with true. cbv iota.
    destruct (str_copy_spec name (drop 1 path)) as (na & -> & Hnl & Hna); [auto with strings|done|].
    cbn. eauto 8.
  - destruct (Z.eqb_spec (Z.of_nat (S k)) 0); [lia|].
    destruct (last_index_Some _ _ _ Hk) as [He _]. apply (f_equal length) in He.
    rewrite length_app, length_take in He. cbn [length] in He.
    set (plen := Nat.min (length parent - 1) (S k)).
    assert ((if Z.of_nat (length parent) <=? Z.of_nat (S k) then Z.of_nat (length parent) - 1
             else Z.of_nat (S k)) = Z.of_nat plen) as -> by (case_cmp; lia).
    rewrite memcpy_to_spec by (auto || lia). cbn [mbind option_bind].
    destruct (cut_array (take plen path) (drop plen parent) 0) as (pa & Hpa & Hpl & Hcs);
      [rewrite length_drop; lia|auto with strings|].
    rewrite length_take, Nat.min_l in Hpa by lia. rewrite Hpa. cbn [mbind option_bind].
    replace (Z.to_nat (Z.of_nat (S k)) + 1)%nat with (S (S k)) by lia.
    destruct (str_copy_spec name (drop (S (S k)) path)) as (na & -> & Hnl & Hna);
      [auto with strings|done|].
    cbn [mbind option_bind]. eexists _, _. split; [done|]. cbn [fst snd].
    split; [by rewrite Hcs, take_take|]. split; [done|]. split; [|done].
    rewrite Hpl, length_app, length_take, length_drop. lia.
  - rewrite Hroot. cbn [mbind option_bind].
    destruct (str_copy_spec name path) as (na & -> & Hnl & Hna); [done..|]. cbn. eauto 8.
Qed.

(** ** The claim *)

(** C15: for every path, [split_path] stays inside its arrays (which keep their
    lengths) and divides the path at its last slash: for the path
    [dir ++ "/" ++ base] with no slash in [base] it stores [dir] in [parent] ("/"
    when [dir] is empty) and [base] in [name]; for a path without a slash it
    stores "/" and the path.  Each is cut to its array: what does not fit is cut
    off silently, so that the callbacks then work on a different name.  Walking
    the directory and naming the entry is walking the path: the components of
    the path are those of [dir] followed by [base], if it is not empty. *)
Theorem split_path_correct (path parent name : list Z) (Hp : str_ok path)
    (Hb : Forall is_byte parent) (Hl : (2 <= length parent)%nat) (Hn : name <> []) :
  exists pa na, split_path path parent name = Some (pa, na) /\
    length pa = length parent /\ length na = length name /\
    (no_slash path ->
       cstr_of pa = [SLASH] /\ cstr_of na = take (length name - 1) path) /\
    (forall dir base, path = dir ++ SLASH :: base -> no_slash base ->
       cstr_of pa = take (length parent - 1) (match dir with [] => [SLASH] | _ => dir end) /\
       cstr_of na = take (length name - 1) base /\
       components_of path = components_of dir ++ match base with [] => [] | _ => [base] end).
Proof.
  destruct (split_path_spec path parent name Hp Hb Hl Hn) as (pa & na & Hs & H1 & H2 & ? & ?).
  exists pa, na. do 3 (split; [done|]). split.
  - intros Hns. rewrite split_ref_none in H1, H2 by done. split; [|done].
    rewrite H1, take_ge by (cbn; lia). done.
  - intros dir base -> Hns. rewrite split_ref_app in H1, H2 by done. cbn [fst snd] in *.
    split; [done|]. split; [done|]. by apply pieces_snoc.
Qed.

Lemma split_path_correct_witness :
  exists pa na, split_path [47; 97; 47; 98; 99] (replicate 8 1) (replicate 4 1) = Some (pa, na) /\
    cstr_of pa = [47; 97] /\ cstr_of na = [98; 99].
Proof.
  assert (Hp : str_ok [47; 97; 47; 98; 99]) by (repeat constructor; lia).
  assert (Hb : Forall is_byte (replicate 8 1)) by (repeat constructor; lia).
  assert (Hs : no_slash [98; 99]) by (repeat constructor; lia).
  destruct (split_path_correct [47; 97; 47; 98; 99] (replicate 8 1) (replicate 4 1) Hp Hb
    ltac:(cbn; lia) ltac:(discriminate)) as (pa & na & Hr & _ & _ & _ & Hd).
  destruct (Hd [47; 97] [98; 99] eq_refl Hs) as (H1 & H2 & _).
  exists pa, na. split; [exact Hr|]. split; [exact H1|exact H2].
Defined.
