(* ===== verification/FuseCorrect.v ===== *)
(** * FuseCorrect: the callbacks use the pool and the client calls safely

    The callbacks are verified against an interface, not against V9P_Transact:
    a [Steady] transport is one that the client calls can use ([Transport]) and
    that keeps its invariant and the fid pool whatever the server answers.
    V9P_Transact is steady over a serving device (FuseStack.v); it is not when
    it escalates to a reset, which replaces the pool. *)

From S2P Require Import Prelude Platform CString Marshal FidPool VirtQueue Handler P9Client P9Correct P9Walk Fuse FusePath.

Class Steady {E : Type} `{EnvI : !Env E DevView} (H : Prop) (transact : Z -> M (Sys E Core) Z)
    (inv : Core -> Prop) : Prop := {
  steady_transport :: Transport transact inv;
  steady_pool c p : inv c -> inv (on_hnd (set_fid_pool p) c);
  steady_run n s :
    inv (core s) -> framed n (tx (core s)) ->
    wp H (transact n) (fun _ s' => inv (core s') /\
      fid_pool (hnd (core s')) = fid_pool (hnd (core s)) /\
      msize (hnd (core s')) = msize (hnd (core s))) s }.

(** The trace of a machine only grows. *)
Class Traced {E : Type} `{EnvI : !Env E DevView} (transact : Z -> M (Sys E Core) Z) : Prop :=
  traced n s r s' : transact n s = Done (r, s') -> exists new, sys_log s' = new ++ sys_log s.

(** The error that makes walk_to give up its fid: the server may still hold it. *)
Definition eio (e : Z) : Z := if e =? - EIO then 1 else 0.

Lemma r_decode_ok {A} need (parse : Z -> list Z -> A) n b :
  (exists a, r_decode need parse n b = (0, Some a)) \/
  (exists e, e <> 0 /\ r_decode need parse n b = (e, None)).
Proof.
  unfold r_decode. destruct (Z.eqb_spec (r_error n b) 0); simpl.
  - destruct (n <? need); [right; by exists (- EIO)|left; eauto].
  - right. eauto.
Qed.

Lemma cstr_of_short s : (length (cstr_of s) <= length s)%nat.
Proof. induction s as [|c s IH]; simpl; [done|]. destruct (c =? 0); simpl; lia. Qed.

(** The message fits in the buffers. *)
Ltac msg_size := unfold msg_fits, P9_MSIZE, len_ok in *; cbn [t_body];
  autorewrite with wire; simpl length; lia.

Section fuse.
Context {E : Type} `{EnvI : !Env E DevView} `{FuelI : !Fuel} `{SdkI : !SdkTypes}.
Context (H : Prop) (transact : Z -> M (Sys E Core) Z) (inv : Core -> Prop).
Context `{SteadyI : !Steady H transact inv} (V9P_Reset : M (Sys E Core) bool).
Abbreviation M := (M (Sys E Core)).
Implicit Types s : Sys E Core.

(** ** The client calls *)

(** What every client call guarantees. *)
Definition kept s s' : Prop :=
  inv (core s') /\ fid_pool (hnd (core s')) = fid_pool (hnd (core s)) /\
  msize (hnd (core s')) = msize (hnd (core s)).

Lemma kept_refl s : inv (core s) -> kept s s.
Proof. by split. Qed.

Lemma kept_trans s1 s2 s3 : kept s1 s2 -> kept s2 s3 -> kept s1 s3.
Proof. intros (_ & H1 & H2) (? & H3 & H4). split_and!; [done|congruence..]. Qed.

(** Also with the allocations that failed so far. *)
Definition carried s s' : Prop :=
  inv (core s') /\ fid_pool (hnd (core s')) = fid_pool (hnd (core s)) /\
  msize (hnd (core s')) = msize (hnd (core s)) /\
  failures (sys_log s) <= failures (sys_log s').

Lemma carried_refl s : inv (core s) -> carried s s.
Proof. intros. split_and!; [done..|lia]. Qed.

Lemma carried_trans s1 s2 s3 : carried s1 s2 -> carried s2 s3 -> carried s1 s3.
Proof. intros (_ & H1 & H2 & ?) (? & H3 & H4 & ?). split_and!; [done|congruence..|lia]. Qed.

(** Sending a message: the transport finds it in tx_buf. *)
Lemma exchange_at m s (Q : Z -> Sys E Core -> Prop) :
  inv (core s) -> msg_fits m ->
  (forall tag s', let msg := frame (t_type m) tag (t_body m) in
     kept s s' -> sys_env s' = sys_env s -> sys_log s' = sys_log s ->
     framed (Z.of_nat (length msg)) (tx (core s')) ->
     take (length msg) (tx (core s')) = msg ->
     wp H (transact (Z.of_nat (length msg))) Q s') ->
  wp H (exchange transact m) Q s.
Proof.
  intros Hi Hm HQ. unfold exchange. wp_step. eapply wp_run; [apply next_tag_done|].
  set (tag := next_tag _). set (s1 := bump_tag s).
  assert (Hi1 : inv (core s1)) by by apply transport_tag.
  pose proof (transport_tx_size _ Hi1) as Ht. unfold msg_fits in Hm.
  unfold post. wp_step. apply wp_read. wp_step.
  pose proof (length_frame (t_type m) tag (t_body m)) as Hl.
  destruct (blit (tx (core s1)) 0 (frame (t_type m) tag (t_body m))) as [b|] eqn:Hb.
  2: { rewrite blit_Some in Hb by lia. done. }
  eapply wp_lift; [done|]. wp_step. apply wp_write. apply HQ.
  - split_and!; [|done..]. apply transport_tx; [done|]. by apply blit_length in Hb.
  - done.
  - done.
  - by eapply framed_frame.
  - pose proof (take_blit_snoc _ _ _ _ Hb) as Hs. by rewrite Z.add_0_l, Nat2Z.id in Hs.
Qed.

Context `{TracedI : !Traced transact}.

Lemma exchange_wp m s (Q : Z -> Sys E Core -> Prop) :
  inv (core s) -> msg_fits m ->
  (forall n s', carried s s' -> 0 <= n <= Z.of_nat (length (rx (core s'))) -> Q n s') ->
  wp H (exchange transact m) Q s.
Proof.
  intros Hi Hm HQ. apply exchange_at; [done..|]. intros tag s2 msg Hk _ Hlog Hf _.
  pose proof (steady_run _ _ (proj1 Hk) Hf) as Hw.
  unfold wp in *. destruct (transact _ s2) as [[n s3]| |] eqn:Hrun; [|done..].
  destruct (transport_result _ _ _ _ (proj1 Hk) Hf Hrun) as (_ & Hr & _).
  apply HQ; [|done]. destruct Hk as (_ & Hk1 & Hk2), Hw as (Hw0 & Hw1 & Hw2).
  apply traced in Hrun as [new Hnew]. rewrite Hlog in Hnew.
  split_and!; [done|congruence..|]. rewrite Hnew. apply failures_grow.
Qed.

Lemma answers_wp {A} (op : M A) m dec s (Q : A -> Sys E Core -> Prop) :
  (op s = (n ← exchange transact m; b ← read rx; mret (dec n b)) s) ->
  msg_fits m -> inv (core s) ->
  (forall n s', carried s s' -> 0 <= n <= Z.of_nat (length (rx (core s'))) ->
     Q (dec n (rx (core s'))) s') ->
  wp H op Q s.
Proof.
  intros Hop Hm Hi HQ.
  assert (Hw : wp H (n ← exchange transact m; b ← read rx; mret (dec n b)) Q s).
  { wp_step. apply exchange_wp; [done..|]. intros n s' Hk Hn. wp_step. apply wp_read.
    by apply wp_ret, HQ. }
  unfold wp in *. by rewrite Hop.
Qed.

Lemma status_wp (op : M Z) m s (Q : Z -> Sys E Core -> Prop) :
  sends transact op m reply_status -> msg_fits m -> inv (core s) ->
  (forall err s', carried s s' -> Q err s') -> wp H op Q s.
Proof.
  intros Hs Hm Hi HQ. eapply (answers_wp op m r_error); [|done..|].
  - eapply (answers_intro transact inv); [exact Hs|done| |done]. intros. by apply reply_status_done.
  - intros n s' Hk _. by apply HQ.
Qed.

(** The calls with a payload: an error, or the payload. *)
Lemma decode_wp {A} (op : M (Z * option A)) m need parse s (Q : Z * option A -> Sys E Core -> Prop) :
  (op s = (n ← exchange transact m; b ← read rx; mret (r_decode need parse n b)) s) ->
  msg_fits m -> inv (core s) ->
  (forall err s', carried s s' -> err <> 0 -> Q (err, None) s') ->
  (forall a s', carried s s' -> Q (0, Some a) s') ->
  wp H op Q s.
Proof.
  intros Hs Hm Hi He Ha. eapply (answers_wp op m); [exact Hs|done..|].
  intros n s' Hk _. destruct (r_decode_ok need parse n (rx (core s'))) as [[a ->]|(e & ? & ->)]; auto.
Qed.

Lemma clunk_wp fid s (Q : Z -> Sys E Core -> Prop) :
  inv (core s) -> (forall err s', carried s s' -> Q err s') -> wp H (P9_Clunk transact fid) Q s.
Proof. apply status_wp with (m := Tclunk fid); [apply Clunk_sends|msg_size]. Qed.

(** Opening: only the error is used. *)
Lemma open_wp (op : M (Z * option Z)) m s (Q : Z * option Z -> Sys E Core -> Prop) :
  (op s = (n ← exchange transact m; b ← read rx;
           mret (opt_out false (r_decode 24 (fun _ => rd 4 20) n b))) s) ->
  msg_fits m -> inv (core s) ->
  (forall err s', carried s s' -> Q (err, None) s') -> wp H op Q s.
Proof.
  intros Hs Hm Hi HQ. eapply (answers_wp op m); [exact Hs|done..|]. intros n s' Hk _.
  unfold opt_out. auto.
Qed.

Lemma walk_wp fid newfid path s (Q : Z -> Sys E Core -> Prop) :
  str_ok path -> inv (core s) -> (forall err s', carried s s' -> Q err s') ->
  wp H (P9_Walk transact fid newfid path) Q s.
Proof.
  intros Hp Hi HQ. pose proof (Walk_eq transact inv fid newfid path s Hi (str_ok_nz _ Hp)) as He.
  destruct (_ || _) eqn:Hlong.
  { eapply wp_run; [exact He|]. by apply HQ, carried_refl. }
  apply orb_false_iff in Hlong as [H1%Z.leb_gt H2%Z.ltb_ge].
  assert (Hw : wp H (exchange transact (Twalk fid newfid (components_of path)) ≫=
    walk_reply transact newfid (Z.of_nat (length (components_of path)))) Q s).
  { wp_step. apply exchange_wp; [done| |].
    { unfold msg_fits. cbn [t_body]. autorewrite with wire. rewrite length_concat_enc.
      pose proof (pieces_length path []) as [_ Hpl]. fold (components_of path) in Hpl.
      unfold PATHBUF_SIZE, P9_MAXWELEM, P9_MSIZE in *. simpl in Hpl. lia. }
    intros n s1 Hk _. unfold walk_reply. wp_step. apply wp_read.
    destruct (r_decode _ _ _ _) as [e [nw|]]; [|by apply wp_ret, HQ].
    destruct (nw =? _); [by apply wp_ret, HQ|]. wp_step. destruct (0 <? nw).
    - apply clunk_wp; [apply Hk|]. intros err s2 Hk2. apply wp_ret, HQ. by eapply carried_trans.
    - by apply wp_ret, wp_ret, HQ. }
  unfold wp in *. by rewrite He.
Qed.

(** ** The pool *)

(** The pool's accounts: exactly the fids [live] are live, at most [w] fids and
    one for every allocation that failed are lost, every other fid that was ever
    handed out is free again, and there is room for [k] more. *)
Definition owns (live : list Z) (w k : Z) s : Prop :=
  inv (core s) /\ exists p, fid_pool (hnd (core s)) = Some p /\ pool_inv p live /\
    lost p live <= w + failures (sys_log s) /\ next_fid p + k <= 2 ^ 27.

#[global] Instance owns_perm : Proper ((≡ₚ) ==> eq ==> eq ==> eq ==> iff) owns.
Proof.
  intros l l' Hl w ? <- k ? <- s ? <-. unfold owns, lost. setoid_rewrite Hl. done.
Qed.

Lemma owns_carried {w} live k s s' : owns live w k s -> carried s s' -> owns live w k s'.
Proof.
  intros (_ & p & Hp & ? & ? & ?) (Hi & He & _ & Hf). split; [done|]. exists p. rewrite He.
  split_and!; try done. lia.
Qed.

Lemma owns_inv {w} live k s : owns live w k s -> inv (core s).
Proof. by intros [? _]. Qed.

Lemma owns_weaken w w' live k j s : owns live w k s -> j <= k -> w <= w' -> owns live w' j s.
Proof.
  intros (? & p & ? & ? & ? & ?) Hj Hw. split; [done|]. exists p. split_and!; try done; lia.
Qed.

(** A live fid is a small positive number. *)
Lemma owns_range {w} fid live k s : owns (fid :: live) w k s -> 1 <= fid < 2 ^ 27.
Proof.
  intros (_ & p & _ & [[] [_ Hr]] & _). rewrite !Forall_app, list.Forall_cons in Hr.
  destruct Hr as (_ & _ & ? & _). lia.
Qed.

(** An operation on the pool of the handler. *)
Lemma the_pool_wp p s (Q : FidPool -> Sys E Core -> Prop) :
  fid_pool (hnd (core s)) = Some p -> Q p s -> wp H the_pool Q s.
Proof. intros Hp HQ. unfold the_pool. wp_step. apply wp_read. by eapply wp_lift. Qed.

Lemma put_pool_wp p live w k s0 s (Q : unit -> Sys E Core -> Prop) :
  inv (core s0) -> core s = core s0 -> pool_inv p live ->
  lost p live <= w + failures (sys_log s) -> next_fid p + k <= 2 ^ 27 ->
  (forall s', owns live w k s' -> Q tt s') -> wp H (put_pool p) Q s.
Proof.
  intros Hi Hc Hp Hw Hk HQ. unfold put_pool. apply wp_write, HQ. cbn. split.
  - rewrite Hc. by apply steady_pool.
  - by exists p.
Qed.

Lemma fid_alloc_wp {w} live k s (Q : Z -> Sys E Core -> Prop) :
  owns live w (k + 1) s -> 0 <= k ->
  (forall fid s', owns (fid :: live) w k s' -> Q fid s') -> wp H fid_alloc Q s.
Proof.
  intros (Hi & p & Hp & Hinv & Hw & Hk) Hk0 HQ. unfold fid_alloc. wp_step.
  eapply the_pool_wp; [done|]. wp_step.
  eapply wp_mono; [eapply (FidPool_Alloc_wp H p live s); [done|lia]|].
  intros [p' fid] s' (-> & Hinv' & _ & Hnext). wp_step.
  eapply (put_pool_wp p' (fid :: live) w k); [exact Hi|done|exact Hinv'| | |].
  - unfold lost in *. destruct Hnext as [[He ->]|(He & -> & _ & ->)]; rewrite He in Hw;
      cbn [length] in *; lia.
  - destruct Hnext as [[_ ->]|(_ & _ & _ & ->)]; lia.
  - intros s2 Ho. apply wp_ret. by apply HQ.
Qed.

(** The fid is free again, or an allocation failed. *)
Lemma fid_free_wp {w} fid live k s (Q : unit -> Sys E Core -> Prop) :
  owns (fid :: live) w k s -> (forall s', owns live w k s' -> Q tt s') -> wp H (fid_free fid) Q s.
Proof.
  intros (Hi & p & Hp & Hinv & Hw & Hk) HQ. unfold fid_free. wp_step.
  eapply the_pool_wp; [done|]. wp_step.
  eapply wp_mono; [eapply (FidPool_Free_wp H p fid live s); done|].
  intros p' s' (Hc & Hinv' & _ & Hn & Hd).
  eapply (put_pool_wp p' live w k); [exact Hi|done|exact Hinv'| |lia|done].
  unfold lost in *. destruct Hd as [[-> ?]|[-> ?]]; cbn [length] in *; lia.
Qed.

Lemma fid_orphan_wp {w} fid live k s (Q : unit -> Sys E Core -> Prop) :
  owns (fid :: live) w k s -> (forall s', owns live (w + 1) k s' -> Q tt s') ->
  wp H (fid_orphan fid) Q s.
Proof.
  intros (Hi & p & Hp & Hinv & Hw & Hk) HQ. unfold fid_orphan. wp_step.
  eapply the_pool_wp; [done|]. wp_step.
  eapply wp_mono; [eapply (FidPool_MarkOrphan_wp H p fid live s); done|].
  intros p' s' (Hc & Hinv' & Hf & Hn & Hfail & _).
  eapply (put_pool_wp p' live (w + 1) k); [exact Hi|done|exact Hinv'| |lia|done].
  unfold lost in *. rewrite Hf. cbn [length] in *. lia.
Qed.

Lemma clunk_free_wp {w} fid live k s (Q : unit -> Sys E Core -> Prop) :
  owns (fid :: live) w k s -> (forall s', owns live w k s' -> Q tt s') ->
  wp H (clunk_free transact fid) Q s.
Proof.
  intros Ho HQ. unfold clunk_free. wp_step. apply clunk_wp; [by eapply owns_inv|].
  intros err s' Hk. eapply fid_free_wp; [by eapply owns_carried|done].
Qed.

(** A failed walk loses its fid only on EIO. *)
Lemma walk_to_wp {w} path live k s (Q : Z * option Z -> Sys E Core -> Prop) :
  str_ok path -> owns live w (k + 1) s -> 0 <= k ->
  (forall err s', owns live (w + eio err) k s' -> err <> 0 -> Q (err, None) s') ->
  (forall fid s', owns (fid :: live) w k s' -> Q (0, Some fid) s') ->
  wp H (walk_to transact path) Q s.
Proof.
  intros Hp Ho Hk He Hf. unfold walk_to. wp_step. eapply fid_alloc_wp; [done..|].
  intros fid s1 Ho1. wp_step. apply wp_read. wp_step. apply walk_wp; [done|by eapply owns_inv|].
  intros err s2 Hk2. pose proof (owns_carried _ _ _ _ Ho1 Hk2) as Ho2.
  destruct (Z.eqb_spec err 0) as [->|Hne]; simpl negb; cbv iota; [by apply wp_ret, Hf|].
  specialize (fun s' Ho' => He err s' Ho' Hne). unfold eio in He. change (- EIO) with (-5) in He.
  wp_step. destruct (err =? -5).
  - eapply fid_orphan_wp; [done|]. intros s3 Ho3. by apply wp_ret, He.
  - eapply fid_free_wp; [done|]. intros s3 Ho3. rewrite Z.add_0_r in He. by apply wp_ret, He.
Qed.

(** [split] in a callback: the arrays are never full. *)
Lemma split_wp path s (Q : list Z * list Z -> Sys E Core -> Prop) :
  str_ok path ->
  (forall parent name, str_ok parent -> len_ok name -> (length name <= 255)%nat ->
     Q (parent, name) s) ->
  wp H (split path) Q s.
Proof.
  intros Hp HQ. unfold split. wp_step.
  destruct (split_path_spec path (array 1024) (array 256)) as (pa & na & Hs & H1 & H2 & _).
  { done. }
  { apply Forall_replicate. apply u8_range. }
  { unfold array. rewrite length_replicate. lia. }
  { discriminate. }
  eapply wp_lift; [exact Hs|]. apply wp_ret. destruct (split_ref_ok path Hp) as [Hd Hb].
  unfold array in *. rewrite length_replicate in H1, H2.
  assert (length (cstr_of na) <= 255)%nat by (rewrite H2, length_take; lia).
  apply HQ; [rewrite H1; by apply str_ok_take|unfold len_ok; lia|done].
Qed.

(** ** The callbacks

    Each leaves exactly the live fids it found, except that a successful open
    adds the fid of the handle and a release takes it away.  It loses no fid,
    unless an allocation fails or it returns EIO ([err] is the error in its
    result), and takes at most two new ones from the pool. *)

Context (room : Z) (Hroom : 0 <= room).

Definition balanced_cb {A} (err : A -> Z) (live : list Z) (m : M A) : Prop :=
  forall w s, owns live w (room + 2) s ->
    wp H m (fun r s' => owns live (w + eio (err r)) room s') s.

Definition opens_cb (live : list Z) (m : M (Z * fuse_file_info)) : Prop :=
  forall w s, owns live w (room + 2) s -> wp H m (fun r s' =>
    owns (if r.1 =? 0 then fi_fh r.2 :: live else live) (w + eio r.1) room s') s.

(** The accounts after a callback follow from those after its last step. *)
Ltac eio_lia := unfold eio, id; cbn [fst]; repeat match goal with |- context [?a =? ?b] => destruct (a =? b) end; lia.
Ltac owned := eapply owns_weaken; [first [eassumption | eapply owns_carried; eassumption]|lia|eio_lia].

(** Frees a fid and returns. *)
Lemma finish_wp {w} {A} fid live k (a : A) s (Q : A -> Sys E Core -> Prop) :
  owns (fid :: live) w k s -> (forall s', owns live w k s' -> Q a s') ->
  wp H (_ ← clunk_free transact fid; mret a) Q s.
Proof.
  intros Ho HQ. wp_step. eapply clunk_free_wp; [exact Ho|]. intros s' Ho'. by apply wp_ret, HQ.
Qed.

(** One walk, a call on the fid, and its release. *)
Lemma on_fid_wp {w} {A} path live (err : Z -> A) (use : Z -> M A) s (Q : A -> Sys E Core -> Prop) :
  str_ok path -> owns live w (room + 2) s ->
  (forall e s', owns live (w + eio e) (room + 1) s' -> e <> 0 -> Q (err e) s') ->
  (forall fid s', owns (fid :: live) w (room + 1) s' -> wp H (use fid) Q s') ->
  wp H (w ← walk_to transact path;
        match w with (e, None) => mret (err e) | (_, Some fid) => use fid end) Q s.
Proof.
  intros Hp Ho He Hu. wp_step. eapply (walk_to_wp path live (room + 1)); [done|by rewrite <- Z.add_assoc|lia| |].
  - intros e s' Ho' Hne. by apply wp_ret, He.
  - intros fid s' Ho'. by apply Hu.
Qed.

(** A status call on the fid, and its release. *)
Lemma call_finish_wp {w} {A} (op : M Z) m fid live k (f : Z -> A) s (Q : A -> Sys E Core -> Prop) :
  sends transact op m reply_status -> msg_fits m -> owns (fid :: live) w k s ->
  (forall err s', owns live w k s' -> Q (f err) s') ->
  wp H (err ← op; _ ← clunk_free transact fid; mret (f err)) Q s.
Proof.
  intros Hs Hm Ho HQ. wp_step. eapply status_wp; [exact Hs|done|by eapply owns_inv|].
  intros err s' Hk. eapply finish_wp; [by eapply owns_carried|]. auto.
Qed.


Section paths.
Context (path : list Z) (Hpath : str_ok path).

Lemma getattr_balanced live : balanced_cb fst live (v9p_getattr false transact V9P_Reset path).
Proof.
  intros w s Ho. unfold v9p_getattr, v9p_getattr_file.
  apply (on_fid_wp (w := w)) with (live := live) (err := fun e => (e, None)); [done..| |].
  { intros e s' Ho' _. owned. }
  intros fid s1 Ho1. wp_step.
  eapply decode_wp; [by apply (Getattr_answers transact inv), (owns_inv _ _ _ Ho1)|msg_size|
    by eapply owns_inv| |].
  - intros err s2 Hk Hne. wp_step. eapply clunk_free_wp; [by eapply owns_carried|].
    intros s3 Ho3. destruct (Z.eqb_spec err 0); [done|]. apply wp_ret. owned.
  - intros st s2 Hk. wp_step. eapply clunk_free_wp; [by eapply owns_carried|].
    intros s3 Ho3. simpl. wp_sys. owned.
Qed.

Lemma chmod_balanced live mode : balanced_cb id live (v9p_chmod transact path mode).
Proof.
  intros w s Ho. apply (on_fid_wp (w := w)) with (live := live) (err := fun e => e); [done..| |].
  { intros e s' Ho' _. owned. }
  intros fid s1 Ho1. wp_step.
  eapply decode_wp; [by apply (Getattr_answers transact inv), (owns_inv _ _ _ Ho1)|msg_size|
    by eapply owns_inv| |].
  - intros err s2 Hk Hne. destruct (Z.eqb_spec err 0); [done|]. simpl negb. cbv iota.
    eapply finish_wp; [by eapply owns_carried|]. intros s3 Ho3. owned.
  - intros st s2 Hk. simpl negb. cbv iota. wp_step. eapply wp_lift; [done|].
    eapply (call_finish_wp (w := w) _ _ _ _ (room + 1) (fun e => e)); [apply Setattr_sends|msg_size|by eapply owns_carried|].
    intros err s3 Ho3. owned.
Qed.

(** The callbacks that set attributes. *)
Lemma setattr_balanced live attr (f : Z -> Z) :
  balanced_cb id live (w ← walk_to transact path;
    match w with
    | (err, None) => mret err
    | (_, Some fid) =>
        err ← P9_Setattr transact fid attr; _ ← clunk_free transact fid; mret (f err)
    end).
Proof.
  intros w s Ho. apply (on_fid_wp (w := w)) with (live := live) (err := fun e => e); [done..| |].
  { intros e s' Ho' _. owned. }
  intros fid s1 Ho1. eapply (call_finish_wp (w := w) _ _ _ _ (room + 1) f);
    [apply Setattr_sends|msg_size|exact Ho1|]. intros err s3 Ho3. owned.
Qed.

Lemma readlink_balanced live buf size :
  1 <= u32 size <= Z.of_nat (length buf) -> balanced_cb fst live (v9p_readlink transact path buf size).
Proof.
  intros Hb w s Ho. apply (on_fid_wp (w := w)) with (live := live) (err := fun e => (e, buf)); [done..| |].
  { intros e s' Ho' _. owned. }
  intros fid s1 Ho1. wp_step.
  eapply decode_wp; [apply (Readlink_answers transact inv);
      [done|pose proof (u32_range size); lia|by eapply owns_inv]|msg_size|by eapply owns_inv| |];
    [intros err s2 Hk _|intros a s2 Hk];
    (eapply finish_wp; [by eapply owns_carried|]; intros s3 Ho3; owned).
Qed.

(** Opening: the fid stays live exactly on success. *)
Lemma open_tail_wp {w} (op : Z -> M (Z * option Z)) m fid live fi s :
  (op fid s = (n ← exchange transact m; b ← read rx;
     mret (opt_out false (r_decode 24 (fun _ => rd 4 20) n b))) s) ->
  msg_fits m -> owns (fid :: live) w (room + 1) s ->
  wp H ('(err, _) ← op fid;
        if negb (err =? 0) then _ ← clunk_free transact fid; mret (err, fi)
        else mret (0, mkFileInfo (fi_flags fi) fid))
    (fun r s' => owns (if r.1 =? 0 then fi_fh r.2 :: live else live) (w + eio r.1) room s') s.
Proof.
  intros Hop Hm Ho. wp_step. eapply open_wp; [exact Hop|done|by eapply owns_inv|].
  intros err s2 Hk. destruct (Z.eqb_spec err 0) as [->|Hne]; simpl negb; cbv iota.
  - apply wp_ret. simpl. owned.
  - eapply finish_wp; [by eapply owns_carried|]. intros s3 Ho3. simpl.
    destruct (Z.eqb_spec err 0); [done|]. owned.
Qed.

Lemma open_fails {w} live (fi : fuse_file_info) e s :
  owns live (w + eio e) (room + 1) s -> e <> 0 ->
  owns (if (e, fi).1 =? 0 then fi_fh (e, fi).2 :: live else live) (w + eio (e, fi).1) room s.
Proof. intros Ho Hne. simpl. destruct (Z.eqb_spec e 0); [done|]. owned. Qed.

Lemma open_opens live fi : opens_cb live (v9p_open transact path fi).
Proof.
  intros w s Ho. apply (on_fid_wp (w := w)) with (live := live) (err := fun e => (e, fi)); [done..| |].
  { intros. by apply open_fails. }
  intros fid s1 Ho1.
  apply (open_tail_wp (fun fid => P9_Lopen transact fid (open_flags fi) false)
    (Tlopen fid (open_flags fi))); [|msg_size|done].
  by apply (Lopen_answers transact inv), (owns_inv _ _ _ Ho1).
Qed.

Lemma opendir_opens live fi : opens_cb live (v9p_opendir transact path fi).
Proof.
  intros w s Ho. apply (on_fid_wp (w := w)) with (live := live) (err := fun e => (e, fi)); [done..| |].
  { intros. by apply open_fails. }
  intros fid s1 Ho1.
  apply (open_tail_wp (fun fid => P9_Lopen transact fid 0 false) (Tlopen fid 0));
    [|msg_size|done].
  by apply (Lopen_answers transact inv), (owns_inv _ _ _ Ho1).
Qed.

Lemma create_opens live mode fi : opens_cb live (v9p_create transact path mode fi).
Proof.
  intros w s Ho. unfold v9p_create. wp_step. apply split_wp; [done|].
  intros parent name Hpa Hna _.
  apply (on_fid_wp (w := w)) with (live := live) (err := fun e => (e, fi)); [done..| |].
  { intros. by apply open_fails. }
  intros fid s1 Ho1.
  apply (open_tail_wp (fun fid => P9_Lcreate transact fid name (open_flags fi) (u32 mode) false)
    (Tlcreate fid name (open_flags fi) (u32 mode) 0)); [|msg_size|done].
  by apply (Lcreate_answers transact inv), (owns_inv _ _ _ Ho1).
Qed.

(** The callbacks that work on a name in its directory. *)
Lemma at_parent_balanced live (op : Z -> list Z -> M Z) (m : Z -> list Z -> Tmsg) :
  (forall dfid name, len_ok name -> (length name <= 255)%nat ->
     sends transact (op dfid name) (m dfid name) reply_status /\ msg_fits (m dfid name)) ->
  balanced_cb id live ('(parent, name) ← split path;
    w ← walk_to transact parent;
    match w with
    | (err, None) => mret err
    | (_, Some dfid) => err ← op dfid name; _ ← clunk_free transact dfid; mret err
    end).
Proof.
  intros Hop w s Ho. wp_step. apply split_wp; [done|]. intros parent name Hpa Hna Hl.
  apply (on_fid_wp (w := w)) with (live := live) (err := fun e => e); [done..| |].
  { intros e s' Ho' _. owned. }
  intros fid s1 Ho1. destruct (Hop fid name Hna Hl).
  eapply (call_finish_wp (w := w) _ _ _ _ (room + 1) (fun e => e)); [done..|]. intros err s3 Ho3. owned.
Qed.
Lemma mkdir_balanced live mode : balanced_cb id live (v9p_mkdir transact path mode).
Proof.
  apply (at_parent_balanced live (fun d n => P9_Mkdir transact d n (u32 mode))
    (fun d n => Tmkdir d n (u32 mode) 0)).
  intros d n Hn Hl. split; [by apply Mkdir_sends|msg_size].
Qed.

Lemma unlink_balanced live : balanced_cb id live (v9p_unlink transact path).
Proof.
  apply (at_parent_balanced live (fun d n => P9_Unlinkat transact d n 0)
    (fun d n => Tunlinkat d n 0)).
  intros d n Hn Hl. split; [by apply Unlinkat_sends|msg_size].
Qed.

Lemma rmdir_balanced live : balanced_cb id live (v9p_rmdir transact path).
Proof.
  apply (at_parent_balanced live (fun d n => P9_Unlinkat transact d n P9_AT_REMOVEDIR)
    (fun d n => Tunlinkat d n P9_AT_REMOVEDIR)).
  intros d n Hn Hl. split; [by apply Unlinkat_sends|msg_size].
Qed.

Lemma symlink_balanced live target :
  len_ok target -> balanced_cb id live (v9p_symlink transact target path).
Proof.
  intros Ht. apply (at_parent_balanced live (fun d n => P9_Symlink transact d n target)
    (fun d n => Tsymlink d n target 0)).
  intros d n Hn Hl. split; [by apply Symlink_sends|msg_size].
Qed.
End paths.

(** ** Two directories *)

Lemma release_two_wp {w} a b live (err : Z) s :
  owns (a :: b :: live) w room s ->
  wp H (_ ← P9_Clunk transact a; _ ← P9_Clunk transact b; _ ← fid_free a; _ ← fid_free b; mret err)
    (fun r s' => owns live (w + eio r) room s') s.
Proof.
  intros Ho. wp_step. apply clunk_wp; [by eapply owns_inv|]. intros e1 s1 Hk1. wp_step.
  pose proof (owns_carried _ _ _ _ Ho Hk1) as Ho1.
  apply clunk_wp; [by eapply owns_inv|]. intros e2 s2 Hk2. wp_step.
  eapply fid_free_wp; [by eapply owns_carried|]. intros s3 Ho3. wp_step.
  eapply fid_free_wp; [done|]. intros s4 Ho4. apply wp_ret. owned.
Qed.

(** Two walks, a call on both fids, and the release of both in the order that
    [swap] gives. *)
Lemma two_fids_wp {w} p1 p2 live (op : Z -> Z -> M Z) m (swap : bool) s :
  str_ok p1 -> str_ok p2 -> owns live w (room + 2) s ->
  (forall a b, sends transact (op a b) (m a b) reply_status /\ msg_fits (m a b)) ->
  wp H (w ← walk_to transact p1;
    match w with
    | (err, None) => mret err
    | (_, Some a) =>
        w ← walk_to transact p2;
        match w with
        | (err, None) => _ ← clunk_free transact a; mret err
        | (_, Some b) =>
            err ← op a b;
            let x := if swap then b else a in
            let y := if swap then a else b in
            _ ← P9_Clunk transact x; _ ← P9_Clunk transact y;
            _ ← fid_free x; _ ← fid_free y; mret err
        end
    end) (fun r s' => owns live (w + eio r) room s') s.
Proof.
  intros H1 H2 Ho Hop. apply (on_fid_wp (w := w)) with (live := live) (err := fun e => e); [done..| |].
  { intros e s' Ho' _. owned. }
  intros a s1 Ho1. wp_step. eapply (walk_to_wp p2 (a :: live) room); [done|done|done| |].
  { intros e s2 Ho2 _. eapply finish_wp; [exact Ho2|]. intros s3 Ho3. owned. }
  intros b s2 Ho2. destruct (Hop a b) as [Hs Hm]. wp_step.
  eapply status_wp; [exact Hs|done|by eapply owns_inv|]. intros err s3 Hk.
  pose proof (owns_carried _ _ _ _ Ho2 Hk) as Ho3. apply release_two_wp.
  destruct swap; [exact Ho3|]. by rewrite perm_swap.
Qed.

Lemma rename_balanced live oldpath newpath :
  str_ok oldpath -> str_ok newpath -> balanced_cb id live (v9p_rename transact oldpath newpath).
Proof.
  intros H1 H2 w s Ho. unfold v9p_rename. wp_step. apply split_wp; [done|].
  intros op on Hop Hon Hlo. wp_step. apply split_wp; [done|]. intros np nn Hnp Hnn Hln.
  apply (two_fids_wp op np live (fun a b => P9_Renameat transact a on b nn)
    (fun a b => Trenameat a on b nn) false); [done..|].
  intros a b. split; [by apply Renameat_sends|msg_size].
Qed.

Lemma link_balanced live oldpath newpath :
  str_ok oldpath -> str_ok newpath -> balanced_cb id live (v9p_link transact oldpath newpath).
Proof.
  intros H1 H2 w s Ho. unfold v9p_link. wp_step. apply split_wp; [done|].
  intros np nn Hnp Hnn Hln.
  apply (two_fids_wp oldpath np live (fun a b => P9_Link transact b a nn)
    (fun a b => Tlink b a nn) true); [done..|].
  intros a b. split; [by apply Link_sends|msg_size].
Qed.

(** ** Handles *)

Lemma release_wp {w} fi live s :
  owns (fi_fh fi :: live) w (room + 2) s ->
  wp H (v9p_release transact fi) (fun r s' => r = 0 /\ owns live w room s') s.
Proof.
  intros Ho. unfold v9p_release. pose proof (owns_range _ _ _ _ Ho).
  rewrite u32_small by lia. eapply finish_wp; [exact Ho|]. intros s' Ho'.
  split; [done|]. owned.
Qed.

(** The calls on a handle do not touch the pool. *)
Lemma handle_balanced live (op : M Z) m :
  sends transact op m reply_status -> msg_fits m -> balanced_cb id live op.
Proof.
  intros Hs Hm w s Ho. eapply status_wp; [exact Hs|done|by eapply owns_inv|].
  intros err s' Hk. owned.
Qed.

Lemma statfs_balanced live : balanced_cb fst live (v9p_statfs transact).
Proof.
  intros w s Ho. unfold v9p_statfs. wp_step. apply wp_read. wp_step.
  eapply decode_wp; [by apply (Statfs_answers transact inv), (owns_inv _ _ _ Ho)|msg_size|
    by eapply owns_inv| |].
  - intros err s' Hk Hne. destruct (Z.eqb_spec err 0); [done|]. apply wp_ret.
    owned.
  - intros a s' Hk. simpl. wp_sys. owned.
Qed.

Lemma ftruncate_balanced live size fi : balanced_cb id live (v9p_ftruncate transact size fi).
Proof.
  intros w s Ho. unfold v9p_ftruncate. wp_step.
  eapply status_wp; [apply Setattr_sends|msg_size|by eapply owns_inv|]. intros err s' Hk.
  apply wp_ret. owned.
Qed.

Lemma fsync_balanced live datasync fi : balanced_cb id live (v9p_fsync transact datasync fi).
Proof.
  destruct fi as [fi|].
  - eapply handle_balanced; [apply Fsync_sends|msg_size].
  - intros w s Ho. apply wp_ret. owned.
Qed.
End fuse.

(** ** The claim *)

(** C14: over a steady transport, for any paths, any answers of the server and any
    failures of memory allocation, these callbacks of the table of the release
    build touch no memory outside their buffers and no NULL pool, return whenever
    the transport does, and balance the fids on every path through them:
    getattr, readlink, truncate, utimens, chmod, chown, mkdir, unlink, rmdir,
    symlink, rename, link, statfs, ftruncate, fsync, open, opendir, create,
    release and releasedir.  Balanced means that the live fids of the pool are
    the same before and after, that a successful open, opendir or create adds
    exactly the fid of the handle (which was not live before), that release and
    releasedir take exactly it away, and that every other fid the callback took
    is on the free stack again: the number of fids that are neither live nor
    free grows by at most one for every allocation that failed meanwhile and by
    one if the callback returns EIO (the walk that marks its fid as an orphan).
    A callback takes at most two new fids of the 2^27 that the pool can hand
    out.  Not covered here: init and destroy, read, write and readdir (which do
    not touch the pool; their loops depend on the server and are treated on
    their own), and the debug build. *)
Theorem callbacks_balanced {E : Type} `{EnvI : !Env E DevView} `{FuelI : !Fuel}
    `{SdkI : !SdkTypes} (H : Prop) (transact : Z -> M (Sys E Core) Z) (inv : Core -> Prop)
    (HS : Steady H transact inv) (HT : Traced transact) (reset : M (Sys E Core) bool)
    (room : Z) (live path path2 target buf : list Z)
    (size mode uid gid datasync : Z) (at_ mt : timespec) (fi : fuse_file_info)
    (Hroom : 0 <= room) (Hp : str_ok path) (Hp2 : str_ok path2) (Ht : len_ok target)
    (Hb : 1 <= u32 size <= Z.of_nat (length buf)) :
  let ops := V9P_FillOperations false transact reset in
  let balanced (m : M (Sys E Core) Z) := balanced_cb H inv room id live m in
  let balanced' {A} (m : M (Sys E Core) (Z * A)) := balanced_cb H inv room fst live m in
  let opens m := opens_cb H inv room live m in
  balanced' (op_getattr ops path) /\ balanced' (op_readlink ops path buf size) /\
  balanced (op_truncate ops path size) /\ balanced (op_utimens ops path at_ mt) /\
  balanced (op_chmod ops path mode) /\ balanced (op_chown ops path uid gid) /\
  balanced (op_mkdir ops path mode) /\ balanced (op_unlink ops path) /\
  balanced (op_rmdir ops path) /\ balanced (op_symlink ops target path) /\
  balanced (op_rename ops path path2) /\ balanced (op_link ops path path2) /\
  balanced' (op_statfs ops) /\ balanced (op_ftruncate ops size fi) /\
  balanced (op_fsync ops datasync (Some fi)) /\
  opens (op_open ops path fi) /\ opens (op_opendir ops path fi) /\
  opens (op_create ops path mode fi) /\
  (forall rest w s, live ≡ₚ fi_fh fi :: rest -> owns inv live w (room + 2) s ->
     wp H (op_release ops fi) (fun r s' => r = 0 /\ owns inv rest w room s') s /\
     wp H (op_releasedir ops fi) (fun r s' => r = 0 /\ owns inv rest w room s') s).
Proof.
  intros ops balanced balanced' opens. subst balanced balanced' opens. cbv beta.
  split; [by apply getattr_balanced|]. split; [by apply readlink_balanced|].
  split; [by apply (setattr_balanced H transact inv room Hroom path Hp live (size_attr size))|].
  split; [by apply (setattr_balanced H transact inv room Hroom path Hp live (time_attr at_ mt) id)|].
  split; [by apply chmod_balanced|].
  split; [by apply (setattr_balanced H transact inv room Hroom path Hp live _ id)|].
  split; [by apply mkdir_balanced|]. split; [by apply unlink_balanced|].
  split; [by apply rmdir_balanced|]. split; [by apply symlink_balanced|].
  split; [by apply rename_balanced|]. split; [by apply link_balanced|].
  split; [by apply statfs_balanced|]. split; [by apply ftruncate_balanced|].
  split; [by apply fsync_balanced|]. split; [by apply open_opens|].
  split; [by apply opendir_opens|]. split; [by apply create_opens|].
  intros rest w s Hl Ho. rewrite Hl in Ho. split; by apply release_wp.
Qed.
