(* ===== verification/FuseRead.v ===== *)
(** * FuseRead: reading a file through the loop of v9p_read

    [ServesFile] is the interface of a server for one open file, whose content is
    a function of the environment: it answers a Tread with any number of bytes
    from the offset asked for, at most the count and the rest of the file, and
    with none only at the end; the file stays as it is.  Against it,
    [v9p_read] is shown to return exactly the part of the file that was asked
    for, however the server divides it into responses. *)

From S2P Require Import Prelude Platform CString Marshal FidPool VirtQueue Handler P9Client P9Correct P9Walk Fuse FusePath FuseCorrect.

Definition P9_RREAD_MSG (tag : Z) (data : list Z) : list Z :=
  frame P9_RREAD tag (w32 (Z.of_nat (length data)) ++ data).

(** A number of bytes that a server may return for [count] bytes at [off]. *)
Definition read_count (file : list Z) (off count k : Z) : Prop :=
  0 <= k <= count /\ (off <= Z.of_nat (length file) -> off + k <= Z.of_nat (length file)) /\
  (Z.of_nat (length file) < off -> k = 0) /\
  (k = 0 -> count = 0 \/ Z.of_nat (length file) <= off).

Class ServesFile {E : Type} `{EnvI : !Env E DevView} (H : Prop) (transact : Z -> M (Sys E Core) Z)
    (inv : Core -> Prop) (fid : Z) (content : E -> list Z) : Prop := {
  serves_steady :: Steady H transact inv;
  serves_read off count s :
    inv (core s) -> 0 <= off < 2 ^ 64 -> 0 <= count < 2 ^ 31 ->
    let file := content (sys_env s) in
    wp H (exchange transact (Tread fid off count)) (fun n s' => kept inv s s' /\
      content (sys_env s') = file /\
      exists k tag, read_count file off count k /\ n = 11 + k /\
        take (Z.to_nat n) (rx (core s')) = P9_RREAD_MSG tag (slice file off k)) s }.

Lemma header_length size type tag :
  length ((w32 size ++ le_bytes 1 type) ++ w16 tag) = 7%nat.
Proof. by rewrite !length_app, length_w32, length_le_bytes, length_w16. Qed.

(** The fields of a frame, in a buffer that starts with it. *)
Section frame_fields.
Context (type tag : Z) (body b : list Z) (n : nat).
Context (Hb : take n b = frame type tag body).

Lemma frame_rd_type : 0 <= type < 256 -> rd 1 4 b = type.
Proof.
  intros Ht. assert (Hn : (5 <= n)%nat).
  { apply (f_equal length) in Hb. rewrite length_frame, length_take in Hb. lia. }
  rewrite (rd_prefix 1 4 n b _ ltac:(lia) ltac:(lia) ltac:(lia) Hb). unfold frame.
  rewrite rd_skip by (rewrite length_w32; lia). rewrite length_w32.
  change (4 - Z.of_nat 4) with 0. rewrite (rd_here 1). by apply Z.mod_small.
Qed.

Lemma frame_rd_body k off :
  0 <= k -> 7 <= off -> off + k <= Z.of_nat n -> rd k off b = rd k (off - 7) body.
Proof.
  intros Hk Ho Hn. rewrite (rd_prefix k off n b _ Hk ltac:(lia) Hn Hb). unfold frame.
  rewrite !app_assoc, rd_skip; rewrite header_length; [done|lia].
Qed.

Lemma frame_slice_body k off :
  0 <= k -> 7 <= off -> off + k <= Z.of_nat n -> slice b off k = slice body (off - 7) k.
Proof.
  intros Hk Ho Hn.
  assert (slice b off k = slice (take n b) off k) as ->.
  { unfold slice. rewrite !take_drop_commute, take_take, Nat.min_l by lia. done. }
  rewrite Hb. unfold frame, slice. rewrite !app_assoc, drop_app_ge; rewrite header_length; [|lia].
  do 2 f_equal. lia.
Qed.
End frame_fields.

(** What [P9_Read] makes of an Rread. *)
Lemma decode_rread ask data tag b :
  let n := 11 + Z.of_nat (length data) in
  n < 2 ^ 32 -> Z.of_nat (length data) <= ask -> take (Z.to_nat n) b = P9_RREAD_MSG tag data ->
  r_decode 11 (fun n b => slice b 11 (payload ask n b)) n b = (0, Some data).
Proof.
  intros n Hn Ha Hb. unfold P9_RREAD_MSG in Hb. unfold r_decode, r_error.
  rewrite (frame_rd_type _ _ _ _ _ Hb) by (unfold P9_RREAD; lia).
  change (P9_RREAD =? P9_RLERROR) with false.
  destruct (Z.ltb_spec n P9_RHDR_SIZE); [unfold P9_RHDR_SIZE in *; lia|]. cbn.
  destruct (Z.ltb_spec n 11); [lia|]. do 2 f_equal. unfold payload.
  rewrite (frame_rd_body _ _ _ _ _ Hb) by lia. change (7 - 7) with 0.
  assert (rd 4 0 (w32 (Z.of_nat (length data)) ++ data) = Z.of_nat (length data)) as ->.
  { unfold w32. rewrite (rd_here 4). apply Z.mod_small. lia. }
  replace (Z.min _ _) with (Z.of_nat (length data)) by lia.
  rewrite (frame_slice_body _ _ _ _ _ Hb) by lia. unfold slice.
  rewrite drop_app_length' by (rewrite length_w32; lia). apply take_ge. lia.
Qed.

Section read.
Context {E : Type} `{EnvI : !Env E DevView} `{SdkI : !SdkTypes}.
Context (H : Prop) (transact : Z -> M (Sys E Core) Z) (inv : Core -> Prop).
Context (content : E -> list Z) (fid : Z) `{ServesI : !ServesFile H transact inv fid content}.
Implicit Types s : Sys E Core.
Abbreviation kept := (kept inv).

Lemma P9_Read_file off count s (Q : Z * option (list Z) -> Sys E Core -> Prop) :
  let ms := msize (hnd (core s)) in
  let file := content (sys_env s) in
  inv (core s) -> 11 < ms < 2 ^ 31 -> 0 <= off < 2 ^ 64 -> 0 <= count < 2 ^ 31 ->
  (forall k s', kept s s' -> content (sys_env s') = file -> read_count file off count k -> Q (0, Some (slice file off k)) s') ->
  wp H (P9_Read transact fid off count) Q s.
Proof.
  intros ms file Hi Hms Ho Hc HQ. set (ask := capped 11 count ms).
  assert (Hask : ask = Z.min count (ms - 11)) by (unfold ask, capped; rewrite u32_small; lia).
  assert (Hw : wp H (n ← exchange transact (Tread fid off ask); b ← read rx;
    mret (r_decode 11 (fun n b => slice b 11 (payload ask n b)) n b)) Q s).
  { wp_step. eapply wp_mono; [apply serves_read; [done..|lia]|].
    intros n s' (Hk & Hct & k & tag & Hrc & -> & Hx). fold file in Hct, Hrc, Hx. wp_step. apply wp_read, wp_ret.
    assert (Hlen : Z.of_nat (length (slice file off k)) = k).
    { unfold read_count in Hrc. unfold slice. rewrite length_take, length_drop. lia. }
    unfold read_count in Hrc. revert Hx.
    replace (11 + k) with (11 + Z.of_nat (length (slice file off k))) by lia. intros Hx.
    rewrite (decode_rread ask _ tag) by (done || lia). apply HQ; [done|done|].
    unfold read_count. split_and!; lia. }
  unfold wp in *. by rewrite (Read_answers transact inv fid off count ltac:(lia) s Hi).
Qed.

(** The part of the file that a read of [size] bytes at [off] returns. *)
Definition file_part (file : list Z) (off size : Z) : Z := Z.max 0 (Z.min size (Z.of_nat (length file) - off)).

(** The caller's buffer after [total] bytes. *)
Definition filled (file : list Z) (off total : Z) (buf : list Z) : list Z :=
  slice file off total ++ drop (Z.to_nat total) buf.

Lemma filled_extend file off total k buf :
  0 <= off -> 0 <= total -> 0 <= k -> off + total + k <= Z.of_nat (length file) ->
  total + k <= Z.of_nat (length buf) ->
  blit (filled file off total buf) total (slice file (off + total) k) =
    Some (filled file off (total + k) buf).
Proof.
  intros Ho Ht Hk Hf Hb. unfold filled.
  assert (L1 : length (slice file off total) = Z.to_nat total) by (apply slice_length; lia).
  assert (L2 : length (slice file (off + total) k) = Z.to_nat k) by (apply slice_length; lia).
  rewrite blit_Some by (rewrite ?length_app, ?length_drop; lia).
  rewrite take_app_length', drop_app_ge by lia. rewrite L1, L2, drop_drop.
  rewrite slice_app, <- app_assoc by lia. do 4 f_equal. lia.
Qed.

Lemma read_loop_file k file off size total buf s :
  content (sys_env s) = file ->
  let ms := msize (hnd (core s)) in
  inv (core s) -> 11 < ms < 2 ^ 31 -> 0 <= off -> off + size < 2 ^ 64 -> size < 2 ^ 31 ->
  size <= Z.of_nat (length buf) -> 0 <= total <= file_part file off size ->
  (Z.to_nat (size - total) < k)%nat ->
  wp H (read_loop transact k fid off size (filled file off total buf) total)
    (fun r s' => kept s s' /\ content (sys_env s') = file /\
       r = (file_part file off size, filled file off (file_part file off size) buf)) s.
Proof.
  revert total s. induction k as [|k IH]; intros total s Hct ms Hi Hms Ho Hos Hs Hb Ht Hk; [lia|].
  cbn [read_loop]. unfold file_part in *. destruct (Z.ltb_spec total size).
  2: { apply wp_ret. rewrite s32_small by lia. replace total with
         (Z.max 0 (Z.min size (Z.of_nat (length file) - off))) by lia.
       split; [by apply kept_refl|done]. }
  wp_step. rewrite u64_small by lia. apply P9_Read_file; [done|done|lia|lia|]. rewrite Hct.
  intros j s' Hkept Hct' Hj. unfold read_count in Hj. change (negb (0 =? 0)) with false. cbv iota.
  wp_step. eapply wp_lift; [done|]. wp_step.
  destruct (decide (j = 0)) as [->|Hj0].
  { change (slice file (off + total) 0) with (@nil Z). eapply wp_lift.
    { apply blit_nil. unfold filled. rewrite length_app, length_drop.
      unfold slice. rewrite length_take, length_drop. lia. }
    apply wp_ret. rewrite s32_small by lia. replace total with
      (Z.max 0 (Z.min size (Z.of_nat (length file) - off))) by lia. by split. }
  eapply wp_lift; [apply filled_extend; lia|]. cbv zeta.
  rewrite slice_length, Z2Nat.id by lia. destruct (Z.eqb_spec j 0); [done|].
  rewrite u32_small by lia. pose proof Hkept as (Hi' & _ & Hms').
  eapply wp_mono; [apply IH; rewrite ?Hms'; (done || lia)|].
  intros r s2 (Hk2 & Hc2 & ->). split; [by eapply kept_trans|done].
Qed.

Lemma read_file (fi : fuse_file_info) buf size off s :
  u32 (fi_fh fi) = fid -> inv (core s) -> 11 < msize (hnd (core s)) < 2 ^ 31 ->
  0 <= off -> off + size < 2 ^ 64 -> 0 <= size < 2 ^ 31 -> size <= Z.of_nat (length buf) ->
  let file := content (sys_env s) in
  let n := Z.max 0 (Z.min size (Z.of_nat (length file) - off)) in
  wp H (v9p_read transact buf size off fi) (fun r s' =>
    r = (n, take (Z.to_nat n) (drop (Z.to_nat off) file) ++ drop (Z.to_nat n) buf) /\
    content (sys_env s') = file /\ inv (core s') /\
    fid_pool (hnd (core s')) = fid_pool (hnd (core s))) s.
Proof.
  intros Hfid Hi Hms Ho Hos Hs Hb file n. unfold v9p_read. rewrite (u32_small size), Hfid by lia.
  eapply wp_mono; [apply (read_loop_file _ file off size 0 buf s);
    (done || unfold file_part; lia)|].
  intros r s' ((? & ? & _) & ? & ->). by split_and!.
Qed.
End read.

(** ** The claim *)

(** C9: [v9p_read] of [size] bytes at [off] returns the number of bytes that the
    file has there, at most [size], and the caller's buffer then starts with
    exactly these bytes and is unchanged behind them; no matter how many bytes
    the server puts into each Rread.  The file is not changed.  The loop ends when the transport does:
    every round but the last adds at least one byte. *)
Theorem v9p_read_correct {E : Type} `{EnvI : !Env E DevView} (H : Prop)
    (transact : Z -> M (Sys E Core) Z) (inv : Core -> Prop) (fi : fuse_file_info)
    (content : E -> list Z) (HF : ServesFile H transact inv (u32 (fi_fh fi)) content) (buf : list Z) (size off : Z)
    (s : Sys E Core) (Hi : inv (core s)) (Hms : 11 < msize (hnd (core s)) < 2 ^ 31)
    (Ho : 0 <= off) (Hos : off + size < 2 ^ 64) (Hs : 0 <= size < 2 ^ 31)
    (Hb : size <= Z.of_nat (length buf)) :
  let file := content (sys_env s) in
  let n := Z.max 0 (Z.min size (Z.of_nat (length file) - off)) in
  wp H (v9p_read transact buf size off fi) (fun r s' =>
    r = (n, take (Z.to_nat n) (drop (Z.to_nat off) file) ++ drop (Z.to_nat n) buf) /\
    content (sys_env s') = file /\ inv (core s') /\ fid_pool (hnd (core s')) = fid_pool (hnd (core s))) s.
Proof.
  intros file n. by eapply read_file.
Qed.
