(* ===== verification/FuseWrite.v ===== *)
(** * FuseWrite: writing a file through the loop of v9p_write

    [WritesFile] extends the interface of a server for one open file
    (FuseRead.v): it answers a Twrite by storing any number of bytes of it, at
    least one, or refuses it with an error.  Against it, [v9p_write] is shown to
    store exactly the caller's bytes at the offset, however the server divides
    them; and [v9p_read] then to read them back. *)

From S2P Require Import Prelude Platform CString Marshal FidPool VirtQueue Handler P9Client P9Correct P9Walk Fuse FusePath FuseCorrect FuseRead.

(** ** Files *)

(** [file] after [data] was stored at [off]; a gap is filled with zeros. *)
Definition put_at (file : list Z) (off : Z) (data : list Z) : list Z :=
  match data with
  | [] => file
  | _ => take (Z.to_nat off) (file ++ replicate (Z.to_nat off - length file) 0) ++ data ++
           drop (Z.to_nat off + length data) file
  end.

Lemma put_at_ne file off data :
  data <> [] -> put_at file off data =
    take (Z.to_nat off) (file ++ replicate (Z.to_nat off - length file) 0) ++ data ++
      drop (Z.to_nat off + length data) file.
Proof. by destruct data. Qed.

Lemma put_at_gap file off :
  length (take (Z.to_nat off) (file ++ replicate (Z.to_nat off - length file) 0)) = Z.to_nat off.
Proof. rewrite length_take, length_app, length_replicate. lia. Qed.

(** Storing in two parts. *)
Lemma put_at_app file off a b :
  0 <= off -> put_at (put_at file off a) (off + Z.of_nat (length a)) b = put_at file off (a ++ b).
Proof.
  intros Ho. destruct a as [|x a]; [by rewrite Z.add_0_r|]. destruct b as [|y b].
  { by rewrite app_nil_r. }
  set (d := x :: a). set (d' := y :: b). pose proof (put_at_gap file off) as Hg.
  rewrite (put_at_ne (put_at _ _ _)), !(put_at_ne file) by done.
  set (g := take _ (file ++ _)) in *. replace (Z.to_nat (off + Z.of_nat (length d)))
    with (Z.to_nat off + length d)%nat by lia.
  assert (Hl : length (g ++ d) = (Z.to_nat off + length d)%nat) by (rewrite length_app; lia).
  rewrite (app_assoc g d). rewrite <- (app_assoc (g ++ d)).
  rewrite take_app_length' by done. rewrite drop_app_ge by lia.
  rewrite drop_drop, Hl, <- !app_assoc, length_app. do 4 f_equal. lia.
Qed.

Lemma put_at_length file off data :
  0 <= off -> data <> [] -> off + Z.of_nat (length data) <= Z.of_nat (length (put_at file off data)).
Proof.
  intros Ho Hd. rewrite put_at_ne by done. pose proof (put_at_gap file off).
  rewrite !length_app. lia.
Qed.

Lemma put_at_slice file off data :
  0 <= off -> slice (put_at file off data) off (Z.of_nat (length data)) = data.
Proof.
  intros Ho. destruct (decide (data = [])) as [->|Hd]; [done|].
  rewrite put_at_ne by done. unfold slice.
  rewrite drop_app_length' by (by rewrite put_at_gap). rewrite Nat2Z.id. apply take_app_length.
Qed.

Lemma put_at_fmap (f : Z -> Z) file off data :
  f 0 = 0 -> f <$> put_at file off data = put_at (f <$> file) off (f <$> data).
Proof.
  intros H0. destruct data as [|x d]; [done|]. rewrite !put_at_ne by done.
  rewrite !fmap_app, fmap_take, fmap_drop, fmap_app, fmap_replicate, H0, !length_fmap. done.
Qed.

(** ** The server *)

Definition P9_RWRITE_MSG (tag k : Z) : list Z := frame P9_RWRITE tag (w32 k).
Definition P9_RLERROR_MSG (tag e : Z) : list Z := frame P9_RLERROR tag (w32 e).

(** [refuses] has the errors that the server may give. *)
Class WritesFile {E : Type} `{EnvI : !Env E DevView} (H : Prop) (transact : Z -> M (Sys E Core) Z)
    (inv : Core -> Prop) (fid : Z) (content : E -> list Z) (refuses : Z -> Prop) : Prop := {
  writes_file :: ServesFile H transact inv fid content;
  writes_write off data s :
    inv (core s) -> 0 <= off -> off + Z.of_nat (length data) < 2 ^ 64 ->
    Forall is_byte data -> data <> [] -> msg_fits (Twrite fid off data) ->
    let file := content (sys_env s) in
    wp H (exchange transact (Twrite fid off data)) (fun n s' => kept inv s s' /\ n = 11 /\
      ((exists k tag, 0 < k <= Z.of_nat (length data) /\
         take 11 (rx (core s')) = P9_RWRITE_MSG tag k /\
         content (sys_env s') = put_at file off (take (Z.to_nat k) data)) \/
       (exists e tag, refuses e /\ 0 < e < 2 ^ 31 /\
         take 11 (rx (core s')) = P9_RLERROR_MSG tag e /\ content (sys_env s') = file))) s }.

(** What [P9_Write] makes of the two responses. *)
Lemma decode_rwrite tag k b :
  0 <= k < 2 ^ 32 -> take 11 b = P9_RWRITE_MSG tag k ->
  r_decode 11 (fun _ => rd 4 7) 11 b = (0, Some k).
Proof.
  intros Hk Hb. unfold P9_RWRITE_MSG in Hb. unfold r_decode, r_error.
  rewrite (frame_rd_type _ _ _ _ _ Hb) by (unfold P9_RWRITE; lia).
  change (P9_RWRITE =? P9_RLERROR) with false. cbn. do 2 f_equal.
  rewrite (frame_rd_body _ _ _ _ _ Hb) by lia. unfold w32. change (7 - 7) with 0.
  rewrite (rd_last 4). by apply Z.mod_small.
Qed.

Lemma decode_rlerror {A} tag e need (parse : Z -> list Z -> A) b :
  0 < e < 2 ^ 31 -> take 11 b = P9_RLERROR_MSG tag e -> r_decode need parse 11 b = (- e, None).
Proof.
  intros He Hb. unfold P9_RLERROR_MSG in Hb. unfold r_decode, r_error.
  rewrite (frame_rd_type _ _ _ _ _ Hb) by (unfold P9_RLERROR; lia).
  change (P9_RLERROR =? P9_RLERROR) with true.
  rewrite (frame_rd_body _ _ _ _ _ Hb) by lia. unfold w32. change (7 - 7) with 0.
  rewrite (rd_last 4), Z.mod_small, (s32_small e) by lia.
  assert (s32 (- e) = - e) as ->.
  { unfold s32. rewrite <- (Z_mod_plus_full _ 1), Z.mod_small by lia.
    destruct (Z.ltb_spec (- e + 1 * 2 ^ 32) (2 ^ 31)); lia. }
  change (11 <? P9_RHDR_SIZE) with false. change (11 <? P9_RLERROR_SIZE) with false.
  cbv iota. destruct (Z.eqb_spec (- e) 0); [lia|done].
Qed.

Section write.
Context {E : Type} `{EnvI : !Env E DevView} `{FuelI : !Fuel}.
Context (H : Prop) (transact : Z -> M (Sys E Core) Z) (inv : Core -> Prop).
Context (content : E -> list Z) (refuses : Z -> Prop) (fid : Z).
Context `{WritesI : !WritesFile H transact inv fid content refuses}.
Implicit Types s : Sys E Core.
Abbreviation kept := (kept inv).

(** One Twrite stores a part of the data, or is refused. *)
Lemma P9_Write_file off count data s (Q : Z * option Z -> Sys E Core -> Prop) :
  let ms := msize (hnd (core s)) in
  let file := content (sys_env s) in
  inv (core s) -> 23 < ms <= P9_MSIZE -> 0 <= off -> off + count < 2 ^ 64 ->
  0 < count <= Z.of_nat (length data) -> Forall is_byte data ->
  (forall k s', kept s s' -> 0 < k <= count ->
     content (sys_env s') = put_at file off (take (Z.to_nat k) data) -> Q (0, Some k) s') ->
  (forall e s', kept s s' -> refuses e -> 0 < e < 2 ^ 31 -> content (sys_env s') = file ->
     Q (- e, None) s') ->
  wp H (P9_Write transact fid off count data) Q s.
Proof.
  intros ms file Hi Hms Ho Hoc Hc Hb HQ HE. unfold P9_MSIZE in *.
  set (n := Z.min count (ms - 23)). assert (Hn : 0 < n <= count) by lia.
  set (d := take (Z.to_nat n) data).
  assert (Hd : Z.of_nat (length d) = n) by (unfold d; rewrite length_take; lia).
  assert (Hw : wp H (n ← exchange transact (Twrite fid off d); b ← read rx;
    mret (r_decode 11 (fun _ => rd 4 7) n b)) Q s).
  { wp_step. eapply wp_mono; [apply writes_write; try done; [lia|by apply Forall_take| |]|].
    { intros Hn0. rewrite Hn0 in Hd. cbn in Hd. lia. }
    { unfold msg_fits. cbn [t_body]. autorewrite with wire. unfold P9_MSIZE. lia. }
    intros r s' (Hk & -> & [(k & tag & Hkd & Hx & Hct)|(e & tag & Hr & He & Hx & Hct)]);
      wp_step; apply wp_read, wp_ret.
    - rewrite (decode_rwrite tag k) by (done || lia). apply HQ; [done|lia|].
      rewrite Hct. unfold d. by rewrite take_take, Nat.min_l by lia.
    - rewrite (decode_rlerror tag e) by done. by apply HE. }
  unfold wp in *. rewrite (Write_answers transact inv fid off count data s Hi ltac:(unfold P9_MSIZE; lia)
    ltac:(lia)). unfold capped. fold ms. rewrite (u32_small (ms - 23)) by lia. exact Hw.
Qed.

(** What a write of [size] bytes of [buf] at [off] leads to: all is stored, or
    the server gave an error after some of it. *)
Definition write_result (file buf : list Z) (off size : Z) (r : Z) (file' : list Z) : Prop :=
  (r = size /\ file' = put_at file off (take (Z.to_nat size) buf)) \/
  (exists e j, refuses e /\ r = - e /\ 0 < e < 2 ^ 31 /\ 0 <= j < size /\
     file' = put_at file off (take (Z.to_nat j) buf)).

Lemma write_loop_file k file off size total buf s :
  content (sys_env s) = put_at file off (take (Z.to_nat total) buf) ->
  inv (core s) -> 23 < msize (hnd (core s)) <= P9_MSIZE -> 0 <= off -> off + size < 2 ^ 64 ->
  size < 2 ^ 31 -> size <= Z.of_nat (length buf) -> Forall is_byte buf -> 0 <= total <= size ->
  (Z.to_nat (size - total) < k)%nat ->
  wp H (write_loop transact k fid off size buf total)
    (fun r s' => kept s s' /\ write_result file buf off size r (content (sys_env s'))) s.
Proof.
  revert total s. induction k as [|k IH]; intros total s Hct Hi Hms Ho Hos Hs Hb Hby Ht Hk; [lia|].
  cbn [write_loop]. destruct (Z.ltb_spec total size).
  2: { apply wp_ret. rewrite s32_small by lia. split; [by apply kept_refl|].
       left. by replace size with total by lia. }
  wp_step. rewrite u64_small by lia.
  apply P9_Write_file; [done|done|lia|lia|rewrite length_drop; lia|by apply Forall_drop| |].
  - intros j s' Hkept Hj Hct'. change (negb (0 =? 0)) with false. cbv iota. wp_step.
    eapply wp_lift; [done|]. destruct (Z.eqb_spec j 0); [lia|]. rewrite u32_small by lia.
    pose proof Hkept as (Hi' & _ & Hms').
    eapply wp_mono; [apply IH; rewrite ?Hms'; try done; try lia|].
    + rewrite Hct', Hct. replace (off + total)
        with (off + Z.of_nat (length (take (Z.to_nat total) buf))) by (rewrite length_take; lia).
      rewrite put_at_app by lia. f_equal. rewrite Z2Nat.inj_add by lia. apply take_take_drop.
    + intros r s2 [Hk2 Hr]. split; [by eapply kept_trans|done].
  - intros e s' Hkept Hr He Hct'. destruct (Z.eqb_spec (- e) 0); [lia|]. cbn [negb].
    apply wp_ret. split; [done|]. right. exists e, total. rewrite Hct'. split_and!; (done || lia).
Qed.

Lemma write_file (fi : fuse_file_info) buf size off s :
  u32 (fi_fh fi) = fid -> inv (core s) -> 23 < msize (hnd (core s)) <= P9_MSIZE ->
  0 <= off -> off + size < 2 ^ 64 -> 0 <= size < 2 ^ 31 -> size <= Z.of_nat (length buf) ->
  Forall is_byte buf -> (Z.to_nat size < fuel)%nat ->
  wp H (v9p_write transact buf size off fi) (fun r s' => kept s s' /\
    write_result (content (sys_env s)) buf off size r (content (sys_env s'))) s.
Proof.
  intros Hfid Hi Hms Ho Hos Hs Hb Hby Hf. unfold v9p_write. rewrite (u32_small size), Hfid by lia.
  apply write_loop_file; (done || lia).
Qed.
End write.

(** ** The claims *)

(** C10: [v9p_write] of [size] bytes at [off] returns [size], and the file then has
    exactly the first [size] bytes of [buf] at [off] and is unchanged elsewhere,
    no matter how many bytes the server takes from each Twrite; or the server
    refused a part with the error [e], then [v9p_write] returns [- e] and what
    was stored is a prefix of the data.  The loop ends when the transport
    does. *)
Theorem v9p_write_correct {E : Type} `{EnvI : !Env E DevView} `{FuelI : !Fuel} (H : Prop)
    (transact : Z -> M (Sys E Core) Z) (inv : Core -> Prop) (fi : fuse_file_info)
    (content : E -> list Z) (refuses : Z -> Prop)
    (HW : WritesFile H transact inv (u32 (fi_fh fi)) content refuses) (buf : list Z) (size off : Z)
    (s : Sys E Core) (Hi : inv (core s)) (Hms : 23 < msize (hnd (core s)) <= P9_MSIZE)
    (Ho : 0 <= off) (Hos : off + size < 2 ^ 64) (Hs : 0 <= size < 2 ^ 31)
    (Hb : size <= Z.of_nat (length buf)) (Hby : Forall is_byte buf)
    (Hf : (Z.to_nat size < fuel)%nat) :
  wp H (v9p_write transact buf size off fi) (fun r s' =>
    ((r = size /\
      content (sys_env s') = put_at (content (sys_env s)) off (take (Z.to_nat size) buf)) \/
     (exists e j, refuses e /\ r = - e /\ 0 < e /\ 0 <= j < size /\
      content (sys_env s') = put_at (content (sys_env s)) off (take (Z.to_nat j) buf))) /\
    inv (core s') /\ fid_pool (hnd (core s')) = fid_pool (hnd (core s))) s.
Proof.
  eapply wp_mono; [by eapply write_file|].
  intros r s' ((Hi' & Hp & _) & Hr). split; [|done].
  destruct Hr as [?|(e & j & ? & ? & ? & ? & ?)]; [by left|right]. exists e, j. split_and!; (done || lia).
Qed.

(** C11: what [v9p_write] stored, [v9p_read] of the same open file returns: after
    writing [size] bytes of [buf] at [off], reading there returns [size] and
    puts these bytes at the start of the reader's buffer.  Writes and reads may
    be divided into messages in different ways. *)
Theorem v9p_write_read_roundtrip {E : Type} `{EnvI : !Env E DevView} `{FuelI : !Fuel} (H : Prop)
    (transact : Z -> M (Sys E Core) Z) (inv : Core -> Prop) (fi : fuse_file_info)
    (content : E -> list Z)
    (HW : WritesFile H transact inv (u32 (fi_fh fi)) content (fun _ => False))
    (buf out : list Z) (size off : Z)
    (s : Sys E Core) (Hi : inv (core s)) (Hms : 23 < msize (hnd (core s)) <= P9_MSIZE)
    (Ho : 0 <= off) (Hos : off + size < 2 ^ 64) (Hs : 0 <= size < 2 ^ 31)
    (Hb : size <= Z.of_nat (length buf)) (Hout : size <= Z.of_nat (length out))
    (Hby : Forall is_byte buf) (Hf : (Z.to_nat size < fuel)%nat) :
  wp H (r ← v9p_write transact buf size off fi; x ← v9p_read transact out size off fi; mret (r, x))
    (fun x s' => x = (size, (size, take (Z.to_nat size) buf ++ drop (Z.to_nat size) out)) /\
       content (sys_env s') = put_at (content (sys_env s)) off (take (Z.to_nat size) buf)) s.
Proof.
  wp_step. eapply wp_mono; [by eapply write_file|].
  intros r s1 ((Hi1 & _ & Hms1) & [[-> Hct]|(e & ? & [] & _)]).
  wp_step. eapply wp_mono; [apply (read_file H transact inv content (u32 (fi_fh fi)));
    rewrite ?Hms1; try done; unfold P9_MSIZE in *; lia|].
  cbv beta zeta. rewrite Hct. set (d := take (Z.to_nat size) buf).
  assert (Hd : Z.of_nat (length d) = size) by (unfold d; rewrite length_take; lia).
  intros x s2 (-> & Hct2 & _). wp_step. split; [|done].
  pose proof (put_at_slice (content (sys_env s)) off d Ho) as Hsl. rewrite Hd in Hsl.
  destruct (decide (d = [])) as [Hnil|Hne].
  { rewrite Hnil in *. cbn in Hd. subst size. rewrite Z.max_l by lia. done. }
  pose proof (put_at_length (content (sys_env s)) off d Ho Hne).
  replace (Z.max 0 _) with size by lia. do 3 f_equal. exact Hsl.
Qed.
