(* ===== verification/Pci.v ===== *)
(** * Pci: finding the device (src/pci/pci_discovery.c, pci_modern_detect.c)

    [V9P_DiscoverDevice] looks for a VirtIO 9P device on the bus and caches its
    BARs; [V9P_DetectModern] walks its capability list for the regions of the
    modern interface and probes whether MMIO works at all.  The bus is external;
    [PciFn] describes one whose answers do not change, as the PCI specification
    has it, and against it the result of the walk is compared with what the list
    of capabilities says, field by field. *)

From S2P Require Import Prelude Platform FidPool VirtQueue Handler VirtioInit.

Definition VIRTIO_PCI_CAP_COMMON_CFG : Z := 1.
Definition VIRTIO_PCI_CAP_NOTIFY_CFG : Z := 2.
Definition VIRTIO_PCI_CAP_ISR_CFG : Z := 3.
Definition VIRTIO_PCI_CAP_DEVICE_CFG : Z := 4.
Definition VIRTIO_CAP_OFF_CFG_TYPE : Z := 3.
Definition VIRTIO_CAP_OFF_BAR : Z := 4.
Definition VIRTIO_CAP_OFF_OFFSET : Z := 8.
Definition VIRTIO_CAP_OFF_NOTIFY_MULT : Z := 16.
Definition V9P_PCI_DEVICE_ID_MODERN : Z := 0x1049.
Definition V9P_PCI_DEVICE_ID_LEGACY : Z := 0x1009.

(** PCI specification: the vendor-specific capability, the ID registers. *)
Definition PCI_CAPABILITYID_VENDOR : Z := 0x09.
Definition PCI_VENDOR_ID : Z := 0x00.
Definition PCI_DEVICE_ID : Z := 0x02.

(** ** The fields of the handler that the detection sets *)

Record ModernCfg := mkCfg {
  mc_mode : bool; mc_common : Z; mc_notify : Z; mc_mult : Z; mc_isr : Z; mc_device : Z }.

Definition cfg_of (h : V9PHandler) : ModernCfg :=
  mkCfg (modern_mode h) (common_cfg_base h) (notify_cfg_base h) (notify_off_mult h)
    (isr_cfg_base h) (device_cfg_base h).

Definition set_cfg (x : ModernCfg) (h : V9PHandler) : V9PHandler :=
  mkV9PHandler
    (pciDevice h) (bar0 h) (bar4 h) (iobase h) (mc_mode x) (mc_common x)
    (mc_notify x) (mc_mult x) (mc_isr x) (mc_device x) (vq h) (irq_number h)
    (irq_installed h) (msize h) (root_fid h) (fid_pool h) (next_tag h) (tx_buf h)
    (rx_buf h) (tx_phys h) (rx_phys h) (flush_buf h) (flush_phys h)
    (tx_dma_active h) (rx_dma_active h) (flush_dma_active h) (in_reset h) (mount_tag h).

Lemma cfg_of_set x h : cfg_of (set_cfg x h) = x.
Proof. by destruct x. Qed.

Definition set_device (d b0 b4 io : Z) (h : V9PHandler) : V9PHandler :=
  mkV9PHandler
    d b0 b4 io (modern_mode h) (common_cfg_base h) (notify_cfg_base h)
    (notify_off_mult h) (isr_cfg_base h) (device_cfg_base h) (vq h) (irq_number h)
    (irq_installed h) (msize h) (root_fid h) (fid_pool h) (next_tag h) (tx_buf h)
    (rx_buf h) (tx_phys h) (rx_phys h) (flush_buf h) (flush_phys h)
    (tx_dma_active h) (rx_dma_active h) (flush_dma_active h) (in_reset h) (mount_tag h).

(** The store of one region: the [switch] on [cfg_type] but for the multiplier. *)
Definition store_region (cfg_type addr : Z) (x : ModernCfg) : ModernCfg :=
  if cfg_type =? VIRTIO_PCI_CAP_COMMON_CFG
  then mkCfg true addr (mc_notify x) (mc_mult x) (mc_isr x) (mc_device x)
  else if cfg_type =? VIRTIO_PCI_CAP_NOTIFY_CFG
  then mkCfg (mc_mode x) (mc_common x) addr (mc_mult x) (mc_isr x) (mc_device x)
  else if cfg_type =? VIRTIO_PCI_CAP_ISR_CFG
  then mkCfg (mc_mode x) (mc_common x) (mc_notify x) (mc_mult x) addr (mc_device x)
  else if cfg_type =? VIRTIO_PCI_CAP_DEVICE_CFG
  then mkCfg (mc_mode x) (mc_common x) (mc_notify x) (mc_mult x) (mc_isr x) addr
  else x.

Definition store_mult (mult : Z) (x : ModernCfg) : ModernCfg :=
  mkCfg (mc_mode x) (mc_common x) (mc_notify x) mult (mc_isr x) (mc_device x).

Definition store_mode (mode : bool) (x : ModernCfg) : ModernCfg :=
  mkCfg mode (mc_common x) (mc_notify x) (mc_mult x) (mc_isr x) (mc_device x).

Section pci.
Context {E : Type} `{EnvI : !Env E DevView}.
Abbreviation M := (M (Sys E Core)).

Definition on_cfg (f : ModernCfg -> ModernCfg) : M unit :=
  write (on_hnd (fun h => set_cfg (f (cfg_of h)) h)).

(** The body of the loop for a vendor-specific capability. *)
Definition vendor_cap (cap : Z) : M unit :=
  off ← ext (CapOffset cap);
  cfg_type ← ext (ReadConfigByte (u32 (off + VIRTIO_CAP_OFF_CFG_TYPE)));
  off ← ext (CapOffset cap);
  bar_num ← ext (ReadConfigByte (u32 (off + VIRTIO_CAP_OFF_BAR)));
  off ← ext (CapOffset cap);
  offset ← ext (ReadConfigLong (u32 (off + VIRTIO_CAP_OFF_OFFSET)));
  bar ← ext (GetResourceRange bar_num);
  if bar =? 0 then mret tt
  else
    base ← ext (RangeBaseAddress bar);
    _ ← on_cfg (store_region cfg_type (u32 (base + offset)));
    if cfg_type =? VIRTIO_PCI_CAP_NOTIFY_CFG then
      off ← ext (CapOffset cap);
      mult ← ext (ReadConfigLong (u32 (off + VIRTIO_CAP_OFF_NOTIFY_MULT)));
      on_cfg (store_mult mult)
    else mret tt.

(** [while (cap && guard < 32)], with [n] rounds left. *)
Fixpoint cap_loop (n : nat) (cap : Z) : M unit :=
  match n with
  | O => mret tt
  | S n =>
      if cap =? 0 then mret tt
      else
        type ← ext (CapType cap);
        _ ← (if type =? PCI_CAPABILITYID_VENDOR then vendor_cap cap else mret tt);
        cap ← ext (GetNextCapability cap);
        cap_loop n cap
  end.

(** Does a write to the status register come back? *)
Definition mmio_probe (base : Z) : M Z :=
  pci_cmd ← ext (ReadConfigWord PCI_COMMAND);
  _ ← (if Z.land pci_cmd (Z.lor PCI_COMMAND_MEMORY PCI_COMMAND_MASTER) =? 0
       then ext (WriteConfigWord PCI_COMMAND
              (Z.lor (Z.lor pci_cmd PCI_COMMAND_MEMORY) PCI_COMMAND_MASTER))
       else mret 0);
  _ ← ext (MmioW8 (u32 (base + VIRTIO_PCI_COMMON_STATUS)) 0x00);
  _ ← ext (MmioW8 (u32 (base + VIRTIO_PCI_COMMON_STATUS)) VIRTIO_STATUS_ACKNOWLEDGE);
  probe ← ext (MmioR8 (u32 (base + VIRTIO_PCI_COMMON_STATUS)));
  _ ← ext (MmioW8 (u32 (base + VIRTIO_PCI_COMMON_STATUS)) 0x00);
  mret probe.

Definition V9P_DetectModern : M bool :=
  pciDev ← read (fun c => pciDevice (hnd c));
  _ ← on_cfg (fun _ => mkCfg false 0 0 0 0 0);
  if pciDev =? 0 then mret false
  else
    cap ← ext GetFirstCapability;
    _ ← cap_loop 32 cap;
    h ← read hnd;
    _ ← (if modern_mode h && negb (common_cfg_base h =? 0) then
           probe ← mmio_probe (common_cfg_base h);
           if probe =? VIRTIO_STATUS_ACKNOWLEDGE then mret tt else on_cfg (store_mode false)
         else mret tt);
    read (fun c => modern_mode (hnd c)).

(** The transitional device, or else the modern-only one. *)
Definition find_device : M Z :=
  device ← ext (FindDeviceTags 0x1AF4 V9P_PCI_DEVICE_ID_LEGACY);
  if device =? 0 then ext (FindDeviceTags 0x1AF4 V9P_PCI_DEVICE_ID_MODERN) else mret device.

(** The high half of a 64-bit BAR4 is set to 0 where it was left at all ones. *)
Definition fix_bar5 : M unit :=
  bar5 ← ext (ReadConfigLong 0x24);
  if bar5 =? 0xFFFFFFFF then
    _ ← ext (WriteConfigLong 0x24 0);
    _ ← ext (ReadConfigLong 0x24);
    mret tt
  else mret tt.

(** The ranges of BAR0 and BAR4, and the I/O address of BAR0. *)
Definition cache_bars (device : Z) : M unit :=
  b0 ← ext (GetResourceRange 0);
  b4 ← ext (GetResourceRange 4);
  io ← (if b0 =? 0 then read (fun c => iobase (hnd c))
        else _ ← ext (RangeFlags b0); _ ← ext (RangeFlags b0); ext (RangePhysical b0));
  write (on_hnd (set_device device b0 b4 io)).

(** [ipci]: the interface pointer of the handler. *)
Definition V9P_DiscoverDevice (ipci : Z) : M bool :=
  if ipci =? 0 then mret false
  else
    device ← find_device;
    if device =? 0 then mret false
    else
      _ ← ext (ReadConfigWord PCI_VENDOR_ID);
      _ ← ext (ReadConfigWord PCI_DEVICE_ID);
      _ ← ext GetAddress;
      _ ← fix_bar5;
      _ ← cache_bars device;
      _ ← V9P_DetectModern;
      mret true.
End pci.

(** The resource ranges that a trace obtained. *)
Definition range_got (x : ExtCall * Z) : option res :=
  match x.1 with GetResourceRange _ => acquired x | _ => None end.
Definition ranges (l : list (ExtCall * Z)) : list res := omap range_got l.

Lemma ranges_app l1 l2 : ranges (l1 ++ l2) = ranges l1 ++ ranges l2.
Proof. apply omap_app. Qed.

(** ** A bus with fixed answers *)

Record PciFn := mkPciFn {
  pf_caps : list Z;           (* the capabilities, in the order of the list *)
  pf_type : Z -> Z; pf_off : Z -> Z;
  pf_byte : Z -> Z; pf_long : Z -> Z;       (* the configuration space *)
  pf_range : Z -> Z; pf_base : Z -> Z }.    (* the range of a BAR, its address *)

Class Bus {E : Type} `{EnvI : !Env E DevView} (d : PciFn) : Prop := {
  bus_first e : (env_call e GetFirstCapability).2 = hd 0 (pf_caps d);
  bus_next e pre c post : pf_caps d = pre ++ c :: post ->
    (env_call e (GetNextCapability c)).2 = hd 0 post;
  bus_type e c : (env_call e (CapType c)).2 = pf_type d c;
  bus_off e c : (env_call e (CapOffset c)).2 = pf_off d c;
  bus_byte e o : (env_call e (ReadConfigByte o)).2 = pf_byte d o;
  bus_long e o : (env_call e (ReadConfigLong o)).2 = pf_long d o;
  bus_range e n : (env_call e (GetResourceRange n)).2 = pf_range d n;
  bus_base e r : (env_call e (RangeBaseAddress r)).2 = pf_base d r;
  bus_caps : Forall (fun c => 0 < c < 2 ^ 32) (pf_caps d) }.

Section reference.
Context (d : PciFn).

(** The fields of a capability, at the offsets of the VirtIO specification. *)
Definition cap_field (c k : Z) : Z := u32 (u32 (pf_off d c) + k).
Definition is_vendor (c : Z) : bool := u32 (pf_type d c) =? 0x09.
Definition cap_cfg_type (c : Z) : Z := u8 (pf_byte d (cap_field c 3)).
Definition cap_range (c : Z) : Z := u32 (pf_range d (u8 (pf_byte d (cap_field c 4)))).
Definition cap_addr (c : Z) : Z :=
  u32 (u32 (pf_base d (cap_range c)) + u32 (pf_long d (cap_field c 8))).
Definition cap_mult (c : Z) : Z := u32 (pf_long d (cap_field c 16)).

(** A vendor capability whose BAR is there. *)
Definition usable (c : Z) : bool := is_vendor c && negb (cap_range c =? 0).

(** The last usable one of the kind [k]: the one that counts. *)
Definition last_cap (k : Z) (l : list Z) : option Z :=
  head (rev (List.filter (fun c => usable c && (cap_cfg_type c =? k)) l)).

Definition region (k : Z) (l : list Z) : Z := from_option cap_addr 0 (last_cap k l).

(** The kinds: 1 common, 2 notification, 3 ISR, 4 device. *)
Definition regions_of (l : list Z) : ModernCfg :=
  mkCfg (from_option (fun _ => true) false (last_cap 1 l)) (region 1 l) (region 2 l)
    (from_option cap_mult 0 (last_cap 2 l)) (region 3 l) (region 4 l).

Definition regions : ModernCfg := regions_of (take 32 (pf_caps d)).

(** The ranges that are obtained on the way. *)
Definition cap_res (c : Z) : list res := if usable c then [RRange (cap_range c)] else [].

(** What one round of the loop does to the fields. *)
Definition cap_effect (x : ModernCfg) (c : Z) : ModernCfg :=
  if usable c then
    let y := store_region (cap_cfg_type c) (cap_addr c) x in
    if cap_cfg_type c =? VIRTIO_PCI_CAP_NOTIFY_CFG then store_mult (cap_mult c) y else y
  else x.

Lemma last_cap_snoc k l c :
  last_cap k (l ++ [c]) =
  if usable c && (cap_cfg_type c =? k) then Some c else last_cap k l.
Proof.
  unfold last_cap. rewrite List.filter_app. cbn [List.filter].
  destruct (_ && _); [by rewrite rev_app_distr|by rewrite app_nil_r].
Qed.

(** The rounds of the loop amount to the last capability of each kind. *)
Lemma fold_regions l : fold_left cap_effect l (mkCfg false 0 0 0 0 0) = regions_of l.
Proof.
  induction l as [|c l IH] using rev_ind; [done|]. rewrite fold_left_app. cbn [fold_left].
  rewrite IH. unfold regions_of, region, cap_effect. rewrite !last_cap_snoc.
  destruct (usable c); [|done]. cbn [andb]. unfold store_region, store_mult.
  change VIRTIO_PCI_CAP_COMMON_CFG with 1. change VIRTIO_PCI_CAP_NOTIFY_CFG with 2.
  change VIRTIO_PCI_CAP_ISR_CFG with 3. change VIRTIO_PCI_CAP_DEVICE_CFG with 4.
  repeat case_cmp; (lia || reflexivity).
Qed.
End reference.

Section detect.
Context {E : Type} `{EnvI : !Env E DevView} (d : PciFn) `{BusI : !Bus d}.
Implicit Types s : Sys E Core.

Ltac bus L := eapply wp_ext_val; [intros; apply L|]; intros ?; cbn [ext_norm].

Lemma vendor_cap_wp cap s (Q : unit -> Sys E Core -> Prop) :
  is_vendor d cap = true ->
  (forall s', core s' = on_hnd (fun h => set_cfg (cap_effect d (cfg_of h) cap) h) (core s) ->
     balanced (sys_log s) (sys_log s') [] (cap_res d cap) ->
     accesses (sys_log s') = accesses (sys_log s) -> Q tt s') ->
  wp False (vendor_cap cap) Q s.
Proof.
  intros Hv HQ. unfold vendor_cap, on_cfg.
  wp_step. bus bus_off. wp_step. bus bus_byte. wp_step. bus bus_off. wp_step. bus bus_byte.
  wp_step. bus bus_off. wp_step. bus bus_long. wp_step. bus bus_range.
  change VIRTIO_CAP_OFF_CFG_TYPE with 3. change VIRTIO_CAP_OFF_BAR with 4.
  change VIRTIO_CAP_OFF_OFFSET with 8. change VIRTIO_CAP_OFF_NOTIFY_MULT with 16.
  fold (cap_field d cap 3) (cap_field d cap 4) (cap_field d cap 8).
  fold (cap_cfg_type d cap). fold (cap_range d cap).
  unfold cap_effect, cap_res, usable in HQ. rewrite Hv in HQ.
  destruct (Z.eqb_spec (cap_range d cap) 0) as [Hz|Hz]; cbn [andb negb] in HQ.
  { apply wp_ret, HQ; cbn [core sys_log].
    - destruct s as [? ? [[]]]. reflexivity.
    - rewrite Hz. balance.
    - reflexivity. }
  wp_step. bus bus_base. wp_step. apply wp_write. fold (cap_addr d cap).
  destruct (cap_cfg_type d cap =? VIRTIO_PCI_CAP_NOTIFY_CFG).
  - wp_step. bus bus_off. wp_step. bus bus_long. apply wp_write. fold (cap_mult d cap).
    apply HQ; cbn [core sys_log set_core]; [done| |reflexivity]. balance.
  - apply wp_ret, HQ; cbn [core sys_log set_core]; [done| |reflexivity]. balance.
Qed.

Lemma cap_loop_wp n pre post s (Q : unit -> Sys E Core -> Prop) :
  pf_caps d = pre ++ post ->
  (forall s', core s' = on_hnd (fun h =>
       set_cfg (fold_left (cap_effect d) (take n post) (cfg_of h)) h) (core s) ->
     balanced (sys_log s) (sys_log s') [] (concat (cap_res d <$> take n post)) ->
     accesses (sys_log s') = accesses (sys_log s) -> Q tt s') ->
  wp False (cap_loop n (hd 0 post)) Q s.
Proof.
  revert pre post s. induction n as [|n IH]; intros pre post s Hp HQ; cbn [cap_loop].
  { apply wp_ret, HQ; [|apply balanced_refl|done]. by destruct s as [? ? [[]]]. }
  destruct post as [|c post]; cbn [hd].
  { apply wp_ret, HQ; [|apply balanced_refl|done]. by destruct s as [? ? [[]]]. }
  pose proof bus_caps as Hc. rewrite Hp, Forall_app, list.Forall_cons in Hc.
  destruct Hc as (_ & Hc & _). destruct (Z.eqb_spec c 0); [lia|].
  wp_step. bus bus_type. wp_step.
  assert (Hrest : forall s1, core s1 = on_hnd (fun h => set_cfg (cap_effect d (cfg_of h) c) h) (core s) ->
    balanced (sys_log s) (sys_log s1) [] (cap_res d c) ->
    accesses (sys_log s1) = accesses (sys_log s) ->
    wp False (cap ← ext (GetNextCapability c); cap_loop n cap) Q s1).
  { intros s1 Hs1 Hb1 Hw1. wp_step. bus (fun e => bus_next e pre c post Hp).
    assert (u32 (hd 0 post) = hd 0 post) as ->.
    { pose proof bus_caps as Hc'. rewrite Hp, Forall_app, list.Forall_cons in Hc'.
      destruct Hc' as (_ & _ & Hc'). destruct post; [done|]. cbn [hd].
      apply u32_small. rewrite list.Forall_cons in Hc'. lia. }
    apply (IH (pre ++ [c]) post); [by rewrite <- app_assoc|]. intros s2 Hs2 Hb2 Hw2.
    cbn [core sys_log] in *. apply HQ; cbn [take fold_left fmap list_fmap concat].
    - rewrite Hs2, Hs1. unfold on_hnd. cbn [hnd set_hnd]. by rewrite cfg_of_set.
    - eapply balanced_seq; [exact Hb1|]. eapply balanced_trans; [|exact Hb2]. balance.
    - by rewrite Hw2. }
  change PCI_CAPABILITYID_VENDOR with 0x09. fold (is_vendor d c). destruct (is_vendor d c) eqn:Hv.
  - apply vendor_cap_wp; [done|]. intros s1 Hs1 Hb1 Hw1. cbn [core sys_log] in *. apply Hrest; [done| |done].
    eapply balanced_trans; [|exact Hb1]. balance.
  - apply wp_ret, Hrest; cbn [core sys_log].
    + unfold cap_effect, usable. rewrite Hv. cbn [andb]. destruct s as [? ? [[]]]. reflexivity.
    + unfold cap_res, usable. rewrite Hv. cbn [andb]. balance.
    + reflexivity.
Qed.

(** The outcome of the probe with the answer [p]. *)
Definition probed (x : ModernCfg) (p : Z) : ModernCfg :=
  if mc_mode x && negb (mc_common x =? 0) && negb (p =? VIRTIO_STATUS_ACKNOWLEDGE)
  then store_mode false x else x.

(** The accesses of the probe: the status register is set to 0, then to 1, and read
    ([p]); then the device is reset again. *)
Definition probing (base p : Z) : list (ExtCall * Z) :=
  let status := u32 (base + 0x14) in
  [(MmioW8 status 0, 0); (MmioR8 status, p); (MmioW8 status 1, 0); (MmioW8 status 0, 0)].

Lemma mmio_probe_wp base s (Q : Z -> Sys E Core -> Prop) :
  (forall p s', core s' = core s -> (forall xs, balanced (sys_log s) (sys_log s') xs xs) ->
     accesses (sys_log s') = probing base p ++ accesses (sys_log s) ->
     (exists new, sys_log s' = new ++ sys_log s /\ ranges new = []) -> Q p s') ->
  wp False (mmio_probe base) Q s.
Proof.
  intros HQ. unfold mmio_probe. wp_sys. apply cond_ext_wp; [done|]. intros _ s1 Hc1 Hl1.
  cbn [core sys_log] in *. pose proof (accesses_config _ _ Hl1) as Hw1. wp_sys.
  apply HQ; cbn [core sys_log].
  - done.
  - intros xs. assert (Hb1 : balanced ((ReadConfigWord PCI_COMMAND, r) :: sys_log s) (sys_log s1) xs xs)
      by (apply balanced_reads; revert Hl1; apply extends_impl; by intros []).
    assert (balanced (sys_log s) (sys_log s1) xs xs).
    { eapply balanced_trans; [|exact Hb1]. balance. }
    balance.
  - unfold accesses in *. cbn in *. by rewrite Hw1.
  - destruct Hl1 as (n1 & Hn1 & Hf1). rewrite Hn1. eexists (_ :: _ :: _ :: _ :: n1 ++ [_]).
    split; [cbn [app]; rewrite <- app_assoc; reflexivity|]. unfold ranges. cbn [omap list_omap].
    rewrite omap_app, (omap_extends range_got config_call [] n1); [done|by intros []|].
    exists n1. by rewrite app_nil_r.
Qed.

Lemma DetectModern_wp s :
  pciDevice (hnd (core s)) <> 0 ->
  let x := regions d in
  wp False V9P_DetectModern (fun b s' => exists p,
    b = mc_mode (probed x p) /\ core s' = on_hnd (set_cfg (probed x p)) (core s) /\
    balanced (sys_log s) (sys_log s') [] (concat (cap_res d <$> take 32 (pf_caps d))) /\
    accesses (sys_log s') = (if mc_mode x && negb (mc_common x =? 0)
      then probing (mc_common x) p else []) ++ accesses (sys_log s)) s.
Proof.
  intros Hd x.
  unfold V9P_DetectModern, on_cfg. wp_step. apply wp_read. wp_step. apply wp_write.
  destruct (Z.eqb_spec (pciDevice (hnd (core s))) 0); [done|]. wp_step.
  eapply wp_ext_val; [intros; apply bus_first|]. intros e. cbn [ext_norm].
  assert (u32 (hd 0 (pf_caps d)) = hd 0 (pf_caps d)) as ->.
  { pose proof bus_caps as Hc. destruct (pf_caps d); [done|]. cbn [hd].
    apply u32_small. rewrite list.Forall_cons in Hc. lia. }
  wp_step. apply (cap_loop_wp 32 [] (pf_caps d)); [done|]. intros s1 Hs1 Hb1 Hw1.
  assert (Hs : core s1 = on_hnd (set_cfg x) (core s)).
  { rewrite Hs1. unfold on_hnd. cbn [hnd set_hnd core set_core].
    by rewrite cfg_of_set, fold_regions. }
  assert (Hb : balanced (sys_log s) (sys_log s1) [] (concat (cap_res d <$> take 32 (pf_caps d)))).
  { eapply balanced_trans; [|exact Hb1]. cbn [sys_log set_core]. balance. }
  cbn in Hw1. clear Hs1 Hb1. wp_step. apply wp_read. rewrite Hs.
  change (modern_mode (hnd (on_hnd (set_cfg x) (core s)))) with (mc_mode x).
  change (common_cfg_base (hnd (on_hnd (set_cfg x) (core s)))) with (mc_common x).
  unfold probed. destruct (mc_mode x && negb (mc_common x =? 0)) eqn:Hm; wp_step.
  - wp_step. apply mmio_probe_wp. intros p s2 Hc2 Hb2 Hw2 _. change VIRTIO_STATUS_ACKNOWLEDGE with 1.
    destruct (Z.eqb_spec p 1) as [->|Hp].
    + apply wp_ret. apply wp_read. exists 1. rewrite Hc2, Hs. cbn [negb andb Z.eqb].
      split_and!; [done|done|by eapply balanced_trans|]. by rewrite Hw2, Hw1.
    + apply wp_write. apply wp_read. exists p. destruct (Z.eqb_spec p 1); [done|].
      cbn [negb andb core set_core sys_log]. rewrite Hc2, Hs. split_and!.
      * done.
      * unfold on_hnd. cbn [hnd set_hnd]. by rewrite cfg_of_set.
      * by eapply balanced_trans.
      * by rewrite Hw2, Hw1.
  - apply wp_read. exists 0. cbn [andb]. rewrite Hs. by split_and!.
Qed.
End detect.

(** ** Any bus *)

Section any.
Context {E : Type} `{EnvI : !Env E DevView}.
Implicit Types s : Sys E Core.

(** What the detection does on any bus: it changes the six fields, and keeps the
    ranges it obtains. *)
Definition detected s s' : Prop :=
  (exists x, core s' = on_hnd (set_cfg x) (core s)) /\
  exists new, sys_log s' = new ++ sys_log s /\
    balanced (sys_log s) (sys_log s') [] (ranges new).

Lemma detected_refl s : detected s s.
Proof.
  split; [|exists []; split; [done|apply balanced_refl]].
  exists (cfg_of (hnd (core s))). by destruct s as [? ? [[]]].
Qed.

Lemma detected_trans s1 s2 s3 : detected s1 s2 -> detected s2 s3 -> detected s1 s3.
Proof.
  intros [[x1 H1] (n1 & L1 & B1)] [[x2 H2] (n2 & L2 & B2)]. split.
  - exists x2. by rewrite H2, H1.
  - exists (n2 ++ n1). split; [by rewrite L2, L1, app_assoc|].
    rewrite ranges_app, Permutation_app_comm. by eapply balanced_seq.
Qed.

#[local] Instance detected_preorder : PreOrder detected.
Proof. split; [exact detected_refl|exact detected_trans]. Qed.

(** Calls that neither acquire nor release. *)
Lemma detected_log new s s' :
  core s' = core s -> sys_log s' = new ++ sys_log s -> ranges new = [] ->
  balanced (sys_log s) (sys_log s') [] [] -> detected s s'.
Proof.
  intros Hc Hl Hr Hb. split; [|exists new; by rewrite Hr]. exists (cfg_of (hnd (core s))). rewrite Hc.
  by destruct s as [? ? [[]]].
Qed.

Lemma on_cfg_any f s (Q : unit -> Sys E Core -> Prop) :
  (forall s', detected s s' -> Q tt s') -> wp False (on_cfg f) Q s.
Proof.
  intros HQ. unfold on_cfg. apply wp_write, HQ. split; [by eexists|].
  exists []. split; [done|apply balanced_refl].
Qed.

Lemma vendor_cap_any cap s (Q : unit -> Sys E Core -> Prop) :
  (forall s', detected s s' -> Q tt s') -> wp False (vendor_cap cap) Q s.
Proof.
  intros HQ. unfold vendor_cap. wp_sys. wp_if; wp_step.
  { subst. eapply HQ, (detected_log [_; _; _; _; _; _; _]); [done..|]. cbn [sys_log]. balance. }
  wp_ext. wp_step. apply on_cfg_any. intros s1 Hs1.
  assert (Hd : detected s s1).
  { etransitivity; [|exact Hs1]. split; cbn [core sys_log].
    - exists (cfg_of (hnd (core s))). by destruct s as [? ? [[]]].
    - eexists [_; _; _; _; _; _; _; _]. split; [done|]. unfold ranges. cbn. case_cmp; [done|]. balance. }
  destruct (_ =? _); [|apply wp_ret; by apply HQ]. wp_step. wp_ext. wp_step. wp_ext.
  apply on_cfg_any. intros s2 Hs2.
  apply HQ. etransitivity; [exact Hd|]. etransitivity; [|exact Hs2].
  eapply (detected_log [_; _]); [done..|]. cbn [sys_log]. balance.
Qed.

Lemma cap_loop_any n cap s (Q : unit -> Sys E Core -> Prop) :
  (forall s', detected s s' -> Q tt s') -> wp False (cap_loop n cap) Q s.
Proof.
  revert cap s. induction n as [|n IH]; intros cap s HQ; cbn [cap_loop].
  { apply wp_ret, HQ. reflexivity. }
  case_cmp; [apply wp_ret, HQ; reflexivity|]. wp_sys.
  match goal with |- wp _ _ _ ?s0 => assert (H0 : detected s s0) end.
  { eapply (detected_log [_]); [done..|]. cbn [sys_log]. balance. }
  assert (Hrest : forall s1, detected s s1 ->
    wp False (cap ← ext (GetNextCapability cap); cap_loop n cap) Q s1).
  { intros s1 Hs1. wp_sys. apply IH. intros s2 Hs2. apply HQ. etransitivity; [exact Hs1|].
    etransitivity; [|exact Hs2]. eapply (detected_log [_]); [done..|]. cbn [sys_log]. balance. }
  destruct (_ =? _).
  - apply vendor_cap_any. intros s1 Hs1. apply Hrest. by etransitivity.
  - apply wp_ret. by apply Hrest.
Qed.

Lemma DetectModern_any s (Q : bool -> Sys E Core -> Prop) :
  (forall b s', detected s s' -> Q b s') -> wp False V9P_DetectModern Q s.
Proof.
  intros HQ. unfold V9P_DetectModern. wp_step. apply wp_read. wp_step.
  apply on_cfg_any. intros s1 H1. destruct (_ =? 0); [by apply wp_ret, HQ|]. wp_step. wp_ext. wp_step.
  apply cap_loop_any. intros s2 H2.
  assert (H02 : detected s s2).
  { etransitivity; [exact H1|]. etransitivity; [|exact H2]. eapply (detected_log [_]); [done..|].
    cbn [sys_log]. balance. }
  wp_step. apply wp_read. wp_step. destruct (_ && _); wp_step.
  - apply mmio_probe_wp. intros p s3 Hc3 Hb3 _ (l3 & Hl3 & Hr3).
    assert (H03 : detected s s3) by (etransitivity; [exact H02|by eapply detected_log]).
    destruct (_ =? _); [apply wp_ret, wp_read; by apply HQ|].
    apply on_cfg_any. intros s4 H4. apply wp_read, HQ. by etransitivity.
  - apply wp_read. by apply HQ.
Qed.

(** The ranges of the two BARs that are there. *)
Definition bar_res (b0 b4 : Z) : list res :=
  (if b0 =? 0 then [] else [RRange b0]) ++ (if b4 =? 0 then [] else [RRange b4]).

(** What was logged since. *)
Definition since (s : Sys E Core) (l : list (ExtCall * Z)) (s' : Sys E Core) : Prop :=
  core s' = core s /\ sys_log s' = l ++ sys_log s.

(** Both searches in vain. *)
Definition not_found : list (ExtCall * Z) :=
  [(FindDeviceTags 0x1AF4 0x1049, 0); (FindDeviceTags 0x1AF4 0x1009, 0)].

(** The search that found [dev]: the transitional device, or else the modern one. *)
Definition search (dev : Z) (l : list (ExtCall * Z)) : Prop :=
  l = [(FindDeviceTags 0x1AF4 0x1009, dev)] \/
  l = [(FindDeviceTags 0x1AF4 0x1049, dev); (FindDeviceTags 0x1AF4 0x1009, 0)].

Lemma find_device_wp s (Q : Z -> Sys E Core -> Prop) :
  (forall dev l s', since s l s' -> (if dev =? 0 then l = not_found else search dev l) ->
     balanced (sys_log s) (sys_log s') [] (if dev =? 0 then [] else [RDev dev]) -> Q dev s') ->
  wp False find_device Q s.
Proof.
  intros HQ. unfold find_device. wp_step. wp_ext. wp_if.
  - wp_ext. subst. eapply (HQ _ [_; _]); [by split|case_cmp; subst; [done|by right]|].
    cbn [sys_log]. case_cmp; balance.
  - wp_step. eapply (HQ _ [_]); [by split|case_cmp; [done|by left]|].
    cbn [sys_log]. case_cmp; [done|]. balance.
Qed.

(** BAR5 is read ([v]); when it is all ones, 0 is written to it and it is read
    again. *)
Definition repair (v : Z) (l : list (ExtCall * Z)) : Prop :=
  if v =? 0xFFFFFFFF
  then exists a b, l = [(ReadConfigLong 0x24, b); (WriteConfigLong 0x24 0, a); (ReadConfigLong 0x24, v)]
  else l = [(ReadConfigLong 0x24, v)].

Lemma fix_bar5_wp s (Q : unit -> Sys E Core -> Prop) :
  (forall v l s', since s l s' -> balanced (sys_log s) (sys_log s') [] [] -> repair v l -> Q tt s') ->
  wp False fix_bar5 Q s.
Proof.
  intros HQ. unfold fix_bar5. wp_step. wp_ext. wp_if.
  - wp_step. wp_ext. wp_step. wp_ext. wp_step.
    eapply (HQ r [_; _; _]); [by split|cbn [sys_log]; balance|]. unfold repair. case_cmp; [|done]. by exists r0, r1.
  - wp_step. eapply (HQ r [_]); [by split|cbn [sys_log]; balance|]. unfold repair. by case_cmp.
Qed.

Lemma cache_bars_wp dev s (Q : unit -> Sys E Core -> Prop) :
  (forall b0 b4 io l3 s', core s' = on_hnd (set_device dev b0 b4 io) (core s) ->
     sys_log s' = l3 ++ (GetResourceRange 4, b4) :: (GetResourceRange 0, b0) :: sys_log s ->
     (if b0 =? 0 then io = iobase (hnd (core s)) else (RangePhysical b0, io) ∈ l3) ->
     ranges l3 = [] -> balanced (sys_log s) (sys_log s') [] (bar_res b0 b4) -> Q tt s') ->
  wp False (cache_bars dev) Q s.
Proof.
  intros HQ. unfold cache_bars. wp_step. wp_ext. wp_step. wp_ext. wp_step. wp_if.
  - apply wp_read. apply wp_write. eapply (HQ _ _ _ []); [done|reflexivity|by case_cmp|done|].
    cbn [sys_log set_core]. unfold bar_res. repeat case_cmp; try done; cbn [app]; balance.
  - wp_step. wp_ext. wp_step. wp_ext. wp_ext. apply wp_write.
    eapply (HQ _ _ _ [_; _; _]); [done|reflexivity|case_cmp; [done|by left]|done|].
    cbn [sys_log set_core]. unfold bar_res. repeat case_cmp; try done; cbn [app]; balance.
Qed.

(** What the discovery leaves behind.  Of the trace, [l1] is the detection, [mend]
    the repair of BAR5 that reads as [v], [ids] what is read for the log. *)
Definition discover_post ipci s (ok : bool) (s' : Sys E Core) : Prop :=
  if ok then exists dev b0 b4 io x l1 v mend ids found,
    dev <> 0 /\ core s' = on_hnd (fun h => set_cfg x (set_device dev b0 b4 io h)) (core s) /\
    sys_log s' = l1 ++ (GetResourceRange 4, b4) :: (GetResourceRange 0, b0) ::
      mend ++ ids ++ found ++ sys_log s /\
    search dev found /\ repair v mend /\
    calls ids = [GetAddress; ReadConfigWord 2; ReadConfigWord 0] /\
    (if b0 =? 0 then io = iobase (hnd (core s)) else (RangePhysical b0, io) ∈ l1) /\
    balanced (sys_log s) (sys_log s') [] (RDev dev :: bar_res b0 b4 ++ ranges l1)
  else core s' = core s /\
    sys_log s' = (if ipci =? 0 then [] else not_found) ++ sys_log s.

Lemma DiscoverDevice_wp ipci s : wp False (V9P_DiscoverDevice ipci) (discover_post ipci s) s.
Proof.
  unfold V9P_DiscoverDevice. wp_if; [apply wp_ret; unfold discover_post; by case_cmp|].
  wp_step. apply find_device_wp. intros dev l1 s1 [Hc1 Hl1] Hf Hb1.
  destruct (Z.eqb_spec dev 0) as [Hd|Hd].
  { apply wp_ret. split; [done|]. case_cmp; [done|]. by rewrite Hl1, Hf. }
  wp_step. apply wp_ext. intros ? r _. wp_step. apply wp_ext. intros ? r0 _.
  wp_step. apply wp_ext. intros ? r1 _. wp_step. apply fix_bar5_wp.
  intros v l2 s2 [Hc2 Hl2] Hb2 Hfix. cbn [core sys_log] in *. wp_step.
  apply cache_bars_wp. intros b0 b4 io l3 s3 Hc3 Hl3 Hio Hr3 Hb3. wp_step.
  apply DetectModern_any. intros b s4 [[x Hc4] (l4 & Hl4 & Hb4)]. apply wp_ret.
  exists dev, b0, b4, io, x, (l4 ++ l3), v, l2, [(GetAddress, r1); (ReadConfigWord PCI_DEVICE_ID, r0);
    (ReadConfigWord PCI_VENDOR_ID, r)], l1. split; [done|].
  split; [by rewrite Hc4, Hc3, Hc2, Hc1|]. split_and!; try done.
  - rewrite Hl4, Hl3, Hl2, Hl1, <- app_assoc. do 3 f_equal.
  - revert Hio. case_cmp; [intros ->; by rewrite Hc2, Hc1|]. intros Hio.
    rewrite elem_of_app. auto.
  - rewrite ranges_app, Hr3, app_nil_r. change (RDev dev :: ?x) with ([RDev dev] ++ x).
    eapply balanced_seq; [exact Hb1|]. eapply balanced_seq; [|exact Hb4].
    eapply balanced_trans; [|exact Hb3]. eapply balanced_trans; [|exact Hb2]. balance.
Qed.
End any.

(** ** The claims *)


(** C30: in every environment [V9P_DiscoverDevice] ends.  It fails exactly when
    there is no PCI interface or both searches, for the transitional device
    (0x1009) and then for the modern one (0x1049), were in vain, and then nothing
    is changed or held.  Otherwise the handler gets the device that the first
    successful search found, the ranges of BAR0 and BAR4, the I/O address of BAR0
    where it is there, and the configuration of the modern interface; held are
    the device, the two ranges and exactly the ranges that the detection
    obtained.  Before the ranges are asked for, BAR5, the high half of BAR4, is
    read, and it is set to 0 just when it reads as all ones. *)
Theorem V9P_DiscoverDevice_correct {E : Type} `{EnvI : !Env E DevView} (ipci : Z)
    (s : Sys E Core) :
  exists ok s', V9P_DiscoverDevice ipci s = Done (ok, s') /\
    if ok : bool then exists dev b0 b4 io x l1 v mend ids found,
      dev <> 0 /\
      core s' = on_hnd (fun h => set_cfg x (set_device dev b0 b4 io h)) (core s) /\
      sys_log s' = l1 ++ (GetResourceRange 4, b4) :: (GetResourceRange 0, b0) ::
        mend ++ ids ++ found ++ sys_log s /\
      search dev found /\ repair v mend /\
      calls ids = [GetAddress; ReadConfigWord 2; ReadConfigWord 0] /\
      (if b0 =? 0 then io = iobase (hnd (core s)) else (RangePhysical b0, io) ∈ l1) /\
      balanced (sys_log s) (sys_log s') [] (RDev dev :: bar_res b0 b4 ++ ranges l1)
    else core s' = core s /\
      sys_log s' = (if ipci =? 0 then [] else
        [(FindDeviceTags 0x1AF4 0x1049, 0); (FindDeviceTags 0x1AF4 0x1009, 0)]) ++ sys_log s.
Proof. exact (wp_total _ _ _ (DiscoverDevice_wp ipci s)). Qed.

(** ** A bus with one device *)

(** Two capabilities: a power management one (type 1) and a vendor one for the
    common region, in BAR 4 at offset 0x1000; the range of BAR 4 is 77, at the
    CPU address 0x80000000.  A read of the status register gives 1. *)
Definition demo_fn : PciFn :=
  mkPciFn [5; 6] (fun c => if c =? 6 then PCI_CAPABILITYID_VENDOR else 1)
    (fun c => if c =? 6 then 0x50 else 0x40)
    (fun o => if o =? 0x53 then VIRTIO_PCI_CAP_COMMON_CFG else if o =? 0x54 then 4 else 0)
    (fun o => if o =? 0x58 then 0x1000 else 0)
    (fun b => if b =? 4 then 77 else 0) (fun r => if r =? 77 then 0x80000000 else 0).

Definition demo_bus : Env unit DevView :=
  mkEnv unit DevView
    (fun _ c => (tt,
       match c with
       | GetFirstCapability => 5
       | GetNextCapability c => if c =? 5 then 6 else 0
       | CapType c => pf_type demo_fn c | CapOffset c => pf_off demo_fn c
       | ReadConfigByte o => pf_byte demo_fn o | ReadConfigLong o => pf_long demo_fn o
       | GetResourceRange b => pf_range demo_fn b | RangeBaseAddress r => pf_base demo_fn r
       | MmioR8 _ => 1
       | _ => 0
       end))
    (fun _ _ => (tt, no_effect)) 0 72 4 0x80000000.

#[local] Existing Instance demo_bus.

Lemma demo_is_bus : Bus demo_fn.
Proof.
  split; try done.
  - intros e pre c post Hp. cbn in Hp |- *. destruct pre as [|? [|? [|? pre]]]; by simplify_eq/=.
  - repeat constructor; lia.
Qed.

Definition demo_core : Core :=
  mkCore (set_device 9 0 77 0 handler_zero) [] [] [] [] [] [] 0.

