(* ===== verification/Irq.v ===== *)
(** * Irq: the interrupt server (src/virtio/virtio_irq.c)

    The handler polls; its interrupt server only reads the ISR register, which
    makes the device take its interrupt back.  The [Interrupt] node lies in the
    handler structure, and exec.library keeps a pointer to it from AddIntServer
    to RemIntServer.  Its field [is_Data], the argument of the server, is
    visible to that chain: a store to it is the call [SetIntData] of the trace. *)

From S2P Require Import Prelude Platform FidPool VirtQueue Handler VirtioInit.

(** The fields of the handler for the interrupt. *)
Definition set_irq (n : Z) (installed : bool) (h : V9PHandler) : V9PHandler :=
  mkV9PHandler
    (pciDevice h) (bar0 h) (bar4 h) (iobase h) (modern_mode h) (common_cfg_base h)
    (notify_cfg_base h) (notify_off_mult h) (isr_cfg_base h) (device_cfg_base h) (vq h)
    n installed (msize h) (root_fid h) (fid_pool h) (next_tag h) (tx_buf h)
    (rx_buf h) (tx_phys h) (rx_phys h) (flush_buf h) (flush_phys h)
    (tx_dma_active h) (rx_dma_active h) (flush_dma_active h) (in_reset h) (mount_tag h).

Section irq.
Context {E : Type} `{EnvI : !Env E DevView}.
Abbreviation M := (M (Sys E Core)).

(** [is_Data] is NULL or points to the handler. *)
Definition V9P_InterruptHandler (is_Data : Z) : M Z :=
  if is_Data =? 0 then mret 0
  else
    h ← read hnd;
    if pciDevice h =? 0 then mret 0
    else
      isr ← (if modern_mode h then ext (MmioR8 (isr_cfg_base h))
             else ext (InByte (u32 (iobase h + VIRTIO_PCI_ISR))));
      mret (if isr =? 0 then 0 else 1).

(** [handler]: the address of the handler structure. *)
Definition V9P_InstallInterrupt (handler : Z) : M bool :=
  h ← read hnd;
  if pciDevice h =? 0 then fault
  else
    irq ← ext MapInterrupt;
    _ ← write (on_hnd (fun h => set_irq irq (irq_installed h) h));
    if irq =? 0 then mret false
    else
      _ ← ext (SetIntData handler);
      ok ← ext (AddIntServer irq);
      if ok =? 0 then mret false
      else
        _ ← write (on_hnd (fun h => set_irq irq true h));
        mret true.

(** Stops the device from raising interrupts. *)
Definition quiesce : M unit :=
  h ← read hnd;
  if pciDevice h =? 0 then mret tt
  else if modern_mode h then
    _ ← (if isr_cfg_base h =? 0 then mret 0 else ext (MmioR8 (isr_cfg_base h)));
    _ ← (if common_cfg_base h =? 0 then mret 0
         else ext (MmioW8 (u32 (common_cfg_base h + VIRTIO_PCI_COMMON_STATUS)) 0x00));
    mret tt
  else if bar0 h =? 0 then mret tt
  else
    _ ← ext (InByte (u32 (iobase h + VIRTIO_PCI_ISR)));
    _ ← ext (OutByte (u32 (iobase h + VIRTIO_PCI_STATUS)) 0x00);
    mret tt.

Definition V9P_RemoveInterrupt : M unit :=
  installed ← read (fun c => irq_installed (hnd c));
  if negb installed then mret tt
  else
    _ ← quiesce;
    _ ← ext Disable;
    _ ← ext (SetIntData 0);
    _ ← ext Enable;
    irq ← read (fun c => irq_number (hnd c));
    _ ← ext (RemIntServer irq);
    write (on_hnd (fun h => set_irq (irq_number h) false h)).
End irq.

Section correct.
Context {E : Type} `{EnvI : !Env E DevView}.
Implicit Types s : Sys E Core.

(** The accesses that silence the device, the latest first: the ISR register is
    read back, then 0 goes to the device status register (offset 0x14 of the
    common configuration of a modern device, I/O port 0x12 of a legacy one), as
    far as the registers are mapped. *)
Definition silence (h : V9PHandler) : list ExtCall :=
  if pciDevice h =? 0 then []
  else if modern_mode h then
    (if common_cfg_base h =? 0 then [] else [MmioW8 (u32 (common_cfg_base h + 0x14)) 0]) ++
    (if isr_cfg_base h =? 0 then [] else [MmioR8 (isr_cfg_base h)])
  else if bar0 h =? 0 then []
  else [OutByte (u32 (iobase h + 0x12)) 0; InByte (u32 (iobase h + 0x13))].

Lemma quiesce_wp s (Q : unit -> Sys E Core -> Prop) :
  (forall l s', core s' = core s -> sys_log s' = l ++ sys_log s ->
     balanced (sys_log s) (sys_log s') [] [] ->
     calls l = silence (hnd (core s)) -> Q tt s') ->
  wp False quiesce Q s.
Proof.
  intros HQ. unfold quiesce, silence in *. wp_step. apply wp_read.
  destruct (pciDevice (hnd (core s)) =? 0).
  { apply wp_ret. eapply (HQ []); [done..|apply balanced_refl|done]. }
  destruct (modern_mode (hnd (core s))).
  - wp_step. destruct (isr_cfg_base _ =? 0); wp_sys; destruct (common_cfg_base _ =? 0); wp_sys.
    + eapply (HQ []); [done..|apply balanced_refl|done].
    + eapply (HQ [_]); [done..|cbn [sys_log]; balance|done].
    + eapply (HQ [_]); [done..|cbn [sys_log]; balance|done].
    + eapply (HQ [_; _]); [done..|cbn [sys_log]; balance|done].
  - destruct (bar0 (hnd (core s)) =? 0); wp_sys.
    + eapply (HQ []); [done..|apply balanced_refl|done].
    + eapply (HQ [_; _]); [done..|cbn [sys_log]; balance|done].
Qed.

(** Off the chain, in order. *)
Definition removal (irq a b c d : Z) : list (ExtCall * Z) :=
  [(RemIntServer irq, a); (Enable, b); (SetIntData 0, c); (Disable, d)].

Definition int_res (h : V9PHandler) : list res :=
  if irq_installed h then [RInt (irq_number h)] else [].

Lemma RemoveInterrupt_off s :
  irq_installed (hnd (core s)) = false -> V9P_RemoveInterrupt s = Done (tt, s).
Proof. intros Hi. unfold V9P_RemoveInterrupt, mbind, M_bind, read, gets. by rewrite Hi. Qed.

Lemma RemoveInterrupt_wp s (Q : unit -> Sys E Core -> Prop) :
  let h := hnd (core s) in
  (forall s', core s' = on_hnd (set_irq (irq_number h) false) (core s) ->
     balanced (sys_log s) (sys_log s') (int_res h) [] ->
     (irq_installed h = true -> exists l a b c d,
        sys_log s' = removal (irq_number h) a b c d ++ l ++ sys_log s /\
        calls l = silence h) -> Q tt s') ->
  wp False V9P_RemoveInterrupt Q s.
Proof.
  intros h HQ. unfold int_res in HQ. destruct (irq_installed h) eqn:Hi.
  - unfold V9P_RemoveInterrupt. wp_step. apply wp_read. fold h. rewrite Hi. cbn [negb].
    wp_step. apply quiesce_wp. intros l s1 Hc1 Hl1 Hb1 Hw1.
    wp_step. wp_ext. wp_step. wp_ext. wp_step. wp_ext. wp_step. apply wp_read. wp_step.
    wp_ext. apply wp_write. cbn [core set_core sys_log]. rewrite Hc1. apply HQ.
    + done.
    + eapply balanced_trans; [eapply balanced_frame, Hb1|]. change (hnd (core s)) with h.
      cbn [sys_log set_core]. balance.
    + intros _. exists l. do 4 eexists. split; [|exact Hw1]. unfold removal, set_core. cbn [sys_log].
      rewrite Hl1. reflexivity.
  - eapply wp_run; [by apply RemoveInterrupt_off|]. apply HQ; [|apply balanced_refl|done].
    unfold h in *. destruct s as [? ? [[] ? ? ? ? ? ? ?]]. cbn in Hi |- *. by rewrite Hi.
Qed.

Lemma InstallInterrupt_wp handler s (Q : bool -> Sys E Core -> Prop) :
  let h := hnd (core s) in
  pciDevice h <> 0 ->
  (forall irq l s', core s' = on_hnd (set_irq irq (irq_installed h)) (core s) ->
     sys_log s' = l ++ (MapInterrupt, irq) :: sys_log s ->
     ((irq = 0 /\ l = []) \/
      exists d, irq <> 0 /\ l = [(AddIntServer irq, 0); (SetIntData handler, d)]) ->
     balanced (sys_log s) (sys_log s') [] [] -> Q false s') ->
  (forall irq ok d s', core s' = on_hnd (set_irq irq true) (core s) -> irq <> 0 -> ok <> 0 ->
     sys_log s' = (AddIntServer irq, ok) :: (SetIntData handler, d) :: (MapInterrupt, irq) ::
       sys_log s ->
     balanced (sys_log s) (sys_log s') [] [RInt irq] -> Q true s') ->
  wp False (V9P_InstallInterrupt handler) Q s.
Proof.
  intros h Hd HF HT. unfold V9P_InstallInterrupt. wp_step. apply wp_read. fold h.
  destruct (Z.eqb_spec (pciDevice h) 0); [done|]. wp_step. wp_ext. wp_step. apply wp_write.
  wp_if.
  { apply wp_ret. eapply (HF _ []); [done|reflexivity|by left|]. cbn [sys_log set_core]. balance. }
  wp_step. wp_ext. wp_step. wp_ext. wp_if.
  - apply wp_ret. eapply (HF _ [_; _]); [done|reflexivity| |cbn [sys_log set_core]; subst; balance].
    right. eexists. split; [eassumption|]. by subst.
  - wp_step. apply wp_write. apply wp_ret. eapply HT; cycle 1; [| |reflexivity| |]; try eassumption.
    + cbn [sys_log set_core]. balance.
    + done.
Qed.
End correct.

(** ** The claims *)

(** the interrupt server can run at any moment: whatever the state, it ends
    without a fault and changes nothing of the handler.  With [is_Data] NULL, or
    with no device, it does nothing and reports "not mine"; otherwise it reads
    exactly the ISR register of the mode in use, once, and claims the interrupt
    just when the register is not zero. *)
Lemma V9P_InterruptHandler_correct {E : Type} `{EnvI : !Env E DevView} (is_Data : Z)
    (s : Sys E Core) :
  let h := hnd (core s) in
  exists r s', V9P_InterruptHandler is_Data s = Done (r, s') /\ core s' = core s /\
    if (is_Data =? 0) || (pciDevice h =? 0) then r = 0 /\ sys_log s' = sys_log s
    else exists isr, 0 <= isr < 256 /\ r = Z.b2z (negb (isr =? 0)) /\
      sys_log s' = ((if modern_mode h then MmioR8 (isr_cfg_base h)
                     else InByte (u32 (iobase h + VIRTIO_PCI_ISR))), isr) :: sys_log s.
Proof.
  intros h. apply wp_total. unfold V9P_InterruptHandler.
  destruct (is_Data =? 0); cbn [orb]; [by apply wp_ret|]. wp_step. apply wp_read. fold h.
  destruct (pciDevice h =? 0); cbn [orb]; [by apply wp_ret|]. wp_step.
  destruct (modern_mode h); apply wp_ext; intros e isr Hn; apply wp_ret; (split; [done|]);
    exists isr; (split; [rewrite <- Hn; apply u8_range|]); (split; [|done]); by destruct (isr =? 0).
Qed.

(** C31: the life of the interrupt server, in every environment.  Installing it
    succeeds just when there is a vector and exec accepts the server, and then
    the server is on the chain of that vector; [is_Data] is set before it goes
    there.  On failure nothing is held.  Removing it does nothing when it is not
    installed; otherwise it makes exactly these calls: it reads back a pending
    interrupt and writes 0 to the status register of the device, at its address
    ([silence]; nothing else is written to the device), then clears [is_Data] with
    interrupts disabled and only then leaves the chain; a second removal has no
    effect. *)
Theorem V9P_Interrupt_lifecycle {E : Type} `{EnvI : !Env E DevView} (handler : Z)
    (s : Sys E Core) :
  let h := hnd (core s) in
  (pciDevice h = 0 \/ exists ok s' irq l,
     V9P_InstallInterrupt handler s = Done (ok, s') /\
     core s' = on_hnd (set_irq irq (ok || irq_installed h)) (core s) /\
     sys_log s' = l ++ (MapInterrupt, irq) :: sys_log s /\
     (ok = true <-> irq <> 0 /\ exists a d,
        a <> 0 /\ l = [(AddIntServer irq, a); (SetIntData handler, d)]) /\
     balanced (sys_log s) (sys_log s') [] (if ok then [RInt irq] else [])) /\
  exists s', V9P_RemoveInterrupt s = Done (tt, s') /\
    core s' = on_hnd (set_irq (irq_number h) false) (core s) /\
    balanced (sys_log s) (sys_log s') (int_res h) [] /\
    V9P_RemoveInterrupt s' = Done (tt, s') /\
    if irq_installed h then exists l a b c d,
      sys_log s' = [(RemIntServer (irq_number h), a); (Enable, b); (SetIntData 0, c);
                    (Disable, d)] ++ l ++ sys_log s /\
      calls l = silence h
    else s' = s.
Proof.
  intros h. split.
  - destruct (Z.eq_dec (pciDevice h) 0) as [|Hd]; [by left|right].
    assert (Hw : wp False (V9P_InstallInterrupt handler) (fun ok s' => exists irq l,
      core s' = on_hnd (set_irq irq (ok || irq_installed h)) (core s) /\
      sys_log s' = l ++ (MapInterrupt, irq) :: sys_log s /\
      (ok = true <-> irq <> 0 /\ exists a d,
         a <> 0 /\ l = [(AddIntServer irq, a); (SetIntData handler, d)]) /\
      balanced (sys_log s) (sys_log s') [] (if ok then [RInt irq] else [])) s).
    { apply InstallInterrupt_wp; [done| |].
      - intros irq l s' Hc Hl Hcase Hb. exists irq, l. split_and!; try done.
        split; [done|]. intros (Hi & a & d & Ha & ->). destruct Hcase as [[]|(d' & _ & [=])]; congruence.
      - intros irq ok d s' Hc Hi Hok Hl Hb. exists irq, [(AddIntServer irq, ok); (SetIntData handler, d)].
        split_and!; try done. split; [|done]. intros _. split; [done|]. by exists ok, d. }
    destruct (wp_total _ _ _ Hw) as (ok & s' & Hrun & irq & l & Hrest).
    by exists ok, s', irq, l.
  - assert (Hw : wp False V9P_RemoveInterrupt (fun _ s' =>
      core s' = on_hnd (set_irq (irq_number h) false) (core s) /\
      balanced (sys_log s) (sys_log s') (int_res h) [] /\
      (irq_installed h = true -> exists l a b c d,
        sys_log s' = removal (irq_number h) a b c d ++ l ++ sys_log s /\
        calls l = silence h)) s).
    { by apply RemoveInterrupt_wp. }
    destruct (wp_total _ _ _ Hw) as ([] & s' & Hrun & Hc & Hb & Hl).
    exists s'. split_and!; [done..| |].
    + apply RemoveInterrupt_off. by rewrite Hc.
    + destruct (irq_installed h) eqn:Hi; [by apply Hl|].
      pose proof (RemoveInterrupt_off s Hi) as Hoff. congruence.
Qed.
