(* ===== verification/Main.v ===== *)
(** * Main: start-up and shutdown (src/main.c)

    [_start] opens the libraries, finds the device, brings the transport up,
    performs the 9P handshake and hands over to FileSysBox; every failure
    declines the mount and jumps to a label of the clean-up code at the end.
    A [goto] is modelled by returning the label: [bring_up] returns the label
    it jumps to, and [goto_cleanup] runs the code from a label to the end, by
    falling through.

    What FileSysBox does with the callbacks is a parameter: while it sets the
    volume up, in its event loop, and while it cleans up. *)

From S2P Require Import Prelude Platform CString Marshal FidPool VirtQueue Handler P9Client VirtioInit Fuse Pci Irq.
From stdpp Require Import strings.

Local Open Scope string_scope.
Local Open Scope list_scope.
Local Open Scope Z_scope.

(** dos/dos.h *)
Definition DOSTRUE : Z := -1.
Definition RETURN_OK : Z := 0.
Definition RETURN_FAIL : Z := 20.

(** The global and local variables of main.c that are set on the way. *)
Record Locals := mkLocals {
  startupMsg : Z; FileSysBoxBase : Z; IFileSysBox : Z; ExpansionBase : Z; IPCI : Z }.

Inductive label : Type :=
  | cleanup_bufs | cleanup_irq | cleanup_virtio | cleanup_pci
  | cleanup_expansion | cleanup_fbx | cleanup_exec.

Definition set_bufs (t r f : Z) (h : V9PHandler) : V9PHandler :=
  mkV9PHandler
    (pciDevice h) (bar0 h) (bar4 h) (iobase h) (modern_mode h) (common_cfg_base h)
    (notify_cfg_base h) (notify_off_mult h) (isr_cfg_base h) (device_cfg_base h)
    (vq h) (irq_number h) (irq_installed h) (msize h) (root_fid h) (fid_pool h)
    (next_tag h) t r (tx_phys h) (rx_phys h) f (flush_phys h)
    (tx_dma_active h) (rx_dma_active h) (flush_dma_active h) (in_reset h) (mount_tag h).

Definition set_tx_dma (phys : Z) (h : V9PHandler) : V9PHandler :=
  mkV9PHandler
    (pciDevice h) (bar0 h) (bar4 h) (iobase h) (modern_mode h) (common_cfg_base h)
    (notify_cfg_base h) (notify_off_mult h) (isr_cfg_base h) (device_cfg_base h)
    (vq h) (irq_number h) (irq_installed h) (msize h) (root_fid h) (fid_pool h)
    (next_tag h) (tx_buf h) (rx_buf h) phys (rx_phys h) (flush_buf h) (flush_phys h)
    true (rx_dma_active h) (flush_dma_active h) (in_reset h) (mount_tag h).

Definition set_rx_dma (phys : Z) (h : V9PHandler) : V9PHandler :=
  mkV9PHandler
    (pciDevice h) (bar0 h) (bar4 h) (iobase h) (modern_mode h) (common_cfg_base h)
    (notify_cfg_base h) (notify_off_mult h) (isr_cfg_base h) (device_cfg_base h)
    (vq h) (irq_number h) (irq_installed h) (msize h) (root_fid h) (fid_pool h)
    (next_tag h) (tx_buf h) (rx_buf h) (tx_phys h) phys (flush_buf h) (flush_phys h)
    (tx_dma_active h) true (flush_dma_active h) (in_reset h) (mount_tag h).

Definition set_flush_dma (phys : Z) (h : V9PHandler) : V9PHandler :=
  mkV9PHandler
    (pciDevice h) (bar0 h) (bar4 h) (iobase h) (modern_mode h) (common_cfg_base h)
    (notify_cfg_base h) (notify_off_mult h) (isr_cfg_base h) (device_cfg_base h)
    (vq h) (irq_number h) (irq_installed h) (msize h) (root_fid h) (fid_pool h)
    (next_tag h) (tx_buf h) (rx_buf h) (tx_phys h) (rx_phys h) (flush_buf h) phys
    (tx_dma_active h) (rx_dma_active h) true (in_reset h) (mount_tag h).

(** [memset(&handler, 0, ...)] and the three fields that are set then. *)
Definition handler_init : V9PHandler := set_next_tag 1 (set_msize P9_MSIZE handler_zero).

(** A cleared buffer, if the allocation succeeded. *)
Definition cleared (p size : Z) : list Z :=
  if p =? 0 then [] else replicate (Z.to_nat size) 0.

(** "9P" *)
Definition DEFAULT_TAG : list Z := [57; 80].

Definition VERSION_LOG_STRING : string := "Virtio9PFS-handler 0.10.1 (05.07.2026)".
Definition SHELL_MESSAGE : string :=
  "Virtio9PFS-handler cannot be executed from a shell -- install to L: with a DOSDriver in DEVS:DOSDrivers/ and reboot.".

(** [BADDR]: a BCPL pointer counts longwords. *)
Definition BADDR (b : Z) : Z := u32 (Z.shiftl b 2).

Section main.
Context {E : Type} `{EnvI : !Env E DevView} `{FuelI : !Fuel} `{SdkI : !SdkTypes}.
Abbreviation M := (M (Sys E Core)).

(** After the reply: the device node is removed from the list of DOS. *)
Definition remove_node (dn : Z) (reason : string) : M unit :=
  if dn =? 0 then mret tt
  else
    dosbase ← ext (OpenLibrary "dos.library" 53);
    if dosbase =? 0 then mret tt
    else
      idos ← ext (GetInterface dosbase "main");
      _ ← (if idos =? 0 then mret 0
           else
             removed ← ext (NonBlockingModifyDosEntry dn NBM_REMDOSENTRY);
             _ ← ext (DebugPrintF (reason +:+ (if removed =? 0
                   then " -- mount declined, device node removal failed."
                   else " -- mount declined, device node removed.")));
             ext (DropInterface idos));
      _ ← ext (CloseLibrary dosbase);
      mret tt.

(** The reply, by FileSysBox or by hand. *)
Definition reply_mount (ifbx msg pkt : Z) : M Z :=
  if negb (ifbx =? 0) then ext (FbxReturnMountMsg msg DOSTRUE 0)
  else if negb (msg =? 0) then
    _ ← (if pkt =? 0 then mret 0 else ext (SetPacketRes pkt DOSTRUE 0));
    ext (ReplyMsg msg)
  else mret 0.

Definition V9P_DeclineMount (ifbx msg : Z) (reason : string) : M unit :=
  pkt ← (if msg =? 0 then mret 0 else ext (MsgPacket msg));
  dn ← (if pkt =? 0 then mret 0
        else arg3 ← ext (PacketArg3 pkt); mret (BADDR arg3));
  _ ← reply_mount ifbx msg pkt;
  remove_node dn reason.

(** The locals at the various points. *)
Abbreviation decline l reason := (V9P_DeclineMount (IFileSysBox l) (startupMsg l) reason).

(** [V9P_DeclineMount(...); goto lab;] *)
Definition decline_to (lab : label) (l : Locals) (reason : string) : M (option label) :=
  _ ← decline l reason; mret (Some lab).

(** StartDMA and the physical address of one buffer.  The buffer for Tflush
    is not checked for fragments. *)
Definition map_buf (l : Locals) (what : string) (check : bool) (buf size : Z)
    (flags : list dma_flag) : M (option Z) :=
  n ← ext (StartDMA buf size flags);
  if n =? 0 then _ ← decline l (("StartDMA(" +:+ what) +:+ ") failed"); mret None
  else if check && (1 <? n) then
    _ ← ext (EndDMA buf size (flags ++ [DMAF_NoModify]));
    _ ← decline l (what +:+ "_buf physically fragmented"); mret None
  else
    de ← ext (AllocDMAEntry n);
    if de =? 0 then
      _ ← ext (EndDMA buf size (flags ++ [DMAF_NoModify]));
      _ ← decline l (("No memory for " +:+ what) +:+ " DMAEntry list"); mret None
    else
      phys ← ext (GetDMAPhys buf size flags);
      _ ← ext (FreeDMAEntry de);
      mret (Some phys).

(** Step 9: the buffers and their addresses. *)
Definition alloc_bufs (l : Locals) : M (option label) :=
  t ← ext (AllocVecTags P9_MSIZE);
  r ← ext (AllocVecTags P9_MSIZE);
  f ← ext (AllocVecTags 16);
  _ ← write (fun c => mkCore (set_bufs t r f (hnd c))
        (cleared t P9_MSIZE) (cleared t P9_MSIZE) (cleared r P9_MSIZE) (cleared r P9_MSIZE)
        (cleared f 16) (cleared f 16) (tb_cached c));
  if (t =? 0) || (r =? 0) || (f =? 0)
  then decline_to cleanup_irq l "Failed to allocate DMA buffers"
  else
    phys ← map_buf l "tx" true t P9_MSIZE [DMA_ReadFromRAM];
    match phys with
    | None => mret (Some cleanup_bufs)
    | Some phys =>
        _ ← write (on_hnd (set_tx_dma phys));
        phys ← map_buf l "rx" true r P9_MSIZE [];
        match phys with
        | None => mret (Some cleanup_bufs)
        | Some phys =>
            _ ← write (on_hnd (set_rx_dma phys));
            phys ← map_buf l "flush" false f 16 [DMA_ReadFromRAM];
            match phys with
            | None => mret (Some cleanup_bufs)
            | Some phys => _ ← write (on_hnd (set_flush_dma phys)); mret None
            end
        end
    end.

(** Step 7: the mount tag, or a default. *)
Definition read_tag : M unit :=
  _ ← V9P_ReadMountTag;
  tag ← read (fun c => mount_tag (hnd c));
  c ← lift (getb tag 0);
  if c =? 0 then
    tag ← lift (str_copy tag DEFAULT_TAG);
    write (on_hnd (set_mount_tag tag))
  else mret tt.

(** Steps 5 to 9: the device. *)
Definition open_device (handler : Z) (l : Locals) : M (option label) :=
  found ← V9P_DiscoverDevice (IPCI l);
  if negb found then decline_to cleanup_pci l "No 9P device"
  else
    up ← V9P_InitVirtIO;
    if negb up then decline_to cleanup_pci l "VirtIO transport init failed"
    else
      _ ← read_tag;
      ok ← V9P_InstallInterrupt handler;
      if negb ok then decline_to cleanup_virtio l "Failed to install interrupt handler"
      else alloc_bufs l.

(** Steps 2 to 9. *)
Definition bring_up (handler msg : Z) : M (option label * Locals) :=
  fbx ← ext (OpenLibrary "filesysbox.library" 54);
  let l := mkLocals msg fbx 0 0 0 in
  if fbx =? 0 then
    lab ← decline_to cleanup_exec l "No filesysbox.library v54"; mret (lab, l)
  else
  ifbx ← ext (GetInterface fbx "main");
  let l := mkLocals msg fbx ifbx 0 0 in
  if ifbx =? 0 then
    lab ← decline_to cleanup_fbx l "No FileSysBox interface"; mret (lab, l)
  else
  exp ← ext (OpenLibrary "expansion.library" 50);
  let l := mkLocals msg fbx ifbx exp 0 in
  if exp =? 0 then
    lab ← decline_to cleanup_fbx l "No expansion.library"; mret (lab, l)
  else
  ipci ← ext (GetInterface exp "pci");
  let l := mkLocals msg fbx ifbx exp ipci in
  if ipci =? 0 then
    lab ← decline_to cleanup_expansion l "No PCI interface"; mret (lab, l)
  else
    lab ← open_device handler l;
    mret (lab, l).

(** ** The clean-up code, each label falling through to the next *)

Definition drop_if (x : Z) (c : ExtCall) : M Z := if x =? 0 then mret 0 else ext c.

Definition at_exec : M unit := _ ← ext ExecRelease; mret tt.

Definition at_fbx (l : Locals) : M unit :=
  _ ← drop_if (IFileSysBox l) (DropInterface (IFileSysBox l));
  _ ← drop_if (FileSysBoxBase l) (CloseLibrary (FileSysBoxBase l));
  at_exec.

Definition at_expansion (l : Locals) : M unit :=
  _ ← drop_if (ExpansionBase l) (CloseLibrary (ExpansionBase l));
  at_fbx l.

Definition at_pci (l : Locals) : M unit :=
  h ← read hnd;
  _ ← (if pciDevice h =? 0 then mret 0
       else
         _ ← drop_if (bar4 h) (FreeResourceRange (bar4 h));
         _ ← drop_if (bar0 h) (FreeResourceRange (bar0 h));
         ext (FreeDevice (pciDevice h)));
  _ ← drop_if (IPCI l) (DropInterface (IPCI l));
  at_expansion l.

Definition at_virtio (l : Locals) : M unit := _ ← V9P_CleanupVirtIO; at_pci l.

Definition at_irq (l : Locals) : M unit := _ ← V9P_RemoveInterrupt; at_virtio l.

Definition at_bufs (l : Locals) : M unit :=
  h ← read hnd;
  _ ← (if flush_dma_active h
       then ext (EndDMA (flush_buf h) 16 [DMA_ReadFromRAM; DMAF_NoModify]) else mret 0);
  _ ← (if rx_dma_active h then ext (EndDMA (rx_buf h) P9_MSIZE []) else mret 0);
  _ ← (if tx_dma_active h
       then ext (EndDMA (tx_buf h) P9_MSIZE [DMA_ReadFromRAM; DMAF_NoModify]) else mret 0);
  _ ← drop_if (flush_buf h) (FreeVec (flush_buf h));
  _ ← drop_if (rx_buf h) (FreeVec (rx_buf h));
  _ ← drop_if (tx_buf h) (FreeVec (tx_buf h));
  at_irq l.

Definition goto_cleanup (lab : label) (l : Locals) : M unit :=
  match lab with
  | cleanup_bufs => at_bufs l
  | cleanup_irq => at_irq l
  | cleanup_virtio => at_virtio l
  | cleanup_pci => at_pci l
  | cleanup_expansion => at_expansion l
  | cleanup_fbx => at_fbx l
  | cleanup_exec => at_exec
  end.

(** ** The session *)

Section session.
Context (debug : bool) (transact : Z -> M Z) (V9P_Reset : M bool).
Context (fbx_setup fbx_loop fbx_cleanup : fuse_operations (E := E) -> M unit).

(** Steps 10 to 14; the return code of the program. *)
Definition session (l : Locals) : M Z :=
  err ← P9_Version transact;
  if negb (err =? 0) then _ ← decline l "9P version handshake failed"; mret RETURN_OK
  else
    root ← read (fun c => root_fid (hnd c));
    err ← P9_Attach transact root;
    if negb (err =? 0) then _ ← decline l "9P attach failed"; mret RETURN_OK
    else
      pool ← FidPool_Create;
      _ ← write (on_hnd (set_fid_pool pool));
      match pool with
      | None =>
          root ← read (fun c => root_fid (hnd c));
          _ ← P9_Clunk transact root;
          _ ← decline l "Failed to create FID pool"; mret RETURN_OK
      | Some _ =>
          let ops := V9P_FillOperations debug transact V9P_Reset in
          fs ← ext (FbxSetupFS (startupMsg l) 0x39504650);
          _ ← fbx_setup ops;
          ret ← (if fs =? 0 then mret RETURN_FAIL
                 else
                   _ ← fbx_loop ops;
                   _ ← V9P_RemoveInterrupt;
                   _ ← fbx_cleanup ops;
                   _ ← ext (FbxCleanupFS fs);
                   mret RETURN_OK);
          root ← read (fun c => root_fid (hnd c));
          _ ← P9_Clunk transact root;
          pool ← read (fun c => fid_pool (hnd c));
          _ ← FidPool_Destroy pool;
          mret ret
      end.

(** [handler]: the address of the structure on the stack. *)
Definition _start (handler : Z) : M Z :=
  _ ← ext ExecObtain;
  _ ← ext (DebugPrintF VERSION_LOG_STRING);
  cli ← ext FindTaskCLI;
  if negb (cli =? 0) then
    _ ← ext (DebugPrintF SHELL_MESSAGE);
    _ ← ext ExecRelease;
    mret RETURN_FAIL
  else
    _ ← write (on_hnd (fun _ => handler_init));
    _ ← ext FindTaskCLI;
    _ ← ext WaitPort;
    msg ← ext GetMsg;
    if msg =? 0 then _ ← at_exec; mret RETURN_FAIL
    else
      '(lab, l) ← bring_up handler msg;
      match lab with
      | Some lab => _ ← goto_cleanup lab l; mret RETURN_OK
      | None => ret ← session l; _ ← at_bufs l; mret ret
      end.
End session.
End main.
