(* ===== verification/Tame.v ===== *)
(** * Tame: what the components never do

    Starting, answering the mount message and the interrupt chain are the
    business of main.c and virtio_irq.c only.  An operation is [tame] when every
    run of it that returns makes none of the calls reserved to these two
    ([plain]) and leaves a part of the handler structure alone.  All operations
    of the other components are, in every environment and also when the
    transport is reset on the way; each proof is one walk over the code of the
    operation.

    The calls that are allowed are a parameter of [tame]; the components below
    the callbacks do not even call the directory filler ([low]), nor ask for the
    range of a BAR ([deep]). *)

From S2P Require Import Prelude Platform CString Marshal FidPool VirtQueue Handler P9Client VirtioInit Transact Fuse.

(** The calls that are not reserved to start-up and shutdown. *)
Definition plain (c : ExtCall) : bool :=
  match c with
  | AddIntServer _ | RemIntServer _ | SetIntData _ | Disable | Enable
  | FbxReturnMountMsg _ _ _ | ReplyMsg _ | FbxSetupFS _ _ | FbxCleanupFS _
  | NonBlockingModifyDosEntry _ _ | ExecObtain | ExecRelease => false
  | _ => true
  end.

(** Also not the directory filler. *)
Definition low (c : ExtCall) : bool :=
  plain c && match c with FillDir _ => false | _ => true end.

(** Nor do they ask for the range of a BAR. *)
Definition no_range (c : ExtCall) : bool :=
  match c with GetResourceRange _ => false | _ => true end.
Definition deep (c : ExtCall) : bool := low c && no_range c.

Class Allows (ok : ExtCall -> bool) : Prop := allows c : deep c = true -> ok c = true.

#[global] Instance allows_deep : Allows deep.
Proof. by intros c. Qed.
#[global] Instance allows_low : Allows low.
Proof. by intros c []%andb_true_iff. Qed.
#[global] Instance allows_plain : Allows plain.
Proof. by intros c [[]%andb_true_iff _]%andb_true_iff. Qed.

(** A part of the handler that the operations do not change. *)
Class Stable {P : Type} (proj : V9PHandler -> P) : Prop := {
  stable_vq x h : proj (set_vq x h) = proj h;
  stable_msize x h : proj (set_msize x h) = proj h;
  stable_pool x h : proj (set_fid_pool x h) = proj h;
  stable_tag x h : proj (set_next_tag x h) = proj h;
  stable_reset x h : proj (set_in_reset x h) = proj h;
  stable_mount x h : proj (set_mount_tag x h) = proj h }.

Create HintDb tame.

Section tame.
Context {E : Type} `{EnvI : !Env E DevView} (ok : ExtCall -> bool) {P : Type}
  (proj : V9PHandler -> P).
Abbreviation M := (M (Sys E Core)).

Definition tame {A} (m : M A) : Prop :=
  forall s a s', m s = Done (a, s') ->
    extends ok (sys_log s) (sys_log s') /\ proj (hnd (core s')) = proj (hnd (core s)).

Lemma tame_ret {A} (a : A) : tame (mret a).
Proof. intros s b s' [-> ->]%ret_inv. split; [apply extends_refl|done]. Qed.
Lemma tame_fault {A} : tame (A := A) fault.
Proof. done. Qed.
Lemma tame_hang {A} : tame (A := A) hang.
Proof. done. Qed.
Lemma tame_lift {A} (o : option A) : tame (lift o).
Proof. destruct o; [apply tame_ret|apply tame_fault]. Qed.
Lemma tame_read {A} (f : Core -> A) : tame (read f).
Proof. intros s a s' [-> ->]%read_inv. split; [apply extends_refl|done]. Qed.
Lemma tame_ext c : ok c = true -> tame (ext c).
Proof.
  intros Hc s a s'. unfold ext. destruct (env_call _ _). intros [= <- <-].
  split; [by apply extends_cons, extends_refl|done].
Qed.
Lemma tame_write f : (forall c, proj (hnd (f c)) = proj (hnd c)) -> tame (write f).
Proof. intros Hf s a s' [= <- <-]. split; [apply extends_refl|apply Hf]. Qed.
Lemma tame_bind {A B} (m : M A) (f : A -> M B) :
  tame m -> (forall a, tame (f a)) -> tame (m ≫= f).
Proof.
  intros Hm Hf s b s' (a & s1 & [L1 P1]%Hm & [L2 P2]%Hf)%bind_inv.
  split; [by eapply extends_trans|congruence].
Qed.

(** A run that returns, with what it did not do. *)
Lemma wp_tame {A} H (m : M A) (Q : A -> Sys E Core -> Prop) s :
  tame m ->
  wp H m (fun a s' => extends ok (sys_log s) (sys_log s') ->
    proj (hnd (core s')) = proj (hnd (core s)) -> Q a s') s ->
  wp H m Q s.
Proof.
  intros Hm. unfold wp. destruct (m s) as [[a s']| |] eqn:Hrun; [|done..].
  intros HQ. apply Hm in Hrun as [? ?]. by apply HQ.
Qed.
End tame.

Lemma tame_weaken {E : Type} `{EnvI : !Env E DevView} (ok ok' : ExtCall -> bool) {P : Type}
    (proj : V9PHandler -> P) {A} (m : M (Sys E Core) A) :
  (forall c, ok c = true -> ok' c = true) -> tame ok proj m -> tame ok' proj m.
Proof.
  intros Hok Hm s a s' [L Hp]%Hm. split; [by eapply extends_impl|done].
Qed.

(** The part of the interrupt, and no part at all. *)
Definition irq_part (h : V9PHandler) : Z * bool := (irq_number h, irq_installed h).

#[global] Instance unit_stable : Stable (fun _ => tt).
Proof. by split. Qed.
#[global] Instance irq_part_stable : Stable irq_part.
Proof. by split. Qed.

(** One walk over the code of an operation. *)
Ltac stable_tac := intros; unfold on_hnd; cbn [hnd set_hnd set_tx set_tx_ram set_rx set_rx_ram
  set_fl set_fl_ram set_tb_cached];
  repeat rewrite ?stable_vq, ?stable_msize, ?stable_pool, ?stable_tag, ?stable_reset, ?stable_mount;
  reflexivity.
Ltac tame_step :=
  lazymatch goal with
  | |- tame _ _ (mret _) => apply tame_ret
  | |- tame _ _ fault => apply tame_fault
  | |- tame _ _ hang => apply tame_hang
  | |- tame _ _ (lift _) => apply tame_lift
  | |- tame _ _ (read _) => apply tame_read
  | |- tame _ _ (ext _) => apply tame_ext; first [reflexivity | apply allows; reflexivity]
  | |- tame _ _ (write _) => apply tame_write; stable_tac
  | |- tame _ _ (mbind _ _) => apply tame_bind; [|intros ?]
  | |- tame _ _ (match ?x with _ => _ end) => destruct x
  | |- tame _ _ (let _ := _ in _) => cbv zeta
  | |- forall _, _ => intros ?
  | |- tame _ _ _ => solve [eauto 2 with tame]
  end.
Ltac tame := repeat tame_step.

Section components.
Context {E : Type} `{EnvI : !Env E DevView} (ok : ExtCall -> bool) {P : Type}
  (proj : V9PHandler -> P).
Context `{AllowsI : !Allows ok} `{StableI : !Stable proj}.
Abbreviation tame := (tame (E := E) ok proj).

(** ** Pool and queue *)

Lemma tame_pool_create : tame FidPool_Create.
Proof. unfold FidPool_Create, alloc_u32s. tame. Qed.
Lemma tame_pool_destroy p : tame (FidPool_Destroy p).
Proof. unfold FidPool_Destroy. tame. Qed.
Lemma tame_pool_alloc p : tame (FidPool_Alloc p).
Proof. unfold FidPool_Alloc. tame. Qed.
Lemma tame_grow l n k : tame (grow_list l n k).
Proof. unfold grow_list, alloc_u32s. tame. Qed.
#[local] Hint Resolve tame_grow : tame.
Lemma tame_pool_free p fid : tame (FidPool_Free p fid).
Proof. unfold FidPool_Free. tame. Qed.
Lemma tame_orphan_push p fid l n k : tame (orphan_push p fid l n k).
Proof. unfold orphan_push. tame. Qed.
#[local] Hint Resolve tame_orphan_push : tame.
Lemma tame_pool_orphan p fid : tame (FidPool_MarkOrphan p fid).
Proof. unfold FidPool_MarkOrphan, alloc_u32s. tame. Qed.

Lemma tame_vq_free q : tame (VirtQueue_Free q).
Proof. unfold VirtQueue_Free. tame. Qed.
#[local] Hint Resolve tame_vq_free : tame.
Lemma tame_vq_allocate i n : tame (VirtQueue_Allocate i n).
Proof. unfold VirtQueue_Allocate. tame. Qed.
#[local] Hint Resolve tame_vq_allocate tame_pool_create tame_pool_destroy tame_pool_alloc
  tame_pool_free tame_pool_orphan : tame.
Lemma tame_free_chain k m i d fh n : tame (free_chain_loop k m i d fh n).
Proof. revert i d fh n. induction k; intros; cbn [free_chain_loop]; tame. Qed.
#[local] Hint Resolve tame_free_chain : tame.
Lemma tame_getbuf q : tame (VirtQueue_GetBuf q).
Proof. unfold VirtQueue_GetBuf. tame. Qed.
Lemma tame_kick q io : tame (VirtQueue_Kick q io).
Proof. unfold VirtQueue_Kick. tame. Qed.
#[local] Hint Resolve tame_getbuf tame_kick : tame.

(** ** The device and the machine *)

Lemma tame_poll_status c n : deep c = true -> tame (poll_status c n).
Proof.
  intros Hc. induction n as [|n IH]; cbn [poll_status];
    (apply tame_bind; [by apply tame_ext, allows|]; intros rst); tame.
Qed.
#[local] Hint Resolve tame_poll_status : tame.
Lemma tame_map_vring q : tame (map_vring q).
Proof. unfold map_vring. tame. Qed.
#[local] Hint Resolve tame_map_vring : tame.
Lemma tame_init_modern : tame V9P_InitVirtIO_Modern.
Proof. unfold V9P_InitVirtIO_Modern. tame; auto using tame_poll_status. Qed.
#[local] Hint Resolve tame_init_modern : tame.
Lemma tame_init : tame V9P_InitVirtIO.
Proof. unfold V9P_InitVirtIO. tame. Qed.
Lemma tame_cleanup : tame V9P_CleanupVirtIO.
Proof. unfold V9P_CleanupVirtIO. tame. Qed.
Lemma tame_tag_bytes mk n i : (forall j, deep (mk j) = true) -> tame (read_tag_bytes mk n i).
Proof.
  intros Hmk. revert i. induction n; intros; cbn [read_tag_bytes]; tame;
    try (apply tame_ext, allows; apply Hmk).
Qed.
Lemma tame_tag_modern k : tame (read_tag_modern k).
Proof. induction k; cbn [read_tag_modern]; tame; by apply tame_tag_bytes. Qed.
#[local] Hint Resolve tame_tag_modern : tame.
Lemma tame_mount_tag `{!Fuel} : tame V9P_ReadMountTag.
Proof. unfold V9P_ReadMountTag. tame; by apply tame_tag_bytes. Qed.
#[local] Hint Resolve tame_init tame_cleanup tame_mount_tag : tame.

Lemma tame_dev_run : tame dev_run.
Proof.
  intros s a s'. unfold dev_run. destruct (env_device _ _) as [e ef]. intros [= <- <-].
  split; [apply extends_refl|]. cbn [core]. unfold apply_effect. cbn [hnd set_rx_ram].
  destruct (vq (hnd (core s))); [|done]. stable_tac.
Qed.
#[local] Hint Resolve tame_dev_run : tame.
Lemma tame_invalidate n : tame (cache_invalidate_rx n).
Proof. unfold cache_invalidate_rx. tame. Qed.
Lemma tame_flush_tx n : tame (cache_flush_tx n).
Proof. unfold cache_flush_tx. tame. Qed.
Lemma tame_flush_fl n : tame (cache_flush_fl n).
Proof. unfold cache_flush_fl. tame. Qed.
Lemma tame_read_tb k : tame (read_tb_loop k).
Proof. induction k; cbn [read_tb_loop]; tame. Qed.
Lemma tame_freq : tame v9p_tb_freq_hz.
Proof. unfold v9p_tb_freq_hz. tame. Qed.
#[local] Hint Resolve tame_invalidate tame_flush_tx tame_flush_fl tame_read_tb tame_freq : tame.
Lemma tame_deadline `{!Fuel} n : tame (deadline n).
Proof. unfold deadline, v9p_read_tb. tame. Qed.
#[local] Hint Resolve tame_deadline : tame.

(** ** The client calls *)

Lemma tame_tx_put f : tame (tx_put f).
Proof. unfold tx_put. tame. Qed.
#[local] Hint Resolve tame_tx_put : tame.
Lemma tame_finalize n : tame (finalize n).
Proof. unfold finalize. tame. Qed.
Lemma tame_next_tag : tame p9_next_tag.
Proof. unfold p9_next_tag. tame. Qed.
Lemma tame_check_error n : tame (check_error n).
Proof. unfold check_error. tame. Qed.
Lemma tame_rx_get {A} (f : list Z -> Z -> option (A * Z)) n : tame (rx_get f n).
Proof. unfold rx_get. tame. Qed.
#[local] Hint Resolve tame_finalize tame_next_tag tame_check_error tame_rx_get : tame.

Section calls.
Context (transact : Z -> M (Sys E Core) Z) (Ht : forall n, tame (transact n)).
#[local] Hint Resolve Ht : tame.

Lemma tame_version : tame (P9_Version transact).
Proof. unfold P9_Version, put_header, put_u32, put_str. tame. Qed.
Lemma tame_attach fid : tame (P9_Attach transact fid).
Proof. unfold P9_Attach, put_header, put_u32, put_str. tame. Qed.
Lemma tame_clunk fid : tame (P9_Clunk transact fid).
Proof. unfold P9_Clunk, put_header, put_u32. tame. Qed.
#[local] Hint Resolve tame_clunk : tame.
Lemma tame_components off b cs : tame (put_components off b cs).
Proof. revert off. induction cs; intros off; cbn [put_components]; unfold put_str; tame. Qed.
#[local] Hint Resolve tame_components : tame.
Lemma tame_walk fid newfid path : tame (P9_Walk transact fid newfid path).
Proof. unfold P9_Walk, put_header, put_u32, put_u16. tame. Qed.
Lemma tame_lopen fid flags b : tame (P9_Lopen transact fid flags b).
Proof. unfold P9_Lopen, put_header, put_u32. tame. Qed.
Lemma tame_lcreate fid name flags mode b : tame (P9_Lcreate transact fid name flags mode b).
Proof. unfold P9_Lcreate, put_header, put_u32, put_str. tame. Qed.
Lemma tame_p9_read fid off n : tame (P9_Read transact fid off n).
Proof. unfold P9_Read, put_header, put_u32, put_u64. tame. Qed.
Lemma tame_p9_write fid off n b : tame (P9_Write transact fid off n b).
Proof. unfold P9_Write, put_header, put_u32, put_u64, put_data. tame. Qed.
Lemma tame_p9_getattr fid mask : tame (P9_Getattr transact fid mask).
Proof. unfold P9_Getattr, put_header, put_u32, put_u64. tame. Qed.
Lemma tame_setattr fid a : tame (P9_Setattr transact fid a).
Proof. unfold P9_Setattr, put_header, put_u32, put_u64. tame. Qed.
Lemma tame_p9_statfs fid : tame (P9_Statfs transact fid).
Proof. unfold P9_Statfs, put_header, put_u32. tame. Qed.
Lemma tame_p9_readdir fid off n : tame (P9_Readdir transact fid off n).
Proof. unfold P9_Readdir, put_header, put_u32, put_u64. tame. Qed.
Lemma tame_p9_mkdir fid name mode : tame (P9_Mkdir transact fid name mode).
Proof. unfold P9_Mkdir, put_header, put_u32, put_str. tame. Qed.
Lemma tame_unlinkat fid name flags : tame (P9_Unlinkat transact fid name flags).
Proof. unfold P9_Unlinkat, put_header, put_u32, put_str. tame. Qed.
Lemma tame_renameat d1 n1 d2 n2 : tame (P9_Renameat transact d1 n1 d2 n2).
Proof. unfold P9_Renameat, put_header, put_u32, put_str. tame. Qed.
Lemma tame_p9_fsync fid d : tame (P9_Fsync transact fid d).
Proof. unfold P9_Fsync, put_header, put_u32. tame. Qed.
Lemma tame_p9_symlink fid name target : tame (P9_Symlink transact fid name target).
Proof. unfold P9_Symlink, put_header, put_u32, put_str. tame. Qed.
Lemma tame_p9_readlink fid b n : tame (P9_Readlink transact fid b n).
Proof. unfold P9_Readlink, put_header, put_u32. tame. Qed.
Lemma tame_p9_link d fid name : tame (P9_Link transact d fid name).
Proof. unfold P9_Link, put_header, put_u32, put_str. tame. Qed.
End calls.

(** ** The exchange *)

#[local] Hint Resolve tame_version tame_attach : tame.

Section exchange.
Context `{FuelI : !Fuel}.

Lemma tame_the_vq : tame the_vq.
Proof. unfold the_vq. tame. Qed.
#[local] Hint Resolve tame_the_vq : tame.
Lemma tame_vq_addbuf sg ck : tame (vq_addbuf sg ck).
Proof. unfold vq_addbuf. tame. Qed.
Lemma tame_vq_kick : tame vq_kick.
Proof. unfold vq_kick. tame. Qed.
Lemma tame_vq_getbuf : tame vq_getbuf.
Proof. unfold vq_getbuf. tame. Qed.
Lemma tame_accept tag n : tame (accept tag n).
Proof. unfold accept. tame. Qed.
#[local] Hint Resolve tame_vq_addbuf tame_vq_kick tame_vq_getbuf tame_accept : tame.
Lemma tame_poll k tag d w n : tame (poll_loop k tag d w n).
Proof. revert w n. induction k; intros w n; cbn [poll_loop]; unfold v9p_read_tb; tame. Qed.
Lemma tame_drain_loop k d n : tame (drain_loop k d n).
Proof. revert n. induction k; intros n; cbn [drain_loop]; unfold v9p_read_tb; tame. Qed.
#[local] Hint Resolve tame_poll tame_drain_loop : tame.
Lemma tame_drain n d : tame (drain n d).
Proof. revert d. induction n; intros d; cbn [drain]; tame. Qed.
Lemma tame_build_flush tag : tame (build_flush tag).
Proof. unfold build_flush. tame. Qed.
#[local] Hint Resolve tame_drain tame_build_flush : tame.
Lemma tame_flush_request tag : tame (flush_request tag).
Proof. unfold flush_request. tame. Qed.
#[local] Hint Resolve tame_flush_request : tame.
Lemma tame_gen reset n : tame reset -> tame (V9P_Transact_gen reset n).
Proof. intros Hr. unfold V9P_Transact_gen. tame. Qed.
Lemma tame_rehandshake t : (forall n, tame (t n)) -> tame (rehandshake t).
Proof. intros Hr. unfold rehandshake. tame. Qed.
#[local] Hint Resolve tame_rehandshake : tame.
Lemma tame_reset : tame V9P_Reset.
Proof.
  unfold V9P_Reset, V9P_Reset_gen, V9P_Transact_in_reset. tame.
  apply tame_rehandshake. intros n. apply tame_gen, tame_fault.
Qed.
Lemma tame_transact n : tame (V9P_Transact n).
Proof. apply tame_gen, tame_reset. Qed.
End exchange.
(** ** The callbacks *)

Section callbacks.
Context `{FuelI : !Fuel} `{SdkI : !SdkTypes} (debug : bool) (transact : Z -> M (Sys E Core) Z)
  (V9P_Reset : M (Sys E Core) bool).

Record tame_ops (ops : fuse_operations (E := E)) : Prop := {
  to_init a : tame (op_init ops a);
  to_destroy : tame (op_destroy ops);
  to_getattr a : tame (op_getattr ops a);
  to_opendir a b : tame (op_opendir ops a b);
  to_readdir a : tame (op_readdir ops a);
  to_releasedir a : tame (op_releasedir ops a);
  to_open a b : tame (op_open ops a b);
  to_release a : tame (op_release ops a);
  to_read a b c d : tame (op_read ops a b c d);
  to_write a b c d : tame (op_write ops a b c d);
  to_create a b c : tame (op_create ops a b c);
  to_mkdir a b : tame (op_mkdir ops a b);
  to_unlink a : tame (op_unlink ops a);
  to_rmdir a : tame (op_rmdir ops a);
  to_rename a b : tame (op_rename ops a b);
  to_truncate a b : tame (op_truncate ops a b);
  to_ftruncate a b : tame (op_ftruncate ops a b);
  to_fsync a b : tame (op_fsync ops a b);
  to_symlink a b : tame (op_symlink ops a b);
  to_readlink a b c : tame (op_readlink ops a b c);
  to_link a b : tame (op_link ops a b);
  to_chmod a b : tame (op_chmod ops a b);
  to_chown a b c : tame (op_chown ops a b c);
  to_statfs : tame (op_statfs ops);
  to_utimens a b c : tame (op_utimens ops a b c) }.

Context (Ht : forall n, tame (transact n)) (Hr : tame V9P_Reset).
Context (Hfill : forall name, ok (FillDir name) = true).
#[local] Hint Resolve Ht Hr tame_clunk tame_walk tame_lopen tame_lcreate tame_p9_read tame_p9_write
  tame_p9_getattr tame_setattr tame_p9_statfs tame_p9_readdir tame_p9_mkdir tame_unlinkat
  tame_renameat tame_p9_fsync tame_p9_symlink tame_p9_readlink tame_p9_link : tame.

Lemma tame_fid_alloc : tame fid_alloc.
Proof. unfold fid_alloc, the_pool, put_pool. tame. Qed.
Lemma tame_fid_free fid : tame (fid_free fid).
Proof. unfold fid_free, the_pool, put_pool. tame. Qed.
Lemma tame_fid_orphan fid : tame (fid_orphan fid).
Proof. unfold fid_orphan, the_pool, put_pool. tame. Qed.
#[local] Hint Resolve tame_fid_alloc tame_fid_free tame_fid_orphan : tame.
Lemma tame_clunk_free fid : tame (clunk_free transact fid).
Proof. unfold clunk_free. tame. Qed.
Lemma tame_walk_to path : tame (walk_to transact path).
Proof. unfold walk_to. tame. Qed.
Lemma tame_split path : tame (split path).
Proof. unfold split. tame. Qed.
#[local] Hint Resolve tame_clunk_free tame_walk_to tame_split : tame.
Lemma tame_entries k data n p d : tame (entries_loop k data n p d).
Proof. revert p d. induction k; intros p d; cbn [entries_loop]; tame; by apply tame_ext. Qed.
#[local] Hint Resolve tame_entries : tame.
Lemma tame_readdir_loop k fid n d : tame (readdir_loop transact k fid n d).
Proof. revert d. induction k; intros d; cbn [readdir_loop]; tame. Qed.
Lemma tame_read_loop k fid off n b t : tame (read_loop transact k fid off n b t).
Proof. revert b t. induction k; intros b t; cbn [read_loop]; tame. Qed.
Lemma tame_write_loop k fid off n b t : tame (write_loop transact k fid off n b t).
Proof. revert t. induction k; intros t; cbn [write_loop]; tame. Qed.
#[local] Hint Resolve tame_readdir_loop tame_read_loop tame_write_loop : tame.
Lemma tame_getattr_file path : tame (v9p_getattr_file transact path).
Proof. unfold v9p_getattr_file. tame. Qed.
#[local] Hint Resolve tame_getattr_file : tame.

Lemma tame_fill : tame_ops (V9P_FillOperations debug transact V9P_Reset).
Proof.
  split; intros; cbn [V9P_FillOperations op_init op_destroy op_getattr op_opendir op_readdir op_releasedir op_open op_release op_read op_write op_create op_mkdir op_unlink op_rmdir op_rename op_truncate op_ftruncate op_fsync op_symlink op_readlink op_link op_chmod op_chown op_statfs op_utimens].
  - unfold v9p_init. tame.
  - unfold v9p_destroy. tame.
  - unfold v9p_getattr. tame.
  - unfold v9p_opendir. tame.
  - unfold v9p_readdir. tame.
  - unfold v9p_releasedir. tame.
  - unfold v9p_open. tame.
  - unfold v9p_release. tame.
  - unfold v9p_read. tame.
  - unfold v9p_write. tame.
  - unfold v9p_create. tame.
  - unfold v9p_mkdir. tame.
  - unfold v9p_unlink. tame.
  - unfold v9p_rmdir. tame.
  - unfold v9p_rename. tame.
  - unfold v9p_truncate. tame.
  - unfold v9p_ftruncate. tame.
  - unfold v9p_fsync. tame.
  - unfold v9p_symlink. tame.
  - unfold v9p_readlink. tame.
  - unfold v9p_link. tame.
  - unfold v9p_chmod. tame.
  - unfold v9p_chown. tame.
  - unfold v9p_statfs. tame.
  - unfold v9p_utimens. tame.
Qed.
End callbacks.
End components.
