(* ===== verification/FuseDir.v ===== *)
(** * FuseDir: listing a directory through the loops of v9p_readdir

    [ServesDir] is the interface of a server for one open directory: it answers
    a Treaddir with any number of entries that fit, from the one after the entry
    whose offset is given, and with none only at the end.  Against it,
    [v9p_readdir] is shown to hand every name to FileSysBox once and in order,
    however the server divides the directory into responses, until the filler
    is full. *)

From S2P Require Import Prelude Platform CString Marshal FidPool VirtQueue Handler P9Client P9Correct P9Walk Fuse FusePath FuseCorrect FuseRead Tame.


(** An entry on the wire: qid[13] offset[8] type[1] name[s]. *)
Record dirent := mkDirent { de_qid : P9Qid; de_offset : Z; de_type : Z; de_name : list Z }.

Definition enc_dirent (e : dirent) : list Z :=
  enc_qid (de_qid e) ++ w64 (de_offset e) ++ le_bytes 1 (de_type e) ++ enc_str (de_name e).

Definition dirent_ok (e : dirent) : Prop :=
  0 <= de_offset e < 2 ^ 64 /\ Forall is_byte (de_name e) /\ Forall (fun c => c <> 0) (de_name e) /\
  len_ok (de_name e).

Definition enc_dirents (es : list dirent) : list Z := concat (enc_dirent <$> es).

(** The name as FileSysBox gets it: at most 255 bytes. *)
Definition shown_name (e : dirent) : list Z := take 255 (de_name e).

(** ** The fields of an entry *)

Lemma length_enc_qid q : length (enc_qid q) = 13%nat.
Proof. unfold enc_qid, w32, w64. by rewrite !length_app, !length_le_bytes. Qed.

Lemma length_enc_dirent e : length (enc_dirent e) = (24 + length (de_name e))%nat.
Proof.
  unfold enc_dirent, w64. rewrite !length_app, length_enc_qid, !length_le_bytes, length_enc_str. lia.
Qed.

Lemma get_qid_some buf off : fits buf off 13 -> exists q, p9_get_qid buf off = Some (q, off + 13).
Proof.
  intros (? & ? & ? & ?). unfold p9_get_qid.
  rewrite p9_get_u8_spec by (unfold fits; lia). cbn [mbind option_bind].
  rewrite p9_get_u32_spec by (unfold fits; lia). cbn [mbind option_bind].
  rewrite p9_get_u64_spec by (unfold fits; lia). cbn [mbind option_bind].
  eexists. do 2 f_equal. lia.
Qed.

Section entry.
Context (a b : list Z) (e : dirent) (actual : Z).
Let data := a ++ enc_dirent e ++ b.
Let pos := Z.of_nat (length a).
Context (Hok : dirent_ok e) (Hby : Forall is_byte data) (Hlen : Z.of_nat (length data) < 2 ^ 31).
Context (Hact : pos + Z.of_nat (length (enc_dirent e)) <= actual <= Z.of_nat (length data)).

Lemma entry_offset : p9_get_u64 data (pos + 13) = Some (de_offset e, pos + 21).
Proof.
  rewrite length_enc_dirent in Hact. rewrite p9_get_u64_spec by (unfold fits; lia).
  change (le_val (slice data (pos + 13) 8)) with (rd 8 (pos + 13) data). unfold data, enc_dirent.
  rewrite rd_skip by lia. replace (pos + 13 - Z.of_nat (length a)) with 13 by lia.
  rewrite <- !app_assoc, rd_skip; rewrite length_enc_qid; [|lia].
  change (13 - Z.of_nat 13) with 0. unfold w64. rewrite (rd_here 8), Z.mod_small.
  - do 2 f_equal. lia.
  - apply Hok.
Qed.

Lemma entry_name out :
  length out = 256%nat ->
  exists name, p9_get_str data actual (pos + 22) out 256 =
      Some (name, pos + Z.of_nat (length (enc_dirent e))) /\ cstr_of name = shown_name e.
Proof.
  destruct Hok as (_ & Hnb & Hnz & Hn). intros Ho. pose proof length_enc_dirent e as Hle. rewrite Hle in *.
  rewrite p9_get_str_eq by (unfold get_str_pre; split_and!; (done || lia)).
  unfold get_str_ref, len_ok in *.
  assert (Hl : le_val (slice data (pos + 22) 2) = Z.of_nat (length (de_name e))).
  { change (le_val (slice data (pos + 22) 2)) with (rd 2 (pos + 22) data). unfold data, enc_dirent.
    rewrite rd_skip by lia. replace (pos + 22 - Z.of_nat (length a)) with 22 by lia.
    rewrite <- !app_assoc, rd_skip; rewrite length_enc_qid; [|lia].
    rewrite rd_skip; unfold w64; rewrite length_le_bytes; [|lia].
    rewrite rd_skip; rewrite length_le_bytes; [|lia].
    change (22 - Z.of_nat 13 - Z.of_nat 8 - Z.of_nat 1) with 0. unfold enc_str.
    rewrite <- app_assoc, (rd_here 2). apply Z.mod_small. lia. }
  rewrite Hl.
  assert (Hs : forall k, 0 <= k <= Z.of_nat (length (de_name e)) ->
    slice data (pos + 22 + 2) k = take (Z.to_nat k) (de_name e)).
  { intros k Hk. unfold slice, data, enc_dirent. rewrite drop_app_ge by lia.
    rewrite <- !app_assoc, drop_app_ge; rewrite length_enc_qid; [|lia].
    rewrite drop_app_ge; unfold w64; rewrite length_le_bytes; [|lia].
    rewrite drop_app_ge; rewrite length_le_bytes; [|lia]. unfold enc_str.
    rewrite <- app_assoc, drop_app_length' by (rewrite length_le_bytes; lia).
    apply take_app_le. lia. }
  destruct (Z.ltb_spec actual (pos + 22 + 2)); [lia|].
  destruct (Z.eqb_spec actual (pos + 22 + 2)) as [Heq|]; cbn [orb].
  { assert (de_name e = []) as Hnil by (apply length_zero_iff_nil; lia).
    eexists. split; [do 2 f_equal; rewrite Hnil; cbn [length]; lia|].
    unfold shown_name. by rewrite Hnil. }
  destruct (Z.ltb_spec (actual - (pos + 22 + 2)) (Z.of_nat (length (de_name e)))); [lia|].
  eexists. split; [do 2 f_equal; lia|]. rewrite Hs by lia.
  rewrite cstr_of_app_zero by (by apply Forall_take). unfold shown_name.
  destruct (Z.min_spec (Z.of_nat (length (de_name e))) (256 - 1)) as [[? ->]|[? ->]].
  - rewrite !take_ge by lia. done.
  - done.
Qed.

(** The four reads of the loop. *)
Lemma entry_fields out :
  length out = 256%nat ->
  exists q t name, p9_get_qid data pos = Some (q, pos + 13) /\
    p9_get_u64 data (pos + 13) = Some (de_offset e, pos + 21) /\
    p9_get_u8 data (pos + 21) = Some (t, pos + 22) /\
    p9_get_str data actual (pos + 22) out 256 =
      Some (name, pos + Z.of_nat (length (enc_dirent e))) /\ cstr_of name = shown_name e.
Proof.
  intros Ho. pose proof (length_enc_dirent e) as Hle.
  destruct (get_qid_some data pos) as [q Hq]; [unfold fits; lia|].
  destruct (entry_name out Ho) as (name & Hn & Hc).
  exists q. eexists. exists name. split_and!; [done|apply entry_offset| |done|done].
  rewrite p9_get_u8_spec by (unfold fits; lia). do 2 f_equal. lia.
Qed.
End entry.

(** ** What the filler is told *)

(** The names given to the filler, with its answers, latest first. *)
Definition fill_of (x : ExtCall * Z) : option (list Z * Z) :=
  match x with (FillDir name, r) => Some (name, r) | _ => None end.
Definition fills (l : list (ExtCall * Z)) : list (list Z * Z) := omap fill_of l.

(** [shows names shown full]: the names were shown in order, each answered with
    0, up to the end or, when [full], up to the first other answer. *)
Inductive shows : list (list Z) -> list (list Z * Z) -> bool -> Prop :=
  | shows_end : shows [] [] false
  | shows_full n names r : r <> 0 -> shows (n :: names) [(n, r)] true
  | shows_next n names shown full :
      shows names shown full -> shows (n :: names) ((n, 0) :: shown) full.

Lemma shows_app a b sa sb full :
  shows a sa false -> shows b sb full -> shows (a ++ b) (sa ++ sb) full.
Proof.
  intros Ha Hb. remember false as f eqn:Hf. induction Ha; [done|done|].
  cbn [app]. constructor. auto.
Qed.

Lemma shows_cut a b sa : shows a sa true -> shows (a ++ b) sa true.
Proof.
  intros Ha. remember true as f eqn:Hf. induction Ha; [done|by constructor|].
  cbn [app]. constructor. auto.
Qed.

(** The log with these calls on top. *)
Definition fill_log (shown : list (list Z * Z)) : list (ExtCall * Z) :=
  rev ((fun x => (FillDir x.1, x.2)) <$> shown).

Lemma fills_log shown l : fills (fill_log shown ++ l) = rev shown ++ fills l.
Proof.
  unfold fill_log, fills. revert l. induction shown as [|[n r] shown IH]; intros l; [done|].
  rewrite fmap_cons. cbn [rev]. rewrite <- !app_assoc, IH. done.
Qed.

Lemma fills_low l0 l : extends low l0 l -> fills l = fills l0.
Proof. apply omap_extends. by intros []. Qed.

(** The offset from which the directory goes on. *)
Definition offset_after (es : list dirent) (d0 : Z) : Z :=
  fold_left (fun _ e => de_offset e) es d0.

Section loops.
Context {E : Type} `{EnvI : !Env E DevView} `{FuelI : !Fuel} (H : Prop).
Implicit Types s : Sys E Core.

Lemma entries_loop_wp es k a b d0 s :
  let data := a ++ enc_dirents es ++ b in
  let actual := Z.of_nat (length a + length (enc_dirents es)) in
  Forall dirent_ok es -> Forall is_byte data -> Z.of_nat (length data) < 2 ^ 31 ->
  (length es < k)%nat ->
  wp H (entries_loop k data actual (Z.of_nat (length a)) d0) (fun r s' =>
    exists shown, core s' = core s /\ sys_log s' = fill_log shown ++ sys_log s /\
      shows (shown_name <$> es) shown r.2 /\ (r.2 = false -> r.1 = offset_after es d0)) s.
Proof.
  revert k a d0 s. induction es as [|e es IH]; intros k a d0 s data actual Hes Hby Hlen Hk.
  all: destruct k as [|k]; [cbn in Hk; lia|]; cbn [entries_loop].
  { destruct (Z.ltb_spec (Z.of_nat (length a)) actual); [unfold actual, enc_dirents in *; cbn in *; lia|].
    apply wp_ret. exists []. split_and!; try done. constructor. }
  apply list.Forall_cons in Hes as [He Hes].
  assert (Hdata : data = a ++ enc_dirent e ++ enc_dirents es ++ b).
  { unfold data, enc_dirents. rewrite fmap_cons. cbn [concat]. by rewrite <- app_assoc. }
  assert (Hactual : actual = Z.of_nat (length a + length (enc_dirent e) + length (enc_dirents es))).
  { unfold actual, enc_dirents. rewrite fmap_cons. cbn [concat]. rewrite length_app. lia. }
  clearbody actual. rewrite Hdata in *. clear data Hdata. pose proof (length_enc_dirent e) as Hle.
  rewrite !length_app in Hlen.
  destruct (Z.ltb_spec (Z.of_nat (length a)) actual); [|lia].
  rewrite u32_small by lia. destruct (Z.ltb_spec actual (Z.of_nat (length a) + 24)); [lia|].
  destruct (entry_fields a (enc_dirents es ++ b) e actual He Hby) with (out := array 256)
    as (q & ty & name & G1 & G2 & G3 & G4 & Hcs);
    [rewrite !length_app; lia|rewrite !length_app; lia|apply length_replicate|].
  wp_step. eapply wp_lift; [exact G1|]. cbv iota. wp_step. eapply wp_lift; [exact G2|]. cbv iota.
  wp_step. eapply wp_lift; [exact G3|]. cbv iota. wp_step. eapply wp_lift; [exact G4|]. cbv iota.
  wp_step. rewrite Hcs. apply wp_ext. intros e' r _.
  destruct (Z.eqb_spec r 0) as [->|Hr]; cbn [negb].
  2: { apply wp_ret. exists [(shown_name e, r)]. split_and!; try done. by constructor. }
  rewrite <- Nat2Z.inj_add, <- length_app, app_assoc.
  replace actual with (Z.of_nat (length (a ++ enc_dirent e) + length (enc_dirents es)))
    by (rewrite length_app; lia).
  eapply wp_mono; [apply IH; rewrite <- ?app_assoc; try done; cbn in Hk; rewrite ?length_app; lia|].
  intros [d full] s' (shown & Hc & Hl & Hs & Hd). cbn [fst snd core sys_log] in *.
  exists ((shown_name e, 0) :: shown). split_and!; [done| | |].
  - rewrite Hl. unfold fill_log. rewrite fmap_cons. cbn [rev]. by rewrite <- app_assoc.
  - rewrite fmap_cons. by constructor.
  - intros Hf. by rewrite (Hd Hf).
Qed.
End loops.

(** ** The server *)

Definition P9_RREADDIR_MSG (tag : Z) (data : list Z) : list Z :=
  frame P9_RREADDIR tag (w32 (Z.of_nat (length data)) ++ data).

Class ServesDir {E : Type} `{EnvI : !Env E DevView} (H : Prop) (transact : Z -> M (Sys E Core) Z)
    (inv : Core -> Prop) (fid : Z) (dir : list dirent) : Prop := {
  sdir_steady :: Steady H transact inv;
  sdir_read pre rest count s :
    inv (core s) -> dir = pre ++ rest -> 0 <= count < 2 ^ 31 ->
    Forall (fun e => Z.of_nat (length (enc_dirent e)) <= count) dir ->
    wp H (exchange transact (Treaddir fid (offset_after pre 0) count)) (fun n s' =>
      kept inv s s' /\ extends low (sys_log s) (sys_log s') /\
      exists k tag, let data := enc_dirents (take k rest) in
        (take k rest = [] -> rest = []) /\ Z.of_nat (length data) <= count /\
        n = 11 + Z.of_nat (length data) /\
        take (Z.to_nat n) (rx (core s')) = P9_RREADDIR_MSG tag data) s }.

(** What [P9_Readdir] makes of an Rreaddir. *)
Lemma decode_rreaddir ask data tag b :
  let n := 11 + Z.of_nat (length data) in
  n < 2 ^ 32 -> Z.of_nat (length data) <= ask -> take (Z.to_nat n) b = P9_RREADDIR_MSG tag data ->
  r_decode 11 (fun n b => (11, payload ask n b)) n b = (0, Some (11, Z.of_nat (length data))) /\
  exists rest, drop 11 b = data ++ rest.
Proof.
  intros n Hn Ha Hb. unfold P9_RREADDIR_MSG in Hb. split.
  - unfold r_decode, r_error. rewrite (frame_rd_type _ _ _ _ _ Hb) by (unfold P9_RREADDIR; lia).
    change (P9_RREADDIR =? P9_RLERROR) with false.
    destruct (Z.ltb_spec n P9_RHDR_SIZE); [unfold P9_RHDR_SIZE in *; lia|]. cbn [negb Z.eqb].
    destruct (Z.ltb_spec n 11); [lia|]. do 3 f_equal. unfold payload.
    rewrite (frame_rd_body _ _ _ _ _ Hb) by lia. change (7 - 7) with 0.
    assert (rd 4 0 (w32 (Z.of_nat (length data)) ++ data) = Z.of_nat (length data)) as ->.
    { unfold w32. rewrite (rd_here 4). apply Z.mod_small. lia. }
    lia.
  - exists (drop (Z.to_nat n) b).
    rewrite <- (take_drop (Z.to_nat n) b) at 1. rewrite Hb. unfold frame.
    rewrite !app_assoc, <- (app_assoc _ data). apply drop_app_length'.
    rewrite !length_app, !length_w32, length_le_bytes, length_w16. lia.
Qed.

Section listing.
Context {E : Type} `{EnvI : !Env E DevView} `{FuelI : !Fuel}.
Context (H : Prop) (transact : Z -> M (Sys E Core) Z) (inv : Core -> Prop) (dir : list dirent).
Context (fid : Z) `{ServesI : !ServesDir H transact inv fid dir} (Hdir : Forall dirent_ok dir).
Implicit Types s : Sys E Core.
Abbreviation kept := (kept inv).

Lemma P9_Readdir_dir pre rest s (Q : Z * option (Z * Z) -> Sys E Core -> Prop) :
  let count := msize (hnd (core s)) - 11 in
  inv (core s) -> dir = pre ++ rest -> 0 <= count < 2 ^ 31 ->
  Forall (fun e => Z.of_nat (length (enc_dirent e)) <= count) dir ->
  (forall k b s', let data := enc_dirents (take k rest) in
     kept s s' -> extends low (sys_log s) (sys_log s') -> (take k rest = [] -> rest = []) ->
     drop 11 (rx (core s')) = data ++ b -> Q (0, Some (11, Z.of_nat (length data))) s') ->
  wp H (P9_Readdir transact fid (offset_after pre 0) count) Q s.
Proof.
  intros count Hi Hd Hc Hfit HQ.
  assert (Hcap : capped 11 count (msize (hnd (core s))) = count)
    by (unfold capped; fold count; rewrite u32_small; lia).
  pose proof (Readdir_answers transact inv fid (offset_after pre 0) count s Hi) as He.
  cbv beta zeta in He. rewrite Hcap in He. unfold wp. rewrite He.
  change (wp H (n ← exchange transact (Treaddir fid (offset_after pre 0) count); b ← read rx;
    mret (r_decode 11 (fun n b => (11, payload count n b)) n b)) Q s).
  wp_step. eapply wp_mono; [by apply sdir_read|].
  intros n s' (Hk & Hl & k & tag & Hnil & Hlen & -> & Hx). wp_step. apply wp_read, wp_ret.
  destruct (decode_rreaddir count (enc_dirents (take k rest)) tag (rx (core s')))
    as [-> (b & Hb)]; [lia|done..|]. by eapply HQ.
Qed.

Lemma enc_dirents_nil es : length (enc_dirents es) = 0%nat -> es = [].
Proof.
  destruct es as [|e es]; [done|]. unfold enc_dirents. rewrite fmap_cons. cbn [concat].
  rewrite length_app, length_enc_dirent. lia.
Qed.

Lemma enc_dirents_length es : (length es <= length (enc_dirents es))%nat.
Proof.
  induction es as [|e es IH]; [cbn; lia|]. unfold enc_dirents in *. rewrite fmap_cons. cbn [concat].
  rewrite length_app, length_enc_dirent. cbn [length]. lia.
Qed.

Lemma readdir_loop_dir k pre rest s :
  let count := msize (hnd (core s)) - 11 in
  inv (core s) -> dir = pre ++ rest -> 0 <= count < 2 ^ 31 ->
  Forall (fun e => Z.of_nat (length (enc_dirent e)) <= count) dir ->
  (length rest < k)%nat ->
  wp H (readdir_loop transact k fid count (offset_after pre 0)) (fun r s' => r = 0 /\
    kept s s' /\ exists shown full, fills (sys_log s') = rev shown ++ fills (sys_log s) /\
      shows (shown_name <$> rest) shown full) s.
Proof.
  revert pre rest s. induction k as [|k IH]; intros pre rest s count Hi Hd Hc Hfit Hk; [lia|].
  cbn [readdir_loop]. wp_step. apply (P9_Readdir_dir pre rest s); [done..|].
  intros j b s1 data Hk1 Hl1 Hnil Hdata. change (negb (0 =? 0)) with false. cbv iota.
  wp_step. eapply wp_lift; [done|]. cbv iota.
  destruct (Z.eqb_spec (Z.of_nat (length data)) 0) as [Hz|Hz].
  { apply wp_ret. split; [done|]. split; [done|]. exists [], false.
    rewrite Hnil by (apply enc_dirents_nil; fold data; lia). rewrite (fills_low _ _ Hl1).
    split; [done|constructor]. }
  wp_step. apply wp_read. wp_step. change (Z.to_nat 11) with 11%nat. rewrite Hdata.
  pose proof Hk1 as (Hi1 & Hp1 & Hm1). pose proof (transport_rx _ Hi1) as [Hby Hrx].
  assert (Hok : Forall dirent_ok (take j rest)).
  { apply Forall_take. rewrite Hd in Hdir. by apply Forall_app in Hdir as [_ ?]. }
  eapply wp_mono; [apply (entries_loop_wp H (take j rest) _ [] b); [done| | |]|].
  { cbn [app]. fold data. rewrite <- Hdata. by apply Forall_drop. }
  { cbn [app]. fold data. rewrite <- Hdata, length_drop. lia. }
  { pose proof (enc_dirents_length (take j rest)). unfold data. lia. }
  intros [d full] s2 (shown & Hc2 & Hl2 & Hs2 & Hd2). cbn [fst snd] in *.
  rewrite <- (take_drop j rest) in Hd |- *. rewrite fmap_app.
  assert (Hf2 : fills (sys_log s2) = rev shown ++ fills (sys_log s)).
  { by rewrite Hl2, fills_log, (fills_low _ _ Hl1). }
  assert (Hk2 : kept s s2) by (unfold FuseCorrect.kept; by rewrite Hc2).
  destruct full.
  { apply wp_ret. split; [done|]. split; [done|]. exists shown, true. split; [done|by apply shows_cut]. }
  rewrite (Hd2 eq_refl), app_assoc in *. unfold offset_after in *. rewrite <- fold_left_app.
  replace count with (msize (hnd (core s2)) - 11) by (rewrite Hc2, Hm1; done).
  eapply wp_mono; [apply (IH (pre ++ take j rest) (drop j rest)); rewrite ?Hc2, ?Hm1; try done|].
  { rewrite length_drop.
    assert (take j rest <> []) by (intros Ht; apply Hz; unfold data; by rewrite Ht).
    destruct j; [done|]. destruct rest; cbn in *; lia. }
  intros r s3 (-> & Hk3 & sh & fu & Hf3 & Hs3). split; [done|]. split; [by eapply kept_trans|].
  exists (shown ++ sh), fu. rewrite Hf3, Hf2, rev_app_distr, app_assoc. split; [done|by apply shows_app].
Qed.
End listing.

(** ** The claim *)

(** C12: [v9p_readdir] shows the names of the directory to FileSysBox once each and
    in the order of the server, cut to 255 bytes, until the filler answers with
    something other than 0 or the directory ends, and returns 0; no matter how
    the server divides the entries into responses, as long as each entry fits in
    one.  The loop ends when the transport does: every round but the last shows
    at least one name. *)
Theorem v9p_readdir_correct {E : Type} `{EnvI : !Env E DevView} `{FuelI : !Fuel} (H : Prop)
    (transact : Z -> M (Sys E Core) Z) (inv : Core -> Prop) (fi : fuse_file_info)
    (dir : list dirent) (HF : ServesDir H transact inv (u32 (fi_fh fi)) dir)
    (Hdir : Forall dirent_ok dir) (s : Sys E Core) (Hi : inv (core s))
    (Hms : 11 <= msize (hnd (core s)) < 2 ^ 31)
    (Hfit : Forall (fun e => Z.of_nat (length (enc_dirent e)) <= msize (hnd (core s)) - 11) dir)
    (Hfuel : (length dir < fuel)%nat) :
  wp H (v9p_readdir transact fi) (fun r s' => r = 0 /\ inv (core s') /\
    fid_pool (hnd (core s')) = fid_pool (hnd (core s)) /\
    exists shown full, fills (sys_log s') = rev shown ++ fills (sys_log s) /\
      shows ((fun e => take 255 (de_name e)) <$> dir) shown full) s.
Proof.
  unfold v9p_readdir. wp_step. apply wp_read. rewrite (u32_small (msize _ - 11)) by lia.
  eapply wp_mono; [apply (readdir_loop_dir H transact inv dir _ Hdir fuel [] dir s);
    (done || lia)|].
  intros r s' (-> & (? & ? & _) & shown & full & ? & ?). split_and!; [done..|]. by exists shown, full.
Qed.
