(* ===== verification/FuseSession.v ===== *)
(** * FuseSession: sequences of callbacks

    FileSysBox calls the callbacks in any order, with the handles of the files
    and directories that are open.  Here a client of the table of callbacks is a
    list of requests, each of which names an open handle by its position; after
    every sequence the live fids of the pool are exactly those of the open
    handles and the other fids are free again.  The loops of read, write and readdir are included, against any
    server: no answer makes them leave their buffers. *)

From S2P Require Import Prelude Platform CString Marshal FidPool VirtQueue Handler P9Client P9Correct P9Walk Fuse FusePath FuseCorrect FuseRead Tame FuseDir.

(** The offset behind a string stays inside the response. *)
Lemma get_str_ref_offset buf buf_len off out max :
  Forall is_byte buf -> off <= buf_len -> off <= (get_str_ref buf buf_len off out max).2.
Proof.
  intros Hb Ho. unfold get_str_ref. pose proof (le_val_range _ (slice_byte buf off 2 Hb)).
  destruct (_ <? _); [cbn; lia|]. destruct (_ || _); cbn; lia.
Qed.

Section loops.
Context {E : Type} `{EnvI : !Env E DevView} `{FuelI : !Fuel}.
Context (H : Prop) (transact : Z -> M (Sys E Core) Z) (inv : Core -> Prop).
Context `{SteadyI : !Steady H transact inv}.
Implicit Types s : Sys E Core.
Context `{TracedI : !Traced transact}.
Abbreviation carried := (carried inv).

(** An Rread gives at most what was asked for. *)
Lemma P9_Read_safe fid off count s (Q : Z * option (list Z) -> Sys E Core -> Prop) :
  inv (core s) -> 0 <= count ->
  (forall err s', carried s s' -> err <> 0 -> Q (err, None) s') ->
  (forall data s', carried s s' -> Z.of_nat (length data) <= count -> Q (0, Some data) s') ->
  wp H (P9_Read transact fid off count) Q s.
Proof.
  intros Hi Hc He Hd. eapply (answers_wp H transact inv);
    [exact (Read_answers transact inv fid off count Hc s Hi)|msg_size|done|].
  intros n s' Hk _. unfold r_decode. destruct (Z.eqb_spec (r_error n (rx (core s'))) 0); cbn [negb];
    [|by apply He].
  destruct (n <? 11); [by apply He|]. apply Hd; [done|].
  unfold slice, payload, capped. rewrite length_take. lia.
Qed.

Lemma read_loop_safe k fid off size buf total s :
  inv (core s) -> 0 <= total <= size -> size <= Z.of_nat (length buf) -> size < 2 ^ 32 ->
  (Z.to_nat (size - total) < k)%nat ->
  wp H (read_loop transact k fid off size buf total) (fun _ s' => carried s s') s.
Proof.
  revert buf total s. induction k as [|k IH]; intros buf total s Hi Ht Hb Hs Hk; [lia|].
  cbn [read_loop]. destruct (Z.ltb_spec total size); [|by apply wp_ret, carried_refl]. wp_step.
  apply P9_Read_safe; [done|lia| |].
  - intros err s' Hk' Hne. destruct (Z.eqb_spec err 0); [done|]. by apply wp_ret.
  - intros data s' Hk' Hl. change (negb (0 =? 0)) with false. cbv iota. wp_step.
    eapply wp_lift; [done|]. wp_step. destruct (blit buf total data) as [b|] eqn:Hbl.
    2: { rewrite blit_Some in Hbl by lia. done. }
    eapply wp_lift; [done|]. cbv zeta. destruct (Z.eqb_spec (Z.of_nat (length data)) 0).
    { by apply wp_ret. }
    rewrite u32_small by lia. apply blit_length in Hbl.
    eapply wp_mono; [apply IH; [apply Hk'|lia|lia|lia|lia]|].
    intros r s2. by apply carried_trans.
Qed.

(** A Twrite fits when the negotiated size is at most the buffer size. *)
Lemma write_loop_safe k fid off size buf total s :
  H -> inv (core s) -> 23 <= msize (hnd (core s)) <= P9_MSIZE -> 0 <= total ->
  size <= Z.of_nat (length buf) ->
  wp H (write_loop transact k fid off size buf total) (fun _ s' => carried s s') s.
Proof.
  intros HH. revert total s. induction k as [|k IH]; intros total s Hi Hms Ht Hb; [done|].
  cbn [write_loop]. destruct (Z.ltb_spec total size); [|by apply wp_ret, carried_refl]. wp_step.
  eapply (decode_wp H transact inv); [apply (Write_answers transact inv); [done|done|rewrite length_drop; lia]| |done| |].
  - unfold msg_fits, capped. cbn [t_body]. autorewrite with wire. rewrite length_take.
    unfold P9_MSIZE in *. rewrite u32_small by lia. lia.
  - intros err s' Hk Hne. destruct (Z.eqb_spec err 0); [done|]. by apply wp_ret.
  - intros a s' Hk. change (negb (0 =? 0)) with false. cbv iota. wp_step. eapply wp_lift; [done|].
    destruct (a =? 0); [by apply wp_ret|]. pose proof (u32_range (total + a)).
    pose proof Hk as (Hi' & _ & Hms' & _).
    eapply wp_mono; [apply IH; rewrite ?Hms'; (done || lia)|]. intros r s2. by apply carried_trans.
Qed.

(** The fields in front of the name of an entry. *)
Lemma entry_safe (data : list Z) actual pos :
  Forall is_byte data -> 0 <= pos -> pos + 24 <= actual <= Z.of_nat (length data) ->
  Z.of_nat (length data) < 2 ^ 31 ->
  exists qid off ty name pos', p9_get_qid data pos = Some (qid, pos + 13) /\
    p9_get_u64 data (pos + 13) = Some (off, pos + 21) /\
    p9_get_u8 data (pos + 21) = Some (ty, pos + 22) /\
    p9_get_str data actual (pos + 22) (array 256) 256 = Some (name, pos') /\ pos + 22 <= pos'.
Proof.
  intros Hb Hp Ha Hl.
  assert (Hpre : get_str_pre data actual (pos + 22) (array 256) 256).
  { unfold get_str_pre, array. rewrite length_replicate. split_and!; (done || lia). }
  destruct (get_qid_some data pos) as [q Hq]; [unfold fits; lia|].
  rewrite p9_get_u64_spec, p9_get_u8_spec, p9_get_str_eq by (done || unfold fits; lia).
  exists q. do 4 eexists. split; [exact Hq|]. split; [do 2 f_equal; lia|].
  split; [do 2 f_equal; lia|]. split; [apply f_equal, surjective_pairing|].
  apply get_str_ref_offset; [done|lia].
Qed.

Lemma entries_loop_safe k data actual pos d s :
  Forall is_byte data -> 0 <= pos -> 0 <= actual <= Z.of_nat (length data) ->
  Z.of_nat (length data) < 2 ^ 31 -> (Z.to_nat (actual - pos) < k)%nat ->
  wp H (entries_loop k data actual pos d) (fun _ s' => core s' = core s /\
    failures (sys_log s) <= failures (sys_log s')) s.
Proof.
  intros Hb Hp Ha Hl. revert pos d s Hp. induction k as [|k IH]; intros pos d s Hp Hk; [lia|].
  cbn [entries_loop]. destruct (Z.ltb_spec pos actual); [|apply wp_ret; split; [done|lia]].
  rewrite u32_small by lia. destruct (Z.ltb_spec actual (pos + 24)); [apply wp_ret; split; [done|lia]|].
  destruct (entry_safe data actual pos) as (q & o & ty & name & pos' & G1 & G2 & G3 & G4 & Hpos);
    [done|lia|lia|done|].
  wp_step. eapply wp_lift; [exact G1|]. cbv iota. wp_step. eapply wp_lift; [exact G2|]. cbv iota.
  wp_step. eapply wp_lift; [exact G3|]. cbv iota. wp_step. eapply wp_lift; [exact G4|]. cbv iota.
  wp_step. wp_ext. destruct (negb _); [apply wp_ret; split; [done|apply (failures_grow _ [_])]|].
  eapply wp_mono; [apply IH; lia|]. intros x s' [Hc Hf]. cbn [core sys_log] in Hc, Hf.
  split; [done|]. exact Hf.
Qed.

Lemma readdir_loop_safe k fid count d s :
  H -> inv (core s) -> 0 <= count ->
  wp H (readdir_loop transact k fid count d) (fun _ s' => carried s s') s.
Proof.
  intros HH. revert d s. induction k as [|k IH]; intros d s Hi Hc; [done|].
  cbn [readdir_loop]. wp_step. eapply (answers_wp H transact inv);
    [exact (Readdir_answers transact inv fid d count s Hi)|msg_size|done|].
  intros n s1 Hk1 Hn. unfold r_decode.
  destruct (Z.eqb_spec (r_error n (rx (core s1))) 0) as [He|He]; cbn [negb].
  2: { destruct (Z.eqb_spec (r_error n (rx (core s1))) 0); [done|]. by apply wp_ret. }
  destruct (Z.ltb_spec n 11); [by apply wp_ret|]. change (negb (0 =? 0)) with false. cbv iota.
  pose proof (transport_rx _ (proj1 Hk1)) as [Hb Hl]. unfold P9_MSIZE in Hl.
  set (a := payload _ _ _). assert (Ha : a <= n - 11) by (unfold a, payload; lia).
  wp_step. eapply wp_lift; [done|]. cbv iota. destruct (Z.eqb_spec a 0); [by apply wp_ret|].
  wp_step. apply wp_read. wp_step.
  assert (0 <= a).
  { unfold a, payload. pose proof (le_val_range _ (slice_byte (rx (core s1)) 7 4 Hb)).
    unfold rd, capped. pose proof (u32_range (msize (hnd (core s)) - 11)). lia. }
  eapply wp_mono; [apply entries_loop_safe; [by apply Forall_drop|lia|rewrite length_drop; lia|
    rewrite length_drop; lia|lia]|].
  intros [d' full] s2 [Hs2 Hf2]. assert (Hk2 : carried s s2).
  { eapply carried_trans; [exact Hk1|]. split_and!; rewrite ?Hs2; try done. apply Hk1. }
  destruct full; [by apply wp_ret|].
  eapply wp_mono; [apply IH; [apply Hk2|done]|]. intros r s3. by apply carried_trans.
Qed.
End loops.

(** ** Requests *)

(** What FileSysBox asks for; an open handle is named by its position. *)
Inductive request : Type :=
  | Getattr (path : list Z) | Readlink (path buf : list Z) (size : Z)
  | Truncate (path : list Z) (size : Z) | Utimens (path : list Z) (atime mtime : timespec)
  | Chmod (path : list Z) (mode : Z) | Chown (path : list Z) (uid gid : Z)
  | Mkdir (path : list Z) (mode : Z) | Unlink (path : list Z) | Rmdir (path : list Z)
  | Symlink (target path : list Z) | Rename (path path2 : list Z) | Link (path path2 : list Z)
  | StatFs
  | Open (path : list Z) (fi : fuse_file_info) | Opendir (path : list Z) (fi : fuse_file_info)
  | Create (path : list Z) (mode : Z) (fi : fuse_file_info)
  | Ftruncate (h : nat) (size : Z) | Fsync (h : nat) (datasync : Z)
  | Read (h : nat) (buf : list Z) (size off : Z) | Write (h : nat) (buf : list Z) (size off : Z)
  | Readdir (h : nat) | Release (h : nat) | Releasedir (h : nat).

(** The arguments that FileSysBox gives: strings, and buffers of the size. *)
Definition valid (r : request) : Prop :=
  match r with
  | Getattr p | Truncate p _ | Utimens p _ _ | Chmod p _ | Chown p _ _ | Mkdir p _ | Unlink p
  | Rmdir p | Open p _ | Opendir p _ | Create p _ _ => str_ok p
  | Readlink p buf size => str_ok p /\ 1 <= u32 size <= Z.of_nat (length buf)
  | Symlink target p => len_ok target /\ str_ok p
  | Rename p p2 | Link p p2 => str_ok p /\ str_ok p2
  | Read _ buf size _ | Write _ buf size _ => u32 size <= Z.of_nat (length buf)
  | StatFs | Ftruncate _ _ | Fsync _ _ | Readdir _ | Release _ | Releasedir _ => True
  end.

(** The number of messages is bounded whatever the server answers. *)
Definition bounded (r : request) : bool :=
  match r with Write _ _ _ _ | Readdir _ => false | _ => true end.

Section session.
Context {E : Type} `{EnvI : !Env E DevView} `{FuelI : !Fuel} `{SdkI : !SdkTypes}.
Abbreviation M := (M (Sys E Core)).
Implicit Types s : Sys E Core.
Context (ops : fuse_operations (E := E)).

(** The handles after an open. *)
Definition opened (hs : list fuse_file_info) (x : Z * fuse_file_info) : list fuse_file_info :=
  if x.1 =? 0 then x.2 :: hs else hs.

(** A request on the handle [h]; a request on none is not made. *)
Definition on_handle (hs : list fuse_file_info) (h : nat)
    (f : fuse_file_info -> M (Z * list fuse_file_info)) : M (Z * list fuse_file_info) :=
  match hs !! h with Some fi => f fi | None => mret (0, hs) end.

(** One request: what the callback returns, and the handles that are open after
    it. *)
Definition perform (r : request) (hs : list fuse_file_info) : M (Z * list fuse_file_info) :=
  match r with
  | Getattr p => x ← op_getattr ops p; mret (fst x, hs)
  | Readlink p buf size => x ← op_readlink ops p buf size; mret (fst x, hs)
  | Truncate p size => x ← op_truncate ops p size; mret (id x, hs)
  | Utimens p at_ mt => x ← op_utimens ops p at_ mt; mret (id x, hs)
  | Chmod p mode => x ← op_chmod ops p mode; mret (id x, hs)
  | Chown p uid gid => x ← op_chown ops p uid gid; mret (id x, hs)
  | Mkdir p mode => x ← op_mkdir ops p mode; mret (id x, hs)
  | Unlink p => x ← op_unlink ops p; mret (id x, hs)
  | Rmdir p => x ← op_rmdir ops p; mret (id x, hs)
  | Symlink target p => x ← op_symlink ops target p; mret (id x, hs)
  | Rename p p2 => x ← op_rename ops p p2; mret (id x, hs)
  | Link p p2 => x ← op_link ops p p2; mret (id x, hs)
  | StatFs => x ← op_statfs ops; mret (fst x, hs)
  | Open p fi => x ← op_open ops p fi; mret (x.1, opened hs x)
  | Opendir p fi => x ← op_opendir ops p fi; mret (x.1, opened hs x)
  | Create p mode fi => x ← op_create ops p mode fi; mret (x.1, opened hs x)
  | Ftruncate h size => on_handle hs h (fun fi => x ← op_ftruncate ops size fi; mret (id x, hs))
  | Fsync h datasync =>
      on_handle hs h (fun fi => x ← op_fsync ops datasync (Some fi); mret (id x, hs))
  | Read h buf size off =>
      on_handle hs h (fun fi => x ← op_read ops buf size off fi; mret (fst x, hs))
  | Write h buf size off =>
      on_handle hs h (fun fi => x ← op_write ops buf size off fi; mret (id x, hs))
  | Readdir h => on_handle hs h (fun fi => x ← op_readdir ops fi; mret (id x, hs))
  | Release h => on_handle hs h (fun fi => x ← op_release ops fi; mret (x, delete h hs))
  | Releasedir h => on_handle hs h (fun fi => x ← op_releasedir ops fi; mret (x, delete h hs))
  end.

(** A sequence: the results in order, and the handles that are open at the end. *)
Fixpoint perform_all (rs : list request) (hs : list fuse_file_info)
    : M (list Z * list fuse_file_info) :=
  match rs with
  | [] => mret ([], hs)
  | r :: rs =>
      '(x, hs) ← perform r hs;
      '(xs, hs) ← perform_all rs hs;
      mret (x :: xs, hs)
  end.
End session.

(** The requests that ended with EIO. *)
Definition eios (xs : list Z) : Z := foldr (fun x n => eio x + n) 0 xs.

Section safe.
Context {E : Type} `{EnvI : !Env E DevView} `{FuelI : !Fuel} `{SdkI : !SdkTypes}.
Context (H : Prop) (transact : Z -> M (Sys E Core) Z) (inv : Core -> Prop).
Context `{SteadyI : !Steady H transact inv} `{TracedI : !Traced transact}.
Context (reset : M (Sys E Core) bool).
Context (Hms : forall c, inv c -> 23 <= msize (hnd c) <= P9_MSIZE) (room : Z) (Hroom : 0 <= room).
Implicit Types s : Sys E Core.
Abbreviation fids := (fmap fi_fh).

Lemma carried_balanced {A} err live (m : M (Sys E Core) A) :
  (forall s, inv (core s) -> wp H m (fun _ s' => carried inv s s') s) ->
  balanced_cb H inv room err live m.
Proof.
  intros Hm w s Ho. eapply wp_mono; [apply Hm; by eapply owns_inv|]. intros a s' Hk.
  eapply owns_weaken; [by eapply owns_carried|lia|]. unfold eio. destruct (_ =? _); lia.
Qed.

Lemma read_balanced live buf size off fi :
  u32 size <= Z.of_nat (length buf) ->
  balanced_cb H inv room fst live (v9p_read transact buf size off fi).
Proof.
  intros Hb. apply carried_balanced. intros s Hi. pose proof (u32_range size).
  apply (read_loop_safe H transact inv); (done || lia).
Qed.

Lemma write_balanced live buf size off fi :
  H -> u32 size <= Z.of_nat (length buf) ->
  balanced_cb H inv room id live (v9p_write transact buf size off fi).
Proof.
  intros HH Hb. apply carried_balanced. intros s Hi.
  apply (write_loop_safe H transact inv); (done || by apply Hms).
Qed.

Lemma readdir_balanced live fi : H -> balanced_cb H inv room id live (v9p_readdir transact fi).
Proof.
  intros HH. apply carried_balanced. intros s Hi. unfold v9p_readdir. wp_step. apply wp_read.
  apply (readdir_loop_safe H transact inv); [done..|apply u32_range].
Qed.

(** The accounts after a request that found [w] fids lost. *)
Definition accounts (w : Z) (x : Z * list fuse_file_info) s : Prop :=
  owns inv (fids x.2) (w + eio x.1) room s.

(** A callback that leaves the handles as they are. *)
Lemma same_handles {A} (err : A -> Z) (m : M (Sys E Core) A) w hs s :
  balanced_cb H inv room err (fids hs) m -> owns inv (fids hs) w (room + 2) s ->
  wp H (x ← m; mret (err x, hs)) (accounts w) s.
Proof. intros Hm Ho. wp_step. eapply wp_mono; [by apply Hm|]. intros a s' Ho'. by apply wp_ret. Qed.

Lemma more_handles m w hs s :
  opens_cb H inv room (fids hs) m -> owns inv (fids hs) w (room + 2) s ->
  wp H (x ← m; mret (x.1, opened hs x)) (accounts w) s.
Proof.
  intros Hm Ho. wp_step. eapply wp_mono; [by apply Hm|]. intros [e fi] s' Ho'. apply wp_ret.
  unfold accounts, opened. cbn [fst snd] in *. by destruct (e =? 0).
Qed.

Lemma on_handle_wp w hs h f s :
  (forall fi, hs !! h = Some fi -> fids hs ≡ₚ fi_fh fi :: fids (delete h hs) ->
     wp H (f fi) (accounts w) s) ->
  owns inv (fids hs) w (room + 2) s ->
  wp H (on_handle hs h f) (accounts w) s.
Proof.
  intros Hf Ho. unfold on_handle. destruct (hs !! h) as [fi|] eqn:Hh.
  - apply Hf; [done|]. by rewrite (delete_Permutation _ _ _ Hh) at 1.
  - apply wp_ret. eapply owns_weaken; [exact Ho|lia|]. unfold eio. destruct (_ =? _); lia.
Qed.

Lemma release_handle w hs h fi s :
  fids hs ≡ₚ fi_fh fi :: fids (delete h hs) -> owns inv (fids hs) w (room + 2) s ->
  wp H (x ← v9p_release transact fi; mret (x, delete h hs)) (accounts w) s.
Proof.
  intros Hp Ho. rewrite Hp in Ho. wp_step. eapply wp_mono; [by apply release_wp|].
  intros r s' [-> Ho']. apply wp_ret. eapply owns_weaken; [exact Ho'|lia|]. unfold eio. destruct (_ =? _); lia.
Qed.

Lemma perform_wp r w hs s :
  valid r -> H \/ bounded r = true -> owns inv (fids hs) w (room + 2) s ->
  wp H (perform (V9P_FillOperations false transact reset) r hs) (accounts w) s.
Proof.
  intros Hv Hb Ho. destruct r; cbn [perform V9P_FillOperations op_getattr op_readlink op_truncate
    op_utimens op_chmod op_chown op_mkdir op_unlink op_rmdir op_symlink op_rename op_link op_statfs
    op_open op_opendir op_create]; cbn [valid] in Hv.
  all: try (apply on_handle_wp; [intros fi Hh Hp|done]).
  all: try (apply more_handles; [|done]).
  all: try (apply same_handles; [|done]).
  - by apply getattr_balanced.
  - destruct Hv. by apply readlink_balanced.
  - by apply (setattr_balanced H transact inv room Hroom path Hv _ (size_attr size)).
  - by apply (setattr_balanced H transact inv room Hroom path Hv _ (time_attr atime mtime) id).
  - by apply chmod_balanced.
  - by apply (setattr_balanced H transact inv room Hroom path Hv _ _ id).
  - by apply mkdir_balanced.
  - by apply unlink_balanced.
  - by apply rmdir_balanced.
  - destruct Hv. by apply symlink_balanced.
  - destruct Hv. by apply rename_balanced.
  - destruct Hv. by apply link_balanced.
  - by apply statfs_balanced.
  - by apply open_opens.
  - by apply opendir_opens.
  - by apply create_opens.
  - by apply ftruncate_balanced.
  - by apply fsync_balanced.
  - by apply read_balanced.
  - destruct Hb; [by apply write_balanced|done].
  - destruct Hb; [by apply readdir_balanced|done].
  - by apply release_handle.
  - by apply release_handle.
Qed.
End safe.

Lemma session_wp {E : Type} `{EnvI : !Env E DevView} `{FuelI : !Fuel} `{SdkI : !SdkTypes}
    (H : Prop) (transact : Z -> M (Sys E Core) Z) (inv : Core -> Prop)
    `{SteadyI : !Steady H transact inv} `{TracedI : !Traced transact} (reset : M (Sys E Core) bool)
    (Hms : forall c, inv c -> 23 <= msize (hnd c) <= P9_MSIZE) rs w hs s :
  Forall valid rs -> H \/ Forall (fun r => bounded r = true) rs ->
  owns inv (fi_fh <$> hs) w (2 * Z.of_nat (length rs)) s ->
  wp H (perform_all (V9P_FillOperations false transact reset) rs hs)
    (fun x s' => owns inv (fi_fh <$> x.2) (w + eios x.1) 0 s') s.
Proof.
  intros Hv. revert w hs s. induction Hv as [|r rs Hr _ IH]; intros w hs s Hb Ho.
  { apply wp_ret. cbn. by rewrite Z.add_0_r. }
  cbn [perform_all]. wp_step. cbn [length] in Ho.
  eapply wp_mono; [apply (perform_wp H transact inv reset Hms (2 * Z.of_nat (length rs)) ltac:(lia) r w);
    [done| |]|].
  - destruct Hb as [?|Hb]; [by left|right]. by apply list.Forall_cons in Hb as [? _].
  - by replace (2 * Z.of_nat (length rs) + 2) with (2 * Z.of_nat (S (length rs))) by lia.
  - intros [x hs'] s' Ho'. wp_step. eapply wp_mono; [apply (IH (w + eio x)); [|exact Ho']|].
    + destruct Hb as [?|Hb]; [by left|right]. by apply list.Forall_cons in Hb as [_ ?].
    + intros [xs hs2] s2 Ho2. apply wp_ret. cbn [fst snd eios foldr] in *. by rewrite Z.add_assoc.
Qed.

(** ** The claim *)

