(* ===== verification/FuseStack.v ===== *)
(** * FuseStack: the callbacks over the real transport

    V9P_Transact is a steady transport when the device is a server that answers
    every request with a well-formed response: so the callbacks, the client
    calls, the exchange, the rings and the caches are composed, and what
    FuseCorrect.v proves against the interface holds of the whole stack. *)

From S2P Require Import Prelude Platform CString Marshal FidPool VirtQueue Handler P9Client P9Correct P9Walk VirtioInit CacheDma Transact Clock Exchange Deliver Fuse FusePath FuseCorrect FuseRead FuseWrite Tame FuseDir FuseSession.

(** A response to [req]: a frame that fits in [ms] bytes, with the same tag. *)
Definition good_response (ms : Z) (req resp : list Z) : Prop :=
  7 <= Z.of_nat (length resp) <= ms /\ rd 4 0 resp = Z.of_nat (length resp) /\
  rd 2 5 resp = rd 2 5 req.

(** A 9P server gives such responses only. *)
Definition good_server {St : Type} (serve : St -> list Z -> St * list Z) (ms : Z) : Prop :=
  forall st req, 7 <= Z.of_nat (length req) -> Forall is_byte (take 7 req) ->
    good_response ms req (serve st req).2.

(** The invariant of a session between two exchanges. *)
Record stack_inv (ms : Z) (c : Core) : Prop := {
  si_idle : idle c;
  si_sized : sized c;
  si_session : session_inv c;
  si_tx_ram : length (tx c) = length (tx_ram c);
  si_rx_ram : length (rx_ram c) = length (rx c);
  si_tx_dma : dma_range (tx_buf (hnd c)) P9_MSIZE;
  si_rx_dma : dma_range (rx_buf (hnd c)) (Z.of_nat (length (rx c)));
  si_cookie : tx_buf (hnd c) <> 0;
  si_msize : msize (hnd c) = ms }.

Lemma stack_pool ms c p : stack_inv ms c -> stack_inv ms (on_hnd (set_fid_pool p) c).
Proof. intros []. split; try done. by destruct si_sized0. Qed.

(** The trace of the real transport only grows. *)
#[export] Instance transact_traced {E : Type} `{EnvI : !Env E DevView} `{FuelI : !Fuel} :
  Traced V9P_Transact.
Proof.
  intros n s r s' Hrun. apply (tame_transact plain (fun _ => tt)) in Hrun as [(new & -> & _) _].
  by exists new.
Qed.

Section stack.
Context {E : Type} `{EnvI : !Env E DevView} `{ClockI : !Clock E} `{FuelI : !Fuel}.
Context {St : Type} (srv : E -> St) (serve : St -> list Z -> St * list Z).
Context `{ServesI : !Serves E srv serve} (ms : Z).
Context (Hserve : good_server serve ms) (Hfuel : (2 <= fuel)%nat).
Implicit Types s : Sys E Core.

Lemma stack_session c c' :
  same_session c c' -> idle c' -> stack_inv ms c -> stack_inv ms c'.
Proof.
  intros Hss Hi []. pose proof (session_field tx_buf _ _ Hss ltac:(done)) as E1.
  pose proof (session_field rx_buf _ _ Hss ltac:(done)) as E2.
  pose proof (session_field msize _ _ Hss ltac:(done)) as E3.
  pose proof Hss as [T R M F B _ X C]. pose proof (sz_freq _ si_sized0).
  split; rewrite ?E1, ?E2, ?E3; try done.
  - by eapply sized_session; eauto.
  - by eapply session_same.
  - by rewrite T, X.
  - by rewrite M, R.
  - by rewrite R.
Qed.

Lemma stack_can_send n c :
  stack_inv ms c -> framed n (tx c) -> can_send n c.
Proof.
  intros [? ? (Ht & [_ Hr] & _) ? ? ? ? ? ?] [Hn _]. unfold P9_MSIZE in *. split; try done.
  - eapply dma_range_le; [done|lia].
  - by rewrite Z.max_r by lia.
Qed.

Lemma serve_framed n b st :
  framed n b -> let req := take (Z.to_nat n) b in good_response ms req (serve st req).2.
Proof.
  intros [Hn Hb] req. apply Hserve; unfold req.
  - rewrite length_take. lia.
  - rewrite take_take, Nat.min_l by lia. done.
Qed.

Lemma stack_answer n c st :
  stack_inv ms c -> framed n (tx c) ->
  answer_ok (take (Z.to_nat n) (tx c)) (serve st (take (Z.to_nat n) (tx c))).2 c.
Proof.
  intros [? ? (_ & _ & _ & Hm) ? ? ? ? ? Hms] Hn.
  destruct (serve_framed n (tx c) st Hn) as (? & ? & ?). split; try done; lia.
Qed.

(** One exchange, as the callbacks see it. *)
Lemma stack_exchange n s :
  stack_inv ms (core s) -> framed n (tx (core s)) ->
  let step := serve (state srv s) (take (Z.to_nat n) (tx (core s))) in
  let resp := step.2 in
  wp False (V9P_Transact n) (fun r s' => r = Z.of_nat (length resp) /\ state srv s' = step.1 /\
    take (length resp) (rx (core s')) = resp /\ stack_inv ms (core s') /\
    same_session (core s) (core s')) s.
Proof.
  intros Hs Hn step resp.
  destruct (wp_total _ _ _ (try_delivers srv serve n s Hfuel (stack_can_send _ _ Hs Hn)
    (stack_answer _ _ _ Hs Hn))) as (a & s' & Hrun & -> & Hst & Hi & Hx). fold step resp in Hrun, Hst, Hx.
  pose proof (keeps_try _ _ _ _ Hrun) as Hss.
  eapply wp_run.
  { unfold V9P_Transact. rewrite transact_split. rewrite (bind_done _ _ _ _ _ Hrun). done. }
  split_and!; try done. by eapply stack_session.
Qed.

Lemma stack_transport : Transport V9P_Transact (stack_inv ms).
Proof.
  split.
  - intros c b [] Hl. split; try done; cbn; try congruence.
    + by destruct si_sized0.
    + destruct si_session0 as (Ht & ?). split; [|done]. cbn. congruence.
  - intros c t []. split; try done. by destruct si_sized0.
  - intros c [_ _ (? & _)]. done.
  - intros c [_ _ (_ & ? & _)]. done.
  - intros n s r s' Hs Hn Hrun.
    pose proof (wp_done _ _ _ _ _ _ Hrun (stack_exchange n s Hs Hn))
      as (-> & _ & _ & Hs' & _).
    pose proof (si_session _ _ Hs') as (_ & Hr & _ & Hm).
    destruct (serve_framed n (tx (core s)) (state srv s) Hn) as (Hl & _).
    rewrite (si_msize _ _ Hs') in Hm. split_and!; [apply Hr..|lia|lia|done].
Qed.

(** The composition: V9P_Transact discharges the interface of the callbacks. *)
Lemma stack_steady : Steady False V9P_Transact (stack_inv ms).
Proof.
  split.
  - exact stack_transport.
  - apply stack_pool.
  - intros n s Hs Hn. eapply wp_mono; [by apply stack_exchange|].
    intros r s' (_ & _ & _ & H1 & H2).
    split_and!; [done|by apply (session_field fid_pool)|by apply (session_field msize)].
Qed.

(** A message and the response to it. *)
Lemma exchange_stack m s :
  stack_inv ms (core s) -> msg_fits m ->
  wp False (exchange V9P_Transact m) (fun n s' => kept (stack_inv ms) s s' /\
    exists tag, let step := serve (state srv s) (frame (t_type m) tag (t_body m)) in
      n = Z.of_nat (length step.2) /\ state srv s' = step.1 /\
      take (length step.2) (rx (core s')) = step.2) s.
Proof.
  intros Hs Hm. apply (exchange_at False V9P_Transact (stack_inv ms) (SteadyI := stack_steady));
    [done..|]. intros tag s2 msg Hk He _ Hf Htx.
  eapply wp_mono; [apply stack_exchange; [apply Hk|done]|]. rewrite Nat2Z.id, Htx.
  assert (state srv s2 = state srv s) as -> by (unfold state; by rewrite He).
  intros r s3 (-> & Hst & Hx & H3 & Hss). split; [|by exists tag].
  eapply kept_trans; [exact Hk|]. split_and!; [done| |].
  - by apply (session_field fid_pool).
  - by apply (session_field msize).
Qed.
End stack.

(** ** A server for one file

    Its state is the file.  It returns at most [limit] bytes per Rread, takes at
    most [limit] bytes of a Twrite and refuses everything else. *)

Definition rread_len (file : list Z) (limit off count : Z) : Z :=
  Z.max 0 (Z.min (Z.min limit count) (Z.of_nat (length file) - off)).

Definition file_server (limit : Z) (file req : list Z) : list Z * list Z :=
  let off := rd 8 11 req in
  let count := rd 4 19 req in
  if rd 1 4 req =? P9_TREAD then
    let bytes := u8 <$> file in
    (file, P9_RREAD_MSG (rd 2 5 req) (slice bytes off (rread_len bytes limit off count)))
  else if rd 1 4 req =? P9_TWRITE then
    let k := Z.min limit count in
    (put_at file off (slice req 23 k), P9_RWRITE_MSG (rd 2 5 req) k)
  else (file, refuse req).

Lemma rd_tag_range req : 7 <= Z.of_nat (length req) -> Forall is_byte (take 7 req) ->
  0 <= rd 2 5 req < 65536.
Proof.
  intros Hl Hb. rewrite (rd_prefix 2 5 7 req (take 7 req)) by (done || lia). unfold rd.
  pose proof (le_val_range _ (slice_byte (take 7 req) 5 2 Hb)) as Hr.
  rewrite slice_length in Hr by (rewrite ?length_take; lia). done.
Qed.

Lemma frame_size type tag body :
  7 + Z.of_nat (length body) < 2 ^ 32 ->
  rd 4 0 (frame type tag body) = Z.of_nat (length (frame type tag body)).
Proof.
  intros Hl. rewrite length_frame. unfold frame, w32. rewrite (rd_here 4), Z.mod_small; lia.
Qed.

Lemma frame_tag type tag body : 0 <= tag < 65536 -> rd 2 5 (frame type tag body) = tag.
Proof.
  intros Ht. unfold frame. rewrite rd_skip by (rewrite length_w32; lia). rewrite length_w32.
  rewrite rd_skip by (rewrite length_le_bytes; lia). rewrite length_le_bytes.
  change (5 - Z.of_nat 4 - Z.of_nat 1) with 0. unfold w16. rewrite (rd_here 2).
  by apply Z.mod_small.
Qed.

Lemma refuse_frame req :
  7 <= Z.of_nat (length req) -> Forall is_byte (take 7 req) ->
  refuse req = frame P9_RLERROR (rd 2 5 req) (w32 ENOENT).
Proof.
  intros Hl Hb. do 7 (destruct req as [|? req]; [simpl in Hl; lia|]). cbn [take] in Hb.
  rewrite !list.Forall_cons in Hb. destruct Hb as (_ & _ & _ & _ & _ & H5 & H6 & _).
  unfold refuse, frame. cbn [nth]. unfold w16, rd, slice.
  change (Z.to_nat 5) with 5%nat. change (Z.to_nat 2) with 2%nat. cbn [drop take]. rewrite take_0.
  assert (Hf : Forall is_byte [z4; z5])
    by (apply list.Forall_cons; split; [done|]; by apply list.Forall_singleton).
  pose proof (le_bytes_val [z4; z5] Hf) as Hv. cbn [length] in Hv. rewrite Hv.
  rewrite (u8_small z4), (u8_small z5) by done. reflexivity.
Qed.

(** A frame with the tag of the request, and a small body. *)
Lemma frame_good ms type req body :
  7 <= Z.of_nat (length req) -> Forall is_byte (take 7 req) ->
  7 + Z.of_nat (length body) <= ms < 2 ^ 32 ->
  good_response ms req (frame type (rd 2 5 req) body).
Proof.
  intros Hl Hb Hm. split_and!.
  - rewrite length_frame. lia.
  - rewrite length_frame. lia.
  - apply frame_size. lia.
  - apply frame_tag. by apply rd_tag_range.
Qed.

Lemma refuse_good ms req :
  7 <= Z.of_nat (length req) -> Forall is_byte (take 7 req) -> 64 <= ms < 2 ^ 32 ->
  good_response ms req (refuse req).
Proof.
  intros Hl Hb Hm. rewrite refuse_frame by done. apply frame_good; [done..|].
  rewrite length_w32. lia.
Qed.

(** The fields of a Tread or a Twrite. *)
Lemma io_fields type tag fid off count data :
  0 <= type < 256 -> 0 <= off < 2 ^ 64 -> 0 <= count < 2 ^ 32 ->
  let req := frame type tag (w32 fid ++ w64 off ++ w32 count ++ data) in
  rd 1 4 req = type /\ rd 8 11 req = off /\ rd 4 19 req = count /\
  forall k, 0 <= k <= Z.of_nat (length data) -> slice req 23 k = take (Z.to_nat k) data.
Proof.
  intros Ht Ho Hc req.
  assert (Hreq : take (length req) req = req) by (by apply take_ge).
  assert (Hl : length req = (23 + length data)%nat).
  { unfold req. rewrite length_frame. autorewrite with wire. lia. }
  pose proof (frame_rd_type _ _ _ _ _ Hreq Ht) as ->. split; [done|].
  rewrite (frame_rd_body _ _ _ _ _ Hreq 8 11), (frame_rd_body _ _ _ _ _ Hreq 4 19) by lia.
  rewrite !(rd_skip _ _ (w32 fid)) by (rewrite length_w32; lia). rewrite length_w32.
  rewrite (rd_skip 4 _ (w64 off)) by (rewrite length_w64; lia). rewrite length_w64.
  change (11 - 7 - Z.of_nat 4) with 0. change (19 - 7 - Z.of_nat 4 - Z.of_nat 8) with 0.
  split; [unfold w64; rewrite (rd_here 8); by apply Z.mod_small|].
  split; [unfold w32 at 1; rewrite (rd_here 4); by apply Z.mod_small|].
  intros k Hk. rewrite (frame_slice_body _ _ _ _ _ Hreq) by lia. unfold slice.
  rewrite !app_assoc, drop_app_length' by (autorewrite with wire; lia). done.
Qed.

Section file_server.
Context (limit ms : Z) (Hlimit : 1 <= limit) (Hms : 64 <= ms < 2 ^ 32 /\ 11 + limit <= ms).

Lemma rread_len_count file off count :
  0 <= count -> 0 <= off -> read_count file off count (rread_len file limit off count).
Proof. intros. unfold read_count, rread_len. lia. Qed.

Lemma rread_slice_length file off count :
  0 <= off -> Z.of_nat (length (slice file off (rread_len file limit off count)))
    = rread_len file limit off count.
Proof. intros Ho. unfold slice, rread_len. rewrite length_take, length_drop. lia. Qed.

Lemma slice_short file off k : (length (slice file off k) <= Z.to_nat k)%nat.
Proof. unfold slice. rewrite length_take. lia. Qed.

Lemma file_server_good : good_server (file_server limit) ms.
Proof.
  intros file req Hl Hb. unfold file_server. cbv zeta.
  destruct (_ =? _); [|destruct (_ =? _)]; cbn [snd].
  - set (d := slice _ _ _). assert (Z.of_nat (length d) <= limit).
    { unfold d. pose proof (slice_short (u8 <$> file) (rd 8 11 req)
        (rread_len (u8 <$> file) limit (rd 8 11 req) (rd 4 19 req))). unfold rread_len in *. lia. }
    apply frame_good; [done..|]. rewrite length_app, length_w32. lia.
  - apply frame_good; [done..|]. rewrite length_w32. lia.
  - apply refuse_good; (done || lia).
Qed.

Lemma u8_all_bytes l : Forall is_byte (u8 <$> l).
Proof. apply list.Forall_fmap, Forall_true. intros x. apply u8_range. Qed.

Lemma file_server_bytes file req : Forall is_byte (file_server limit file req).2.
Proof.
  unfold file_server. cbv zeta.
  destruct (_ =? _); [|destruct (_ =? _)]; cbn [snd]; [| |apply refuse_bytes].
  all: unfold P9_RREAD_MSG, P9_RWRITE_MSG, frame, w32, w16; rewrite !Forall_app;
    split_and!; auto using le_bytes_byte, slice_byte, u8_all_bytes.
Qed.

Context {E : Type} `{EnvI : !Env E DevView} `{ClockI : !Clock E} `{FuelI : !Fuel}.
Context (srv : E -> list Z) `{ServesI : !Serves E srv (file_server limit)} (Hfuel : (2 <= fuel)%nat).

(** The file on the server. *)
Definition content (e : E) : list Z := u8 <$> srv e.

(** The stack over this device discharges the interface of v9p_read. *)
Lemma stack_serves_file fid : ServesFile False V9P_Transact (stack_inv ms) fid content.
Proof.
  split; [exact (stack_steady srv _ ms file_server_good Hfuel)|].
  intros off count s Hs Ho Hc file.
  eapply wp_mono; [apply (exchange_stack srv _ ms file_server_good Hfuel); [done|msg_size]|].
  intros n s' (Hk & tag & -> & Hst & Hx). split; [exact Hk|]. cbn [t_type t_body] in *.
  destruct (io_fields P9_TREAD tag fid off count [] ltac:(unfold P9_TREAD; lia) Ho ltac:(lia))
    as (H1 & H2 & H3 & _). rewrite app_nil_r in *. change 116 with P9_TREAD in *.
  unfold file_server in Hst, Hx |- *. cbv zeta in Hst, Hx |- *.
  rewrite H1, H2, H3, Z.eqb_refl in *. cbn [fst snd] in *.
  split; [unfold content; by unfold state in Hst; rewrite Hst|].
  exists (rread_len file limit off count), (rd 2 5 (frame P9_TREAD tag (w32 fid ++ w64 off ++ w32 count))).
  split; [apply rread_len_count; lia|]. rewrite Nat2Z.id. split; [|done].
  unfold P9_RREAD_MSG. rewrite length_frame, length_app, length_w32.
  pose proof (rread_slice_length file off count ltac:(lia)) as Hsl.
  change (u8 <$> state srv s) with file. lia.
Qed.

(** And the interface of v9p_write, without errors. *)
Lemma stack_writes_file fid :
  WritesFile False V9P_Transact (stack_inv ms) fid content (fun _ => False).
Proof.
  split; [apply stack_serves_file|]. intros off data s Hs Ho Hod Hby Hne Hm file.
  assert (Hl : 0 < Z.of_nat (length data) < 2 ^ 32).
  { unfold msg_fits, P9_MSIZE in Hm. cbn [t_body] in Hm. autorewrite with wire in Hm.
    destruct data; [done|]. cbn [length] in *. lia. }
  eapply wp_mono; [apply (exchange_stack srv _ ms file_server_good Hfuel); [done|exact Hm]|].
  intros n s' (Hk & tag & -> & Hst & Hx). split; [exact Hk|]. cbn [t_type t_body] in *.
  destruct (io_fields P9_TWRITE tag fid off (Z.of_nat (length data)) data
    ltac:(unfold P9_TWRITE; lia) ltac:(lia) ltac:(lia)) as (H1 & H2 & H3 & H4).
  change 118 with P9_TWRITE in *. set (req := frame _ _ _) in *.
  unfold file_server in Hst, Hx |- *. cbv zeta in Hst, Hx |- *.
  rewrite H1, H2, H3 in *. change (P9_TWRITE =? P9_TREAD) with false in *.
  rewrite Z.eqb_refl in *. cbn [fst snd] in *. rewrite H4 in Hst by lia.
  assert (L : length (P9_RWRITE_MSG (rd 2 5 req) (limit `min` Z.of_nat (length data))) = 11%nat).
  { unfold P9_RWRITE_MSG. by rewrite length_frame, length_w32. }
  rewrite L in *. split; [done|]. left. do 2 eexists. split; [|split; [exact Hx|]]; [lia|].
  unfold file, content. unfold state in Hst. rewrite Hst.
  rewrite put_at_fmap by done. rewrite (u8_bytes (take _ data)); [done|by apply Forall_take].
Qed.
End file_server.

(** ** A machine with a mounted volume *)

#[local] Opaque pad.

Definition mounted_core : Core := on_hnd (set_fid_pool (Some test_pool)) session_core.

Lemma mounted_inv : stack_inv 64 mounted_core.
Proof.
  destruct pad_ok as [Hp Hb]. destruct session_core_ok as [[_ Hsz] Hs].
  split.
  - exists small_vq, [0; 1; 2; 3]. split; [reflexivity|]. split; [exact small_vq_inv|].
    split; [reflexivity|]. cbn. lia.
  - destruct Hsz. split; assumption.
  - exact Hs.
  - reflexivity.
  - reflexivity.
  - change (tx_buf (hnd mounted_core)) with 0x10000. unfold dma_range, P9_MSIZE. lia.
  - change (rx_buf (hnd mounted_core)) with 0x20000. change (rx mounted_core) with pad.
    rewrite Hp. unfold dma_range, P9_MSIZE. lia.
  - discriminate.
  - reflexivity.
Qed.

Lemma mounted_owns {E : Type} (e : E) : owns (stack_inv 64) [] 0 2 (mkSys e [] mounted_core).
Proof.
  split; [exact mounted_inv|]. exists test_pool. split; [reflexivity|].
  split; [|split; [vm_compute; discriminate|cbn; lia]].
  split; [|split; constructor]. split; cbn; unfold stack_wf; cbn; lia.
Qed.

Definition plain_types : SdkTypes := mkSdkTypes id id id id id id id id id id.

(** A server that refuses everything. *)
Definition empty_env : Env (Z * unit) DevView := server_env (stateless refuse).

(** Looking up a file on a volume whose server has none: ENOENT, and no fid is
    left behind. *)
Lemma callbacks_balanced_witness :
  exists r (s' : Sys (Z * unit) Core),
    op_getattr (V9P_FillOperations (EnvI := empty_env) (FuelI := 2%nat)
        (SdkI := plain_types) false
        (V9P_Transact (EnvI := empty_env) (FuelI := 2%nat)) (mret true))
      [47; 97] (mkSys (0, tt) [] mounted_core) = Done (r, s') /\
    owns (stack_inv 64) [] (eio r.1) 0 s'.
Proof.
  assert (Hp : str_ok [47; 97]) by (repeat constructor; lia).
  assert (Hg : good_server (stateless refuse) 64)
    by (intros st req Hl Hb; apply refuse_good; [done..|lia]).
  destruct (callbacks_balanced (EnvI := empty_env) (FuelI := 2%nat)
    (SdkI := plain_types) False (V9P_Transact (EnvI := empty_env) (FuelI := 2%nat))
    (stack_inv 64)
    (stack_steady (ClockI := server_clock _) snd (stateless refuse)
       (ServesI := serving_serves (stateless refuse) (fun _ => refuse_bytes)) 64 Hg (le_n 2)) (transact_traced (EnvI := empty_env) (FuelI := 2%nat))
    (mret true) 0 [] [47; 97] [47; 97] [] [0] 1 0 0 0 0 (mkTimespec 0 0) (mkTimespec 0 0)
    (mkFileInfo 0 0) (Z.le_refl 0) Hp Hp ltac:(unfold len_ok; cbn; lia) ltac:(split; vm_compute; discriminate)) as [Hgt _].
  exact (wp_total _ _ _ (Hgt 0 _ (mounted_owns (0, tt)))).
Defined.

(** A machine with the file server behind the device, two bytes per message. *)
Definition file_env : Env (Z * list Z) DevView := server_env (file_server 2).

Definition file_transact : Z -> M (Sys (Z * list Z) Core) Z :=
  V9P_Transact (EnvI := file_env) (FuelI := 8%nat).

Lemma file_env_writes fid :
  WritesFile (EnvI := file_env) False file_transact (stack_inv 64) fid (content snd) (fun _ => False).
Proof.
  apply (stack_writes_file (ClockI := server_clock _) 2 64 ltac:(lia) ltac:(lia) snd
    (ServesI := serving_serves _ (file_server_bytes 2))). unfold fuel. lia.
Qed.

(** The file "hello". *)
Definition hello : list Z := [104; 101; 108; 108; 111].

Lemma hello_bytes : Forall is_byte hello.
Proof. repeat constructor; lia. Qed.

(** It is read from offset 1. *)
Lemma v9p_read_correct_witness :
  exists s' : Sys (Z * list Z) Core,
    v9p_read file_transact (replicate 8 0) 8 1 (mkFileInfo 0 3)
      (mkSys (0, hello) [] mounted_core) = Done ((4, [101; 108; 108; 111; 0; 0; 0; 0]), s').
Proof.
  destruct (wp_total _ _ _ (v9p_read_correct (EnvI := file_env) False file_transact (stack_inv 64)
    (mkFileInfo 0 3) (content snd) (@writes_file _ _ _ _ _ _ _ _ (file_env_writes _))
    (replicate 8 0) 8 1 (mkSys (0, hello) [] mounted_core) mounted_inv
    ltac:(cbn; lia) ltac:(lia) ltac:(lia) ltac:(lia) ltac:(cbn; lia)))
    as (r & s' & Hrun & -> & _).
  exists s'. exact Hrun.
Defined.

(** "hello" is written over the file "abc" at offset 1, and read back. *)
Lemma v9p_write_correct_witness :
  exists r (s' : Sys (Z * list Z) Core),
    v9p_write (FuelI := 8%nat) file_transact hello 5 1 (mkFileInfo 0 3)
      (mkSys (0, [97; 98; 99]) [] mounted_core) = Done (r, s') /\ r = 5 /\
    content snd (sys_env s') = [97; 104; 101; 108; 108; 111].
Proof.
  destruct (wp_total _ _ _ (v9p_write_correct (EnvI := file_env) (FuelI := 8%nat) False file_transact
    (stack_inv 64) (mkFileInfo 0 3) (content snd) (fun _ => False) (file_env_writes _)
    hello 5 1 (mkSys (0, [97; 98; 99]) [] mounted_core) mounted_inv
    ltac:(cbn; unfold P9_MSIZE; lia) ltac:(lia) ltac:(lia) ltac:(lia) ltac:(cbn; lia) hello_bytes
    ltac:(unfold fuel; lia))) as (r & s' & Hrun & [[-> Hc]|(? & ? & [] & _)] & _).
  exists 5, s'. split; [exact Hrun|]. split; [reflexivity|exact Hc].
Defined.

Lemma v9p_write_read_roundtrip_witness :
  exists s' : Sys (Z * list Z) Core,
    (r ← v9p_write (FuelI := 8%nat) file_transact hello 5 1 (mkFileInfo 0 3);
     x ← v9p_read file_transact (replicate 6 0) 5 1 (mkFileInfo 0 3);
     mret (r, x)) (mkSys (0, [97; 98; 99]) [] mounted_core) = Done ((5, (5, hello ++ [0])), s').
Proof.
  destruct (wp_total _ _ _ (v9p_write_read_roundtrip (EnvI := file_env) (FuelI := 8%nat) False
    file_transact (stack_inv 64) (mkFileInfo 0 3) (content snd) (file_env_writes _)
    hello (replicate 6 0) 5 1 (mkSys (0, [97; 98; 99]) [] mounted_core) mounted_inv
    ltac:(cbn; unfold P9_MSIZE; lia) ltac:(lia) ltac:(lia) ltac:(lia) ltac:(cbn; lia)
    ltac:(cbn; lia) hello_bytes ltac:(unfold fuel; lia))) as (x & s' & Hrun & -> & _).
  exists s'. exact Hrun.
Defined.

(** The same machine with one open file, whose fid is 1: it is read and closed, and
    a path is looked up in between. *)
Definition open_core : Core := on_hnd (set_fid_pool (Some test_pool_live)) mounted_core.

Lemma open_owns {E : Type} (e : E) : owns (stack_inv 64) [1] 0 6 (mkSys e [] open_core).
Proof.
  pose proof (stack_pool 64 mounted_core (Some test_pool_live) mounted_inv) as Hi.
  split; [exact Hi|]. exists test_pool_live. split; [reflexivity|].
  split; [exact test_pool_live_inv|]. split; [vm_compute; discriminate|cbn; lia].
Qed.

Definition demo_requests : list request :=
  [Read 0 (replicate 8 0) 8 0; Getattr [47; 97]; Release 0].

Lemma demo_valid : Forall valid demo_requests.
Proof.
  assert (Hp : str_ok [47; 97]) by (repeat constructor; lia).
  apply list.Forall_cons. split; [vm_compute; discriminate|].
  apply list.Forall_cons. split; [exact Hp|]. by apply list.Forall_singleton.
Qed.

Lemma demo_bounded : Forall (fun r => bounded r = true) demo_requests.
Proof. repeat (apply list.Forall_cons; split; [reflexivity|]). constructor. Qed.

Lemma demo_owns {E : Type} (e : E) :
  owns (stack_inv 64) (fi_fh <$> [mkFileInfo 0 1]) 0 (2 * Z.of_nat (length demo_requests))
    (mkSys e [] open_core).
Proof. exact (open_owns e). Qed.

