(* ===== verification/DirStack.v ===== *)
(** * DirStack: listing a directory over the real transport

    A server for one directory, which returns one entry per Rreaddir, behind the
    rings and caches: V9P_Transact over it discharges the interface of
    v9p_readdir. *)

From S2P Require Import Prelude Platform CString Marshal FidPool VirtQueue Handler P9Client P9Correct P9Walk VirtioInit CacheDma Transact Clock Exchange Deliver Fuse FusePath FuseCorrect FuseRead FuseWrite Tame FuseDir FuseSession FuseStack.

(** The entries behind the one with the offset [off]. *)
Fixpoint after (off : Z) (es : list dirent) : list dirent :=
  match es with
  | [] => []
  | e :: es => if de_offset e =? off then es else after off es
  end.

Definition dir_rest (dir : list dirent) (off : Z) : list dirent :=
  if off =? 0 then dir else after off dir.

Definition dir_server (dir : list dirent) (req : list Z) : list Z :=
  if rd 1 4 req =? P9_TREADDIR then
    P9_RREADDIR_MSG (rd 2 5 req) (enc_dirents (take 1 (dir_rest dir (rd 8 11 req))))
  else refuse req.

(** The offsets identify the entries. *)
Definition dir_ok (dir : list dirent) : Prop :=
  Forall dirent_ok dir /\ Forall (fun e => de_offset e <> 0) dir /\ NoDup (de_offset <$> dir).

Lemma after_app pre e rest :
  NoDup (de_offset <$> pre ++ e :: rest) -> after (de_offset e) (pre ++ e :: rest) = rest.
Proof.
  induction pre as [|x pre IH]; intros Hn; cbn [app after].
  - by rewrite Z.eqb_refl.
  - cbn [app] in Hn. rewrite fmap_cons in Hn. apply list.NoDup_cons in Hn as [Hx Hn].
    destruct (Z.eqb_spec (de_offset x) (de_offset e)) as [He|]; [|by apply IH].
    exfalso. apply Hx. rewrite He, fmap_app, fmap_cons. apply elem_of_app. right. by left.
Qed.

Lemma dir_rest_app dir pre rest :
  dir_ok dir -> dir = pre ++ rest -> dir_rest dir (offset_after pre 0) = rest.
Proof.
  intros (_ & Hz & Hn) ->. unfold dir_rest, offset_after.
  destruct pre as [|e pre _] using rev_ind; [done|].
  rewrite fold_left_app. cbn [fold_left]. rewrite <- app_assoc in *. cbn [app] in *.
  apply Forall_app in Hz as [_ Hz]. apply list.Forall_cons in Hz as [Hz _].
  destruct (Z.eqb_spec (de_offset e) 0); [done|]. by apply after_app.
Qed.

Lemma dir_rest_Forall (P : dirent -> Prop) dir off : Forall P dir -> Forall P (dir_rest dir off).
Proof.
  intros Hd. unfold dir_rest. destruct (off =? 0); [done|].
  induction Hd as [|e es He Hes IH]; cbn [after]; [constructor|]. by destruct (_ =? _).
Qed.

Lemma one_entry (es : list dirent) : take 1 es = [] \/ exists e, e ∈ es /\ take 1 es = [e].
Proof. destruct es as [|e es]; [by left|right]. exists e. split; [by left|done]. Qed.

Section dir_server.
Context (dir : list dirent) (ms : Z) (Hdir : dir_ok dir) (Hms : 64 <= ms < 2 ^ 32).
Context (Hfit : Forall (fun e => 11 + Z.of_nat (length (enc_dirent e)) <= ms) dir).

Definition reply_data (off : Z) : list Z := enc_dirents (take 1 (dir_rest dir off)).

Lemma reply_data_fits off (n : Z) :
  0 <= n -> Forall (fun e => Z.of_nat (length (enc_dirent e)) <= n) dir ->
  Z.of_nat (length (reply_data off)) <= n.
Proof.
  intros Hn Hf. unfold reply_data. destruct (one_entry (dir_rest dir off)) as [->|(e & Hin & ->)]; [done|].
  unfold enc_dirents. cbn [fmap list_fmap concat]. rewrite app_nil_r.
  pose proof (dir_rest_Forall _ _ off Hf) as Hr. rewrite list.Forall_forall in Hr. by apply Hr.
Qed.

Lemma dir_server_good : good_server (stateless (dir_server dir)) ms.
Proof.
  intros st req Hl Hb. cbn [stateless snd]. unfold dir_server. destruct (_ =? _).
  2: { apply refuse_good; (done || lia). }
  fold (reply_data (rd 8 11 req)). set (d := reply_data _). unfold P9_RREADDIR_MSG.
  assert (Z.of_nat (length d) <= ms - 11).
  { apply reply_data_fits; [lia|]. eapply Forall_impl; [|exact Hfit]. cbn. lia. }
  apply frame_good; [done..|]. rewrite length_app, length_w32. lia.
Qed.

Lemma enc_dirent_bytes e : dirent_ok e -> Forall is_byte (enc_dirent e).
Proof.
  intros (_ & Hn & _). unfold enc_dirent, enc_qid, w32, w64, enc_str. rewrite !Forall_app.
  split_and!; auto using le_bytes_byte.
Qed.

Lemma dir_server_bytes req : Forall is_byte (dir_server dir req).
Proof.
  unfold dir_server. destruct (_ =? _); [|apply refuse_bytes].
  unfold P9_RREADDIR_MSG, frame, w32, w16. rewrite !Forall_app.
  split_and!; auto using le_bytes_byte. unfold enc_dirents.
  pose proof (dir_rest_Forall _ _ (rd 8 11 req) (proj1 Hdir)) as Hr.
  destruct (one_entry (dir_rest dir (rd 8 11 req))) as [->|(e & Hin & ->)]; [constructor|].
  cbn [fmap list_fmap concat]. rewrite app_nil_r. rewrite list.Forall_forall in Hr.
  by apply enc_dirent_bytes, Hr.
Qed.

(** Its answer to a Treaddir. *)
Lemma dir_server_treaddir tag fid off count :
  0 <= off < 2 ^ 64 ->
  exists tag', dir_server dir (frame P9_TREADDIR tag (t_body (Treaddir fid off count))) =
    P9_RREADDIR_MSG tag' (reply_data off).
Proof.
  intros Ho. unfold dir_server. set (req := frame _ _ _).
  assert (Hreq : take (length req) req = req) by (by apply take_ge).
  assert (Hl : length req = 23%nat).
  { unfold req. rewrite length_frame. cbn [t_body]. by autorewrite with wire. }
  pose proof (frame_rd_type _ _ _ _ _ Hreq ltac:(unfold P9_TREADDIR; lia)) as ->.
  change (P9_TREADDIR =? P9_TREADDIR) with true. cbv iota.
  rewrite (frame_rd_body _ _ _ _ _ Hreq 8 11) by lia. cbn [t_body]. change (11 - 7) with 4.
  assert (rd 8 4 (w32 fid ++ w64 off ++ w32 count) = off) as ->; [|by eexists].
  rewrite rd_skip by (rewrite length_w32; lia). rewrite length_w32.
  change (4 - Z.of_nat 4) with 0. unfold w64. rewrite (rd_here 8). by apply Z.mod_small.
Qed.

Context {E : Type} `{EnvI : !Env E DevView} `{ClockI : !Clock E} `{FuelI : !Fuel}.
Context (srv : E -> unit) `{ServesI : !Serves E srv (stateless (dir_server dir))} (Hfuel : (2 <= fuel)%nat).

Lemma offset_after_range pre rest : dir = pre ++ rest -> 0 <= offset_after pre 0 < 2 ^ 64.
Proof.
  intros Hd. unfold offset_after. destruct pre as [|e pre _] using rev_ind; [cbn; lia|].
  rewrite fold_left_app. cbn [fold_left]. pose proof (proj1 Hdir) as Ho. rewrite Hd in Ho.
  apply Forall_app in Ho as [Ho _]. apply Forall_app in Ho as [_ Ho].
  apply list.Forall_cons in Ho as [Ho _]. apply Ho.
Qed.

Lemma low_exchange m : tame (E := E) low (fun _ => tt) (exchange V9P_Transact m).
Proof.
  unfold exchange, post. tame; [eapply tame_next_tag; apply _|eapply tame_transact; apply _].
Qed.

(** The stack over this device discharges the interface of v9p_readdir. *)
Lemma stack_serves_dir fid : ServesDir False V9P_Transact (stack_inv ms) fid dir.
Proof.
  split; [exact (stack_steady srv _ ms dir_server_good Hfuel)|].
  intros pre rest count s Hs Hd Hc Hf. eapply (wp_tame low), wp_mono; [apply low_exchange| |].
  { apply (exchange_stack srv _ ms dir_server_good Hfuel); [done|msg_size]. }
  intros n s' (Hk & tag & -> & _ & Hx) Hl _. cbn [stateless snd] in *. split; [exact Hk|]. split; [exact Hl|]. cbn [t_type] in *.
  change 40 with P9_TREADDIR in *.
  destruct (dir_server_treaddir tag fid _ count (offset_after_range _ _ Hd)) as (tag' & He).
  rewrite He in *. unfold reply_data in *. rewrite (dir_rest_app _ _ _ Hdir Hd) in *.
  exists 1%nat, tag'. split_and!.
  - by destruct rest.
  - pose proof (reply_data_fits (offset_after pre 0) count ltac:(lia) Hf) as Hr.
    unfold reply_data in Hr. by rewrite (dir_rest_app _ _ _ Hdir Hd) in Hr.
  - unfold P9_RREADDIR_MSG. rewrite length_frame, length_app, length_w32. lia.
  - by rewrite Nat2Z.id.
Qed.
End dir_server.

(** ** A directory with two entries *)

#[local] Opaque pad.

Definition demo_dir : list dirent :=
  [mkDirent (mkP9Qid 0 0 1) 7 8 [97]; mkDirent (mkP9Qid 0 0 2) 9 8 [98; 99]].

Lemma demo_dir_ok : dir_ok demo_dir.
Proof.
  split; [|split].
  - repeat constructor; cbn; lia.
  - repeat constructor; discriminate.
  - apply (bool_decide_eq_true_1 _). vm_compute. reflexivity.
Qed.

Lemma demo_dir_fits (n : Z) :
  26 <= n -> Forall (fun e => Z.of_nat (length (enc_dirent e)) <= n) demo_dir.
Proof.
  intros Hn. repeat (apply list.Forall_cons; split; [rewrite length_enc_dirent; cbn; lia|]). constructor.
Qed.

Lemma demo_dir_fits_64 : Forall (fun e => 11 + Z.of_nat (length (enc_dirent e)) <= 64) demo_dir.
Proof. eapply Forall_impl; [|apply (demo_dir_fits 26); lia]. cbn. lia. Qed.

Definition dir_env : Env (Z * unit) DevView := server_env (stateless (dir_server demo_dir)).

Lemma v9p_readdir_correct_witness :
  exists s' : Sys (Z * unit) Core,
    v9p_readdir (EnvI := dir_env) (FuelI := 3%nat)
      (V9P_Transact (EnvI := dir_env) (FuelI := 3%nat))
      (mkFileInfo 0 3) (mkSys (0, tt) [] mounted_core) = Done (0, s') /\
    exists shown full, fills (sys_log s') = rev shown ++ [] /\ shows [[97]; [98; 99]] shown full.
Proof.
  assert (HF : ServesDir (EnvI := dir_env) False (V9P_Transact (EnvI := dir_env) (FuelI := 3%nat))
    (stack_inv 64) (u32 (fi_fh (mkFileInfo 0 3))) demo_dir).
  { apply (stack_serves_dir (ClockI := server_clock _) demo_dir 64 demo_dir_ok ltac:(lia)
      demo_dir_fits_64 snd (ServesI := serving_serves (stateless (dir_server demo_dir))
        (fun _ => dir_server_bytes demo_dir demo_dir_ok)) (le_S _ _ (le_n 2))). }
  destruct (wp_total _ _ _ (v9p_readdir_correct (EnvI := dir_env) (FuelI := 3%nat) False _ _ _ _ HF
    (proj1 demo_dir_ok) (mkSys (0, tt) [] mounted_core) mounted_inv ltac:(cbn; lia)
    (demo_dir_fits 53 ltac:(lia)) ltac:(unfold fuel; cbn; lia)))
    as (r & s' & Hrun & -> & _ & _ & shown & full & Hf & Hs).
  exists s'. split; [exact Hrun|]. exists shown, full. split; [exact Hf|exact Hs].
Defined.
