(* ===== verification/MainCorrect.v ===== *)
(** * MainCorrect: start-up and shutdown are complete

    The mount message is answered exactly once, before the device node is
    removed; and whatever start-up acquired is released, on every path, but for
    the two leaks of the code. *)

From S2P Require Import Prelude Platform CString Marshal FidPool VirtQueue Handler P9Client VirtioInit Transact Fuse FusePath Pci Irq Main Tame.
From stdpp Require Import strings.

Local Open Scope string_scope.
Local Open Scope list_scope.
Local Open Scope Z_scope.

(** The mount messages that are answered in a trace, latest first. *)
Definition answer (x : ExtCall * Z) : option Z :=
  match x.1 with
  | FbxReturnMountMsg msg _ _ | ReplyMsg msg | FbxSetupFS msg _ => Some msg
  | _ => None
  end.
Definition answers (l : list (ExtCall * Z)) : list Z := omap answer l.

(** The device nodes that are removed. *)
Definition removal_of (x : ExtCall * Z) : option Z :=
  match x.1 with NonBlockingModifyDosEntry node _ => Some node | _ => None end.
Definition removals (l : list (ExtCall * Z)) : list Z := omap removal_of l.

(** A resource for a pointer that is not NULL. *)
Definition nz (mk : Z -> res) (x : Z) : list res := if x =? 0 then [] else [mk x].

Section decline.
Context {E : Type} `{EnvI : !Env E DevView}.
Implicit Types s : Sys E Core.

(** The calls that remove the device node [dn], the latest first: none without a
    node; otherwise dos.library and its interface are opened and, if both are
    there, the node is removed; whatever was opened is closed again. *)
Inductive node_removal (dn : Z) : list (ExtCall * Z) -> Prop :=
  | no_node : dn = 0 -> node_removal dn []
  | no_library : dn <> 0 -> node_removal dn [(OpenLibrary "dos.library" 53, 0)]
  | no_interface base a :
      dn <> 0 -> base <> 0 ->
      node_removal dn [(CloseLibrary base, a); (GetInterface base "main", 0);
        (OpenLibrary "dos.library" 53, base)]
  | node_removed base idos removed text a b c :
      dn <> 0 -> base <> 0 -> idos <> 0 ->
      node_removal dn [(CloseLibrary base, c); (DropInterface idos, b); (DebugPrintF text, a);
        (NonBlockingModifyDosEntry dn NBM_REMDOSENTRY, removed); (GetInterface base "main", idos);
        (OpenLibrary "dos.library" 53, base)].

(** The node of a packet. *)
Definition node_of (pkt : Z) (l : list (ExtCall * Z)) (dn : Z) : Prop :=
  if pkt =? 0 then dn = 0 else exists arg3, (PacketArg3 pkt, arg3) ∈ l /\ dn = BADDR arg3.

(** The answer, and what was done before and after it. *)
Record declined (ifbx msg : Z) (l0 l : list (ExtCall * Z)) : Prop := mkDeclined {
  dc_balanced : balanced l0 l [] [];
  dc_trace : exists before c r after pkt dn,
    l = after ++ (c, r) :: before ++ l0 /\
    c = (if ifbx =? 0 then ReplyMsg msg else FbxReturnMountMsg msg DOSTRUE 0) /\
    answers before = [] /\ removals before = [] /\
    (MsgPacket msg, pkt) ∈ before /\
    (ifbx = 0 -> pkt <> 0 -> SetPacketRes pkt DOSTRUE 0 ∈ calls before) /\
    node_of pkt before dn /\ node_removal dn after }.

Lemma node_removal_quiet dn l : node_removal dn l -> answers l = [].
Proof. by intros []. Qed.

(** The second half: the device node. *)
Lemma remove_node_wp dn reason s (Q : unit -> Sys E Core -> Prop) :
  (forall after s', core s' = core s -> sys_log s' = after ++ sys_log s ->
     balanced (sys_log s) (sys_log s') [] [] -> node_removal dn after -> Q tt s') ->
  wp False (remove_node dn reason) Q s.
Proof.
  intros HQ. unfold remove_node. wp_if.
  { apply wp_ret. eapply (HQ []); [done..|apply balanced_refl|by constructor]. }
  wp_step. wp_ext. wp_if.
  { apply wp_ret. subst. eapply (HQ [_]); [done..|cbn [sys_log]; balance|by constructor]. }
  wp_step. wp_ext. wp_step. wp_if.
  - wp_step. wp_step. wp_ext. apply wp_ret. subst.
    eapply (HQ [_; _; _]); [done..|cbn [sys_log]; balance|by constructor].
  - wp_step. wp_ext. wp_step. wp_ext. wp_ext. wp_step. wp_ext. apply wp_ret.
    eapply (HQ [_; _; _; _; _; _]); [done..|cbn [sys_log]; balance|by constructor].
Qed.

Lemma reply_mount_wp ifbx msg pkt s (Q : Z -> Sys E Core -> Prop) :
  msg <> 0 ->
  (forall c r l s', core s' = core s -> sys_log s' = (c, r) :: l ++ sys_log s ->
     c = (if ifbx =? 0 then ReplyMsg msg else FbxReturnMountMsg msg DOSTRUE 0) ->
     answers l = [] -> removals l = [] ->
     (ifbx = 0 -> pkt <> 0 -> SetPacketRes pkt DOSTRUE 0 ∈ calls l) ->
     (forall xs, balanced (sys_log s) (sys_log s') xs xs) -> Q r s') ->
  wp False (reply_mount ifbx msg pkt) Q s.
Proof.
  intros Hm HQ. unfold reply_mount. destruct (Z.eqb_spec ifbx 0) as [->|Hi]; cbn [negb].
  - destruct (Z.eqb_spec msg 0); [done|]. cbn [negb]. wp_step. wp_if; [wp_step|wp_ext]; wp_ext.
    + eapply (HQ _ _ []); try done. intros xs. cbn [sys_log]. balance.
    + eapply (HQ _ _ [_]); try done; [intros; by left|]. intros xs. cbn [sys_log]. balance.
  - wp_ext. eapply (HQ _ _ []); try done. intros xs. cbn [sys_log]. balance.
Qed.

Lemma DeclineMount_wp ifbx msg reason s (Q : unit -> Sys E Core -> Prop) :
  msg <> 0 ->
  (forall s', core s' = core s -> declined ifbx msg (sys_log s) (sys_log s') -> Q tt s') ->
  wp False (V9P_DeclineMount ifbx msg reason) Q s.
Proof.
  intros Hm HQ. unfold V9P_DeclineMount. wp_step. case_cmp; [done|].
  apply wp_ext. intros e pkt _. wp_step.
  assert (Hrest : forall dn l s1, core s1 = core s ->
    sys_log s1 = l ++ (MsgPacket msg, pkt) :: sys_log s ->
    (pkt = 0 /\ dn = 0 /\ l = [] \/
     pkt <> 0 /\ exists arg3, l = [(PacketArg3 pkt, arg3)] /\ dn = BADDR arg3) ->
    wp False (_ ← reply_mount ifbx msg pkt; remove_node dn reason) Q s1).
  { intros dn l1 s1 Hc1 Hl1 Hdn. wp_step. apply reply_mount_wp; [done|].
    intros c r l2 s2 Hc2 Hl2 Hc Ha2 Hr2 Hp2 Hb2. apply remove_node_wp.
    intros l3 s3 Hc3 Hl3 Hb3 Hr3. apply HQ; [congruence|]. split.
    - eapply balanced_trans; [|exact Hb3]. eapply balanced_trans; [|apply Hb2].
      rewrite Hl1. destruct Hdn as [(_ & _ & ->)|(_ & ? & -> & _)]; cbn [app]; balance.
    - exists (l2 ++ l1 ++ [(MsgPacket msg, pkt)]), c, r, l3, pkt, dn.
      assert (answers l1 = [] /\ removals l1 = []) as [Ha1 Hr1].
      { by destruct Hdn as [(_ & _ & ->)|(_ & ? & -> & _)]. }
      split_and!; try done.
      + by rewrite Hl3, Hl2, Hl1, <- !app_assoc.
      + unfold answers in *. by rewrite !omap_app, Ha1, Ha2.
      + unfold removals in *. by rewrite !omap_app, Hr1, Hr2.
      + rewrite !elem_of_app. right. right. by left.
      + intros Hi Hne. unfold calls. rewrite fmap_app. apply elem_of_app. left. by apply Hp2.
      + unfold node_of. destruct Hdn as [(-> & -> & _)|(Hne & arg3 & -> & ->)]; [done|].
        case_cmp; [done|]. exists arg3. split; [|done]. rewrite !elem_of_app. right. left. by left. }
  wp_if; wp_step.
  - eapply (Hrest _ []); [done..|]. left. auto.
  - apply wp_ext. intros ? arg3 _. apply wp_ret. eapply (Hrest _ [_]); [done..|]. right. eauto.
Qed.
End decline.

(** ** What is held at each label *)

Section held.
Context (l : Locals) (h : V9PHandler).

Definition held_fbx : list res := nz RIface (IFileSysBox l) ++ nz RLib (FileSysBoxBase l).
Definition held_expansion : list res := nz RLib (ExpansionBase l) ++ held_fbx.

Definition device_res : list res :=
  if pciDevice h =? 0 then []
  else nz RRange (bar4 h) ++ nz RRange (bar0 h) ++ [RDev (pciDevice h)].
Definition held_pci : list res := device_res ++ nz RIface (IPCI l) ++ held_expansion.

Definition queue_res : list res := match vq h with Some q => vq_res q | None => [] end.
Definition held_virtio : list res := queue_res ++ held_pci.
Definition held_irq : list res := int_res h ++ held_virtio.

Definition dma_res (active : bool) (p : Z) : list res := if active then [RDma p] else [].
Definition mapped_res : list res :=
  dma_res (flush_dma_active h) (flush_buf h) ++ dma_res (rx_dma_active h) (rx_buf h) ++
  dma_res (tx_dma_active h) (tx_buf h).
Definition mem_res : list res :=
  nz RMem (flush_buf h) ++ nz RMem (rx_buf h) ++ nz RMem (tx_buf h).
Definition held_bufs : list res := (mapped_res ++ mem_res) ++ held_irq.

Definition held (lab : label) : list res :=
  match lab with
  | cleanup_bufs => held_bufs
  | cleanup_irq => held_irq
  | cleanup_virtio => held_virtio
  | cleanup_pci => held_pci
  | cleanup_expansion => held_expansion
  | cleanup_fbx => held_fbx
  | cleanup_exec => []
  end.
End held.

(** The queue of the handler can be freed. *)
Definition vq_good (h : V9PHandler) : Prop :=
  forall q, vq h = Some q -> vq_owned q /\ (0 < dma_entries q -> desc_ptr q <> 0).

Lemma balanced_frames l0 l xs ys zs :
  balanced l0 l xs ys -> balanced l0 l (xs ++ zs) (ys ++ zs).
Proof. intros (new & -> & H). exists new. split; [done|]. by rewrite !app_assoc, H. Qed.

Lemma balanced_drop l0 l1 l2 xs ys :
  balanced l0 l1 xs [] -> balanced l1 l2 ys [] -> balanced l0 l2 (xs ++ ys) [].
Proof.
  intros H1 H2. eapply balanced_trans; [|exact H2]. exact (balanced_frames _ _ _ [] ys H1).
Qed.

(** Calls that answer nothing. *)
Definition mute (c : ExtCall) : bool :=
  match c with
  | FbxReturnMountMsg _ _ _ | ReplyMsg _ | FbxSetupFS _ _ | NonBlockingModifyDosEntry _ _ => false
  | _ => true
  end.

Lemma mute_answers l0 l : extends mute l0 l -> answers l = answers l0 /\ removals l = removals l0.
Proof.
  intros He. split; eapply omap_extends; try exact He; by intros [].
Qed.

Lemma plain_mute l0 l : extends plain l0 l -> extends mute l0 l.
Proof.
  apply extends_impl. by intros [].
Qed.

Section cleanup.
Context {E : Type} `{EnvI : !Env E DevView}.
Implicit Types s : Sys E Core.

Record cleaned (xs : list res) s s' : Prop := {
  cl_balanced : balanced (sys_log s) (sys_log s') xs [];
  cl_mute : extends mute (sys_log s) (sys_log s');
  cl_irq : int_res (hnd (core s')) = [] \/ irq_installed (hnd (core s')) = irq_installed (hnd (core s));
  cl_last : exists r, head (sys_log s') = Some (ExecRelease, r) }.

Lemma drop_if_wp x c mk s (Q : Z -> Sys E Core -> Prop) :
  (forall r, released (c, r) = Some (mk x)) -> (forall r, acquired (c, r) = None) -> mute c = true ->
  (forall r s', core s' = core s -> balanced (sys_log s) (sys_log s') (nz mk x) [] ->
     extends mute (sys_log s) (sys_log s') -> Q r s') ->
  wp False (drop_if x c) Q s.
Proof.
  intros Hr Ha Hm HQ. unfold drop_if, nz in *. destruct (x =? 0).
  - apply wp_ret, HQ; [done|apply balanced_refl|apply extends_refl].
  - wp_ext. apply HQ; [done| |cbn; by apply extends_cons, extends_refl].
    cbn [sys_log]. eapply balanced_rel; [apply Ha|apply Hr|apply balanced_refl].
Qed.

Lemma end_dma_wp (active : bool) p n fs s (Q : Z -> Sys E Core -> Prop) :
  (forall r s', core s' = core s -> balanced (sys_log s) (sys_log s') (dma_res active p) [] ->
     extends mute (sys_log s) (sys_log s') -> Q r s') ->
  wp False (if active then ext (EndDMA p n fs) else mret 0) Q s.
Proof.
  intros HQ. unfold dma_res in HQ. destruct active.
  - wp_ext. apply HQ; [done|cbn [sys_log]; balance|cbn; by apply extends_cons, extends_refl].
  - apply wp_ret, HQ; [done|apply balanced_refl|apply extends_refl].
Qed.

(** A step before the rest of the clean-up. *)
Lemma cleaned_step xs ys s s1 s' :
  balanced (sys_log s) (sys_log s1) xs [] -> extends mute (sys_log s) (sys_log s1) ->
  irq_installed (hnd (core s1)) = irq_installed (hnd (core s)) ->
  cleaned ys s1 s' -> cleaned (xs ++ ys) s s'.
Proof.
  intros Hb Hm Hi [B M I L]. split; [by eapply balanced_drop|by eapply extends_trans| |done].
  destruct I as [|I]; [by left|right; congruence].
Qed.

Lemma at_exec_wp s : wp False at_exec (fun _ s' => cleaned [] s s') s.
Proof.
  unfold at_exec. wp_step. wp_ext. apply wp_ret. split; cbn [sys_log core head].
  - balance.
  - by apply extends_cons, extends_refl.
  - by right.
  - eauto.
Qed.

Ltac drop mk := wp_step; eapply (drop_if_wp _ _ mk); [done|intros ?; cbn [acquired]; by case_match|done|];
  let r := fresh in let s' := fresh "s" in let Hc := fresh "Hc" in
  let Hb := fresh "Hb" in let Hm := fresh "Hm" in intros r s' Hc Hb Hm.

Lemma at_fbx_wp l s : wp False (at_fbx l) (fun _ s' => cleaned (held_fbx l) s s') s.
Proof.
  unfold at_fbx, held_fbx. drop RIface. drop RLib. eapply wp_mono; [apply at_exec_wp|].
  intros [] s3 Hcl. eapply cleaned_step; [eassumption..|by rewrite Hc|].
  rewrite <- (app_nil_r (nz RLib _)). eapply cleaned_step; [eassumption..|by rewrite Hc0|done].
Qed.

Lemma at_expansion_wp l s :
  wp False (at_expansion l) (fun _ s' => cleaned (held_expansion l) s s') s.
Proof.
  unfold at_expansion, held_expansion. drop RLib. eapply wp_mono; [apply at_fbx_wp|].
  intros [] s3 Hcl. eapply cleaned_step; [eassumption..|by rewrite Hc|done].
Qed.

Lemma free_device_wp h s (Q : Z -> Sys E Core -> Prop) :
  (forall r s', core s' = core s -> balanced (sys_log s) (sys_log s') (device_res h) [] ->
     extends mute (sys_log s) (sys_log s') -> Q r s') ->
  wp False (if pciDevice h =? 0 then mret 0
    else _ ← drop_if (bar4 h) (FreeResourceRange (bar4 h));
         _ ← drop_if (bar0 h) (FreeResourceRange (bar0 h)); ext (FreeDevice (pciDevice h))) Q s.
Proof.
  intros HQ. unfold device_res in HQ. destruct (pciDevice h =? 0).
  { apply wp_ret, HQ; [done|apply balanced_refl|apply extends_refl]. }
  drop RRange. drop RRange. wp_ext. apply HQ; cbn [core sys_log].
  - congruence.
  - eapply balanced_drop; [exact Hb|]. eapply balanced_drop; [exact Hb0|]. balance.
  - apply extends_cons; [done|]. by eapply extends_trans.
Qed.

Lemma at_pci_wp l s :
  wp False (at_pci l) (fun _ s' => cleaned (held_pci l (hnd (core s))) s s') s.
Proof.
  unfold at_pci, held_pci. wp_step. apply wp_read. wp_step. apply free_device_wp.
  intros r s1 Hc1 Hb1 Hm1. drop RIface. eapply wp_mono; [apply at_expansion_wp|].
  intros [] s3 Hcl. eapply cleaned_step; [eassumption..|by rewrite Hc1|].
  eapply cleaned_step; [eassumption..|by rewrite Hc|done].
Qed.

Lemma at_virtio_wp l s :
  vq_good (hnd (core s)) ->
  wp False (at_virtio l) (fun _ s' => cleaned (held_virtio l (hnd (core s))) s s') s.
Proof.
  intros Hq. unfold at_virtio, held_virtio. wp_step. eapply (wp_tame plain irq_part).
  { eapply tame_cleanup; apply _. }
  eapply wp_mono; [by apply CleanupVirtIO_wp|]. intros [] s1 (Hc1 & _ & Hb1) Hp1 Hi1.
  eapply wp_mono; [apply at_pci_wp|]. intros [] s2 Hcl.
  eapply cleaned_step; [exact Hb1|by apply plain_mute|by injection Hi1|].
  by rewrite Hc1 in Hcl.
Qed.

Lemma mute_remove : tame (E := E) mute (fun _ => tt) V9P_RemoveInterrupt.
Proof. unfold V9P_RemoveInterrupt, quiesce. tame; by apply tame_write. Qed.

Lemma at_irq_wp l s :
  vq_good (hnd (core s)) ->
  wp False (at_irq l) (fun _ s' => cleaned (held_irq l (hnd (core s))) s s' /\
    irq_installed (hnd (core s')) = false) s.
Proof.
  intros Hq. unfold at_irq, held_irq. wp_step. eapply (wp_tame mute), RemoveInterrupt_wp.
  { apply mute_remove. }
  intros s1 Hc1 Hb1 _ Hm1 _. eapply wp_mono; [apply at_virtio_wp; by rewrite Hc1|].
  intros [] s2 [B M I L].
  assert (Hi : irq_installed (hnd (core s2)) = false).
  { destruct I as [I|I]; [|by rewrite I, Hc1]. revert I. unfold int_res. by case_match. }
  split; [|done]. split.
  - eapply balanced_drop; [exact Hb1|]. by rewrite Hc1 in B.
  - by eapply extends_trans.
  - left. unfold int_res. by rewrite Hi.
  - done.
Qed.

Lemma at_bufs_wp l s :
  vq_good (hnd (core s)) ->
  wp False (at_bufs l) (fun _ s' => cleaned (held_bufs l (hnd (core s))) s s' /\
    irq_installed (hnd (core s')) = false) s.
Proof.
  intros Hq. unfold at_bufs, held_bufs, mapped_res, mem_res. rewrite <- !app_assoc.
  wp_step. apply wp_read.
  wp_step. apply end_dma_wp. intros r1 s1 Hc1 Hb1 Hm1.
  wp_step. apply end_dma_wp. intros r2 s2 Hc2 Hb2 Hm2.
  wp_step. apply end_dma_wp. intros r3 s3 Hc3 Hb3 Hm3.
  drop RMem. drop RMem. drop RMem.
  match goal with |- wp _ _ _ ?s' => assert (Hcs : core s' = core s) by congruence end.
  eapply wp_mono; [apply at_irq_wp; by rewrite Hcs|]. intros [] s9 [Hcl Hi]. split; [|done].
  rewrite Hcs in Hcl.
  repeat (eapply cleaned_step; [eassumption|eassumption|congruence|]). done.
Qed.

(** From each label to the end. *)
Lemma goto_wp lab l s :
  vq_good (hnd (core s)) ->
  wp False (goto_cleanup lab l) (fun _ s' => cleaned (held l (hnd (core s)) lab) s s') s.
Proof.
  intros Hq. destruct lab; cbn [goto_cleanup held].
  - eapply wp_mono; [by apply at_bufs_wp|]. naive_solver.
  - eapply wp_mono; [by apply at_irq_wp|]. naive_solver.
  - by apply at_virtio_wp.
  - by apply at_pci_wp.
  - by apply at_expansion_wp.
  - by apply at_fbx_wp.
  - by apply at_exec_wp.
Qed.
End cleanup.

(** ** Start-up *)

Section up.
Context {E : Type} `{EnvI : !Env E DevView} `{FuelI : !Fuel}.
Implicit Types s : Sys E Core.

(** The messages that are answered, and the ranges that were obtained. *)
Definition ledger (l : list (ExtCall * Z)) : list Z * list res := (answers l, ranges l).
Definition answered (msg : Z) (a : list Z * list res) : list Z * list res := (msg :: a.1, a.2).

(** Calls that change neither. *)
Definition neutral (c : ExtCall) : bool := mute c && no_range c.

Lemma neutral_ledger l0 l : extends neutral l0 l -> ledger l = ledger l0.
Proof.
  intros He. unfold ledger. f_equal; eapply omap_extends; try exact He; by intros [].
Qed.

Lemma no_range_ranges l0 l : extends no_range l0 l -> ranges l = ranges l0.
Proof. apply omap_extends. by intros []. Qed.

(** Since [l0], [xs] was acquired and kept; [ans] is the ledger. *)
Definition owing (l0 : list (ExtCall * Z)) (xs : list res) (ans : list Z * list res) s : Prop :=
  balanced l0 (sys_log s) [] xs /\ ledger (sys_log s) = ans.

#[local] Instance owing_perm l0 : Proper ((≡ₚ) ==> eq ==> eq ==> iff) (owing l0).
Proof. intros xs ys Hp a ? <- s ? <-. unfold owing. by rewrite Hp. Qed.

(** Further resources on top. *)
Lemma owing_acquire l0 xs ans s s' ys :
  owing l0 xs ans s -> balanced (sys_log s) (sys_log s') [] ys ->
  extends neutral (sys_log s) (sys_log s') -> owing l0 (ys ++ xs) ans s'.
Proof.
  intros [Hb <-] Hb' He. split; [|by apply neutral_ledger].
  eapply balanced_trans; [exact Hb|]. exact (balanced_frames _ _ [] ys xs Hb').
Qed.

Context (l : Locals) (Hmsg : startupMsg l <> 0).

Lemma no_range_decline ifbx msg reason :
  tame (E := E) no_range (fun _ => tt) (V9P_DeclineMount ifbx msg reason).
Proof. unfold V9P_DeclineMount, reply_mount, remove_node. tame. Qed.

Lemma decline_wp reason l0 xs ans s (Q : unit -> Sys E Core -> Prop) :
  owing l0 xs ans s ->
  (forall s', core s' = core s -> owing l0 xs (answered (startupMsg l) ans) s' -> Q tt s') ->
  wp False (V9P_DeclineMount (IFileSysBox l) (startupMsg l) reason) Q s.
Proof.
  intros [Hb Ha] HQ. eapply (wp_tame no_range); [apply no_range_decline|].
  apply DeclineMount_wp; [done|]. intros s' Hc [Hd Ht] Hr%no_range_ranges _. apply HQ; [done|].
  destruct Ht as (bef & c & r & aft & pkt & dn & Hl & Hcall & Ha1 & _ & _ & _ & _ & Ha2%node_removal_quiet).
  split.
  - eapply balanced_trans; [exact Hb|]. exact (balanced_frames _ _ [] [] xs Hd).
  - unfold ledger in *. rewrite <- Ha, Hr, Hl. unfold answered. cbn [fst snd]. f_equal.
    unfold answers in *. rewrite omap_app, Ha2. cbn [omap list_omap app].
    assert (answer (c, r) = Some (startupMsg l)) as ->.
    { rewrite Hcall. by destruct (IFileSysBox l =? 0). }
    by rewrite omap_app, Ha1.
Qed.

Lemma decline_to_wp lab reason l0 xs ans s (Q : option label -> Sys E Core -> Prop) :
  owing l0 xs ans s ->
  (forall s', core s' = core s -> owing l0 xs (answered (startupMsg l) ans) s' -> Q (Some lab) s') ->
  wp False (decline_to lab l reason) Q s.
Proof.
  intros Ho HQ. unfold decline_to. wp_step. eapply decline_wp; [exact Ho|].
  intros s' Hc Ho'. by apply wp_ret, HQ.
Qed.

Ltac owe := split; [cbn [sys_log]; balance | done].

Lemma map_buf_wp what check buf size flags l0 xs ans s (Q : option Z -> Sys E Core -> Prop) :
  owing l0 xs ans s ->
  (forall s', core s' = core s -> owing l0 xs (answered (startupMsg l) ans) s' -> Q None s') ->
  (forall phys new s', core s' = core s -> owing l0 (RDma buf :: xs) ans s' ->
     sys_log s' = new ++ sys_log s -> (GetDMAPhys buf size flags, phys) ∈ new -> Q (Some phys) s') ->
  wp False (map_buf l what check buf size flags) Q s.
Proof.
  intros [Hb Ha] HN HS. unfold map_buf. wp_step. wp_ext. wp_if.
  { wp_step. eapply (decline_wp _ l0 xs ans); [owe|]. intros s' Hc Ho. apply wp_ret. by apply HN. }
  wp_if.
  { wp_step. wp_ext. wp_step. eapply (decline_wp _ l0 xs ans); [owe|].
    intros s' Hc Ho. apply wp_ret. by apply HN. }
  wp_step. wp_ext. wp_if.
  - wp_step. wp_ext. wp_step. eapply (decline_wp _ l0 xs ans); [owe|].
    intros s' Hc Ho. apply wp_ret. by apply HN.
  - wp_step. wp_ext. wp_step. wp_ext. apply wp_ret. eapply (HS _ [_; _; _; _]); [done|owe|done|].
    apply list_elem_of_further, list_elem_of_here.
Qed.

(** What start-up sets besides the buffers. *)
Definition rest_part (h : V9PHandler) :=
  (pciDevice h, bar0 h, bar4 h, modern_mode h, vq h, irq_number h, irq_installed h,
   (msize h, next_tag h, fid_pool h, in_reset h, mount_tag h)).

Definition no_dma (h : V9PHandler) : Prop :=
  tx_dma_active h = false /\ rx_dma_active h = false /\ flush_dma_active h = false.

(** The buffers of a complete start-up; the addresses that the device will get are
    those that exec gave for them in the trace [tr]. *)
Record bufs_ready (tr : list (ExtCall * Z)) (c : Core) : Prop := {
  br_phys : (GetDMAPhys (tx_buf (hnd c)) P9_MSIZE [DMA_ReadFromRAM], tx_phys (hnd c)) ∈ tr /\
    (GetDMAPhys (rx_buf (hnd c)) P9_MSIZE [], rx_phys (hnd c)) ∈ tr /\
    (GetDMAPhys (flush_buf (hnd c)) 16 [DMA_ReadFromRAM], flush_phys (hnd c)) ∈ tr;
  br_ptrs : tx_buf (hnd c) <> 0 /\ rx_buf (hnd c) <> 0 /\ flush_buf (hnd c) <> 0;
  br_dma : tx_dma_active (hnd c) && rx_dma_active (hnd c) && flush_dma_active (hnd c) = true;
  br_tx : length (tx c) = Z.to_nat P9_MSIZE /\ tx_ram c = tx c;
  br_rx : rx c = tx c /\ rx_ram c = tx c /\ Forall is_byte (rx c);
  br_fl : length (fl c) = 16%nat }.

Definition bufs_post l0 xs ans s (r : option label) s' : Prop :=
  let h := hnd (core s') in
  rest_part h = rest_part (hnd (core s)) /\
  match r with
  | Some cleanup_bufs => owing l0 ((mapped_res h ++ mem_res h) ++ xs) (answered (startupMsg l) ans) s'
  | Some cleanup_irq => owing l0 (mem_res h ++ xs) (answered (startupMsg l) ans) s'
  | None => owing l0 ((mapped_res h ++ mem_res h) ++ xs) ans s' /\
      bufs_ready (sys_log s') (core s')
  | _ => False
  end.

Lemma cleared_length p n : p <> 0 -> length (cleared p n) = Z.to_nat n.
Proof. intros Hp. unfold cleared. case_cmp; [done|]. apply length_replicate. Qed.

Lemma cleared_bytes p n : Forall is_byte (cleared p n).
Proof. unfold cleared. case_cmp; [constructor|]. apply Forall_replicate. unfold is_byte. lia. Qed.

Lemma cleared_ptr p q n : p <> 0 -> q <> 0 -> cleared p n = cleared q n.
Proof. intros. unfold cleared. by repeat case_cmp. Qed.

#[local] Opaque cleared.

Lemma alloc_wp n l0 xs ans s (Q : Z -> Sys E Core -> Prop) :
  owing l0 xs ans s ->
  (forall p s', core s' = core s -> owing l0 (nz RMem p ++ xs) ans s' -> Q p s') ->
  wp False (ext (AllocVecTags n)) Q s.
Proof.
  intros Ho HQ. apply wp_ext. intros e p _. apply HQ; [done|].
  eapply owing_acquire; [exact Ho| |cbn; by apply extends_cons, extends_refl].
  cbn [sys_log]. unfold nz. case_cmp; balance.
Qed.

Lemma owing_core l0 xs ans s c : owing l0 xs ans s -> owing l0 xs ans (set_core c s).
Proof. done. Qed.

Lemma alloc_bufs_wp l0 xs ans s :
  no_dma (hnd (core s)) -> owing l0 xs ans s ->
  wp False (alloc_bufs l) (bufs_post l0 xs ans s) s.
Proof.
  intros (Hd1 & Hd2 & Hd3) Ho. unfold alloc_bufs. wp_step. eapply alloc_wp; [exact Ho|].
  intros t s1 Hc1 Ho1. wp_step. eapply alloc_wp; [exact Ho1|]. intros r s2 Hc2 Ho2.
  wp_step. eapply alloc_wp; [exact Ho2|]. intros f s3 Hc3 Ho3. wp_step. apply wp_write.
  assert (Hc : core s3 = core s) by congruence. rewrite Hc. rewrite !app_assoc in Ho3.
  rewrite <- (app_assoc (nz RMem f)) in Ho3.
  set (c4 := mkCore _ _ _ _ _ _ _ _).
  assert (Ho4 : owing l0 (mem_res (hnd c4) ++ xs) ans (set_core c4 s3)) by exact Ho3.
  destruct (_ || _) eqn:Hz.
  { eapply decline_to_wp; [exact Ho4|]. intros s5 Hc5 Ho5. unfold bufs_post. by rewrite Hc5. }
  apply orb_false_elim in Hz as [[Ht%Z.eqb_neq Hr%Z.eqb_neq]%orb_false_elim Hf%Z.eqb_neq].
  wp_step. eapply map_buf_wp; [exact Ho4| |].
  { intros s5 Hc5 Ho5. apply wp_ret. unfold bufs_post, mapped_res. rewrite Hc5. cbn. by rewrite Hd1, Hd2, Hd3. }
  intros p5 n5 s5 Hc5 Ho5 Hl5 Hin5. wp_step. apply wp_write. wp_step. eapply map_buf_wp; [exact Ho5| |].
  { intros s6 Hc6 Ho6. apply wp_ret. unfold bufs_post, mapped_res. rewrite Hc6. cbn [core set_core].
    rewrite Hc5. cbn. by rewrite Hd2, Hd3. }
  intros p6 n6 s6 Hc6 Ho6 Hl6 Hin6. wp_step. apply wp_write. wp_step. eapply map_buf_wp; [exact Ho6| |].
  { intros s7 Hc7 Ho7. apply wp_ret. unfold bufs_post, mapped_res. rewrite Hc7. cbn [core set_core].
    rewrite Hc6. cbn [core set_core]. rewrite Hc5. cbn. by rewrite Hd3. }
  intros p7 n7 s7 Hc7 Ho7 Hl7 Hin7. wp_step. apply wp_write. apply wp_ret. unfold bufs_post. cbn [core set_core].
  rewrite Hc7. cbn [core set_core]. rewrite Hc6. cbn [core set_core]. rewrite Hc5.
  split; [done|]. split; [exact Ho7|]. cbn in Hl5, Hl6, Hl7 |- *. split; cbn.
  - rewrite Hl7, Hl6, Hl5, !elem_of_app. auto 6.
  - done.
  - done.
  - split; [by apply cleared_length|done].
  - rewrite (cleared_ptr r t) by done. split_and!; [done..|apply cleared_bytes].
  - by apply cleared_length.
Qed.

(** The mount tag. *)
Definition tag_hangs : Prop := exists s, V9P_ReadMountTag s = Hang.

Lemma reads_tag_bytes mk n i :
  (forall j, reg_read (mk j) = true) -> tame (E := E) reg_read (fun _ => tt) (read_tag_bytes mk n i).
Proof.
  intros Hmk. revert i. induction n; intros; cbn [read_tag_bytes]; tame;
    first [apply tame_ext, Hmk | by apply tame_write].
Qed.

Lemma reads_tag_modern k : tame (E := E) reg_read (fun _ => tt) (read_tag_modern k).
Proof. induction k; cbn [read_tag_modern]; tame; by apply reads_tag_bytes. Qed.
#[local] Hint Resolve reads_tag_modern : tame.

Lemma reads_tag : tame (E := E) reg_read (fun _ => tt) V9P_ReadMountTag.
Proof.
  unfold V9P_ReadMountTag. tame; first [by apply reads_tag_bytes | by apply tame_write].
Qed.

(** A tag with at least one character. *)
Definition tag_named (t : list Z) : Prop :=
  length t = 33%nat /\ exists c, getb t 0 = Some c /\ c <> 0.

Lemma default_tag t :
  length t = 33%nat -> exists t', str_copy t DEFAULT_TAG = Some t' /\ tag_named t'.
Proof.
  intros Hl. destruct (str_copy_spec t DEFAULT_TAG) as (t' & Hs & Hl' & Hc).
  { repeat constructor; lia. } { by destruct t. }
  exists t'. split; [done|]. split; [congruence|].
  rewrite Hl in Hc. destruct t' as [|c t']; [done|]. exists c. split; [done|].
  intros ->. cbn in Hc. done.
Qed.

Lemma read_tag_wp s (Q : unit -> Sys E Core -> Prop) :
  length (mount_tag (hnd (core s))) = 33%nat ->
  (forall t s', tag_named t -> core s' = on_hnd (set_mount_tag t) (core s) ->
     extends reg_read (sys_log s) (sys_log s') -> Q tt s') ->
  wp tag_hangs read_tag Q s.
Proof.
  intros Hl HQ. unfold read_tag. wp_step.
  eapply (wp_hang _ _ _ True); [intros Hh _; by exists s|].
  eapply (wp_tame reg_read), wp_mono; [apply reads_tag|by apply ReadMountTag_any|].
  intros [] s1 (t & [Ht (k & Hk & _)] & Hc1) Hr1 _. wp_step. apply wp_read. rewrite Hc1. cbn.
  destruct (getb_is_Some t 0) as [c Hc]; [lia|].
  wp_step. eapply wp_lift; [exact Hc|]. wp_if.
  - destruct (default_tag t Ht) as (t' & Hs & Hn). wp_step. eapply wp_lift; [exact Hs|].
    apply wp_write, (HQ t'); [done| |done]. cbn [core set_core]. by rewrite Hc1.
  - apply wp_ret, (HQ t); [|done..]. split; [done|]. eauto.
Qed.

(** The discovery answers nothing. *)
Lemma mute_cap_loop n cap : tame (E := E) mute (fun _ => tt) (cap_loop n cap).
Proof.
  revert cap. induction n; intros; cbn [cap_loop]; unfold vendor_cap, on_cfg; tame;
    by apply tame_write.
Qed.
#[local] Hint Resolve mute_cap_loop : tame.

Lemma mute_discover ipci : tame (E := E) mute (fun _ => tt) (V9P_DiscoverDevice ipci).
Proof.
  unfold V9P_DiscoverDevice, find_device, fix_bar5, cache_bars, V9P_DetectModern, mmio_probe, on_cfg.
  tame; by apply tame_write.
Qed.

Lemma neutral_install p : tame (E := E) neutral (fun _ => tt) (V9P_InstallInterrupt p).
Proof. unfold V9P_InstallInterrupt. tame; by apply tame_write. Qed.

(** The state in which the 9P handshake starts. *)
Record ready (tr : list (ExtCall * Z)) (c : Core) : Prop := {
  rd_bufs : bufs_ready tr c;
  rd_queue : exists q, vq (hnd c) = Some q /\ vq_ready (modern_mode (hnd c)) q;
  rd_irq : irq_installed (hnd c) = true /\ pciDevice (hnd c) <> 0;
  rd_tag : tag_named (mount_tag (hnd c));
  rd_fields : msize (hnd c) = P9_MSIZE /\ next_tag (hnd c) = 1 /\ fid_pool (hnd c) = None /\
    in_reset (hnd c) = false }.

(** What is left over at a label: the ranges of the detection, and the buffers that
    were allocated when one of them was not. *)
Definition left_over (lab : label) (h : V9PHandler) (rs : list res) : list res :=
  rs ++ match lab with cleanup_irq => mem_res h | _ => [] end.

(** The ledger after the detection obtained the ranges [rs], on top of those of
    the two BARs. *)
Definition with_ranges (h : V9PHandler) (rs : list res) (a : list Z * list res)
    : list Z * list res :=
  (a.1, rs ++ nz RRange (bar4 h) ++ nz RRange (bar0 h) ++ a.2).

Definition up_post l0 ans (r : option label) s' : Prop :=
  let h := hnd (core s') in
  (forall q, vq h = Some q -> vq_owned q /\ dma_entries q = 1) /\
  exists rs,
  match r with
  | Some lab =>
      owing l0 (held l h lab ++ left_over lab h rs) (answered (startupMsg l) (with_ranges h rs ans)) s'
  | None => owing l0 (held_bufs l h ++ rs) (with_ranges h rs ans) s' /\ ready (sys_log s') (core s')
  end.

Lemma bar_res_device h b0 b4 dev :
  pciDevice h = dev -> dev <> 0 -> bar0 h = b0 -> bar4 h = b4 ->
  RDev dev :: bar_res b0 b4 ≡ₚ device_res h.
Proof.
  intros <- Hd <- <-. unfold device_res, bar_res, nz. repeat case_cmp; try done; cbn; solve_Permutation.
Qed.

Lemma vq_res_ready m q : vq_ready m q -> vq_res q = RDma (desc_ptr q) :: vq_blocks q.
Proof. intros (_ & _ & _ & _ & _ & Hd & _). unfold vq_res. by rewrite Hd. Qed.

Lemma alloc_up_wp l0 rs ans s q :
  let h := hnd (core s) in
  no_dma h -> vq h = Some q -> vq_ready (modern_mode h) q -> irq_installed h = true ->
  pciDevice h <> 0 -> tag_named (mount_tag h) ->
  msize h = P9_MSIZE /\ next_tag h = 1 /\ fid_pool h = None /\ in_reset h = false ->
  owing l0 (held_irq l h ++ rs) (with_ranges h rs ans) s ->
  wp False (alloc_bufs l) (up_post l0 ans) s.
Proof.
  intros h Hd Hq Hr Hi Hp Ht (F1 & F2 & F3 & F4) Ho. pose proof Hr as (_ & Hown & _ & _ & _ & He & _).
  eapply wp_mono; [by eapply alloc_bufs_wp|]. intros r s' [Hrest Hpost]. unfold rest_part in Hrest.
  injection Hrest as R1 R2 R3 R4 R5 R6 R7 R8 R9 R10 R11 R12. fold h in R1, R2, R3, R4, R5, R6, R7, R8, R9, R10, R11, R12.
  assert (Hh : held_irq l (hnd (core s')) = held_irq l h).
  { unfold held_irq, int_res, held_virtio, queue_res, held_pci, device_res. by rewrite R1, R2, R3, R5, R6, R7. }
  assert (Hw : with_ranges (hnd (core s')) rs ans = with_ranges h rs ans)
    by (unfold with_ranges; by rewrite R2, R3).
  split; [intros q'; rewrite R5, Hq; by intros [= <-]|]. exists rs. rewrite Hw.
  destruct r as [[]|]; try done; unfold left_over; cbn [held]; unfold held_bufs; rewrite Hh.
  - by rewrite app_nil_r, <- app_assoc.
  - rewrite (app_assoc _ rs), (Permutation_app_comm _ (mem_res _)). done.
  - destruct Hpost as [Ho' Hb]. rewrite <- app_assoc. split; [done|]. split; [done|..].
    + exists q. by rewrite R4, R5.
    + by rewrite R1, R7.
    + by rewrite R12.
    + by rewrite R8, R9, R10, R11.
Qed.

(** A failure up to the queue: nothing but the device and the libraries. *)
Lemma stop_wp lab reason l0 rs ans s (Q : option label -> Sys E Core -> Prop) :
  lab <> cleanup_irq -> (forall q, vq (hnd (core s)) = Some q -> vq_owned q /\ dma_entries q = 1) ->
  owing l0 (held l (hnd (core s)) lab ++ rs) (with_ranges (hnd (core s)) rs ans) s ->
  (forall r s', up_post l0 ans r s' -> Q r s') ->
  wp False (decline_to lab l reason) Q s.
Proof.
  intros Hlab Hq Ho HQ. eapply decline_to_wp; [exact Ho|]. intros s' Hc Ho'. apply HQ.
  unfold up_post. rewrite Hc. split; [done|]. exists rs. unfold left_over.
  destruct lab; by rewrite ?app_nil_r.
Qed.

Lemma deep_neutral l0 l1 : extends deep l0 l1 -> extends neutral l0 l1.
Proof. apply extends_impl. by intros []. Qed.

Lemma discover_ranges dev v l1 b0 b4 mend ids found l2 :
  search dev found -> repair v mend -> calls ids = [GetAddress; ReadConfigWord 2; ReadConfigWord 0] ->
  ranges (l1 ++ (GetResourceRange 4, b4) :: (GetResourceRange 0, b0) :: mend ++ ids ++ found ++ l2) =
  ranges l1 ++ nz RRange b4 ++ nz RRange b0 ++ ranges l2.
Proof.
  intros Hf Hv Hi.
  assert (ranges mend = []) as Hm.
  { unfold repair in Hv. revert Hv. case_cmp; [intros (a & b & ->)|intros ->]; done. }
  assert (ranges found = []) as Hfr by by destruct Hf as [->| ->].
  assert (ranges ids = []) as Hir.
  { destruct ids as [|[c1 r1] [|[c2 r2] [|[c3 r3] [|]]]]; try done. by injection Hi as -> -> ->. }
  rewrite ranges_app. f_equal.
  change (ranges ([(GetResourceRange 4, b4)] ++ [(GetResourceRange 0, b0)] ++ mend ++ ids ++ found ++ l2)
    = nz RRange b4 ++ nz RRange b0 ++ ranges l2).
  rewrite !ranges_app, Hm, Hfr, Hir. unfold ranges at 1 2, nz. cbn. by repeat case_cmp.
Qed.

Lemma open_device_wp handler l0 ans s :
  hnd (core s) = handler_init -> owing l0 (nz RIface (IPCI l) ++ held_expansion l) ans s ->
  wp tag_hangs (open_device handler l) (up_post l0 ans) s.
Proof.
  intros Hh Ho. unfold open_device. wp_step. eapply (wp_hang _ _ _ False); [done|].
  eapply (wp_tame mute), wp_mono; [apply mute_discover|apply DiscoverDevice_wp|].
  intros found s1 Hd Hm1 _. apply mute_answers in Hm1 as [Hm1 _]. destruct found; cbn [negb]; unfold discover_post in Hd.
  2: { destruct Hd as [Hc1 Hl1]. eapply (wp_hang _ _ _ False); [done|].
    eapply (stop_wp _ _ l0 []); [done| | |by auto].
    - rewrite Hc1, Hh. done.
    - rewrite Hc1, Hh, app_nil_r. cbn [held]. unfold held_pci, device_res. cbn.
      change (with_ranges handler_init [] ans) with (ans.1, ans.2).
      rewrite <- (surjective_pairing ans). apply (owing_acquire _ _ _ _ s1 [] Ho); rewrite Hl1; unfold not_found;
        destruct (IPCI l =? 0); cbn [app]; [balance..|apply extends_refl|quiet]. }
  destruct Hd as (dev & b0 & b4 & io & x & l1 & v & mend & ids & found & Hdev & Hc1 & Hl1 & Hf & Hv & Hids & _ & Hb1).
  set (rs := ranges l1) in *.
  pose (h1 := set_cfg x (set_device dev b0 b4 io handler_init)).
  assert (Hh1 : hnd (core s1) = h1) by (rewrite Hc1; cbn; by rewrite Hh).
  assert (Ho1 : owing l0 (held_pci l h1 ++ rs) (with_ranges h1 rs ans) s1).
  { destruct Ho as [Hb0 <-]. split.
    - pose proof (balanced_trans _ _ _ _ _ _ Hb0 (balanced_frames _ _ _ _ _ Hb1)) as Ho1.
      unfold held_pci. rewrite app_comm_cons, (bar_res_device h1 b0 b4 dev) in Ho1 by done.
      rewrite <- app_assoc in *. by rewrite (Permutation_app_comm _ rs).
    - unfold ledger, with_ranges. rewrite Hm1, Hl1. cbn [fst snd]. f_equal.
      by rewrite (discover_ranges dev v). }
  clear Ho Hb1 Hm1 Hc1. wp_step. eapply (wp_hang _ _ _ False); [done|].
  eapply (wp_tame deep irq_part), wp_mono; [eapply tame_init; apply _|apply InitVirtIO_wp|].
  intros up s2 Hup Hm2 _. apply deep_neutral in Hm2. destruct up; cbn [negb]; unfold init_post in Hup.
  2: { destruct Hup as [Hc2 Hb2]. eapply (wp_hang _ _ _ False); [done|].
    eapply (stop_wp _ _ l0 rs); [done| | |by auto].
    - rewrite Hc2, Hh1. done.
    - rewrite Hc2, Hh1. exact (owing_acquire _ _ _ _ _ [] Ho1 Hb2 Hm2). }
  destruct Hup as (q & Hc2 & Hrq & Hb2 & _). rewrite Hh1 in Hrq.
  assert (Ho2 : owing l0 (held_virtio l (set_vq (Some q) h1) ++ rs) (with_ranges h1 rs ans) s2).
  { pose proof (owing_acquire _ _ _ _ _ _ Ho1 Hb2 Hm2) as Ho2. unfold held_virtio, queue_res.
    cbn [vq set_vq]. by rewrite (vq_res_ready _ _ Hrq), <- app_assoc. }
  pose proof Hrq as (_ & Hown & _ & _ & _ & He & _).
  clear Ho1 Hb2 Hm2. wp_step. apply read_tag_wp; [by rewrite Hc2; cbn; rewrite Hh1|].
  intros tag s3 Ht Hc3 Hr3.
  pose (h3 := set_mount_tag tag (set_vq (Some q) h1)).
  assert (Hh3 : hnd (core s3) = h3) by (rewrite Hc3, Hc2; cbn; by rewrite Hh1).
  assert (Ho3 : owing l0 (held_virtio l h3 ++ rs) (with_ranges h1 rs ans) s3).
  { apply (owing_acquire _ _ _ _ s3 [] Ho2 (balanced_reads _ _ [] Hr3)).
    eapply extends_impl; [|exact Hr3]. by intros []. }
  clear Ho2 Hr3. wp_step. eapply (wp_hang _ _ _ False); [done|].
  eapply (wp_tame neutral), InstallInterrupt_wp; [apply neutral_install|by rewrite Hh3| |].
  - intros irq l4 s4 Hc4 _ _ Hb4 Hm4 _. cbn [negb]. eapply (wp_hang _ _ _ False); [done|].
    assert (Hh4 : hnd (core s4) = set_irq irq false h3) by (rewrite Hc4; cbn; by rewrite Hh3).
    eapply (stop_wp _ _ l0 rs); [done| | |by auto].
    + rewrite Hh4. by intros ? [= <-].
    + rewrite Hh4. exact (owing_acquire _ _ _ _ _ [] Ho3 Hb4 Hm4).
  - intros irq ok d s4 Hc4 _ _ _ Hb4 Hm4 _. cbn [negb]. eapply (wp_hang _ _ _ False); [done|].
    assert (Hh4 : hnd (core s4) = set_irq irq true h3) by (rewrite Hc4; cbn; by rewrite Hh3).
    apply (alloc_up_wp l0 rs ans s4 q); rewrite ?Hh4; try done.
    exact (owing_acquire _ _ _ _ _ _ Ho3 Hb4 Hm4).
Qed.
End up.

Section start.
Context {E : Type} `{EnvI : !Env E DevView} `{FuelI : !Fuel}.
Implicit Types s : Sys E Core.

Lemma owing_refl s : owing (sys_log s) [] (ledger (sys_log s)) s.
Proof. split; [apply balanced_refl|done]. Qed.

(** Opening a library or an interface. *)
Lemma open_lib_wp c mk l0 xs ans s (Q : Z -> Sys E Core -> Prop) :
  (forall r, acquired (c, r) = if r =? 0 then None else Some (mk r)) ->
  (forall r, released (c, r) = None) -> neutral c = true -> owing l0 xs ans s ->
  (forall p s', core s' = core s -> owing l0 (nz mk p ++ xs) ans s' -> Q p s') ->
  wp False (ext c) Q s.
Proof.
  intros Ha Hr Hm Ho HQ. apply wp_ext. intros e p _. apply HQ; [done|].
  eapply owing_acquire; [exact Ho| |cbn; by apply extends_cons, extends_refl].
  cbn [sys_log]. exists [(c, p)]. split; [done|]. cbn [omap list_omap]. rewrite Ha, Hr. unfold nz.
  by case_cmp.
Qed.

Lemma bring_up_wp handler msg s :
  msg <> 0 -> hnd (core s) = handler_init ->
  wp tag_hangs (bring_up handler msg) (fun r s' => startupMsg r.2 = msg /\
    up_post r.2 (sys_log s) (ledger (sys_log s)) r.1 s') s.
Proof.
  intros Hmsg Hh. unfold bring_up. pose proof (owing_refl s) as Ho.
  assert (Hstop : forall lab reason l s', startupMsg l = msg -> lab <> cleanup_irq ->
    core s' = core s ->
    owing (sys_log s) (held l (hnd (core s')) lab ++ []) (ledger (sys_log s)) s' ->
    wp tag_hangs (lab' ← decline_to lab l reason; mret (lab', l)) (fun r s' => startupMsg r.2 = msg /\
      up_post r.2 (sys_log s) (ledger (sys_log s)) r.1 s') s').
  { intros lab reason l s' Hl Hlab Hc Ho'. wp_step. eapply (wp_hang _ _ _ False); [done|].
    eapply (stop_wp l ltac:(by rewrite Hl) lab reason _ [] (ledger (sys_log s)));
      [done| |rewrite Hc, Hh in *; exact Ho'|].
    - rewrite Hc, Hh. done.
    - intros r s2 Hup. by apply wp_ret. }
  wp_step. eapply (wp_hang _ _ _ False); [done|]. eapply (open_lib_wp _ RLib); [done..|exact Ho|].
  intros fbx s1 Hc1 Ho1. wp_if.
  { apply Hstop; [done..|]. cbn [held]. subst. exact Ho1. }
  wp_step. eapply (wp_hang _ _ _ False); [done|]. eapply (open_lib_wp _ RIface); [done..|exact Ho1|].
  intros ifbx s2 Hc2 Ho2. wp_if.
  { apply Hstop; [done..|congruence|]. cbn [held]. unfold held_fbx. cbn. by rewrite <- app_assoc. }
  wp_step. eapply (wp_hang _ _ _ False); [done|]. eapply (open_lib_wp _ RLib); [done..|exact Ho2|].
  intros exp s3 Hc3 Ho3. wp_if.
  { apply Hstop; [done..|congruence|]. cbn [held]. unfold held_fbx. cbn. subst.
    by rewrite <- app_assoc. }
  wp_step. eapply (wp_hang _ _ _ False); [done|]. eapply (open_lib_wp _ RIface); [done..|exact Ho3|].
  intros ipci s4 Hc4 Ho4. assert (Hc : core s4 = core s) by congruence. wp_if.
  { apply Hstop; [done..|]. cbn [held]. unfold held_expansion, held_fbx. cbn. subst.
    by rewrite <- !app_assoc. }
  wp_step. eapply wp_mono.
  - apply (open_device_wp (mkLocals msg fbx ifbx exp ipci) Hmsg handler (sys_log s)
      (ledger (sys_log s)) s4 ltac:(by rewrite Hc)).
    unfold held_expansion, held_fbx. cbn. rewrite app_nil_r in Ho4. exact Ho4.
  - intros r s5 Hup. by apply wp_ret.
Qed.
End start.

(** ** The claims *)

(** C28: in every environment, for a message that is there, [V9P_DeclineMount]
    ends, changes nothing of the handler and holds nothing afterwards.  It
    answers the message exactly once, through FileSysBox where it is available
    and otherwise by hand with the result of the packet set to DOSTRUE before.
    Only after the answer, and whenever the packet names a device node, the node
    is removed from the list of DOS: exactly one call with NBM_REMDOSENTRY, for
    the node that the packet names, unless dos.library or its interface cannot be
    opened ([node_removal] gives every call that is made then). *)
Theorem V9P_DeclineMount_correct {E : Type} `{EnvI : !Env E DevView} (ifbx msg : Z)
    (reason : String.string) (s : Sys E Core) (Hmsg : msg <> 0) :
  exists s', V9P_DeclineMount ifbx msg reason s = Done (tt, s') /\ core s' = core s /\
    balanced (sys_log s) (sys_log s') [] [] /\
    exists before c r after pkt dn,
      sys_log s' = after ++ (c, r) :: before ++ sys_log s /\
      c = (if ifbx =? 0 then ReplyMsg msg else FbxReturnMountMsg msg DOSTRUE 0) /\
      answers before = [] /\ removals before = [] /\
      (MsgPacket msg, pkt) ∈ before /\
      (ifbx = 0 -> pkt <> 0 -> SetPacketRes pkt DOSTRUE 0 ∈ calls before) /\
      node_of pkt before dn /\ node_removal dn after.
Proof.
  assert (Hw : wp False (V9P_DeclineMount ifbx msg reason) (fun _ s' =>
    core s' = core s /\ declined ifbx msg (sys_log s) (sys_log s')) s).
  { by apply DeclineMount_wp. }
  destruct (wp_total _ _ _ Hw) as ([] & s' & Hrun & Hc & [Hb Ht]). by exists s'.
Qed.

(** C27: the clean-up code, in every environment and from each of its labels:
    it ends, and releases exactly what is held at the label, once: the mappings
    and buffers, the interrupt server, the queue, the PCI ranges and the device,
    the interfaces and the libraries.  It answers no message, and its last call
    gives up the interface of exec.library.  From the labels at or before the
    interrupt no server stays installed. *)
Theorem goto_cleanup_releases {E : Type} `{EnvI : !Env E DevView} (lab : label) (l : Locals)
    (s : Sys E Core) (Hq : vq_good (hnd (core s))) :
  exists s', goto_cleanup lab l s = Done (tt, s') /\
    balanced (sys_log s) (sys_log s') (held l (hnd (core s)) lab) [] /\
    answers (sys_log s') = answers (sys_log s) /\
    (exists r, head (sys_log s') = Some (ExecRelease, r)) /\
    (lab = cleanup_bufs \/ lab = cleanup_irq -> irq_installed (hnd (core s')) = false).
Proof.
  assert (Hw : wp False (goto_cleanup lab l) (fun _ s' =>
    cleaned (held l (hnd (core s)) lab) s s' /\
    (lab = cleanup_bufs \/ lab = cleanup_irq -> irq_installed (hnd (core s')) = false)) s).
  { destruct lab; [eapply wp_mono; [by apply at_bufs_wp|]; naive_solver
                  |eapply wp_mono; [by apply at_irq_wp|]; naive_solver|..];
      (eapply wp_mono; [by apply goto_wp|]; intros [] s' Hcl; split; [done|by intros [|]]). }
  destruct (wp_total _ _ _ Hw) as ([] & s' & Hrun & [B M _ L] & Hi).
  exists s'. split_and!; try done. by apply mute_answers.
Qed.

(** C6: start-up in every environment.  It never faults, and it ends unless the
    configuration generation of a modern device never settles.  The resource
    ranges it obtained are those of BAR0 and BAR4, which the handler keeps, and
    the ranges [rs] of the detection.  When it stops at a label, the startup
    message has been answered exactly once, and the clean-up from that label then
    releases everything but [rs] and, if one of the message buffers could not be
    allocated, the others; this provided the vring does not lie at address 0.
    When it goes through, the message is still to be answered, exactly the
    resources that the clean-up releases and [rs] are held, and the handler is
    ready for the handshake: an empty queue in the byte order of the mode, the
    interrupt server installed, three mapped and cleared buffers with the
    addresses that exec gave for them, a mount tag that is not empty. *)
Theorem bring_up_correct {E : Type} `{EnvI : !Env E DevView} `{FuelI : !Fuel} (handler msg : Z)
    (s : Sys E Core) (Hmsg : msg <> 0) (Hinit : hnd (core s) = handler_init) :
  wp (exists s0 : Sys E Core, V9P_ReadMountTag s0 = Hang) (bring_up handler msg)
    (fun '(lab, l) s1 => startupMsg l = msg /\
       exists rs,
       ranges (sys_log s1) = rs ++ nz RRange (bar4 (hnd (core s1))) ++
         nz RRange (bar0 (hnd (core s1))) ++ ranges (sys_log s) /\
       match lab with
       | None =>
           balanced (sys_log s) (sys_log s1) [] (held l (hnd (core s1)) cleanup_bufs ++ rs) /\
           answers (sys_log s1) = answers (sys_log s) /\ ready (sys_log s1) (core s1)
       | Some lab =>
           answers (sys_log s1) = msg :: answers (sys_log s) /\
           ((forall q, vq (hnd (core s1)) = Some q -> desc_ptr q <> 0) ->
            exists s2, goto_cleanup lab l s1 = Done (tt, s2) /\
              answers (sys_log s2) = msg :: answers (sys_log s) /\
              balanced (sys_log s) (sys_log s2) []
                (rs ++ match lab with cleanup_irq => mem_res (hnd (core s1)) | _ => [] end))
       end) s.
Proof.
  eapply wp_mono; [by apply bring_up_wp|]. intros [lab l] s1 [Hl Hup]. cbn [fst snd] in Hl, Hup.
  split; [done|]. destruct Hup as (Hq & rs & Hup). exists rs.
  destruct lab as [lab|].
  2: { destruct Hup as [[Hb Ha] Hr]. by injection Ha as Ha1 Ha2. }
  destruct Hup as [Hb Ha]. rewrite Hl in Ha. injection Ha as Ha Hr.
  split; [done|]. split; [done|]. intros Hd.
  assert (Hg : vq_good (hnd (core s1))).
  { intros q Hvq. destruct (Hq q Hvq) as [? He]. split; [done|]. intros _. by apply Hd. }
  destruct (wp_total _ _ _ (goto_wp lab l s1 Hg)) as ([] & s2 & Hrun & [B M _ _]).
  exists s2. split; [done|]. split; [by apply mute_answers in M as [-> _]|].
  eapply balanced_trans; [exact Hb|]. exact (balanced_frames _ _ _ [] _ B).
Qed.

(** ** Concrete runs *)

#[local] Existing Instance script_env.

Definition boot_core : Core := mkCore handler_init [] [] [] [] [] [] 0.

(** The packet 5 has the device node 3 (BCPL); it is removed by hand. *)
Lemma V9P_DeclineMount_correct_witness :
  7 <> 0 /\ exists s', V9P_DeclineMount 0 7 String.EmptyString
    (mkSys (E := list Z) [5; 3; 0; 0; 40; 41; 1] [] boot_core) = Done (tt, s') /\
    balanced [] (sys_log s') [] [] /\ answers (sys_log s') = [7] /\ removals (sys_log s') = [12].
Proof.
  assert (Hm : 7 <> 0) by lia. split; [exact Hm|].
  destruct (V9P_DeclineMount_correct 0 7 String.EmptyString
    (mkSys (E := list Z) [5; 3; 0; 0; 40; 41; 1] [] boot_core) Hm) as (s' & Hrun & _ & Hb & _).
  exists s'. split; [exact Hrun|]. split; [exact Hb|].
  vm_compute in Hrun. injection Hrun as <-. split; reflexivity.
Defined.

(** A queue with four blocks and a mapping, but no device. *)
Lemma goto_cleanup_releases_witness :
  exists s', goto_cleanup cleanup_virtio (mkLocals 7 11 12 13 14)
    (mkSys (E := list Z) [] [] (on_hnd (set_vq (Some owned_vq)) boot_core)) = Done (tt, s') /\
    balanced [] (sys_log s') (held (mkLocals 7 11 12 13 14) (set_vq (Some owned_vq) handler_init)
      cleanup_virtio) [].
Proof.
  destruct (goto_cleanup_releases cleanup_virtio (mkLocals 7 11 12 13 14)
    (mkSys (E := list Z) [] [] (on_hnd (set_vq (Some owned_vq)) boot_core))) as (s' & Hrun & Hb & _).
  { intros q [= <-]. split; [|done]. repeat constructor; discriminate. }
  exists s'. split; [exact Hrun|exact Hb].
Defined.

(** The libraries and interfaces are there, but no device is found: nothing is
    left. *)
Lemma bring_up_correct_witness :
  7 <> 0 /\ hnd boot_core = handler_init /\
  exists l s1 s2, bring_up (FuelI := 1%nat) 0x100 7 (mkSys (E := list Z) [11; 12; 13; 14] [] boot_core)
      = Done ((Some cleanup_pci, l), s1) /\
    goto_cleanup cleanup_pci l s1 = Done (tt, s2) /\ answers (sys_log s2) = [7] /\
    balanced [] (sys_log s2) [] [].
Proof.
  assert (Hm : 7 <> 0) by lia. split; [exact Hm|]. split; [reflexivity|].
  pose proof (bring_up_correct (FuelI := 1%nat) 0x100 7
    (mkSys (E := list Z) [11; 12; 13; 14] [] boot_core) Hm eq_refl) as Hw.
  unfold wp in Hw. destruct (bring_up _ _ _) as [[[lab l] s1]| |] eqn:Hrun;
    vm_compute in Hrun; [|discriminate..].
  injection Hrun as <- <- <-. destruct Hw as (_ & rs & Hrs & _ & Hc).
  destruct Hc as (s2 & Hgo & Ha & Hb); [by intros q [=]|].
  change (@nil res = rs ++ []) in Hrs. rewrite app_nil_r in Hrs. subst rs.
  eexists _, _, s2. split; [reflexivity|]. split; [exact Hgo|]. split; [exact Ha|exact Hb].
Defined.
