(* ===== verification/MainSafe.v ===== *)
(** * MainSafe: the whole program leaves nothing dangling

    [_start] with the real transport, in every environment.  The node of the
    interrupt server lies in the handler structure on the stack of the process:
    it must be off the chain when FileSysBox is told to clean up, since the
    process may be killed then, and when the program returns.  The operations of
    all other components are tame (Tame.v); here the code of main.c is followed
    around them. *)

From S2P Require Import Prelude Platform CString Marshal FidPool VirtQueue Handler P9Client VirtioInit Transact Fuse FusePath Pci Irq Main Tame MainCorrect.

(** ** Never again on the chain

    The interrupt chain as the trace shows it: the servers that were added and
    not removed. *)

Definition int_of (r : res) : option Z := match r with RInt irq => Some irq | _ => None end.
Definition ints (rs : list res) : list Z := omap int_of rs.

(** From the trace [l0] to [l]: the vectors with the server, before and after. *)
Definition chained (l0 l : list (ExtCall * Z)) (before after : list Z) : Prop :=
  exists new, l = new ++ l0 /\
    ints (omap acquired new) ++ before ≡ₚ ints (omap released new) ++ after.

Lemma chained_refl l xs : chained l l xs xs.
Proof. by exists []. Qed.

Lemma chained_trans l0 l1 l2 xs ys zs :
  chained l0 l1 xs ys -> chained l1 l2 ys zs -> chained l0 l2 xs zs.
Proof.
  intros (n1 & -> & H1) (n2 & -> & H2). exists (n2 ++ n1). split; [by rewrite app_assoc|].
  unfold ints in *. rewrite !omap_app, <- !app_assoc, H1.
  rewrite Permutation_app_swap_app, H2, Permutation_app_swap_app. done.
Qed.

(** Calls without effect on the chain. *)
Definition off_chain (c : ExtCall) : bool :=
  match c with AddIntServer _ | RemIntServer _ => false | _ => true end.

Lemma chained_off l0 l xs : extends off_chain l0 l -> chained l0 l xs xs.
Proof.
  intros (new & -> & Hn). exists new. split; [done|].
  assert (Hf : ints (omap acquired new) = [] /\ ints (omap released new) = []).
  { induction Hn as [|[c r] new Hc _ [IH1 IH2]]; [done|]. unfold ints in *. cbn [omap list_omap].
    split.
    - destruct c; cbn in Hc |- *; try done; destruct (r =? 0); done.
    - destruct c; cbn in Hc |- *; done. }
  destruct Hf as [-> ->]. done.
Qed.

Lemma chained_balanced l0 l xs ys : balanced l0 l xs ys -> chained l0 l (ints xs) (ints ys).
Proof.
  intros (new & -> & Hp). exists new. split; [done|]. unfold ints. by rewrite <- !omap_app, Hp.
Qed.

(** Calls without effect on the chain, and not the end of the file system. *)
Definition no_end (c : ExtCall) : bool := match c with FbxCleanupFS _ => false | _ => true end.
Definition calm (c : ExtCall) : bool := off_chain c && no_end c.

Lemma plain_calm c : plain c = true -> calm c = true.
Proof. by destruct c. Qed.

(** The trace since [l0] and the handler agree on the chain, and FileSysBox was
    told to clean up only while no server was on the chain. *)
Record sane (l0 : list (ExtCall * Z)) {E} (s : Sys E Core) : Prop := {
  sn_chain : chained l0 (sys_log s) [] (ints (int_res (hnd (core s))));
  sn_fbx l1 fs r l2 : sys_log s = l1 ++ (FbxCleanupFS fs, r) :: l2 ++ l0 ->
    chained l0 (l2 ++ l0) [] [] }.

(** The end of the file system lies further back. *)
Lemma no_end_old new old l1 fs r l2 :
  Forall (fun x : ExtCall * Z => no_end x.1 = true) new ->
  new ++ old = l1 ++ (FbxCleanupFS fs, r) :: l2 ->
  exists l1', old = l1' ++ (FbxCleanupFS fs, r) :: l2.
Proof.
  intros Hn [(k & -> & Hk)|(k & -> & ->)]%app_eq_inv; [|by exists k].
  destruct k as [|x k]; [by exists []|]. injection Hk as <- _.
  apply Forall_app in Hn as [_ Hn]. by apply list.Forall_cons in Hn as [? _].
Qed.

Section sane.
Context {E : Type} `{EnvI : !Env E DevView} (l0 : list (ExtCall * Z)).
Implicit Types s : Sys E Core.

(** The part about the end survives every other call. *)
Lemma fbx_extend l l' :
  extends no_end l l' ->
  (forall l1 fs r l2, l = l1 ++ (FbxCleanupFS fs, r) :: l2 ++ l0 -> chained l0 (l2 ++ l0) [] []) ->
  forall l1 fs r l2, l' = l1 ++ (FbxCleanupFS fs, r) :: l2 ++ l0 -> chained l0 (l2 ++ l0) [] [].
Proof.
  intros (new & -> & Hn) F l1 fs r l2 Hl. destruct (no_end_old _ _ _ _ _ _ Hn Hl) as [l1' Hl'].
  by eapply F.
Qed.

Lemma sane_calm s s' :
  sane l0 s -> extends calm (sys_log s) (sys_log s') ->
  irq_part (hnd (core s')) = irq_part (hnd (core s)) -> sane l0 s'.
Proof.
  intros [C F] He [= Hn Hi]. split.
  - unfold int_res. rewrite Hn, Hi. eapply chained_trans; [exact C|]. apply chained_off.
    eapply extends_impl; [|exact He]. unfold calm. intros c. by intros []%andb_true_iff.
  - eapply fbx_extend; [|exact F]. eapply extends_impl; [|exact He].
    unfold calm. intros c. by intros []%andb_true_iff.
Qed.

Lemma sane_tame {A} (m : M (Sys E Core) A) s a s' :
  tame calm irq_part m -> m s = Done (a, s') -> sane l0 s -> sane l0 s'.
Proof. intros Hm [He Hp]%Hm Hs. by eapply sane_calm. Qed.

Lemma sane_plain {A} (m : M (Sys E Core) A) s a s' :
  tame plain irq_part m -> m s = Done (a, s') -> sane l0 s -> sane l0 s'.
Proof. intros Hm. apply sane_tame. eapply tame_weaken; [exact plain_calm|exact Hm]. Qed.

(** FileSysBox cleans up. *)
Lemma sane_end s s' fs r :
  irq_installed (hnd (core s)) = false -> sane l0 s ->
  core s' = core s -> sys_log s' = (FbxCleanupFS fs, r) :: sys_log s -> sane l0 s'.
Proof.
  intros Hi [C F] Hc Hl. unfold int_res in C. rewrite Hi in C. split.
  - rewrite Hc, Hl. unfold int_res. rewrite Hi. eapply chained_trans; [exact C|].
    by apply chained_off, extends_cons, extends_refl.
  - intros l1 fs' r' l2 Hl2. rewrite Hl in Hl2. destruct l1 as [|x l1].
    + injection Hl2 as _ _ Hl2. by rewrite <- Hl2.
    + injection Hl2 as _ Hl2. by eapply F.
Qed.

Lemma quiesce_calm : tame (E := E) calm irq_part quiesce.
Proof. unfold quiesce. tame. Qed.

Lemma RemoveInterrupt_sane s s' :
  V9P_RemoveInterrupt s = Done (tt, s') -> sane l0 s ->
  sane l0 s' /\ irq_installed (hnd (core s')) = false.
Proof.
  intros Hrun [C F].
  assert (Hw : wp False V9P_RemoveInterrupt (fun _ s' => irq_installed (hnd (core s')) = false /\
    balanced (sys_log s) (sys_log s') (int_res (hnd (core s))) []) s).
  { apply RemoveInterrupt_wp. intros s1 Hc Hb _. by rewrite Hc. }
  apply (wp_done _ _ _ _ _ _ Hrun) in Hw as [Hi Hb]. split; [|done]. split.
  - unfold int_res. rewrite Hi. eapply chained_trans; [exact C|]. apply (chained_balanced _ _ _ _ Hb).
  - eapply fbx_extend; [|exact F].
    assert (Ht : tame (E := E) no_end (fun _ => tt) V9P_RemoveInterrupt).
    { unfold V9P_RemoveInterrupt, quiesce. tame; by apply tame_write. }
    by apply Ht in Hrun as [? _].
Qed.

Lemma InstallInterrupt_sane handler s ok s' :
  V9P_InstallInterrupt handler s = Done (ok, s') -> irq_installed (hnd (core s)) = false ->
  sane l0 s -> sane l0 s' /\ irq_installed (hnd (core s')) = ok.
Proof.
  intros Hrun Hi [C F].
  assert (Hp : pciDevice (hnd (core s)) <> 0).
  { intros Hz. revert Hrun. unfold V9P_InstallInterrupt, mbind, M_bind, read, gets. by rewrite Hz. }
  assert (Ht : tame (E := E) no_end (fun _ => tt) (V9P_InstallInterrupt handler)).
  { unfold V9P_InstallInterrupt. tame; by apply tame_write. }
  unfold int_res in C. rewrite Hi in C.
  assert (Hw : wp False (V9P_InstallInterrupt handler) (fun ok s' =>
    irq_installed (hnd (core s')) = ok /\
    chained l0 (sys_log s') [] (ints (int_res (hnd (core s'))))) s).
  { apply InstallInterrupt_wp; [done| |].
    - intros irq l s1 Hc _ _ Hb. rewrite Hc. cbn. split; [done|]. unfold int_res. cbn. rewrite Hi.
      eapply chained_trans; [exact C|]. apply (chained_balanced _ _ _ _ Hb).
    - intros irq a d s1 Hc _ _ _ Hb. rewrite Hc. split; [done|].
      eapply chained_trans; [exact C|]. apply (chained_balanced _ _ _ _ Hb). }
  pose proof (wp_done _ _ _ _ _ _ Hrun Hw) as [Hi' C']. split; [|done]. split; [done|].
  eapply fbx_extend; [|exact F]. by apply Ht in Hrun as [? _].
Qed.

(** ** Start-up and clean-up keep the chain in order *)

Context `{FuelI : !Fuel}.

Definition fresh s : Prop := sane l0 s /\ irq_installed (hnd (core s)) = false.

(** Code that ends in a sane state when no server is installed, and with one
    installed only with a result in [R]. *)
Definition starts {A} (R : A -> Prop) (m : M (Sys E Core) A) : Prop :=
  forall s a s', fresh s -> m s = Done (a, s') ->
    sane l0 s' /\ (irq_installed (hnd (core s')) = true -> R a).

Lemma starts_tame {A} R (m : M (Sys E Core) A) : tame calm irq_part m -> starts R m.
Proof.
  intros Hm s a s' [Hs Hi] Hrun. split; [by eapply sane_tame|].
  apply Hm in Hrun as [_ [= _ ->]]. by rewrite Hi.
Qed.

Lemma starts_bind {A B} R (m : M (Sys E Core) A) (f : A -> M (Sys E Core) B) :
  tame calm irq_part m -> (forall a, starts R (f a)) -> starts R (m ≫= f).
Proof.
  intros Hm Hf s b s' [Hs Hi] (a & s1 & H1 & H2)%bind_inv. eapply Hf; [|exact H2].
  split; [by eapply sane_tame|]. apply Hm in H1 as [_ [= _ ->]]. done.
Qed.

Lemma calm_decline ifbx msg reason : tame (E := E) calm irq_part (V9P_DeclineMount ifbx msg reason).
Proof. unfold V9P_DeclineMount, reply_mount, remove_node. tame. Qed.
#[local] Hint Resolve calm_decline : tame.

Lemma calm_decline_to lab l reason : tame (E := E) calm irq_part (decline_to lab l reason).
Proof. unfold decline_to. tame. Qed.
#[local] Hint Resolve calm_decline_to : tame.

Lemma calm_alloc_bufs l : tame (E := E) calm irq_part (alloc_bufs l).
Proof. unfold alloc_bufs, map_buf. tame. Qed.

Lemma calm_cap_loop n cap : tame (E := E) calm irq_part (cap_loop n cap).
Proof. revert cap. induction n; intros; cbn [cap_loop]; unfold vendor_cap, on_cfg; tame. Qed.
#[local] Hint Resolve calm_cap_loop : tame.

Lemma calm_discover ipci : tame (E := E) calm irq_part (V9P_DiscoverDevice ipci).
Proof.
  unfold V9P_DiscoverDevice, find_device, fix_bar5, cache_bars, V9P_DetectModern, mmio_probe, on_cfg.
  tame.
Qed.

Lemma calm_init : tame (E := E) calm irq_part V9P_InitVirtIO.
Proof. eapply tame_weaken; [exact plain_calm|eapply tame_init; apply _]. Qed.

Lemma calm_read_tag : tame (E := E) calm irq_part read_tag.
Proof.
  eapply tame_weaken; [exact plain_calm|]. unfold read_tag. tame. eapply tame_mount_tag; apply _.
Qed.

(** The labels at which the server is taken off the chain. *)
Definition past_irq (r : option label) : Prop :=
  r = None \/ r = Some cleanup_irq \/ r = Some cleanup_bufs.

Lemma alloc_bufs_label l s r s' : alloc_bufs l s = Done (r, s') -> past_irq r.
Proof.
  unfold alloc_bufs, decline_to, past_irq. intros H.
  repeat (lazymatch type of H with
          | (_ ≫= _) _ = _ => apply bind_inv in H as (? & ? & _ & H)
          | (if ?b then _ else _) _ = _ => destruct b
          | (match ?o with _ => _ end) _ = _ => destruct o
          end; cbv beta in H);
  apply ret_inv in H as [-> _]; auto.
Qed.

Lemma open_device_starts handler l : starts past_irq (open_device handler l).
Proof.
  unfold open_device. apply starts_bind; [apply calm_discover|]. intros [].
  2: { apply starts_tame. cbn [negb]. tame. }
  cbn [negb]. apply starts_bind; [apply calm_init|]. intros [].
  2: { apply starts_tame. cbn [negb]. tame. }
  cbn [negb]. apply starts_bind; [apply calm_read_tag|]. intros [] s a s' [Hs Hi] Hrun.
  apply bind_inv in Hrun as (ok & s1 & H1 & H2).
  apply InstallInterrupt_sane in H1 as [Hs1 Hi1]; [|done..].
  destruct ok; cbn [negb] in H2.
  - split; [|intros _; by eapply alloc_bufs_label].
    eapply sane_tame; [apply calm_alloc_bufs|exact H2|exact Hs1].
  - assert (Hf : fresh s1) by by split. revert H2. apply starts_tame; [tame|exact Hf].
Qed.

Lemma bring_up_starts handler msg : starts (fun r => past_irq r.1) (bring_up handler msg).
Proof.
  unfold bring_up.
  repeat (apply starts_bind; [by apply tame_ext|]; intros ?; case_cmp; [apply starts_tame; tame|]).
  intros s [r l] s' Hf (lab & s1 & H1 & [[= -> ->] ->]%ret_inv)%bind_inv.
  by apply open_device_starts in H1.
Qed.

(** The clean-up code up to its end takes the server off the chain. *)
Lemma calm_at_virtio l : tame (E := E) calm irq_part (at_virtio l).
Proof.
  assert (Hc : tame (E := E) calm irq_part V9P_CleanupVirtIO).
  { eapply tame_weaken; [exact plain_calm|eapply tame_cleanup; apply _]. }
  unfold at_virtio, at_pci, at_expansion, at_fbx, at_exec, drop_if. tame.
Qed.

Lemma calm_kept {A} (m : M (Sys E Core) A) s a s' :
  tame calm irq_part m -> m s = Done (a, s') -> fresh s -> fresh s'.
Proof.
  intros Hm Hrun [Hs Hi]. split; [by eapply sane_tame|]. apply Hm in Hrun as [_ [= _ ->]]. done.
Qed.

Lemma at_irq_sane l s s' : at_irq l s = Done (tt, s') -> sane l0 s -> fresh s'.
Proof.
  intros ([] & s1 & H1 & H2)%bind_inv Hs. eapply calm_kept; [apply calm_at_virtio|exact H2|].
  by eapply RemoveInterrupt_sane.
Qed.

Lemma at_bufs_sane l s s' : at_bufs l s = Done (tt, s') -> sane l0 s -> fresh s'.
Proof.
  unfold at_bufs, drop_if. intros Hrun Hs.
  repeat lazymatch type of Hrun with
  | (_ ≫= _) _ = _ => let H := fresh in apply bind_inv in Hrun as (? & ? & H & Hrun);
      eapply (fun Ht => sane_tame _ _ _ _ Ht H) in Hs; [|tame]; clear H
  end.
  by eapply at_irq_sane.
Qed.

(** From the label that start-up jumps to. *)
Lemma goto_sane lab l s s' :
  goto_cleanup lab l s = Done (tt, s') -> sane l0 s ->
  (irq_installed (hnd (core s)) = true -> past_irq (Some lab)) -> fresh s'.
Proof.
  intros Hrun Hs Hp. destruct (irq_installed (hnd (core s))) eqn:Hi.
  - destruct (Hp eq_refl) as [|[[= ->]|[= ->]]]; [done|by eapply at_irq_sane|by eapply at_bufs_sane].
  - destruct lab; cbn [goto_cleanup] in Hrun; [by eapply at_bufs_sane|by eapply at_irq_sane| ..];
      (eapply calm_kept; [|exact Hrun|by split]); [apply calm_at_virtio|..];
      unfold at_pci, at_expansion, at_fbx, at_exec, drop_if; tame.
Qed.
End sane.

(** ** The whole program *)

Section whole.
Context {E : Type} `{EnvI : !Env E DevView} `{FuelI : !Fuel} `{SdkI : !SdkTypes}.
Context (debug : bool) (transact : Z -> M (Sys E Core) Z) (V9P_Reset : M (Sys E Core) bool).
Context (fbx_setup fbx_loop fbx_cleanup : fuse_operations (E := E) -> M (Sys E Core) unit).
Implicit Types s : Sys E Core.

(** FileSysBox reaches the handler through the callbacks only. *)
Definition through_callbacks (f : fuse_operations (E := E) -> M (Sys E Core) unit) : Prop :=
  forall ops, tame_ops plain irq_part ops -> tame plain irq_part (f ops).

Context (Ht : forall n, tame plain irq_part (transact n)) (Hr : tame plain irq_part V9P_Reset).
Context (Hsetup : through_callbacks fbx_setup) (Hloop : through_callbacks fbx_loop)
  (Hcleanup : through_callbacks fbx_cleanup).
Context (l0 : list (ExtCall * Z)).

(** Nothing answered, the chain in order. *)
Definition still (ans : list Z) s : Prop := sane l0 s /\ answers (sys_log s) = ans.

Lemma still_run {A} (m : M (Sys E Core) A) ans s a s' :
  m s = Done (a, s') -> tame plain irq_part m -> still ans s ->
  still ans s' /\ irq_part (hnd (core s')) = irq_part (hnd (core s)).
Proof.
  intros Hrun Hm [Hs <-]. pose proof (Hm _ _ _ Hrun) as [He Hp]. split; [|done].
  split; [by eapply sane_plain|]. by apply mute_answers, plain_mute.
Qed.

Lemma still_decline l reason ans s s' :
  startupMsg l <> 0 -> V9P_DeclineMount (IFileSysBox l) (startupMsg l) reason s = Done (tt, s') ->
  still ans s -> still (startupMsg l :: ans) s'.
Proof.
  intros Hm Hrun [Hs Ha]. split; [eapply sane_tame; [apply calm_decline|exact Hrun|exact Hs]|].
  assert (Hw : wp False (V9P_DeclineMount (IFileSysBox l) (startupMsg l) reason)
    (fun _ s' => answers (sys_log s') = startupMsg l :: ans) s).
  { eapply (decline_wp l Hm reason (sys_log s) []); [split; [apply balanced_refl|done]|].
    intros s1 _ [_ [= -> _]]. by rewrite Ha. }
  exact (wp_done _ _ _ _ _ _ Hrun Hw).
Qed.

(** The end of the session. *)
Lemma session_end ans s ret s' (r : Z) :
  still ans s ->
  (root ← read (fun c => root_fid (hnd c)); _ ← P9_Clunk transact root;
   pool ← read (fun c => fid_pool (hnd c)); _ ← FidPool_Destroy pool; mret r) s = Done (ret, s') ->
  still ans s'.
Proof.
  intros Hs Hrun. refine (proj1 (still_run _ _ _ _ _ Hrun _ Hs)). tame.
  - eapply tame_clunk; [apply _|done].
  - eapply tame_pool_destroy; apply _.
Qed.

(** The event loop and the shutdown of FileSysBox. *)
Lemma serve_still ops fs ans s ret s' :
  tame_ops plain irq_part ops -> still ans s ->
  (if fs =? 0 then mret RETURN_FAIL
   else _ ← fbx_loop ops; _ ← V9P_RemoveInterrupt; _ ← fbx_cleanup ops;
        _ ← ext (FbxCleanupFS fs); mret RETURN_OK) s = Done (ret, s') ->
  still ans s'.
Proof.
  intros Hops Hs Hrun. destruct (fs =? 0); [by apply ret_inv in Hrun as [_ ->]|].
  apply bind_inv in Hrun as ([] & s1 & H1 & Hrun).
  apply still_run with (ans := ans) in H1 as [[Hs1 Ha1] _]; [|by apply Hloop|done].
  apply bind_inv in Hrun as ([] & s2 & H2 & Hrun).
  pose proof (mute_remove _ _ _ H2) as [Hm2 _].
  apply (RemoveInterrupt_sane l0) in H2 as [Hs2 Hi2]; [|done].
  apply bind_inv in Hrun as ([] & s3 & H3 & Hrun).
  apply still_run with (ans := ans) in H3 as [[Hs3 Ha3] [= _ Hi3]]; [|by apply Hcleanup|].
  2: { split; [done|]. rewrite <- Ha1. by apply mute_answers. }
  apply bind_inv in Hrun as (r & s4 & H4 & [_ ->]%ret_inv).
  unfold ext in H4. destruct (env_call _ _) as [e x]. injection H4 as <- <-. split; [|exact Ha3].
  eapply (sane_end l0 s3); [by rewrite Hi3|done|done|reflexivity].
Qed.

Lemma mounted_still l ans s ret s' :
  still ans s ->
  (let ops := V9P_FillOperations debug transact V9P_Reset in
   fs ← ext (FbxSetupFS (startupMsg l) 0x39504650);
   _ ← fbx_setup ops;
   ret ← (if fs =? 0 then mret RETURN_FAIL
          else _ ← fbx_loop ops; _ ← V9P_RemoveInterrupt; _ ← fbx_cleanup ops;
               _ ← ext (FbxCleanupFS fs); mret RETURN_OK);
   root ← read (fun c => root_fid (hnd c));
   _ ← P9_Clunk transact root;
   pool ← read (fun c => fid_pool (hnd c));
   _ ← FidPool_Destroy pool;
   mret ret) s = Done (ret, s') ->
  still (startupMsg l :: ans) s'.
Proof.
  intros Hs Hrun. pose proof (tame_fill plain irq_part debug transact V9P_Reset Ht Hr ltac:(done)) as Hops.
  apply bind_inv in Hrun as (fs & s1 & H1 & Hrun).
  assert (Hs1 : still (startupMsg l :: ans) s1).
  { destruct Hs as [Hs Ha]. split; [eapply sane_tame; [|exact H1|exact Hs]; by apply tame_ext|].
    unfold ext in H1. destruct (env_call _ _) as [e x]. injection H1 as <- <-. cbn. by f_equal. }
  apply bind_inv in Hrun as ([] & s2 & H2 & Hrun).
  apply still_run with (ans := startupMsg l :: ans) in H2 as [Hs2 _]; [|by apply Hsetup|done].
  apply bind_inv in Hrun as (ret' & s3 & H3 & Hrun).
  apply serve_still with (ans := startupMsg l :: ans) in H3; [|done..]. exact (session_end _ _ _ _ _ H3 Hrun).
Qed.

Lemma session_still l ans s ret s' :
  startupMsg l <> 0 -> still ans s ->
  session debug transact V9P_Reset fbx_setup fbx_loop fbx_cleanup l s = Done (ret, s') ->
  still (startupMsg l :: ans) s'.
Proof.
  intros Hm Hs. unfold session. intros (err & s1 & H1 & Hrun)%bind_inv.
  apply still_run with (ans := ans) in H1 as [Hs1 _]; [|eapply tame_version; [apply _|exact Ht]|done].
  destruct (negb (err =? 0)).
  { apply bind_inv in Hrun as ([] & s2 & H2 & [_ ->]%ret_inv). by eapply still_decline. }
  apply bind_inv in Hrun as (root & s1' & [_ ->]%read_inv & Hrun).
  apply bind_inv in Hrun as (err2 & s2 & H2 & Hrun).
  apply still_run with (ans := ans) in H2 as [Hs2 _]; [|eapply tame_attach; [apply _|exact Ht]|done].
  destruct (negb (err2 =? 0)).
  { apply bind_inv in Hrun as ([] & s3 & H3 & [_ ->]%ret_inv). by eapply still_decline. }
  apply bind_inv in Hrun as (pool & s3 & H3 & Hrun).
  apply still_run with (ans := ans) in H3 as [Hs3 _]; [|eapply tame_pool_create; apply _|done].
  apply bind_inv in Hrun as ([] & s4 & H4 & Hrun).
  apply still_run with (ans := ans) in H4 as [Hs4 _]; [|by apply tame_write|done].
  destruct pool as [pool|].
  2: { apply bind_inv in Hrun as (root2 & s4' & [_ ->]%read_inv & Hrun).
    apply bind_inv in Hrun as (e & s5 & H5 & Hrun).
    apply still_run with (ans := ans) in H5 as [Hs5 _]; [|eapply tame_clunk; [apply _|exact Ht]|done].
    apply bind_inv in Hrun as ([] & s6 & H6 & [_ ->]%ret_inv). by eapply still_decline. }
  exact (mounted_still l ans s4 ret s' Hs4 Hrun).
Qed.

Lemma mute_goto lab l : tame (E := E) mute (fun _ => tt) (goto_cleanup lab l).
Proof.
  assert (Hc : tame (E := E) mute (fun _ => tt) V9P_CleanupVirtIO).
  { eapply tame_weaken; [|eapply (tame_cleanup plain); apply _]. by intros []. }
  pose proof (mute_remove (E := E)) as Hrm.
  destruct lab; cbn [goto_cleanup]; unfold at_bufs, at_irq, at_virtio, at_pci, at_expansion, at_fbx,
    at_exec, drop_if; tame.
Qed.

Lemma goto_still lab l ans s s' :
  goto_cleanup lab l s = Done (tt, s') -> still ans s ->
  (irq_installed (hnd (core s)) = true -> past_irq (Some lab)) ->
  fresh l0 s' /\ answers (sys_log s') = ans.
Proof.
  intros Hrun [Hs <-] Hp. split; [by eapply goto_sane|].
  by apply mute_goto in Hrun as [[? _]%mute_answers _].
Qed.

(** After the startup message came. *)
Lemma main_still handler msg ans s ret s' :
  msg <> 0 -> hnd (core s) = handler_init -> still ans s ->
  ('(lab, l) ← bring_up handler msg;
   match lab with
   | Some lab => _ ← goto_cleanup lab l; mret RETURN_OK
   | None => ret ← session debug transact V9P_Reset fbx_setup fbx_loop fbx_cleanup l;
             _ ← at_bufs l; mret ret
   end) s = Done (ret, s') ->
  fresh l0 s' /\ answers (sys_log s') = msg :: ans.
Proof.
  intros Hm Hh [Hs Ha] ([lab l] & s1 & H1 & Hrun)%bind_inv.
  pose proof (wp_done _ _ _ _ _ _ H1 (bring_up_wp handler msg s Hm Hh)) as [Hl Hup].
  cbn [fst snd] in Hl, Hup. destruct Hup as (_ & rs & Hup).
  apply (bring_up_starts l0) in H1 as [Hs1 Hp1]; [|split; [done|by rewrite Hh]].
  cbn [fst] in Hp1. destruct lab as [lab|].
  - apply bind_inv in Hrun as ([] & s2 & H2 & [_ ->]%ret_inv).
    eapply goto_still; [exact H2| |exact Hp1]. split; [done|].
    destruct Hup as [_ [= -> _]]. by rewrite <- Hl, <- Ha.
  - apply bind_inv in Hrun as (r & s2 & H2 & Hrun).
    apply session_still with (ans := ans) in H2; [|congruence|split; [done|]].
    2: { destruct Hup as [[_ [= -> _]] _]. by rewrite <- Ha. }
    apply bind_inv in Hrun as ([] & s3 & H3 & [_ ->]%ret_inv). rewrite Hl in H2.
    eapply (goto_still cleanup_bufs); [exact H3|exact H2|]. unfold past_irq. auto.
Qed.
End whole.

(** Before the message is there. *)
Definition early (c : ExtCall) : bool := calm c && mute c.

Lemma early_sane {E} l0 (s : Sys E Core) :
  extends early l0 (sys_log s) -> int_res (hnd (core s)) = [] ->
  sane l0 s /\ answers (sys_log s) = answers l0.
Proof.
  intros He Hi.
  assert (Hc : extends calm l0 (sys_log s)).
  { eapply extends_impl; [|exact He]. unfold early. by intros c []%andb_true_iff. }
  split.
  - split.
    + rewrite Hi. apply chained_off. eapply extends_impl; [|exact Hc]. unfold calm.
      by intros c []%andb_true_iff.
    + intros l1 fs r l2 Hl. destruct Hc as (new & Hnew & Hn). rewrite Hnew in Hl.
      destruct (no_end_old new l0 l1 fs r (l2 ++ l0)) as [l1' Hl']; [|done|].
      * eapply Forall_impl; [|exact Hn]. unfold calm. by intros x []%andb_true_iff.
      * apply (f_equal length) in Hl'. rewrite length_app in Hl'. cbn in Hl'. rewrite length_app in Hl'. lia.
  - apply mute_answers. eapply extends_impl; [|exact He]. unfold early. by intros c []%andb_true_iff.
Qed.

Lemma early_ext {E} `{EnvI : !Env E DevView} c l0 (s s' : Sys E Core) r :
  early c = true -> ext c s = Done (r, s') -> extends early l0 (sys_log s) ->
  extends early l0 (sys_log s') /\ core s' = core s /\ (c, r) ∈ sys_log s'.
Proof.
  intros Hc Hrun He. unfold ext in Hrun. destruct (env_call _ _). injection Hrun as <- <-.
  cbn. split; [by apply extends_cons|]. split; [done|by left].
Qed.

(** A run that ends before a message came. *)
Lemma early_end {E} (s s' : Sys E Core) :
  extends early (sys_log s) (sys_log s') ->
  chained (sys_log s) (sys_log s') [] [] /\
  (forall l1 fs r l2, sys_log s' = l1 ++ (FbxCleanupFS fs, r) :: l2 ++ sys_log s ->
     chained (sys_log s) (l2 ++ sys_log s) [] []) /\
  answers (sys_log s') = answers (sys_log s).
Proof.
  intros He. pose (s0 := set_core (on_hnd (fun _ => handler_init) (core s')) s').
  destruct (early_sane (sys_log s) s0) as [[C F] A]; [exact He|done|]. split_and!; [exact C|exact F|exact A].
Qed.

(** ** The claim *)


(** ** A concrete run *)

#[local] Existing Instance script_env.

(** A start without filesysbox.library, and a FileSysBox that would look at the
    root directory. *)
Definition look (ops : fuse_operations (E := list Z)) : M (Sys (list Z) Core) unit :=
  _ ← op_getattr ops [47]; mret tt.

Definition sdk_id : SdkTypes := mkSdkTypes id id id id id id id id id id.

Lemma look_callbacks : through_callbacks look.
Proof.
  intros ops Hops. apply tame_bind; [apply Hops|]. intros r. apply tame_ret.
Qed.

#[local] Instance one_fuel : Fuel := 1%nat.

